(** * DevReview: the scoring, decision and verdict pipeline

    A shallow embedding of the analysis core of DevReview: the penalty
    aggregator, the review decision engine, the Review Cost Index, the
    browser-side verdict engine and batch aggregator, and the rule
    detectors they consume.

    Conventions of the embedding.
    - A JavaScript number that holds an integer (scores, penalties, line
      numbers, metrics) is a [Z].  The numbers of the program are doubles:
      their sums, differences and comparisons are exact on the integers
      concerned.  The quotient and the product of [normalizeMetric] are
      rounded as doubles are ([Double]); the other fractional
      intermediate values (averages, weighted values) are exact rationals
      [Q], and [Binary64] replays the rounded steps to check that they
      give the same integers.  [Math_round] rounds to the nearest integer,
      ties towards plus infinity.
    - A JavaScript string is a [string] of 8-bit characters that holds
      the UTF-8 bytes of the text.  [trim] and the class [\s] take the
      white space and the line terminators of the language, the
      non-ASCII ones among them; [length] counts UTF-16 code units;
      [toLowerCase] acts on the ASCII letters.
    - [undefined] and [null] are [None]; an absent object field is [None].
    - A [Set] is a [gset]; an array is a [list]. *)

From Stdlib Require Import ZArith QArith Qround String Ascii List Lia DecimalString SpecFloat.
From stdpp Require Import gmap strings list.

#[local] Set Warnings "-clear-no-such-hyp".

Local Open Scope string_scope.
Local Open Scope list_scope.
Local Open Scope Z_scope.

(** ** JavaScript primitives used by the pipeline *)

Module JS.

(** [String(n)] / template interpolation of an integer-valued number. *)
Definition toString (n : Z) : string := NilZero.string_of_int (Z.to_int n).

(** [s.includes(sub)] *)
Fixpoint includes (s sub : string) : bool :=
  String.prefix sub s ||
  match s with
  | EmptyString => false
  | String _ rest => includes rest sub
  end.

(** [s.startsWith(p)] *)
Definition startsWith (s p : string) : bool := String.prefix p s.

Definition lower_ascii (c : ascii) : ascii :=
  let n := nat_of_ascii c in
  if ((65 <=? n)%nat && (n <=? 90)%nat)%bool then ascii_of_nat (n + 32) else c.

(** [s.toLowerCase()] *)
Fixpoint toLowerCase (s : string) : string :=
  match s with
  | EmptyString => EmptyString
  | String c rest => String (lower_ascii c) (toLowerCase rest)
  end.

(** [arr.join(sep)] *)
Definition join (sep : string) (l : list string) : string := String.concat sep l.

(** A character given by the values of its UTF-8 bytes. *)
Definition bytes (l : list nat) : string :=
  foldr (fun n s => String (ascii_of_nat n) s) EmptyString l.

(** The white space and the line terminators of the language, which
    [trim] removes and [\s] matches: TAB, LF, VT, FF, CR, SP, U+00A0,
    U+1680, U+2000 to U+200A, U+2028, U+2029, U+202F, U+205F, U+3000 and
    U+FEFF, each as its UTF-8 bytes. *)
Definition white_space : list string :=
  map bytes
    [ [9]; [10]; [11]; [12]; [13]; [32];
      [194; 160];
      [225; 154; 128];
      [226; 128; 128]; [226; 128; 129]; [226; 128; 130]; [226; 128; 131];
      [226; 128; 132]; [226; 128; 133]; [226; 128; 134]; [226; 128; 135];
      [226; 128; 136]; [226; 128; 137]; [226; 128; 138];
      [226; 128; 168]; [226; 128; 169];
      [226; 128; 175];
      [226; 129; 159];
      [227; 128; 128];
      [239; 187; 191] ]%nat.

(** The number of bytes of the white space character [s] starts with, 0
    when it starts with none. *)
Definition space_width (s : string) : nat :=
  match List.find (fun w => String.prefix w s) white_space with
  | Some w => String.length w
  | None => O
  end.

(** [trimStart] with [skip] bytes of a white space character still to be
    passed over. *)
Fixpoint trimStart_from (skip : nat) (s : string) : string :=
  match s with
  | EmptyString => EmptyString
  | String _ rest =>
      match skip with
      | S k => trimStart_from k rest
      | O =>
          match space_width s with
          | S k => trimStart_from k rest
          | O => s
          end
      end
  end.

(** [s.trimStart()] *)
Definition trimStart (s : string) : string := trimStart_from 0 s.

(** A text of white space only. *)
Definition blank (s : string) : bool :=
  match trimStart s with
  | EmptyString => true
  | String _ _ => false
  end.

(** [s.trimEnd()]: the text up to where only white space is left. *)
Fixpoint trimEnd (s : string) : string :=
  match s with
  | EmptyString => EmptyString
  | String c rest => if blank s then EmptyString else String c (trimEnd rest)
  end.

(** [s.trim()] *)
Definition trim (s : string) : string := trimEnd (trimStart s).

(** The code units of a character, told by a byte of its UTF-8 form: one
    for a character of one to three bytes, two (a surrogate pair) for one
    of four bytes, counted at the first byte. *)
Definition code_units (c : ascii) : Z :=
  let n := nat_of_ascii c in
  if (n <? 128)%nat then 1
  else if (n <? 192)%nat then 0
  else if (n <? 240)%nat then 1
  else 2.

(** [s.length]: the number of UTF-16 code units. *)
Fixpoint length (s : string) : Z :=
  match s with
  | EmptyString => 0
  | String c rest => code_units c + length rest
  end.

(** [Math.round(x)]: the nearest integer, a tie going up. *)
Definition Math_round (x : Q) : Z := Qfloor (x + (1 # 2))%Q.

(** A number that may have stopped being an integer: [NotFinite] stands
    for [NaN] and the two infinities, what a division by zero gives and
    what arithmetic then carries along. *)
Inductive Number :=
| Int (z : Z)
| NotFinite.

(** [x + y] *)
Definition plus (x y : Number) : Number :=
  match x, y with
  | Int a, Int b => Int (a + b)
  | _, _ => NotFinite
  end.

(** [Math.round(x / n)] for an integer [n]. *)
Definition round_quotient (x : Number) (n : Z) : Number :=
  match x with
  | Int a => if n =? 0 then NotFinite else Int (Math_round (inject_Z a / inject_Z n))
  | NotFinite => NotFinite
  end.

(** The integer nearest to [a / b] for a positive [b], a tie going up:
    what [Math.round] makes of the quotient of two integers. *)
Definition nearest_quotient (a b : Z) : Z := (2 * a + b) / (2 * b).

(** [[...new Set(arr)]]: the distinct elements in first-insertion order. *)
Fixpoint Set_spread (seen : gset string) (l : list string) : list string :=
  match l with
  | [] => []
  | x :: rest =>
      if bool_decide (x ∈ seen) then Set_spread seen rest
      else x :: Set_spread ({[ x ]} ∪ seen) rest
  end.

(** [arr.sort(cmp)] for a comparator [(a, b) => key(a) - key(b)]:
    ascending in the key and stable, as the language requires.  [sort_by]
    inserts from the right, so an element goes in front of the later
    elements of equal key. *)
Fixpoint sort_insert {A} (key : A -> Z) (x : A) (l : list A) : list A :=
  match l with
  | [] => [x]
  | y :: rest => if key x <=? key y then x :: l else y :: sort_insert key x rest
  end.

Definition sort_by {A} (key : A -> Z) (l : list A) : list A :=
  foldr (fun x acc => sort_insert key x acc) [] l.

End JS.

(** A text made of white space and line terminators only, the empty text
    among them. *)
Inductive only_white_space : string -> Prop :=
| no_text : only_white_space EmptyString
| more_white_space w s :
    w ∈ JS.white_space -> only_white_space s -> only_white_space (w +:+ s).

(** ** The data model shared by both pipelines *)

Inductive Severity := CRITICAL | HIGH | MEDIUM.

#[global] Instance Severity_eq_dec : EqDecision Severity.
Proof. solve_decision. Defined.

(** What a detector pushes.  The server detectors write only [penalty] and
    [comment]; the browser security detector adds [severity], and the batch
    aggregator adds [filename] to the critical issues it collects. *)
Record Issue := mkIssue {
  penalty : Z;
  comment : string;
  severity : option Severity;
  issue_filename : option string;
}.

Record CategoryScore := mkCategory {
  score : Z;
  comments : list string;
}.

Definition MAX_SCORE : Z := 25.

(** The sum of the penalties of an issue list. *)
Definition sum_penalties (issues : list Issue) : Z := foldr Z.add 0 (map penalty issues).

(** [aggregateCategory(maxScore, issues)], the same text in the server
    aggregator and in the browser aggregator. *)
Definition aggregateCategory (maxScore : Z) (issues : list Issue) : CategoryScore :=
  let totalPenalty := foldl (fun sum issue => sum + penalty issue) 0 issues in
  {| score := Z.max 0 (maxScore - totalPenalty);
     comments := map comment issues |}.

(** ** Regular expressions

    The detectors test strings against regular-expression literals.  A
    literal is transcribed as a term of [re] and run by derivatives. *)

Module Regex.

Inductive re :=
| Fail
| Eps
| Chr (cls : ascii -> bool)
| Seq (r1 r2 : re)
| Alt (r1 r2 : re)
| Star (r : re).

Fixpoint nullable (r : re) : bool :=
  match r with
  | Fail => false
  | Eps => true
  | Chr _ => false
  | Seq r1 r2 => nullable r1 && nullable r2
  | Alt r1 r2 => nullable r1 || nullable r2
  | Star _ => true
  end.

Definition seq (r1 r2 : re) : re :=
  match r1, r2 with
  | Fail, _ => Fail
  | _, Fail => Fail
  | Eps, _ => r2
  | _, _ => Seq r1 r2
  end.

Definition alt (r1 r2 : re) : re :=
  match r1, r2 with
  | Fail, _ => r2
  | _, Fail => r1
  | _, _ => Alt r1 r2
  end.

Fixpoint deriv (c : ascii) (r : re) : re :=
  match r with
  | Fail => Fail
  | Eps => Fail
  | Chr cls => if cls c then Eps else Fail
  | Seq r1 r2 =>
      alt (seq (deriv c r1) r2) (if nullable r1 then deriv c r2 else Fail)
  | Alt r1 r2 => alt (deriv c r1) (deriv c r2)
  | Star r1 => seq (deriv c r1) (Star r1)
  end.

(** The whole of [s] matches [r]. *)
Fixpoint matches (r : re) (s : string) : bool :=
  match s with
  | EmptyString => nullable r
  | String c rest => matches (deriv c r) rest
  end.

(** Some prefix of [s] matches [r]. *)
Fixpoint matches_prefix (r : re) (s : string) : bool :=
  nullable r ||
  match s with
  | EmptyString => false
  | String c rest => matches_prefix (deriv c r) rest
  end.

(** A literal [/^body$/]: the two anchors are flags of the literal. *)
Record regex := mkRegex {
  anchor_start : bool;
  body : re;
  anchor_end : bool;
}.

Definition matches_here (rx : regex) (s : string) : bool :=
  if anchor_end rx then matches (body rx) s else matches_prefix (body rx) s.

Fixpoint search (rx : regex) (s : string) : bool :=
  matches_here rx s ||
  match s with
  | EmptyString => false
  | String _ rest => search rx rest
  end.

(** [rx.test(s)] *)
Definition test (rx : regex) (s : string) : bool :=
  if anchor_start rx then matches_here rx s else search rx s.

(** *** Building blocks of the literals *)

Definition in_range (lo hi : ascii) (c : ascii) : bool :=
  ((nat_of_ascii lo <=? nat_of_ascii c)%nat && (nat_of_ascii c <=? nat_of_ascii hi)%nat)%bool.

Definition one_of (s : string) (c : ascii) : bool :=
  existsb (fun d => bool_decide (d = c)) (list_ascii_of_string s).

Definition upper_ascii (c : ascii) : ascii :=
  let n := nat_of_ascii c in
  if ((97 <=? n)%nat && (n <=? 122)%nat)%bool then ascii_of_nat (n - 32) else c.

(** The [i] flag on a character class. *)
Definition ci (cls : ascii -> bool) (c : ascii) : bool :=
  cls (JS.lower_ascii c) || cls (upper_ascii c).

Definition lower c := in_range "a" "z" c.
Definition upper c := in_range "A" "Z" c.
Definition digit c := in_range "0" "9" c.
Definition alnum c := lower c || upper c || digit c.

(** A literal run of characters. *)
Fixpoint lit (s : string) : re :=
  match s with
  | EmptyString => Eps
  | String c rest => Seq (Chr (fun d => bool_decide (d = c))) (lit rest)
  end.

(** A literal run under the [i] flag. *)
Fixpoint lit_ci (s : string) : re :=
  match s with
  | EmptyString => Eps
  | String c rest => Seq (Chr (ci (fun d => bool_decide (d = c)))) (lit_ci rest)
  end.

Definition opt (r : re) : re := Alt r Eps.
Definition plus (r : re) : re := Seq r (Star r).

(** [r{n}] *)
Fixpoint times (n : nat) (r : re) : re :=
  match n with
  | O => Eps
  | S n' => Seq r (times n' r)
  end.

(** [r{n,}] *)
Definition at_least (n : nat) (r : re) : re := Seq (times n r) (Star r).

Fixpoint alts (l : list re) : re :=
  match l with
  | [] => Fail
  | [r] => r
  | r :: rest => Alt r (alts rest)
  end.

(** [\s]: one character of white space, whatever its number of bytes. *)
Definition space : re := alts (map lit JS.white_space).

End Regex.

(** ** Syntax trees and their traversal

    The parser and the traversal library are Babel's.  A tree is kept in the
    shape the detectors read it: every node has its [type] tag, an optional
    source location, its scalar properties ([name], [value], [operator],
    [async], [computed], ...) and its child nodes, each under the field that
    holds it, in the order the traversal visits them. *)

Module Babel.

Record Loc := mkLoc { start_line : Z; end_line : Z }.

Inductive Prim :=
| PStr (s : string)
| PNum (n : Z)
| PBool (b : bool).

(** The field a child sits in; [in_list] tells a member of an array-valued
    field ([body], [params], [arguments], ...) from a single child. *)
Record Field := mkField { field : string; in_list : bool }.

#[local] Unset Elimination Schemes.

Inductive Node := mkNode {
  type : string;
  loc : option Loc;
  props : list (string * Prim);
  kids : list (Field * Node);
}.

(** [node.loc?.start.line] *)
Definition line_of (n : Node) : option Z := start_line <$> loc n.

(** [node[k]] for a scalar property. *)
Fixpoint lookup_prop (k : string) (l : list (string * Prim)) : option Prim :=
  match l with
  | [] => None
  | (k', v) :: rest => if bool_decide (k' = k) then Some v else lookup_prop k rest
  end.

Definition prop (n : Node) (k : string) : option Prim := lookup_prop k (props n).

Definition prop_str (n : Node) (k : string) : option string :=
  match prop n k with
  | Some (PStr s) => Some s
  | _ => None
  end.

(** Truthiness of a scalar property. *)
Definition prop_true (n : Node) (k : string) : bool :=
  match prop n k with
  | Some (PBool b) => b
  | Some (PStr s) => negb (bool_decide (s = EmptyString))
  | Some (PNum z) => negb (z =? 0)
  | None => false
  end.

(** [node[k]] for a single child; [None] when the field is null or absent. *)
Fixpoint lookup_child (k : string) (l : list (Field * Node)) : option Node :=
  match l with
  | [] => None
  | (f, c) :: rest =>
      if bool_decide (field f = k) && negb (in_list f) then Some c
      else lookup_child k rest
  end.

Definition child (n : Node) (k : string) : option Node := lookup_child k (kids n).

(** [node[k]] for an array-valued field. *)
Definition children (n : Node) (k : string) : list Node :=
  omap (fun fc : Field * Node =>
          if bool_decide (field fc.1 = k) && in_list fc.1 then Some fc.2 else None)
       (kids n).

(** [node.type === t] on a possibly absent node. *)
Definition has_type (n : option Node) (t : string) : bool :=
  match n with
  | Some m => bool_decide (type m = t)
  | None => false
  end.

(** Interpolation of a scalar into a template literal. *)
Definition show (v : option Prim) : string :=
  match v with
  | None => "undefined"
  | Some (PStr s) => s
  | Some (PNum z) => JS.toString z
  | Some (PBool true) => "true"
  | Some (PBool false) => "false"
  end.

Definition show_line (l : option Z) : string :=
  match l with
  | None => "undefined"
  | Some z => JS.toString z
  end.

(** A traversal path: the node, its parent node, the path of the parent
    ([None] for the outermost visited nodes), the field it sits in, and
    its position in the tree, which is its identity: two paths hold the
    same node object exactly when their positions agree. *)
Inductive Path := mkPath {
  node : Node;
  parent : Node;
  parentPath : option Path;
  at_field : Field;
  position : list nat;
}.

#[local] Set Elimination Schemes.

(** [path.listKey] *)
Definition listKey (p : Path) : option string :=
  if in_list (at_field p) then Some (field (at_field p)) else None.

(** [path.parent[k] === path.node] for a single-child field [k]. *)
Definition is_field_of_parent (p : Path) (k : string) : bool :=
  bool_decide (field (at_field p) = k) && negb (in_list (at_field p)).

(** Index of the single child held in field [k]. *)
Fixpoint child_index (k : string) (i : nat) (l : list (Field * Node)) : option nat :=
  match l with
  | [] => None
  | (f, _) :: rest =>
      if bool_decide (field f = k) && negb (in_list f) then Some i
      else child_index k (S i) rest
  end.

(** [anc.node[k] === p.node] *)
Definition field_is_node (anc : Path) (k : string) (p : Path) : bool :=
  match child_index k 0 (kids (node anc)) with
  | Some i => bool_decide (i :: position anc = position p)
  | None => false
  end.

(** The ancestor paths [p.parentPath], [p.parentPath.parentPath], ... *)
Fixpoint ancestors (p : Path) : list Path :=
  match parentPath p with
  | None => []
  | Some q => q :: ancestors q
  end.

(** The paths of [n] and of the nodes below it, in visiting order (a node
    before its children, the children in the order of [kids]).  [skip p]
    stands for a visitor calling [p.skip()]: the children of [p] are then
    not visited. *)
Fixpoint walk (skip : Path -> bool) (up : option Path) (par : Node)
    (pos : list nat) (f : Field) (n : Node) {struct n} : list Path :=
  let p := mkPath n par up f pos in
  p :: (if skip p then []
        else (fix walk_kids (i : nat) (l : list (Field * Node)) : list Path :=
                match l with
                | [] => []
                | (g, c) :: rest =>
                    walk skip (Some p) n (i :: pos) g c ++ walk_kids (S i) rest
                end) O (kids n)).

Fixpoint walk_from (skip : Path -> bool) (up : option Path) (par : Node)
    (pos : list nat) (i : nat) (l : list (Field * Node)) : list Path :=
  match l with
  | [] => []
  | (g, c) :: rest =>
      walk skip up par (i :: pos) g c ++ walk_from skip up par pos (S i) rest
  end.

Definition no_skip (p : Path) : bool := false.

(** The paths [traverse(ast, visitor)] hands to the visitor: every node
    below [ast]; the outermost ones have no parent path. *)
Definition traverse_paths (ast : Node) : list Path :=
  walk_from no_skip None ast [] O (kids ast).

(** The paths [path.traverse(visitor)] hands to the visitor: every node
    below [path.node]. *)
Definition subpaths (skip : Path -> bool) (p : Path) : list Path :=
  walk_from skip (Some p) (node p) (position p) O (kids (node p)).

(** Running a visitor: the handler is applied to each path in turn and
    threads the state the visitor closes over. *)
Definition visit {S : Type} (handler : Path -> S -> S) (paths : list Path) (init : S) : S :=
  foldl (fun st p => handler p st) init paths.

Definition is_function_type (t : string) : bool :=
  bool_decide (t = "FunctionDeclaration") ||
  bool_decide (t = "FunctionExpression") ||
  bool_decide (t = "ArrowFunctionExpression").

End Babel.

Import Babel.

Definition issue (pen : Z) (com : string) : Issue := mkIssue pen com None None.

Definition tagged (pen : Z) (com : string) (sev : Severity) : Issue :=
  mkIssue pen com (Some sev) None.

(** An issue as the server detectors push it: a non-negative penalty, a
    comment, and neither a severity tag nor a file name. *)
Definition plain (i : Issue) : Prop :=
  0 <= penalty i /\ severity i = None /\ issue_filename i = None.

(** An issue as the browser security detector pushes it: a non-negative
    penalty and a severity tag. *)
Definition with_severity (i : Issue) : Prop :=
  0 <= penalty i /\ is_Some (severity i).

(** Early [return] inside a visitor: [Return] leaves the handler,
    [Continue] goes on to its next statement. *)
Inductive Flow (S : Type) :=
| Return (s : S)
| Continue (s : S).

Arguments Return {S} s.
Arguments Continue {S} s.

Definition and_then {S} (f : Flow S) (k : S -> Flow S) : Flow S :=
  match f with
  | Return s => Return s
  | Continue s => k s
  end.

Definition finish {S} (f : Flow S) : S :=
  match f with
  | Return s => s
  | Continue s => s
  end.

(** The issue list together with the [Set] a check uses to report a
    location once; the members are of the kind [line] has ([undefined]
    included) or strings. *)
Record Reporting (K : Type) `{Countable K} := mkReporting {
  found : list Issue;
  reported : gset K;
}.

Arguments mkReporting {K _ _} found reported.
Arguments found {K _ _} r.
Arguments reported {K _ _} r.

(** [reported.add(k); issues.push(i)] *)
Definition report {K} `{Countable K} (k : K) (i : Issue) (st : Reporting K) : Reporting K :=
  mkReporting (found st ++ [i]) ({[ k ]} ∪ reported st).

(** [if (line && !reportedLines.has(line)) { reportedLines.add(line);
    issues.push(i) }], the issue being built from the line. *)
Definition report_line (line : option Z) (i : Z -> Issue) (st : Reporting Z) : Reporting Z :=
  match line with
  | Some l =>
      if negb (l =? 0) && negb (bool_decide (l ∈ reported st)) then report l (i l) st
      else st
  | None => st
  end.

Definition quoted (s : string) : string := "'" +:+ s +:+ "'".

(** A word between double quotes, as in the messages of [analyze]. *)
Definition dquoted (s : string) : string :=
  String (ascii_of_nat 34) (s +:+ String (ascii_of_nat 34) EmptyString).

(** [getFunctionName(path)]; the readability, edge-case and complexity
    modules each carry this same function. *)
Definition getFunctionName (path : Path) : string :=
  let n := node path in
  let par := parent path in
  match child n "id" ≫= (fun id => if prop_true id "name" then Some id else None) with
  | Some id => quoted (show (prop id "name"))
  | None =>
      match (if bool_decide (type par = "VariableDeclarator") then child par "id" else None) with
      | Some id => quoted (show (prop id "name"))
      | None =>
          match (if bool_decide (type par = "ObjectProperty") then child par "key" else None) with
          | Some key =>
              quoted (if prop_true key "name" then show (prop key "name")
                      else show (prop key "value"))
          | None =>
              "anonymous at line " +:+
              match line_of n with
              | Some l => if l =? 0 then "unknown" else JS.toString l
              | None => "unknown"
              end
          end
      end
  end.

(** ** The complexity detector (browser copy) *)

Module Complexity.

(** [getComplexityPenalty(complexity)] *)
Definition getComplexityPenalty (complexity : Z) : Z :=
  if complexity <=? 5 then 0
  else if complexity <=? 10 then 3
  else if complexity <=? 15 then 6
  else if complexity <=? 20 then 10
  else 15.

Definition is_logical_operator (n : Node) : bool :=
  match prop_str n "operator" with
  | Some op => bool_decide (op = "&&") || bool_decide (op = "||") || bool_decide (op = "??")
  | None => false
  end.

(** The visitor of [calculateFunctionComplexity]: whether the node at
    [p] adds one to the count. *)
Definition branches (p : Path) : bool :=
  let n := node p in
  let t := type n in
  bool_decide (t = "IfStatement") ||
  bool_decide (t = "ForStatement") ||
  bool_decide (t = "ForInStatement") ||
  bool_decide (t = "ForOfStatement") ||
  bool_decide (t = "WhileStatement") ||
  bool_decide (t = "DoWhileStatement") ||
  (bool_decide (t = "SwitchCase") && bool_decide (is_Some (child n "test"))) ||
  bool_decide (t = "ConditionalExpression") ||
  (bool_decide (t = "LogicalExpression") && is_logical_operator n) ||
  bool_decide (t = "CatchClause").

(** [calculateFunctionComplexity(path)]: base 1, one more for each
    branching node below the function, nested functions included. *)
Definition calculateFunctionComplexity (path : Path) : Z :=
  visit (fun p complexity => if branches p then complexity + 1 else complexity)
        (subpaths no_skip path) 1.

(** [isGlobalLevel(path)] *)
Definition isGlobalLevel (path : Path) : bool :=
  forallb (fun current => negb (is_function_type (type (node current)))) (ancestors path).

(** The visitor of [calculateGlobalComplexity]; it has no [CatchClause]
    entry. *)
Definition branches_global (p : Path) : bool :=
  let n := node p in
  let t := type n in
  (bool_decide (t = "IfStatement") && isGlobalLevel p) ||
  (bool_decide (t = "ForStatement") && isGlobalLevel p) ||
  (bool_decide (t = "ForInStatement") && isGlobalLevel p) ||
  (bool_decide (t = "ForOfStatement") && isGlobalLevel p) ||
  (bool_decide (t = "WhileStatement") && isGlobalLevel p) ||
  (bool_decide (t = "DoWhileStatement") && isGlobalLevel p) ||
  (bool_decide (t = "SwitchCase") && isGlobalLevel p && bool_decide (is_Some (child n "test"))) ||
  (bool_decide (t = "ConditionalExpression") && isGlobalLevel p) ||
  (bool_decide (t = "LogicalExpression") && isGlobalLevel p && is_logical_operator n).

(** [calculateGlobalComplexity(ast)] *)
Definition calculateGlobalComplexity (ast : Node) : Z :=
  visit (fun p complexity => if branches_global p then complexity + 1 else complexity)
        (traverse_paths ast) 1.

Record FunctionComplexity := mkFC {
  fc_name : string;
  fc_complexity : Z;
  fc_line : Z;
}.

(** The state the visitor of [analyzeComplexity] closes over. *)
Record State := mkState {
  issues : list Issue;
  functionComplexities : list FunctionComplexity;
}.

(** The function visitor of [analyzeComplexity]. *)
Definition on_function (path : Path) (st : State) : State :=
  if is_function_type (type (node path)) then
    let complexity := calculateFunctionComplexity path in
    let funcName := getFunctionName path in
    let fcs := functionComplexities st ++
               [mkFC funcName complexity
                  (match line_of (node path) with Some l => l | None => 0 end)] in
    let pen := getComplexityPenalty complexity in
    if 0 <? pen then
      mkState (issues st ++
               [issue pen ("Function " +:+ funcName +:+ " has cyclomatic complexity of " +:+
                           JS.toString complexity +:+ ". Consider simplifying control flow.")])
              fcs
    else mkState (issues st) fcs
  else st.

(** [analyzeComplexity(ast)] *)
Definition analyzeComplexity (ast : Node) : list Issue :=
  let st := visit on_function (traverse_paths ast) (mkState [] []) in
  if (length (functionComplexities st) =? 0)%nat then
    let globalComplexity := calculateGlobalComplexity ast in
    let pen := getComplexityPenalty globalComplexity in
    if 0 <? pen then
      issues st ++
      [issue pen ("Global code has cyclomatic complexity of " +:+
                  JS.toString globalComplexity +:+ ". Consider organizing into functions.")]
    else issues st
  else issues st.

(** The function paths of a tree, in visiting order. *)
Definition functions (ast : Node) : list Path :=
  List.filter (fun p => is_function_type (type (node p))) (traverse_paths ast).

(** The penalty the schedule gives a function. *)
Definition function_penalty (p : Path) : Z :=
  getComplexityPenalty (calculateFunctionComplexity p).

End Complexity.

(** ** The security detector of the server pipeline *)

Module Security.

Import Regex.

Definition EVAL_USAGE : Z := 8.
Definition CHILD_PROCESS_EXEC : Z := 6.
Definition HARDCODED_SECRET : Z := 5.
Definition UNSANITIZED_INPUT : Z := 4.

Definition token_tail (prefix : string) : regex :=
  mkRegex true (Seq (lit prefix) (plus (Chr alnum))) true.

(** [SECRET_PATTERNS] *)
Definition SECRET_PATTERNS : list regex :=
  [ mkRegex true (at_least 32 (Chr alnum)) true;
    token_tail "sk_";
    token_tail "pk_";
    token_tail "ghp_";
    mkRegex true
      (Seq (lit "xox")
         (Seq (Chr (one_of "baprs"))
            (Seq (lit "-") (plus (Chr (fun c => alnum c || one_of "-" c)))))) true;
    mkRegex true (Seq (lit "AKIA") (times 16 (Chr (fun c => upper c || digit c)))) true;
    mkRegex true (Seq (lit "AIza") (times 35 (Chr (fun c => alnum c || one_of "-_" c)))) true;
    mkRegex false
      (Seq (lit_ci "Bearer")
         (Seq (plus space)
            (Seq (plus (Chr (ci (fun c => alnum c || one_of "-._~+/" c))))
               (Star (Chr (one_of "="))))))
      false ].

Definition word_ci (w : string) : regex := mkRegex false (lit_ci w) false.

Definition joined_ci (a b : string) : regex :=
  mkRegex false (Seq (lit_ci a) (Seq (opt (Chr (one_of "_-"))) (lit_ci b))) false.

(** [SECRET_VAR_PATTERNS] *)
Definition SECRET_VAR_PATTERNS : list regex :=
  [ joined_ci "api" "key";
    word_ci "secret";
    word_ci "password";
    word_ci "token";
    word_ci "auth";
    word_ci "credential";
    joined_ci "private" "key" ].

Definition DANGEROUS_FUNCTIONS : gset string := {[ "eval"; "Function" ]}.

Definition CHILD_PROCESS_METHODS : gset string :=
  {[ "exec"; "execSync"; "spawn"; "spawnSync"; "fork" ]}.

(** [set.has(node.name)] *)
Definition name_in (set : gset string) (n : Node) : bool :=
  match prop_str n "name" with
  | Some nm => bool_decide (nm ∈ set)
  | None => false
  end.

Definition name_is (n : Node) (nm : string) : bool :=
  bool_decide (prop_str n "name" = Some nm).

(** The visitor of [checkEvalUsage].  The second test of the
    [CallExpression] entry asks for a [NewExpression] node, as the
    source does. *)
Definition on_eval (path : Path) (issues : list Issue) : list Issue :=
  let n := node path in
  let line := line_of n in
  if bool_decide (type n = "CallExpression") then
    match child n "callee" with
    | Some callee =>
        let issues1 :=
          if bool_decide (type callee = "Identifier") && name_in DANGEROUS_FUNCTIONS callee then
            issues ++
            [issue EVAL_USAGE
               ("Dangerous '" +:+ show (prop callee "name") +:+ "()' usage detected at line " +:+
                show_line line +:+
                ". This can execute arbitrary code and is a major security risk.")]
          else issues in
        if bool_decide (type n = "NewExpression") &&
           bool_decide (type callee = "Identifier") && name_is callee "Function" then
          issues1 ++
          [issue EVAL_USAGE
             ("Dangerous 'new Function()' usage detected at line " +:+ show_line line +:+
              ". This is equivalent to eval() and can execute arbitrary code.")]
        else issues1
    | None => issues
    end
  else if bool_decide (type n = "NewExpression") then
    match child n "callee" with
    | Some callee =>
        if bool_decide (type callee = "Identifier") && name_is callee "Function" then
          issues ++
          [issue EVAL_USAGE
             ("Dangerous 'new Function()' usage detected at line " +:+ show_line line +:+
              ". This is equivalent to eval() and can execute arbitrary code.")]
        else issues
    | None => issues
    end
  else issues.

(** [checkEvalUsage(ast, issues)] *)
Definition checkEvalUsage (ast : Node) (issues : list Issue) : list Issue :=
  visit on_eval (traverse_paths ast) issues.

Definition shell_issue (method : string) (line : option Z) : Issue :=
  issue CHILD_PROCESS_EXEC
    ("Shell command execution via '" +:+ method +:+ "()' at line " +:+ show_line line +:+
     ". Ensure input is sanitized to prevent command injection.").

(** [if (reportedLines.has(line)) return; reportedLines.add(line);
    issues.push(i)] *)
Definition report_once (line : option Z) (i : Issue) (st : Reporting (option Z))
    : Flow (Reporting (option Z)) :=
  if bool_decide (line ∈ reported st) then Return st
  else Continue (report line i st).

(** The visitor of [checkChildProcessUsage]. *)
Definition on_child_process (path : Path) (st : Reporting (option Z)) : Reporting (option Z) :=
  let n := node path in
  if bool_decide (type n = "CallExpression") then
    match child n "callee" with
    | Some callee =>
        finish
          (and_then
             (if bool_decide (type callee = "MemberExpression") &&
                 has_type (child callee "property") "Identifier" then
                match child callee "property" with
                | Some property =>
                    if name_in CHILD_PROCESS_METHODS property then
                      report_once (line_of n)
                        (shell_issue (show (prop property "name")) (line_of n)) st
                    else Continue st
                | None => Continue st
                end
              else Continue st)
             (fun st1 =>
                if bool_decide (type callee = "Identifier") &&
                   name_in CHILD_PROCESS_METHODS callee then
                  report_once (line_of n)
                    (shell_issue (show (prop callee "name")) (line_of n)) st1
                else Continue st1))
    | None => st
    end
  else st.

(** [checkChildProcessUsage(ast, issues)] *)
Definition checkChildProcessUsage (ast : Node) (issues : list Issue) : list Issue :=
  found (visit on_child_process (traverse_paths ast) (mkReporting issues ∅)).

(** [node.value] of a string literal. *)
Definition string_value (n : Node) : string :=
  match prop_str n "value" with
  | Some v => v
  | None => EmptyString
  end.

(** [value.length] *)
Definition str_length (s : string) : Z := JS.length s.

(** The visitor of [checkHardcodedSecrets]. *)
Definition on_secret (path : Path) (st : Reporting (option Z)) : Reporting (option Z) :=
  let n := node path in
  let line := line_of n in
  if bool_decide (type n = "VariableDeclarator") then
    match child n "id", child n "init" with
    | Some id, Some init =>
        if bool_decide (type id = "Identifier") then
          let varName := show (prop id "name") in
          let matchesSecretPattern :=
            existsb (fun pattern => test pattern varName) SECRET_VAR_PATTERNS in
          if matchesSecretPattern then
            if bool_decide (type init = "StringLiteral") && (5 <? str_length (string_value init)) then
              finish
                (report_once line
                   (issue HARDCODED_SECRET
                      ("Potential hardcoded secret in variable '" +:+ varName +:+ "' at line " +:+
                       show_line line +:+ ". Use environment variables instead."))
                   st)
            else st
          else st
        else st
    | _, _ => st
    end
  else if bool_decide (type n = "StringLiteral") then
    let value := string_value n in
    if str_length value <? 20 then st
    else
      let isSecret := existsb (fun pattern => test pattern value) SECRET_PATTERNS in
      if isSecret then
        finish
          (report_once line
             (issue HARDCODED_SECRET
                ("Potential hardcoded API key or token detected at line " +:+ show_line line +:+
                 ". Use environment variables instead."))
             st)
      else st
  else st.

(** [checkHardcodedSecrets(ast, issues)] *)
Definition checkHardcodedSecrets (ast : Node) (issues : list Issue) : list Issue :=
  found (visit on_secret (traverse_paths ast) (mkReporting issues ∅)).

Definition is_request_object (n : Node) : bool :=
  bool_decide (type n = "Identifier") && (name_is n "req" || name_is n "request").

(** The loop of [isUserInput]: down the [object] chain of a member
    expression until a request object is met or the chain ends. *)
Fixpoint member_chain_from_request (current : Node) : bool :=
  (fix scan (l : list (Field * Node)) : bool :=
     match l with
     | [] => false
     | (f, obj) :: rest =>
         if bool_decide (field f = "object") && negb (in_list f) then
           is_request_object obj ||
           (bool_decide (type obj = "MemberExpression") && member_chain_from_request obj)
         else scan rest
     end) (kids current).

(** [isUserInput(node)] *)
Definition isUserInput (n : option Node) : bool :=
  match n with
  | None => false
  | Some m =>
      bool_decide (type m = "MemberExpression") && member_chain_from_request m
  end.

Definition SQL_WORDS : regex :=
  mkRegex false
    (alts (map lit_ci ["select"; "insert"; "update"; "delete"; "from"; "where"])) false.

Definition HTML_TAG : regex :=
  mkRegex false (Seq (lit "<") (plus (Chr (ci lower)))) false.

(** The callback of [path.node.expressions.forEach] in the
    [TemplateLiteral] entry; its [return] ends one call of the callback. *)
Definition on_template_expression (line : option Z) (st : Reporting (option Z)) (expr : Node)
    : Reporting (option Z) :=
  if isUserInput (Some expr) then
    finish
      (report_once line
         (issue UNSANITIZED_INPUT
            ("User input interpolated in template at line " +:+ show_line line +:+
             ". Ensure proper sanitization to prevent injection attacks."))
         st)
  else st.

(** The visitor of [checkUnsanitizedInput]. *)
Definition on_unsanitized (path : Path) (st : Reporting (option Z)) : Reporting (option Z) :=
  let n := node path in
  let line := line_of n in
  if bool_decide (type n = "TemplateLiteral") then
    foldl (on_template_expression line) st (children n "expressions")
  else if bool_decide (type n = "BinaryExpression") then
    if bool_decide (prop_str n "operator" = Some "+") then
      let lhs := child n "left" in
      let rhs := child n "right" in
      if isUserInput lhs || isUserInput rhs then
        let otherSide := if isUserInput lhs then rhs else lhs in
        match otherSide with
        | Some other =>
            if bool_decide (type other = "StringLiteral") then
              let value := JS.toLowerCase (string_value other) in
              finish
                (and_then
                   (if test SQL_WORDS value then
                      report_once line
                        (issue UNSANITIZED_INPUT
                           ("Potential SQL injection: user input concatenated with SQL at line " +:+
                            show_line line +:+ ". Use parameterized queries."))
                        st
                    else Continue st)
                   (fun st1 =>
                      if test HTML_TAG value then
                        report_once line
                          (issue UNSANITIZED_INPUT
                             ("Potential XSS: user input concatenated with HTML at line " +:+
                              show_line line +:+ ". Sanitize output."))
                          st1
                      else Continue st1))
            else st
        | None => st
        end
      else st
    else st
  else st.

(** [checkUnsanitizedInput(ast, issues)] *)
Definition checkUnsanitizedInput (ast : Node) (issues : list Issue) : list Issue :=
  found (visit on_unsanitized (traverse_paths ast) (mkReporting issues ∅)).

(** [analyzeSecurity(ast)] *)
Definition analyzeSecurity (ast : Node) : list Issue :=
  let issues := [] in
  let issues := checkEvalUsage ast issues in
  let issues := checkChildProcessUsage ast issues in
  let issues := checkHardcodedSecrets ast issues in
  let issues := checkUnsanitizedInput ast issues in
  issues.

End Security.

(** ** The security detector of the browser pipeline

    It tags every issue with a severity, and reports a location only when
    the line number is truthy. *)

Module BrowserSecurity.

Import Regex.

Definition EVAL_USAGE : Z := 8.
Definition CHILD_PROCESS_EXEC : Z := 6.
Definition HARDCODED_SECRET : Z := 5.
Definition UNSANITIZED_INPUT : Z := 4.

(** [SECRET_PATTERNS] *)
Definition SECRET_PATTERNS : list regex :=
  [ Security.joined_ci "api" "key";
    Security.word_ci "secret";
    Security.word_ci "password";
    Security.word_ci "passwd";
    Security.word_ci "token";
    Security.word_ci "auth";
    Security.word_ci "credential";
    Security.joined_ci "private" "key" ].

Definition DANGEROUS_FUNCTIONS : gset string := {[ "eval"; "Function" ]}.

Definition CHILD_PROCESS_METHODS : gset string :=
  {[ "exec"; "execSync"; "spawn"; "spawnSync"; "fork" ]}.

(** The visitor of [checkEvalUsage]. *)
Definition on_eval (path : Path) (st : Reporting Z) : Reporting Z :=
  let n := node path in
  let line := line_of n in
  if bool_decide (type n = "CallExpression") then
    match child n "callee" with
    | Some callee =>
        let st1 :=
          if bool_decide (type callee = "Identifier") &&
             Security.name_in DANGEROUS_FUNCTIONS callee then
            report_line line
              (fun l => tagged EVAL_USAGE
                 ("CRITICAL: " +:+ show (prop callee "name") +:+ "() usage detected at line " +:+
                  JS.toString l +:+
                  ". This allows arbitrary code execution and is a major security risk.")
                 CRITICAL)
              st
          else st in
        match child callee "property" with
        | Some property =>
            if bool_decide (type callee = "MemberExpression") &&
               bool_decide (type property = "Identifier") &&
               Security.name_in DANGEROUS_FUNCTIONS property then
              report_line line
                (fun l => tagged EVAL_USAGE
                   ("CRITICAL: " +:+ show (prop property "name") +:+
                    "() usage detected at line " +:+ JS.toString l +:+
                    ". This allows arbitrary code execution.")
                   CRITICAL)
                st1
            else st1
        | None => st1
        end
    | None => st
    end
  else if bool_decide (type n = "NewExpression") then
    match child n "callee" with
    | Some callee =>
        if bool_decide (type callee = "Identifier") && Security.name_is callee "Function" then
          report_line line
            (fun l => tagged EVAL_USAGE
               ("CRITICAL: new Function() usage detected at line " +:+ JS.toString l +:+
                ". This is equivalent to eval() and allows arbitrary code execution.")
               CRITICAL)
            st
        else st
    | None => st
    end
  else st.

(** [checkEvalUsage(ast, issues)] *)
Definition checkEvalUsage (ast : Node) (issues : list Issue) : list Issue :=
  found (visit on_eval (traverse_paths ast) (mkReporting issues ∅)).

(** The test [isChildProcess] on the object of the call. *)
Definition isChildProcess (object : Node) : bool :=
  (bool_decide (type object = "Identifier") && Security.name_is object "child_process") ||
  (bool_decide (type object = "Identifier") && Security.name_is object "cp") ||
  (bool_decide (type object = "CallExpression") &&
   match child object "callee" with
   | Some c => bool_decide (type c = "Identifier") && Security.name_is c "require"
   | None => false
   end).

(** The visitor of [checkChildProcessUsage]. *)
Definition on_child_process (path : Path) (st : Reporting Z) : Reporting Z :=
  let n := node path in
  if bool_decide (type n = "CallExpression") then
    match child n "callee" with
    | Some callee =>
        if bool_decide (type callee = "MemberExpression") then
          match child callee "property", child callee "object" with
          | Some property, Some object =>
              if bool_decide (type property = "Identifier") &&
                 Security.name_in CHILD_PROCESS_METHODS property then
                if isChildProcess object then
                  report_line (line_of n)
                    (fun l => tagged CHILD_PROCESS_EXEC
                       ("CRITICAL: child_process." +:+ show (prop property "name") +:+
                        "() detected at line " +:+ JS.toString l +:+
                        ". Command injection risk if input is not sanitized.")
                       CRITICAL)
                    st
                else st
              else st
          | _, _ => st
          end
        else st
    | None => st
    end
  else st.

(** [checkChildProcessUsage(ast, issues)] *)
Definition checkChildProcessUsage (ast : Node) (issues : list Issue) : list Issue :=
  found (visit on_child_process (traverse_paths ast) (mkReporting issues ∅)).

Definition LONG_KEY : regex :=
  mkRegex true (at_least 32 (Chr (fun c => alnum c || one_of "_-" c))) true.

Definition PREFIXED_KEY : regex :=
  mkRegex true
    (Seq (alts (map lit_ci ["sk"; "pk"; "api"; "key"]))
       (Seq (Chr (one_of "-_")) (at_least 16 (Chr (ci alnum))))) true.

(** The visitor of [checkHardcodedSecrets]; the loop over the patterns
    stops at the first one that matches a name whose value has eight
    characters or more. *)
Definition on_secret (path : Path) (st : Reporting Z) : Reporting Z :=
  let n := node path in
  let line := line_of n in
  if bool_decide (type n = "VariableDeclarator") then
    match child n "id", child n "init" with
    | Some id, Some init =>
        if bool_decide (type id = "Identifier") && bool_decide (type init = "StringLiteral") then
          let varName := show (prop id "name") in
          let value := Security.string_value init in
          if existsb (fun pattern =>
                        test pattern varName && (8 <=? Security.str_length value))
                     SECRET_PATTERNS then
            report_line line
              (fun l => tagged HARDCODED_SECRET
                 ("Potential hardcoded secret in '" +:+ varName +:+ "' at line " +:+
                  JS.toString l +:+ ". Use environment variables instead.")
                 HIGH)
              st
          else st
        else st
    | _, _ => st
    end
  else if bool_decide (type n = "StringLiteral") then
    let value := Security.string_value n in
    let looksLikeApiKey := test LONG_KEY value || test PREFIXED_KEY value in
    if looksLikeApiKey then
      report_line line
        (fun l => tagged HARDCODED_SECRET
           ("Potential hardcoded API key detected at line " +:+ JS.toString l +:+
            ". String pattern matches common key formats.")
           HIGH)
        st
    else st
  else st.

(** [checkHardcodedSecrets(ast, issues)] *)
Definition checkHardcodedSecrets (ast : Node) (issues : list Issue) : list Issue :=
  found (visit on_secret (traverse_paths ast) (mkReporting issues ∅)).

Definition userInputProps : list string :=
  ["value"; "data"; "body"; "query"; "params"; "input"].

(** [isUserInput(node)] *)
Definition isUserInput (n : option Node) : bool :=
  match n with
  | None => false
  | Some m =>
      bool_decide (type m = "MemberExpression") &&
      ((match child m "property" with
        | Some property =>
            bool_decide (type property = "Identifier") &&
            match prop_str property "name" with
            | Some propName => bool_decide (propName ∈ userInputProps)
            | None => false
            end
        | None => false
        end) ||
       (match child m "object" with
        | Some object =>
            bool_decide (type object = "Identifier") && Security.name_is object "req"
        | None => false
        end))
  end.

Definition riskyProps : list string := ["innerHTML"; "outerHTML"; "textContent"].

(** One turn of the loop over the parent paths: the context name an
    assignment to a risky property gives. *)
Definition risky_assignment (parent : Path) : option string :=
  let pn := node parent in
  if bool_decide (type pn = "AssignmentExpression") then
    match child pn "left" with
    | Some target =>
        if bool_decide (type target = "MemberExpression") then
          match child target "property" with
          | Some property =>
              if bool_decide (type property = "Identifier") then
                match prop_str property "name" with
                | Some nm => if bool_decide (nm ∈ riskyProps) then Some nm else None
                | None => None
                end
              else None
          | None => None
          end
        else None
    | None => None
    end
  else None.

(** The loop itself: [contextName] is the name the outermost risky
    assignment gives. *)
Definition riskyContext (path : Path) : option string :=
  foldl (fun contextName parent =>
           match risky_assignment parent with
           | Some nm => Some nm
           | None => contextName
           end)
        None (ancestors path).

(** The visitor of [checkUnsanitizedInput]. *)
Definition on_unsanitized (path : Path) (st : Reporting Z) : Reporting Z :=
  let n := node path in
  let line := line_of n in
  if bool_decide (type n = "TemplateLiteral") then
    foldl (fun st1 expr =>
             if isUserInput (Some expr) then
               report_line line
                 (fun l => tagged UNSANITIZED_INPUT
                    ("Potential unsanitized user input in template literal at line " +:+
                     JS.toString l +:+ ". Validate and sanitize before use.")
                    MEDIUM)
                 st1
             else st1)
          st (children n "expressions")
  else if bool_decide (type n = "BinaryExpression") then
    if negb (bool_decide (prop_str n "operator" = Some "+")) then st
    else
      let hasUserInput := isUserInput (child n "left") || isUserInput (child n "right") in
      if negb hasUserInput then st
      else
        match riskyContext path with
        | Some contextName =>
            report_line line
              (fun l => tagged UNSANITIZED_INPUT
                 ("User input concatenated into " +:+ contextName +:+ " at line " +:+
                  JS.toString l +:+ ". XSS vulnerability risk.")
                 HIGH)
              st
        | None => st
        end
  else st.

(** [checkUnsanitizedInput(ast, issues)] *)
Definition checkUnsanitizedInput (ast : Node) (issues : list Issue) : list Issue :=
  found (visit on_unsanitized (traverse_paths ast) (mkReporting issues ∅)).

(** [analyzeSecurity(ast)] *)
Definition analyzeSecurity (ast : Node) : list Issue :=
  let issues := [] in
  let issues := checkEvalUsage ast issues in
  let issues := checkChildProcessUsage ast issues in
  let issues := checkHardcodedSecrets ast issues in
  let issues := checkUnsanitizedInput ast issues in
  issues.

End BrowserSecurity.

(** [isNestingNode(node)]; the readability module and the metrics module
    each carry it. *)
Definition isNestingNode (n : Node) : bool :=
  bool_decide (type n ∈
    ["IfStatement"; "ForStatement"; "ForInStatement"; "ForOfStatement"; "WhileStatement";
     "DoWhileStatement"; "SwitchStatement"; "TryStatement"; "CatchClause"]).

(** The loop [while (current) { if (isNestingNode(current.parent)) depth++;
    current = current.parentPath; }] started at [path]. *)
Definition nestingDepth (path : Path) : Z :=
  foldl (fun depth current => if isNestingNode (parent current) then depth + 1 else depth)
        0 (path :: ancestors path).

Definition name_of (n : Node) : string :=
  match prop_str n "name" with
  | Some s => s
  | None => EmptyString
  end.

(** ** The readability detector of the server pipeline *)

Module Readability.

Definition LONG_FUNCTION : Z := 3.
Definition DEEP_NESTING : Z := 3.
Definition POOR_NAMING : Z := 2.
Definition TOO_MANY_STATEMENTS : Z := 2.

Definition MAX_FUNCTION_LINES : Z := 40.
Definition MAX_NESTING_DEPTH : Z := 4.
Definition MIN_IDENTIFIER_LENGTH : Z := 3.
Definition MAX_STATEMENTS_PER_FUNCTION : Z := 5.

Definition ALLOWED_SHORT_NAMES : gset string :=
  {[ "i"; "j"; "k"; "n"; "x"; "y"; "z";
     "id"; "fn"; "cb"; "db"; "fs"; "os";
     "e"; "ex"; "err";
     "_"; "__" ]}.

(** The function entry of the visitor of [analyzeReadability]. *)
Definition on_function (path : Path) (issues : list Issue) : list Issue :=
  let n := node path in
  let issues1 :=
    match loc n with
    | Some l =>
        let lines := end_line l - start_line l + 1 in
        if MAX_FUNCTION_LINES <? lines then
          issues ++
          [issue LONG_FUNCTION
             ("Function " +:+ getFunctionName path +:+ " is " +:+ JS.toString lines +:+
              " lines long (max: " +:+ JS.toString MAX_FUNCTION_LINES +:+
              "). Consider breaking it into smaller functions.")]
        else issues
    | None => issues
    end in
  match child n "body" with
  | Some body =>
      if bool_decide (type body = "BlockStatement") then
        let statementCount := Z.of_nat (length (children body "body")) in
        if MAX_STATEMENTS_PER_FUNCTION <? statementCount then
          issues1 ++
          [issue TOO_MANY_STATEMENTS
             ("Function " +:+ getFunctionName path +:+ " has " +:+ JS.toString statementCount +:+
              " top-level statements (max: " +:+ JS.toString MAX_STATEMENTS_PER_FUNCTION +:+
              "). This may indicate too many responsibilities.")]
        else issues1
      else issues1
  | None => issues1
  end.

(** The [Identifier] entry of the visitor. *)
Definition on_identifier (path : Path) (issues : list Issue) : list Issue :=
  let name := name_of (node path) in
  let par := parent path in
  if bool_decide (type par = "MemberExpression") && is_field_of_parent path "property" then
    issues
  else if bool_decide (type par = "ObjectProperty") && is_field_of_parent path "key" &&
          negb (prop_true par "computed") then
    issues
  else
    let isDeclaration :=
      bool_decide (type par = "VariableDeclarator") ||
      bool_decide (type par = "FunctionDeclaration") ||
      bool_decide (type par = "FunctionExpression") ||
      bool_decide (type par = "ArrowFunctionExpression") ||
      bool_decide (listKey path = Some "params") in
    if isDeclaration && (Security.str_length name <? MIN_IDENTIFIER_LENGTH) then
      if negb (bool_decide (name ∈ ALLOWED_SHORT_NAMES)) then
        issues ++
        [issue POOR_NAMING
           ("Variable '" +:+ name +:+ "' has a non-descriptive name (" +:+
            JS.toString (Security.str_length name) +:+ " chars). Use meaningful names.")]
      else issues
    else issues.

Definition on_node (path : Path) (issues : list Issue) : list Issue :=
  let t := type (node path) in
  if is_function_type t then on_function path issues
  else if bool_decide (t = "Identifier") then on_identifier path issues
  else issues.

(** The visitor of [checkNestingDepth]. *)
Definition on_block (path : Path) (st : Reporting Z) : Reporting Z :=
  if bool_decide (type (node path) = "BlockStatement") then
    let depth := nestingDepth path in
    if MAX_NESTING_DEPTH <? depth then
      report_line (line_of (node path))
        (fun l => issue DEEP_NESTING
           ("Deep nesting detected at line " +:+ JS.toString l +:+ " (depth: " +:+
            JS.toString depth +:+ ", max: " +:+ JS.toString MAX_NESTING_DEPTH +:+
            "). Consider extracting logic or using early returns."))
        st
    else st
  else st.

(** [checkNestingDepth(ast, issues)] *)
Definition checkNestingDepth (ast : Node) (issues : list Issue) : list Issue :=
  found (visit on_block (traverse_paths ast) (mkReporting issues ∅)).

(** [analyzeReadability(ast)] *)
Definition analyzeReadability (ast : Node) : list Issue :=
  let issues := visit on_node (traverse_paths ast) [] in
  checkNestingDepth ast issues.

End Readability.

(** ** The edge-case detector of the server pipeline *)

Module EdgeCases.

Import Regex.

Definition ASYNC_NO_TRY_CATCH : Z := 4.
Definition UNCHECKED_ARRAY_ACCESS : Z := 3.
Definition UNCHECKED_EXTERNAL_INPUT : Z := 3.

(** The nested [path.traverse]: it skips the children of nested
    functions and sets [hasAwait] at an await expression. *)
Definition hasAwait (path : Path) : bool :=
  existsb (fun p => bool_decide (type (node p) = "AwaitExpression"))
          (subpaths (fun p => is_function_type (type (node p))) path).

(** The visitor of [checkAsyncWithoutTryCatch]. *)
Definition on_async (path : Path) (issues : list Issue) : list Issue :=
  let n := node path in
  if is_function_type (type n) then
    if negb (prop_true n "async") then issues
    else
      match child n "body" with
      | Some body =>
          if negb (bool_decide (type body = "BlockStatement")) then issues
          else
            let hasTryCatch :=
              existsb (fun stmt => bool_decide (type stmt = "TryStatement"))
                      (children body "body") in
            if hasAwait path && negb hasTryCatch then
              issues ++
              [issue ASYNC_NO_TRY_CATCH
                 ("Async function " +:+ getFunctionName path +:+
                  " contains await expressions without try/catch error handling.")]
            else issues
      | None => issues
      end
  else issues.

(** [checkAsyncWithoutTryCatch(ast, issues)] *)
Definition checkAsyncWithoutTryCatch (ast : Node) (issues : list Issue) : list Issue :=
  visit on_async (traverse_paths ast) issues.

(** [isInCondition(path)] *)
Definition isInCondition (path : Path) : bool :=
  existsb (fun current =>
             let t := type (node current) in
             (bool_decide (t = "IfStatement") && field_is_node current "test" path) ||
             (bool_decide (t = "ConditionalExpression") && field_is_node current "test" path) ||
             bool_decide (t = "LogicalExpression"))
          (ancestors path).

(** [isNullish(node)] *)
Definition isNullish (n : Node) : bool :=
  bool_decide (type n = "NullLiteral") ||
  (bool_decide (type n = "Identifier") && Security.name_is n "undefined").

Definition prop_is (n : option Node) (k v : string) : bool :=
  match n with
  | Some m => bool_decide (prop_str m k = Some v)
  | None => false
  end.

(** The visitor of the first pass of [checkUncheckedArrayAccess]; the
    state is [checkedIdentifiers]. *)
Definition on_guard (path : Path) (checked : gset (option string)) : gset (option string) :=
  let n := node path in
  let t := type n in
  if bool_decide (t = "MemberExpression") then
    match child n "property", child n "object" with
    | Some property, Some object =>
        if bool_decide (type property = "Identifier") &&
           Security.name_is property "length" &&
           bool_decide (type object = "Identifier") then
          if isInCondition path then {[ prop_str object "name" ]} ∪ checked else checked
        else checked
    | _, _ => checked
    end
  else if bool_decide (t = "CallExpression") then
    match child n "callee" with
    | Some callee =>
        if bool_decide (type callee = "MemberExpression") &&
           prop_is (child callee "object") "name" "Array" &&
           prop_is (child callee "property") "name" "isArray" &&
           has_type (head (children n "arguments")) "Identifier" then
          if isInCondition path then
            {[ head (children n "arguments") ≫= fun a => prop_str a "name" ]} ∪ checked
          else checked
        else checked
    | None => checked
    end
  else if bool_decide (t = "BinaryExpression") then
    match prop_str n "operator", child n "left", child n "right" with
    | Some operator, Some lhs, Some rhs =>
        if bool_decide (operator ∈ ["==="; "!=="; "=="; "!="]) then
          let checked1 :=
            if bool_decide (type lhs = "Identifier") && isNullish rhs
            then {[ prop_str lhs "name" ]} ∪ checked else checked in
          if bool_decide (type rhs = "Identifier") && isNullish lhs
          then {[ prop_str rhs "name" ]} ∪ checked1 else checked1
        else checked
    | _, _, _ => checked
    end
  else checked.

Definition length_member (n : option Node) : bool :=
  match n with
  | Some m =>
      bool_decide (type m = "MemberExpression") && prop_is (child m "property") "name" "length"
  | None => false
  end.

(** [isSafeArrayAccess(path)] *)
Definition isSafeArrayAccess (path : Path) : bool :=
  existsb (fun current =>
             bool_decide (type (node current) = "ForStatement") &&
             match child (node current) "test" with
             | Some test =>
                 bool_decide (type test = "BinaryExpression") &&
                 (length_member (child test "left") || length_member (child test "right"))
             | None => false
             end)
          (ancestors path).

(** The visitor of the second pass of [checkUncheckedArrayAccess]. *)
Definition on_access (checked : gset (option string)) (path : Path) (st : Reporting string)
    : Reporting string :=
  let n := node path in
  if bool_decide (type n = "MemberExpression") then
    match child n "object" with
    | Some object =>
        if prop_true n "computed" && bool_decide (type object = "Identifier") then
          let arrayName := prop_str object "name" in
          let line := line_of n in
          let key := show (PStr <$> arrayName) +:+ ":" +:+ show_line line in
          if bool_decide (key ∈ reported st) then st
          else if bool_decide (arrayName ∈ checked) then st
          else if isSafeArrayAccess path then st
          else
            report key
              (issue UNCHECKED_ARRAY_ACCESS
                 ("Array '" +:+ show (PStr <$> arrayName) +:+ "' accessed at line " +:+
                  show_line line +:+ " without prior length or null check."))
              st
        else st
    | None => st
    end
  else st.

(** [checkUncheckedArrayAccess(ast, issues)] *)
Definition checkUncheckedArrayAccess (ast : Node) (issues : list Issue) : list Issue :=
  let checkedIdentifiers := visit on_guard (traverse_paths ast) ∅ in
  found (visit (on_access checkedIdentifiers) (traverse_paths ast) (mkReporting issues ∅)).

Definition VALIDATOR_NAME : regex :=
  mkRegex true (alts (map lit_ci ["validate"; "check"; "verify"; "sanitize"; "parse"])) false.

(** [isBeingValidated(path)] *)
Definition isBeingValidated (path : Path) : bool :=
  existsb (fun current =>
             bool_decide (type (node current) = "IfStatement") ||
             (bool_decide (type (node current) = "CallExpression") &&
              match child (node current) "callee" with
              | Some callee =>
                  bool_decide (type callee = "Identifier") &&
                  test VALIDATOR_NAME (show (prop callee "name"))
              | None => false
              end))
          (ancestors path).

Definition inputPatterns : list string := ["body"; "params"; "query"; "headers"].

(** The state of the visitor of [checkUncheckedExternalInput]. *)
Record InputState := mkInputState {
  input_issues : Reporting string;
  validatedInputs : gset string;
}.

(** The visitor of [checkUncheckedExternalInput]. *)
Definition on_input (path : Path) (st : InputState) : InputState :=
  let n := node path in
  if bool_decide (type n = "MemberExpression") then
    match child n "object", child n "property" with
    | Some object, Some property =>
        if bool_decide (type object = "Identifier") &&
           (Security.name_is object "req" || Security.name_is object "request") &&
           bool_decide (type property = "Identifier") &&
           bool_decide (name_of property ∈ inputPatterns) then
          let inputPath := name_of object +:+ "." +:+ name_of property in
          let line := line_of n in
          if isBeingValidated path then
            mkInputState (input_issues st) ({[ inputPath ]} ∪ validatedInputs st)
          else if bool_decide (inputPath ∈ validatedInputs st) then st
          else
            let key := inputPath +:+ ":" +:+ show_line line in
            if bool_decide (key ∈ reported (input_issues st)) then st
            else
              mkInputState
                (report key
                   (issue UNCHECKED_EXTERNAL_INPUT
                      ("External input '" +:+ inputPath +:+ "' used at line " +:+
                       show_line line +:+ " without apparent validation."))
                   (input_issues st))
                (validatedInputs st)
        else st
    | _, _ => st
    end
  else st.

(** [checkUncheckedExternalInput(ast, issues)] *)
Definition checkUncheckedExternalInput (ast : Node) (issues : list Issue) : list Issue :=
  found (input_issues
           (visit on_input (traverse_paths ast) (mkInputState (mkReporting issues ∅) ∅))).

(** [analyzeEdgeCases(ast)] *)
Definition analyzeEdgeCases (ast : Node) : list Issue :=
  let issues := [] in
  let issues := checkAsyncWithoutTryCatch ast issues in
  let issues := checkUncheckedArrayAccess ast issues in
  let issues := checkUncheckedExternalInput ast issues in
  issues.

End EdgeCases.

(** ** Structural metrics (astMetrics.js)

    The module repeats [calculateFunctionComplexity],
    [calculateGlobalComplexity] and [isGlobalLevel] of the complexity
    detector word for word; the definitions of [Complexity] stand for
    both. *)

Module Metrics.

Record Metrics := mkMetrics {
  maxNestingDepth : Z;
  maxCyclomaticComplexity : Z;
  maxFunctionLength : Z;
  totalFunctions : Z;
}.

(** [calculateNestingDepth(path)] *)
Definition calculateNestingDepth (path : Path) : Z := nestingDepth path.

(** The visitor of [extractMetrics]. *)
Definition on_node (path : Path) (m : Metrics) : Metrics :=
  let n := node path in
  if bool_decide (type n = "BlockStatement") then
    let depth := calculateNestingDepth path in
    if maxNestingDepth m <? depth
    then mkMetrics depth (maxCyclomaticComplexity m) (maxFunctionLength m) (totalFunctions m)
    else m
  else if is_function_type (type n) then
    let total := totalFunctions m + 1 in
    let len :=
      match loc n with
      | Some l =>
          let lines := end_line l - start_line l + 1 in
          if maxFunctionLength m <? lines then lines else maxFunctionLength m
      | None => maxFunctionLength m
      end in
    let complexity := Complexity.calculateFunctionComplexity path in
    let cc := if maxCyclomaticComplexity m <? complexity then complexity
              else maxCyclomaticComplexity m in
    mkMetrics (maxNestingDepth m) cc len total
  else m.

(** [extractMetrics(ast)] *)
Definition extractMetrics (ast : Node) : Metrics :=
  let m := visit on_node (traverse_paths ast) (mkMetrics 0 0 0 0) in
  if totalFunctions m =? 0 then
    mkMetrics (maxNestingDepth m) (Complexity.calculateGlobalComplexity ast)
              (maxFunctionLength m) (totalFunctions m)
  else m.

End Metrics.

(** ** The review decision engine (reviewDecision.js) *)

Module Decision.

Inductive Decision :=
| NOT_READY_FOR_REVIEW
| NEEDS_REFACTOR
| READY_FOR_HUMAN_REVIEW.

Definition REJECT_TOTAL : Z := 65.
Definition REJECT_CATEGORY : Z := 10.
Definition REFACTOR_MAX : Z := 80.

Definition CRITICAL_SECURITY_PATTERNS : list string :=
  ["eval"; "Function()"; "child_process"; "hardcoded secret"].

Record Scores := mkScores {
  readability : CategoryScore;
  complexity : CategoryScore;
  edgeCases : CategoryScore;
  security : CategoryScore;
  totalScore : Z;
}.

Record DecisionDetails := mkDetails {
  d_totalScore : Z;
  categoryScores : list (string * Z);
  failedCategories : list string;
  hasCriticalDeductions : bool;
}.

Record Result := mkResult {
  decision : Decision;
  decisionReason : string;
  decisionDetails : DecisionDetails;
}.

(** [checkCriticalDeductions(comments)] *)
Definition checkCriticalDeductions (comments : list string) : bool :=
  let lowerComments := map JS.toLowerCase comments in
  existsb (fun pattern =>
             existsb (fun comment => JS.includes comment (JS.toLowerCase pattern))
                     lowerComments)
          CRITICAL_SECURITY_PATTERNS.

(** [categoryScores[cat]] interpolated into a template. *)
Definition show_entry (categoryScores : list (string * Z)) (cat : string) : string :=
  match list_find (fun e => e.1 = cat) categoryScores with
  | Some (_, (_, v)) => JS.toString v
  | None => "undefined"
  end.

(** [buildRejectReason(totalScore, failedCategories, categoryScores)] *)
Definition buildRejectReason (totalScore : Z) (failedCategories : list string)
    (categoryScores : list (string * Z)) : string :=
  let reasons1 :=
    if totalScore <? REJECT_TOTAL then
      ["Total score " +:+ JS.toString totalScore +:+ " is below minimum threshold (" +:+
       JS.toString REJECT_TOTAL +:+ ")"]
    else [] in
  let reasons2 :=
    if (0 <? length failedCategories)%nat then
      let failedDetails :=
        JS.join ", " (map (fun cat => cat +:+ ": " +:+ show_entry categoryScores cat)
                          failedCategories) in
      reasons1 ++
      ["Critical deficiencies in: " +:+ failedDetails +:+ " (minimum: " +:+
       JS.toString REJECT_CATEGORY +:+ ")"]
    else reasons1 in
  JS.join ". " reasons2 +:+ ". Code requires significant improvements before review.".

(** [buildRefactorReason(totalScore)] *)
Definition buildRefactorReason (totalScore : Z) : string :=
  let gap := REFACTOR_MAX - totalScore in
  "Total score " +:+ JS.toString totalScore +:+ " indicates code needs refactoring (" +:+
  JS.toString gap +:+ " points below optimal). " +:+
  "Address flagged issues to improve maintainability before human review.".

(** [buildReadyReason(totalScore, categoryScores)] *)
Definition buildReadyReason (totalScore : Z) (categoryScores : list (string * Z)) : string :=
  let sorted := JS.sort_by snd categoryScores in
  let message :=
    "Code quality score " +:+ JS.toString totalScore +:+
    "/100 meets standards for human review." in
  match sorted with
  | lowest :: _ =>
      if lowest.2 <? 20 then
        message +:+ " Reviewer should pay attention to " +:+ lowest.1 +:+ " (" +:+
        JS.toString lowest.2 +:+ "/25)."
      else message
  | [] => message
  end.

(** The object [categoryScores] of [determineDecision], as its entries. *)
Definition categoryScores_of (scores : Scores) : list (string * Z) :=
  [ ("readability", score (readability scores));
    ("complexity", score (complexity scores));
    ("edgeCases", score (edgeCases scores));
    ("security", score (security scores)) ].

(** [determineDecision(scores)] *)
Definition determineDecision (scores : Scores) : Result :=
  let totalScore := totalScore scores in
  let categoryScores := categoryScores_of scores in
  let failedCategories :=
    omap (fun e : string * Z => if e.2 <? REJECT_CATEGORY then Some e.1 else None)
         categoryScores in
  let hasCriticalDeductions := checkCriticalDeductions (comments (security scores)) in
  let decisionDetails :=
    mkDetails totalScore categoryScores failedCategories hasCriticalDeductions in
  if (totalScore <? REJECT_TOTAL) || (0 <? length failedCategories)%nat then
    mkResult NOT_READY_FOR_REVIEW
      (buildRejectReason totalScore failedCategories categoryScores)
      decisionDetails
  else if totalScore <=? REFACTOR_MAX then
    mkResult NEEDS_REFACTOR (buildRefactorReason totalScore) decisionDetails
  else if hasCriticalDeductions then
    mkResult NEEDS_REFACTOR
      ("Total score " +:+ JS.toString totalScore +:+
       " is good, but critical security issues detected. " +:+
       "Address security concerns before human review.")
      decisionDetails
  else
    mkResult READY_FOR_HUMAN_REVIEW (buildReadyReason totalScore categoryScores)
      decisionDetails.

End Decision.

(** ** Doubles

    The numbers of the program are IEEE 754 doubles.  On integers within
    the safe range their sums, differences and comparisons are exact; a
    quotient and a product are rounded to the nearest double.  These are
    the rounded operations, in binary64. *)

Module Double.

Definition prec : Z := 53.
Definition emax : Z := 1024.

(** The double that holds an integer. *)
Definition of_Z (z : Z) : spec_float := binary_normalize prec emax z 0 false.

Definition mul : spec_float -> spec_float -> spec_float := SFmul prec emax.
Definition div : spec_float -> spec_float -> spec_float := SFdiv prec emax.

(** [Math.round] of a finite double. *)
Definition Math_round (x : spec_float) : Z :=
  match x with
  | S754_finite sign m e =>
      let v := if sign then Z.neg m else Z.pos m in
      if 0 <=? e then v * 2 ^ e
      else (2 * v + 2 ^ (- e)) / (2 * 2 ^ (- e))
  | _ => 0
  end.

End Double.

(** ** The Review Cost Index (reviewCostIndex.js) *)

Module RCI.

Import Metrics.

Inductive FactorName :=
| nestingDepth
| cyclomaticComplexity
| functionLength
| securityDeductions.

(** [RCI_WEIGHTS], in the order of its keys. *)
Definition RCI_WEIGHTS : list (FactorName * Q) :=
  [ (nestingDepth, 0.25%Q);
    (cyclomaticComplexity, 0.30%Q);
    (functionLength, 0.20%Q);
    (securityDeductions, 0.25%Q) ].

Record Band := mkBand { band_min : Z; band_max : Z }.

(** [NORMALIZATION] *)
Definition NORMALIZATION (f : FactorName) : Band :=
  match f with
  | nestingDepth => mkBand 0 8
  | cyclomaticComplexity => mkBand 1 25
  | functionLength => mkBand 0 100
  | securityDeductions => mkBand 0 25
  end.

Record Level := mkLevel { level_max : Z; label : string; meaning : string }.

(** [RCI_LEVELS] *)
Definition LOW : Level := mkLevel 33 "LOW" "Readable in one pass".
Definition MEDIUM : Level := mkLevel 66 "MEDIUM" "Requires re-reading, moderate effort".
Definition HIGH : Level :=
  mkLevel 100 "HIGH" "Likely rejection or heavy commenting required".

(** [normalizeMetric(value, min, max)]: the quotient and the product are
    those of doubles. *)
Definition normalizeMetric (value min max : Z) : Z :=
  if value <=? min then 0
  else if max <=? value then 100
  else
    Double.Math_round
      (Double.mul (Double.div (Double.of_Z (value - min)) (Double.of_Z (max - min)))
                  (Double.of_Z 100)).

(** [getRawValue(factor, metrics, securityDeductions)] *)
Definition getRawValue (factor : FactorName) (metrics : Metrics) (deductions : Z) : Z :=
  match factor with
  | nestingDepth => maxNestingDepth metrics
  | cyclomaticComplexity => maxCyclomaticComplexity metrics
  | functionLength => maxFunctionLength metrics
  | securityDeductions => deductions
  end.

(** [determineLevel(score)] *)
Definition determineLevel (score : Z) : Level :=
  if score <=? level_max LOW then LOW
  else if score <=? level_max MEDIUM then MEDIUM
  else HIGH.

Record Factor := mkFactor {
  rawValue : Z;
  normalized : Z;
  weight : Q;
  contribution : Z;
}.

(** [formatFactorName(factor)] *)
Definition formatFactorName (factor : FactorName) : string :=
  match factor with
  | nestingDepth => "deep nesting"
  | cyclomaticComplexity => "high cyclomatic complexity"
  | functionLength => "long functions"
  | securityDeductions => "security concerns"
  end.

(** [generateExplanation(level, factors, totalScore)]; the sort is by
    falling contribution. *)
Definition generateExplanation (level : Level) (factors : list (FactorName * Factor))
    (totalScore : Z) : string :=
  let sortedFactors := JS.sort_by (fun e : FactorName * Factor => - contribution e.2) factors in
  match sortedFactors with
  | topFactor :: _ =>
      let topFactorName := formatFactorName topFactor.1 in
      if bool_decide (label level = "LOW") then
        "This code is straightforward to review (RCI: " +:+ JS.toString totalScore +:+ "). " +:+
        "Clear structure and manageable complexity allow single-pass review."
      else if bool_decide (label level = "MEDIUM") then
        "This code requires moderate review effort (RCI: " +:+ JS.toString totalScore +:+ "). " +:+
        "Main contributor: " +:+ topFactorName +:+ ". " +:+
        "Reviewer may need to re-read sections for full understanding."
      else
        "This code demands significant review effort (RCI: " +:+ JS.toString totalScore +:+ "). " +:+
        "Primary concern: " +:+ topFactorName +:+ " (" +:+
        JS.toString (contribution topFactor.2) +:+ " points). " +:+
        "Expect detailed commenting or potential rejection."
  | [] => EmptyString
  end.

Record Result := mkResult {
  level : string;
  score : Z;
  factors : list (FactorName * Factor);
  humanExplanation : string;
}.

(** The value [normalizedMetrics[factor]]. *)
Definition normalizedMetric (factor : FactorName) (metrics : Metrics) (deductions : Z) : Z :=
  normalizeMetric (getRawValue factor metrics deductions)
                  (band_min (NORMALIZATION factor)) (band_max (NORMALIZATION factor)).

(** One turn of the loop over [Object.entries(RCI_WEIGHTS)]. *)
Definition weigh (metrics : Metrics) (deductions : Z)
    (acc : Z * list (FactorName * Factor)) (entry : FactorName * Q)
    : Z * list (FactorName * Factor) :=
  let '(factor, w) := entry in
  let contribution :=
    JS.Math_round (inject_Z (normalizedMetric factor metrics deductions) * w)%Q in
  (acc.1 + contribution,
   acc.2 ++ [(factor,
              mkFactor (getRawValue factor metrics deductions)
                       (normalizedMetric factor metrics deductions) w contribution)]).

(** [calculateRCI(metrics, securityScore)] *)
Definition calculateRCI (metrics : Metrics) (securityScore : Z) : Result :=
  let deductions := 25 - securityScore in
  let '(total, factors) := foldl (weigh metrics deductions) (0, []) RCI_WEIGHTS in
  let totalScore := Z.min 100 (Z.max 0 total) in
  let level := determineLevel totalScore in
  mkResult (label level) totalScore factors (generateExplanation level factors totalScore).

(** The normalisation as the specification words it: 0 at or below the
    lower end of the band, 100 at or above the upper end, linear in
    between, with no rounding of its own. *)
Definition linear_normalized (value min max : Z) : Q :=
  if value <=? min then 0%Q
  else if max <=? value then 100%Q
  else ((inject_Z (value - min) / inject_Z (max - min)) * 100)%Q.

(** The contribution of a factor under that wording: the linear value
    times the weight, rounded. *)
Definition linear_contribution (factor : FactorName) (w : Q) (raw : Z) : Z :=
  JS.Math_round
    (linear_normalized raw (band_min (NORMALIZATION factor)) (band_max (NORMALIZATION factor)) * w)%Q.

End RCI.

(** ** The arithmetic of the Review Cost Index, in binary64 and exactly

    [normalizeMetric] is embedded on doubles.  The products by the
    weights and the averages of the batch aggregator are embedded on exact
    rationals; this module replays them in binary64 and gives
    [normalizeMetric] its exact counterpart, for the comparison of the
    two on the values the program meets. *)

Module Binary64.

Import Double.

(** The doubles of the literals [0.25], [0.30] and [0.20]: the doubles
    nearest to 1/4, 3/10 and 1/5. *)
Definition lit_0_25 : spec_float := div (of_Z 1) (of_Z 4).
Definition lit_0_30 : spec_float := div (of_Z 3) (of_Z 10).
Definition lit_0_20 : spec_float := div (of_Z 1) (of_Z 5).

(** [normalizeMetric(value, min, max)] on doubles: the function of the
    program. *)
Definition normalizeMetric (value min max : Z) : Z := RCI.normalizeMetric value min max.

(** Its exact counterpart: the quotient and the product are those of the
    rationals. *)
Definition exact_normalizeMetric (value min max : Z) : Z :=
  if value <=? min then 0
  else if max <=? value then 100
  else JS.Math_round ((inject_Z (value - min) / inject_Z (max - min)) * 100)%Q.

Definition weight (factor : RCI.FactorName) : spec_float :=
  match factor with
  | RCI.nestingDepth => lit_0_25
  | RCI.cyclomaticComplexity => lit_0_30
  | RCI.functionLength => lit_0_20
  | RCI.securityDeductions => lit_0_25
  end.

(** [Math.round(normalizedMetrics[factor] * weight)] on doubles. *)
Definition contribution (factor : RCI.FactorName) (normalized : Z) : Z :=
  Math_round (mul (of_Z normalized) (weight factor)).

(** The contribution as the specification words it, on doubles: the
    linear value is not rounded before it is weighted. *)
Definition linear_contribution (factor : RCI.FactorName) (raw : Z) : Z :=
  let lo := RCI.band_min (RCI.NORMALIZATION factor) in
  let hi := RCI.band_max (RCI.NORMALIZATION factor) in
  let linear :=
    if raw <=? lo then of_Z 0
    else if hi <=? raw then of_Z 100
    else mul (div (of_Z (raw - lo)) (of_Z (hi - lo))) (of_Z 100) in
  Math_round (mul linear (weight factor)).

(** The exact counterparts. *)
Definition exact_weight (factor : RCI.FactorName) : Q :=
  match factor with
  | RCI.nestingDepth => 0.25%Q
  | RCI.cyclomaticComplexity => 0.30%Q
  | RCI.functionLength => 0.20%Q
  | RCI.securityDeductions => 0.25%Q
  end.

Definition exact_contribution (factor : RCI.FactorName) (normalized : Z) : Z :=
  JS.Math_round (inject_Z normalized * exact_weight factor)%Q.

(** The two evaluations agree on the raw values [lo + 1, ..., hi - 1] of a
    band and on every normalised value. *)
Definition agree_on_band (factor : RCI.FactorName) : bool :=
  let lo := RCI.band_min (RCI.NORMALIZATION factor) in
  let hi := RCI.band_max (RCI.NORMALIZATION factor) in
  forallb (fun v => normalizeMetric v lo hi =? exact_normalizeMetric v lo hi)
          (seqZ (lo + 1) (hi - lo - 1)) &&
  forallb (fun n => contribution factor n =? exact_contribution factor n) (seqZ 0 101).

(** [Math.round(score / totalFiles)] on doubles, and its exact
    counterpart; the two are compared for every batch of up to [files]
    files, whose category sums run from 0 to 25 per file. *)
Definition average (sum totalFiles : Z) : Z :=
  Math_round (div (of_Z sum) (of_Z totalFiles)).

Definition exact_average (sum totalFiles : Z) : Z :=
  JS.Math_round (inject_Z sum / inject_Z totalFiles)%Q.

Definition agree_on_averages (files : Z) : bool :=
  forallb (fun n =>
             forallb (fun sum => average sum n =? exact_average sum n) (seqZ 0 (25 * n + 1)))
          (seqZ 1 files).

End Binary64.

(** ** The server pipeline (scorer/aggregator.js and engine.js) *)

(** The two outcomes of [parser.parse]: a tree, or an exception whose
    [message] is kept. *)
Inductive Parse :=
| Tree (ast : Node)
| SyntaxError (message : string).

(** The two [return]s of [parseCode]: [{ ast, error: null }] and
    [{ ast: null, error }]. *)
Inductive ParseResult :=
| Parsed (ast : Node)
| Failed (error : string).

(** [parseCode(code)], over the parser it wraps; the server copy and the
    browser copy have the same text.  [parseCode_of] is its [try] and its
    [catch], applied to what the parser did. *)
Definition parseCode_of (outcome : Parse) : ParseResult :=
  match outcome with
  | Tree ast => Parsed ast
  | SyntaxError message => Failed ("Syntax Error: " +:+ message)
  end.

Definition parseCode (parser_parse : string -> Parse) (code : string) : ParseResult :=
  parseCode_of (parser_parse code).

(** A computation of the engine, with its two effects in the open: it
    asks the parser for the tree of a text and goes on with the answer, or
    it throws an [Error] with a message, or it is done. *)
Inductive Run (A : Type) :=
| Done (a : A)
| Throw (message : string)
| AskParser (code : string) (k : Parse -> Run A).

Arguments Done {A} a.
Arguments Throw {A} message.
Arguments AskParser {A} code k.

(** What a caller sees of a computation. *)
Inductive Outcome (A : Type) :=
| Returns (r : A)
| Throws (message : string).

Arguments Returns {A} r.
Arguments Throws {A} message.

(** Running a computation against a parser. *)
Fixpoint run {A} (parser_parse : string -> Parse) (c : Run A) : Outcome A :=
  match c with
  | Done a => Returns a
  | Throw message => Throws message
  | AskParser code k => run parser_parse (k (parser_parse code))
  end.

(** The texts a computation hands to the parser, in order. *)
Fixpoint parsed_texts {A} (parser_parse : string -> Parse) (c : Run A) : list string :=
  match c with
  | Done _ => []
  | Throw _ => []
  | AskParser code k => code :: parsed_texts parser_parse (k (parser_parse code))
  end.

Definition UNABLE : string := "Unable to analyze: code has syntax errors".

Module Server.

(** Modelled from the spec: the server module rules/complexity.js is
    not among the sources.  Section 4.2 gives its schedule (complexity
    up to 5: 0; up to 10: 3; up to 15: 6; up to 20: 10; above 20: 15,
    once per function, module-level control flow when there is no
    function), and the browser copy states that it has the same logic as
    the server version.  The server detector is taken to be that copy. *)
Definition analyzeComplexity (ast : Node) : list Issue := Complexity.analyzeComplexity ast.

(** The object [analyzeCode] returns.  The fields [decisionDetails] and
    [metrics] are absent from the result of a failed parse, and [error]
    from the result of a successful one. *)
Record AnalysisResult := mkAnalysis {
  readability : CategoryScore;
  complexity : CategoryScore;
  edgeCases : CategoryScore;
  security : CategoryScore;
  totalScore : Z;
  decision : Decision.Decision;
  decisionReason : string;
  decisionDetails : option Decision.DecisionDetails;
  reviewCost : RCI.Result;
  metrics : option Metrics.Metrics;
  error : option string;
}.

(** The body of [analyzeCode] after its call of [parseCode]. *)
Definition analyzeParsed (parsed : ParseResult) : AnalysisResult :=
  match parsed with
  | Failed error =>
      {| readability := mkCategory 0 [UNABLE];
         complexity := mkCategory 0 [UNABLE];
         edgeCases := mkCategory 0 [UNABLE];
         security := mkCategory 0 [UNABLE];
         totalScore := 0;
         decision := Decision.NOT_READY_FOR_REVIEW;
         decisionReason := "Code has syntax errors and cannot be analyzed.";
         decisionDetails := None;
         reviewCost :=
           RCI.mkResult "HIGH" 100 [] "Code cannot be parsed due to syntax errors.";
         metrics := None;
         error := Some error |}
  | Parsed ast =>
      let readabilityIssues := Readability.analyzeReadability ast in
      let complexityIssues := analyzeComplexity ast in
      let edgeCaseIssues := EdgeCases.analyzeEdgeCases ast in
      let securityIssues := Security.analyzeSecurity ast in
      let readability := aggregateCategory MAX_SCORE readabilityIssues in
      let complexity := aggregateCategory MAX_SCORE complexityIssues in
      let edgeCases := aggregateCategory MAX_SCORE edgeCaseIssues in
      let security := aggregateCategory MAX_SCORE securityIssues in
      let totalScore := score readability + score complexity + score edgeCases + score security in
      let scores := Decision.mkScores readability complexity edgeCases security totalScore in
      let metrics := Metrics.extractMetrics ast in
      let d := Decision.determineDecision scores in
      let reviewCost := RCI.calculateRCI metrics (score security) in
      {| readability := readability;
         complexity := complexity;
         edgeCases := edgeCases;
         security := security;
         totalScore := totalScore;
         decision := Decision.decision d;
         decisionReason := Decision.decisionReason d;
         decisionDetails := Some (Decision.decisionDetails d);
         reviewCost := reviewCost;
         metrics := Some metrics;
         error := None |}
  end.

(** [analyzeCode(code)], as a function of the parser. *)
Definition analyzeCode (parser_parse : string -> Parse) (code : string) : AnalysisResult :=
  analyzeParsed (parseCode parser_parse code).

(** [analyzeCode(code)], as a computation: one question to the parser. *)
Definition analyzeCode_steps (code : string) : Run AnalysisResult :=
  AskParser code (fun outcome => Done (analyzeParsed (parseCode_of outcome))).

(** The keys of the object literal [analyzeCode] returns, in order. *)
Definition result_keys (r : AnalysisResult) : list string :=
  match error r with
  | Some _ =>
      ["readability"; "complexity"; "edgeCases"; "security"; "totalScore"; "decision";
       "decisionReason"; "reviewCost"; "error"]
  | None =>
      ["readability"; "complexity"; "edgeCases"; "security"; "totalScore"; "decision";
       "decisionReason"; "decisionDetails"; "reviewCost"; "metrics"]
  end.

(** A value handed to [analyze]: of interest is whether it is a string. *)
Inductive Value :=
| VUndefined
| VNull
| VBoolean (b : bool)
| VNumber (n : Z)
| VString (s : string)
| VObject.

(** [analyze(code)]: the two checks, then the call of [analyzeCode]. *)
Definition analyze (code : Value) : Run AnalysisResult :=
  match code with
  | VString s =>
      if (String.length (JS.trim s) =? 0)%nat then
        Throw ("Invalid input: " +:+ dquoted "code" +:+ " cannot be empty")
      else analyzeCode_steps s
  | _ => Throw ("Invalid input: " +:+ dquoted "code" +:+ " must be a string")
  end.

End Server.

(** ** The verdict engine of the browser pipeline (verdictEngine.js) *)

Module Verdict.

Inductive Verdict :=
| APPROVE
| APPROVE_WITH_NITS
| REQUEST_CHANGES
| BLOCK_MERGE.

(** The string constant of [VERDICTS]. *)
Definition name (v : Verdict) : string :=
  match v with
  | APPROVE => "APPROVE"
  | APPROVE_WITH_NITS => "APPROVE_WITH_NITS"
  | REQUEST_CHANGES => "REQUEST_CHANGES"
  | BLOCK_MERGE => "BLOCK_MERGE"
  end.

(** [VERDICT_CONFIG[verdict].description] *)
Definition description (v : Verdict) : string :=
  match v with
  | APPROVE => "Code quality meets standards. Ready to merge."
  | APPROVE_WITH_NITS => "Minor issues found. Can proceed but consider addressing."
  | REQUEST_CHANGES => "Issues need attention before merging."
  | BLOCK_MERGE => "Critical issues detected. Must be resolved."
  end.

Record Thresholds := mkThresholds {
  APPROVE_MIN : Z;
  APPROVE_WITH_NITS_MIN : Z;
  REQUEST_CHANGES_MIN : Z;
}.

Definition THRESHOLDS : Thresholds := mkThresholds 85 75 65.

(** The [aggregated] object as the explanation reads it: the score of
    each category, [None] where [aggregated.category?.score] is
    undefined. *)
Record Aggregated := mkAggregated {
  a_readability : option Z;
  a_complexity : option Z;
  a_edgeCases : option Z;
  a_security : option Z;
}.

(** The argument of [determineVerdict]. *)
Record AnalysisInput := mkInput {
  totalScore : Z;
  criticalIssues : option (list Issue);
  aggregated : option Aggregated;
}.

Record CriticalEntry := mkEntry { file : string; entry_issue : string }.

Record Details := mkDetails {
  scoreBasedVerdict : Verdict;
  wasOverridden : bool;
  criticalIssueCount : option Z;
  detail_issues : option (list CriticalEntry);
  thresholds : option Thresholds;
}.

Record Result := mkResult {
  verdict : Verdict;
  explanation : string;
  overrideReason : option string;
  details : Details;
}.

(** [getScoreBasedVerdict(totalScore)] *)
Definition getScoreBasedVerdict (totalScore : Z) : Verdict :=
  if APPROVE_MIN THRESHOLDS <=? totalScore then APPROVE
  else if APPROVE_WITH_NITS_MIN THRESHOLDS <=? totalScore then APPROVE_WITH_NITS
  else if REQUEST_CHANGES_MIN THRESHOLDS <=? totalScore then REQUEST_CHANGES
  else BLOCK_MERGE.

(** [x ?? 25] *)
Definition or25 (x : option Z) : Z :=
  match x with
  | Some v => v
  | None => 25
  end.

(** [findWeakestCategory(aggregated)]: a [reduce] without initial value
    that keeps the earlier of two equal scores. *)
Definition findWeakestCategory (aggregated : Aggregated) : string * Z :=
  foldl (fun min cat => if cat.2 <? min.2 then cat else min)
        ("readability", or25 (a_readability aggregated))
        [ ("complexity", or25 (a_complexity aggregated));
          ("edgeCases", or25 (a_edgeCases aggregated));
          ("security", or25 (a_security aggregated)) ].

(** [x < threshold] on a score that may be undefined. *)
Definition below (x : option Z) (threshold : Z) : bool :=
  match x with
  | Some v => v <? threshold
  | None => false
  end.

(** [findSignificantIssues(aggregated)] *)
Definition findSignificantIssues (aggregated : Aggregated) : list string :=
  let threshold := 15 in
  (if below (a_readability aggregated) threshold then ["readability"] else []) ++
  (if below (a_complexity aggregated) threshold then ["complexity"] else []) ++
  (if below (a_edgeCases aggregated) threshold then ["edge case handling"] else []) ++
  (if below (a_security aggregated) threshold then ["security"] else []).

(** [`Score: ${totalScore}/100 â€” Verdict: ${v}`], the template of
    [determineVerdict] and of [buildExplanation]: between the score and
    the verdict its text holds the three characters U+00E2, U+20AC and
    U+201D. *)
Definition score_line (totalScore : Z) (v : string) : string :=
  "Score: " +:+ JS.toString totalScore +:+ "/100 â€” Verdict: " +:+ v.

(** [buildExplanation(verdict, totalScore, aggregated)] *)
Definition buildExplanation (verdict : Verdict) (totalScore : Z)
    (aggregated : option Aggregated) : string :=
  let explanation := score_line totalScore (name verdict) in
  match verdict with
  | APPROVE => explanation +:+ ". " +:+ description verdict
  | APPROVE_WITH_NITS =>
      let explanation1 := explanation +:+ ". " +:+ description verdict in
      match aggregated with
      | Some a =>
          let weakest := findWeakestCategory a in
          explanation1 +:+ " Pay attention to " +:+ weakest.1 +:+ " (" +:+
          JS.toString weakest.2 +:+ "/25)."
      | None => explanation1
      end
  | REQUEST_CHANGES =>
      let explanation1 := explanation +:+ ". " +:+ description verdict in
      match aggregated with
      | Some a =>
          let issues := findSignificantIssues a in
          if (0 <? length issues)%nat
          then explanation1 +:+ " Focus on: " +:+ JS.join ", " issues +:+ "."
          else explanation1
      | None => explanation1
      end
  | BLOCK_MERGE =>
      explanation +:+ ". Score is below minimum threshold (" +:+
      JS.toString (REQUEST_CHANGES_MIN THRESHOLDS) +:+ "). " +:+ description verdict
  end.

(** The callback that names the kind of a critical issue. *)
Definition criticalType (i : Issue) : string :=
  if JS.includes (comment i) "eval" then "eval() usage"
  else if JS.includes (comment i) "Function()" then "Function() constructor"
  else if JS.includes (comment i) "child_process" then "child_process usage"
  else "critical security issue".

(** [i.filename || 'unknown'] *)
Definition file_of (i : Issue) : string :=
  match issue_filename i with
  | Some f => if bool_decide (f = EmptyString) then "unknown" else f
  | None => "unknown"
  end.

(** [determineVerdict(analysisResult)] *)
Definition determineVerdict (analysisResult : AnalysisInput) : Result :=
  let totalScore := totalScore analysisResult in
  let criticalIssues :=
    match criticalIssues analysisResult with
    | Some l => l
    | None => []
    end in
  let hasCriticalIssues := (0 <? length criticalIssues)%nat in
  if hasCriticalIssues then
    let criticalTypes := JS.Set_spread ∅ (map criticalType criticalIssues) in
    mkResult BLOCK_MERGE
      (score_line totalScore "BLOCK_MERGE")
      (Some ("Critical security issues detected: " +:+ JS.join ", " criticalTypes))
      (mkDetails (getScoreBasedVerdict totalScore) true
         (Some (Z.of_nat (length criticalIssues)))
         (Some (map (fun i => mkEntry (file_of i) (comment i)) criticalIssues))
         None)
  else
    let verdict := getScoreBasedVerdict totalScore in
    mkResult verdict
      (buildExplanation verdict totalScore (aggregated analysisResult))
      None
      (mkDetails verdict false None None (Some THRESHOLDS)).

End Verdict.

(** ** The browser pipeline (aggregator.browser.js) *)

Module Browser.

Record AnalysisResult := mkAnalysis {
  filename : string;
  readability : CategoryScore;
  complexity : CategoryScore;
  edgeCases : CategoryScore;
  security : CategoryScore;
  totalScore : Z;
  criticalIssues : list Issue;
  error : option string;
}.

Record File := mkFile { file_name : string; content : string }.

(** A category of the [aggregated] object.  Its score is summed and then
    divided, so it is a number that could fail to be finite. *)
Record AggregateCategory := mkAggregateCategory {
  agg_score : JS.Number;
  agg_comments : list string;
}.

Record Aggregate := mkAggregate {
  agg_readability : AggregateCategory;
  agg_complexity : AggregateCategory;
  agg_edgeCases : AggregateCategory;
  agg_security : AggregateCategory;
  agg_totalScore : JS.Number;
}.

Record Batch := mkBatch {
  files : list AnalysisResult;
  aggregated : Aggregate;
  allCriticalIssues : list Issue;
}.

(** [extractCriticalIssues(securityIssues)] *)
Definition extractCriticalIssues (securityIssues : list Issue) : list Issue :=
  filter (fun i => severity i = Some CRITICAL) securityIssues.

Section Pipeline.

(** Babel's [parser.parse] with the options of [parseCode]. *)
Variable parser_parse : string -> Parse.

(** The readability detector of the browser (its module is not among
    the sources) and the edge-case detector of the browser: two
    detectors of the common contract, a tree in, issues out. *)
Variable analyzeReadability : Node -> list Issue.
Variable analyzeEdgeCases : Node -> list Issue.

(** [analyzeCode(code, filename = 'unknown')] *)
Definition analyzeCode (code : string) (filename_arg : option string) : AnalysisResult :=
  let filename :=
    match filename_arg with
    | Some f => f
    | None => "unknown"
    end in
  match parseCode parser_parse code with
  | Failed error =>
      mkAnalysis filename (mkCategory 0 [UNABLE]) (mkCategory 0 [UNABLE])
        (mkCategory 0 [UNABLE]) (mkCategory 0 [UNABLE]) 0 [] (Some error)
  | Parsed ast =>
      let readabilityIssues := analyzeReadability ast in
      let complexityIssues := Complexity.analyzeComplexity ast in
      let edgeCaseIssues := analyzeEdgeCases ast in
      let securityIssues := BrowserSecurity.analyzeSecurity ast in
      let criticalIssues := extractCriticalIssues securityIssues in
      let readability := aggregateCategory MAX_SCORE readabilityIssues in
      let complexity := aggregateCategory MAX_SCORE complexityIssues in
      let edgeCases := aggregateCategory MAX_SCORE edgeCaseIssues in
      let security := aggregateCategory MAX_SCORE securityIssues in
      let totalScore := score readability + score complexity + score edgeCases + score security in
      mkAnalysis filename readability complexity edgeCases security totalScore
        criticalIssues None
  end.

(** [{ ...issue, filename: result.filename }] *)
Definition with_filename (fname : string) (i : Issue) : Issue :=
  mkIssue (penalty i) (comment i) (severity i) (Some fname).

(** [category.score += result.category.score;
    category.comments.push(...result.category.comments.map(...))] *)
Definition accumulate (fname : string) (acc : AggregateCategory) (c : CategoryScore)
    : AggregateCategory :=
  mkAggregateCategory (JS.plus (agg_score acc) (JS.Int (score c)))
    (agg_comments acc ++ map (fun c => "[" +:+ fname +:+ "] " +:+ c) (comments c)).

(** The body of the loop [for (const result of results)]. *)
Definition collect (st : Aggregate * list Issue) (result : AnalysisResult)
    : Aggregate * list Issue :=
  let '(agg, critical) := st in
  (mkAggregate
     (accumulate (filename result) (agg_readability agg) (readability result))
     (accumulate (filename result) (agg_complexity agg) (complexity result))
     (accumulate (filename result) (agg_edgeCases agg) (edgeCases result))
     (accumulate (filename result) (agg_security agg) (security result))
     (agg_totalScore agg),
   critical ++ map (with_filename (filename result)) (criticalIssues result)).

(** [category.score = Math.round(category.score / totalFiles)] *)
Definition average (totalFiles : Z) (c : AggregateCategory) : AggregateCategory :=
  mkAggregateCategory (JS.round_quotient (agg_score c) totalFiles) (agg_comments c).

(** The object [aggregated] starts from. *)
Definition initial : Aggregate :=
  let empty := mkAggregateCategory (JS.Int 0) [] in
  mkAggregate empty empty empty empty (JS.Int 0).

(** [analyzeFiles(files)] *)
Definition analyzeFiles (files : list File) : Batch :=
  let results := map (fun file => analyzeCode (content file) (Some (file_name file))) files in
  let totalFiles := Z.of_nat (length results) in
  let '(sums, allCritical) := foldl collect (initial, []) results in
  let aggregated :=
    if 0 <? totalFiles then
      let r := average totalFiles (agg_readability sums) in
      let c := average totalFiles (agg_complexity sums) in
      let e := average totalFiles (agg_edgeCases sums) in
      let s := average totalFiles (agg_security sums) in
      mkAggregate r c e s
        (JS.plus (JS.plus (JS.plus (agg_score r) (agg_score c)) (agg_score e)) (agg_score s))
    else sums in
  mkBatch results aggregated allCritical.

End Pipeline.

End Browser.

(** ** Sample trees

    Trees of the shape the parser gives, used to run the detectors. *)

Module Samples.

Definition single (k : string) : Field := mkField k false.
Definition member (k : string) : Field := mkField k true.
Definition on_line (l : Z) : option Loc := Some (mkLoc l l).

Definition Identifier (l : Z) (name : string) : Node :=
  mkNode "Identifier" (on_line l) [("name", PStr name)] [].

Definition StringLiteral (l : Z) (value : string) : Node :=
  mkNode "StringLiteral" (on_line l) [("value", PStr value)] [].

Definition CallExpression (l : Z) (callee : Node) (arguments : list Node) : Node :=
  mkNode "CallExpression" (on_line l) []
    ((single "callee", callee) :: map (fun a => (member "arguments", a)) arguments).

Definition ExpressionStatement (l : Z) (expression : Node) : Node :=
  mkNode "ExpressionStatement" (on_line l) [] [(single "expression", expression)].

Definition LogicalExpression (l : Z) (operator : string) (lhs rhs : Node) : Node :=
  mkNode "LogicalExpression" (on_line l) [("operator", PStr operator)]
    [(single "left", lhs); (single "right", rhs)].

Definition BlockStatement (first last : Z) (body : list Node) : Node :=
  mkNode "BlockStatement" (Some (mkLoc first last)) []
    (map (fun stmt => (member "body", stmt)) body).

Definition IfStatement (first last : Z) (test consequent : Node) : Node :=
  mkNode "IfStatement" (Some (mkLoc first last)) []
    [(single "test", test); (single "consequent", consequent)].

Definition FunctionDeclaration (first last : Z) (name : string) (params : list Node)
    (body : Node) : Node :=
  mkNode "FunctionDeclaration" (Some (mkLoc first last)) [("async", PBool false)]
    ((single "id", Identifier first name) ::
     map (fun a => (member "params", a)) params ++ [(single "body", body)]).

Definition File (last : Z) (body : list Node) : Node :=
  mkNode "File" (Some (mkLoc 1 last)) []
    [(single "program",
      mkNode "Program" (Some (mkLoc 1 last)) []
        (map (fun stmt => (member "body", stmt)) body))].

(** [eval("1+1")] *)
Definition eval_call : Node :=
  File 1 [ExpressionStatement 1
            (CallExpression 1 (Identifier 1 "eval") [StringLiteral 1 "1+1"])].

(** [c0 || c1 || ... || cn], the operator associating to the left. *)
Fixpoint chain (n : nat) : Node :=
  match n with
  | O => Identifier 2 "c"
  | S m => LogicalExpression 2 "||" (chain m) (Identifier 2 "c")
  end.

(** [function busy(c) { if (c || ... || c) { } }]: twenty conditions
    chained by [||] under one [if]. *)
Definition twenty_one : Node :=
  File 3 [FunctionDeclaration 1 3 "busy" [Identifier 1 "c"]
            (BlockStatement 1 3 [IfStatement 2 2 (chain 19) (BlockStatement 2 2 [])])].

Definition VariableDeclaration (l : Z) (name : string) (init : Node) : Node :=
  mkNode "VariableDeclaration" (on_line l) [("kind", PStr "const")]
    [(member "declarations",
      mkNode "VariableDeclarator" (on_line l) []
        [(single "id", Identifier l name); (single "init", init)])].

(** [const apiKey = "sk_live_abcdefghij1234567890";] *)
Definition api_key : Node :=
  File 1 [VariableDeclaration 1 "apiKey" (StringLiteral 1 "sk_live_abcdefghij1234567890")].

End Samples.

(** ** The order of the verdicts *)

Module VerdictOrder.

(** How much a verdict holds back, in the order [VERDICTS] lists them. *)
Definition strictness (v : Verdict.Verdict) : Z :=
  match v with
  | Verdict.APPROVE => 0
  | Verdict.APPROVE_WITH_NITS => 1
  | Verdict.REQUEST_CHANGES => 2
  | Verdict.BLOCK_MERGE => 3
  end.

End VerdictOrder.

(** ** Shapes of nodes and places of a traversal *)

Module Shapes.

(** A call [name(...)]: a [CallExpression] whose callee is the identifier
    [name]. *)
Definition direct_call (name : string) (n : Node) : bool :=
  bool_decide (type n = "CallExpression") &&
  match child n "callee" with
  | Some callee =>
      bool_decide (type callee = "Identifier") &&
      bool_decide (prop_str callee "name" = Some name)
  | None => false
  end.

End Shapes.

(** The path the traversal gives to the [k]-th node it visits. *)
Definition path_at (ast : Node) (k : nat) : Path :=
  default (mkPath ast ast None (Samples.single EmptyString) []) (traverse_paths ast !! k).

(** ** The browser engine (browserEngine.js) *)

Module Engine.

(** What [analyzeSingleFile] returns: the analysis result it spreads,
    the verdict fields and the proof hash.  The fields read off the clock
    ([analyzedAt], [analysisTimeMs]), the badge and the constant privacy
    assertion are left out. *)
Record Result := mkResult {
  analysis : Browser.AnalysisResult;
  verdict : Verdict.Verdict;
  verdictExplanation : string;
  verdictOverrideReason : option string;
  verdictDetails : Verdict.Details;
  proofHash : string;
  mode : string;
}.

(** What [analyzeMultipleFiles] returns, with the same omissions. *)
Record BatchResult := mkBatchResult {
  files : list Browser.AnalysisResult;
  aggregated : Browser.Aggregate;
  totalScore : Z;
  criticalIssues : list Issue;
  batch_verdict : Verdict.Verdict;
  batch_verdictExplanation : string;
  batch_verdictOverrideReason : option string;
  batch_verdictDetails : Verdict.Details;
  batch_proofHash : string;
  fileCount : Z;
  batch_mode : string;
}.

(** The category scores the verdict engine reads off a single-file
    result passed as [aggregated]. *)
Definition scores_of (r : Browser.AnalysisResult) : Verdict.Aggregated :=
  Verdict.mkAggregated (Some (score (Browser.readability r))) (Some (score (Browser.complexity r)))
    (Some (score (Browser.edgeCases r))) (Some (score (Browser.security r))).

(** The aggregated scores as the verdict engine reads them; the engine
    is embedded on integer scores, and [None] stands for an aggregate with
    a score that is not finite. *)
Definition integer_scores (agg : Browser.Aggregate) : option (Z * Verdict.Aggregated) :=
  match Browser.agg_totalScore agg,
        Browser.agg_score (Browser.agg_readability agg),
        Browser.agg_score (Browser.agg_complexity agg),
        Browser.agg_score (Browser.agg_edgeCases agg),
        Browser.agg_score (Browser.agg_security agg) with
  | JS.Int t, JS.Int r, JS.Int c, JS.Int e, JS.Int s =>
      Some (t, Verdict.mkAggregated (Some r) (Some c) (Some e) (Some s))
  | _, _, _, _, _ => None
  end.

(** The line feed. *)
Definition newline : string := String (ascii_of_nat 10) EmptyString.

(** [files.map(f => `// ${f.filename}\n${f.content}`).join('\n\n')] *)
Definition combinedContent (files : list Browser.File) : string :=
  JS.join (newline +:+ newline)
    (map (fun f => "// " +:+ Browser.file_name f +:+ newline +:+ Browser.content f) files).

Section BrowserEngine.

Variable parser_parse : string -> Parse.

Variable analyzeReadability : Node -> list Issue.

Variable analyzeEdgeCases : Node -> list Issue.

(** [generateProofHash]: the hexadecimal SHA-256 digest of a text. *)
Variable generateProofHash : string -> string.

(** [analyzeSingleFile(code, filename = 'code.js')] *)
Definition analyzeSingleFile (code : string) (filename : option string) : Result :=
  let filename := match filename with Some f => f | None => "code.js" end in
  let result :=
    Browser.analyzeCode parser_parse analyzeReadability analyzeEdgeCases code (Some filename) in
  let verdictResult :=
    Verdict.determineVerdict
      (Verdict.mkInput (Browser.totalScore result) (Some (Browser.criticalIssues result))
         (Some (scores_of result))) in
  mkResult result (Verdict.verdict verdictResult) (Verdict.explanation verdictResult)
    (Verdict.overrideReason verdictResult) (Verdict.details verdictResult)
    (generateProofHash code) "browser-only".

(** [analyzeMultipleFiles(files)] *)
Definition analyzeMultipleFiles (files : list Browser.File) : option BatchResult :=
  let result := Browser.analyzeFiles parser_parse analyzeReadability analyzeEdgeCases files in
  match integer_scores (Browser.aggregated result) with
  | Some (totalScore, aggregated) =>
      let verdictResult :=
        Verdict.determineVerdict
          (Verdict.mkInput totalScore (Some (Browser.allCriticalIssues result))
             (Some aggregated)) in
      Some (mkBatchResult (Browser.files result) (Browser.aggregated result) totalScore
              (Browser.allCriticalIssues result)
              (Verdict.verdict verdictResult) (Verdict.explanation verdictResult)
              (Verdict.overrideReason verdictResult) (Verdict.details verdictResult)
              (generateProofHash (combinedContent files))
              (Z.of_nat (length files)) "browser-only")
  | None => None
  end.

End BrowserEngine.

End Engine.

(** A critical finding that names what it found. *)
Definition names_code_execution (i : Issue) : Prop :=
  severity i = Some CRITICAL /\
  (JS.includes (comment i) "eval" = true \/ JS.includes (comment i) "Function()" = true).

(** A list with such a finding. *)
Definition has_critical (l : list Issue) : Prop := exists i, i ∈ l /\ names_code_execution i.

(** In [checkEvalUsage] every line is reported with a critical finding. *)
Definition reported_with_critical (st : Reporting Z) : Prop :=
  forall l, l ∈ reported st -> has_critical (found st).

(** A finding tagged critical says so in its comment and names one of
    the three kinds the verdict engine knows. *)
Definition named_if_critical (i : Issue) : Prop :=
  severity i = Some CRITICAL ->
  JS.startsWith (comment i) "CRITICAL: " = true /\
  (penalty i = 8 /\
   (JS.includes (comment i) "eval" = true \/ JS.includes (comment i) "Function()" = true) \/
   penalty i = 6 /\ JS.includes (comment i) "child_process" = true).

(** [`[${result.filename}] ${c}`] *)
Definition file_tag (r : Browser.AnalysisResult) (c : string) : string :=
  "[" +:+ Browser.filename r +:+ "] " +:+ c.

(** ** What the metrics record of a traversal *)

(** The lines a function spans, when it has a location. *)
Definition function_lines (p : Path) : Z :=
  match loc (node p) with
  | Some l => end_line l - start_line l + 1
  | None => 0
  end.

(** What the visitor of [extractMetrics] has made of the paths visited so far *)
Record metrics_of (paths : list Path) (m : Metrics.Metrics) : Prop := {
  counted :
    Metrics.totalFunctions m =
      Z.of_nat (length (List.filter (fun p => is_function_type (type (node p))) paths));
  nesting_bound :
    0 <= Metrics.maxNestingDepth m /\
    forall p, p ∈ paths -> type (node p) = "BlockStatement" ->
      nestingDepth p <= Metrics.maxNestingDepth m;
  nesting_attained :
    Metrics.maxNestingDepth m = 0 \/
    exists p, p ∈ paths /\ type (node p) = "BlockStatement" /\
      Metrics.maxNestingDepth m = nestingDepth p;
  complexity_bound :
    forall p, p ∈ paths -> is_function_type (type (node p)) = true ->
      Complexity.calculateFunctionComplexity p <= Metrics.maxCyclomaticComplexity m;
  complexity_attained :
    (Metrics.totalFunctions m = 0 /\ Metrics.maxCyclomaticComplexity m = 0) \/
    exists p, p ∈ paths /\ is_function_type (type (node p)) = true /\
      Metrics.maxCyclomaticComplexity m = Complexity.calculateFunctionComplexity p;
  length_bound :
    0 <= Metrics.maxFunctionLength m /\
    forall p, p ∈ paths -> is_function_type (type (node p)) = true ->
      function_lines p <= Metrics.maxFunctionLength m;
  length_attained :
    Metrics.maxFunctionLength m = 0 \/
    exists p, p ∈ paths /\ is_function_type (type (node p)) = true /\
      Metrics.maxFunctionLength m = function_lines p;
}.

(** ** Findings of the nesting check *)

(** The finding of the nesting check for a block on line [l]. *)
Definition deep_nesting_at (l : Z) (i : Issue) : Prop :=
  penalty i = 3 /\
  JS.startsWith (comment i) ("Deep nesting detected at line " +:+ JS.toString l +:+ " (depth: ") = true.

(** Every line the check has reported has its finding. *)
Definition lines_have_findings (st : Reporting Z) : Prop :=
  forall l, l ∈ reported st -> exists i, i ∈ found st /\ deep_nesting_at l i.

(** ** The HTTP handlers (api/analyze.js, analyzeRoute.js) *)

Module Api.

(** The document a handler hands to [new Review(...)]. *)
Record Review := mkReview {
  review_code : Server.Value;
  review_scores : Decision.Scores;
}.

(** What the handlers meet of the database: whether the module is
    connected ([isConnected]), whether [MONGODB_URI] is set, whether
    [mongoose.connect] resolves, what [review.save()] does (it resolves to
    a document with this [_id], or rejects), and the documents written. *)
Record Database := mkDatabase {
  isConnected : bool;
  uri : bool;
  connects : bool;
  saves : option string;
  reviews : list Review;
}.

Inductive Body :=
| Error (error : string) (allowed : option (list string))
| Result (result : Server.AnalysisResult)
| Reviewed (result : Server.AnalysisResult) (_id : option string) (savedToDatabase : bool)
| Saved (document : Review) (_id : string).

Record Response := mkResponse {
  status : Z;
  body : Body;
}.

(** [connectDB()] of the serverless function. *)
Definition connectDB (db : Database) : Database :=
  if isConnected db then db
  else if negb (uri db) then db
  else if connects db then mkDatabase true (uri db) (connects db) (saves db) (reviews db)
  else db.

(** [await review.save()]: the document, or the rejection. *)
Definition save (review : Review) (db : Database) : option string * Database :=
  match saves db with
  | Some id =>
      (Some id,
       mkDatabase (isConnected db) (uri db) (connects db) (saves db) (reviews db ++ [review]))
  | None => (None, db)
  end.

(** The document built from a result. *)
Definition review_of (code : Server.Value) (result : Server.AnalysisResult) : Review :=
  mkReview code
    (Decision.mkScores (Server.readability result) (Server.complexity result)
       (Server.edgeCases result) (Server.security result) (Server.totalScore result)).

(** [if (result.error)] *)
Definition has_error (result : Server.AnalysisResult) : bool :=
  match Server.error result with
  | Some e => negb (bool_decide (e = EmptyString))
  | None => false
  end.

Section Handlers.

Variable parser_parse : string -> Parse.

(** The serverless function [/api/analyze]; [code] is the member [code]
    of [req.body || {}]. *)
Definition handler (db : Database) (method : string) (code : Server.Value)
    : Response * Database :=
  if negb (bool_decide (method = "POST")) then
    (mkResponse 405 (Error "Method not allowed" (Some ["POST"])), db)
  else
    match run parser_parse (Server.analyze code) with
    | Returns result =>
        if has_error result then (mkResponse 422 (Result result), db)
        else
          let db1 := connectDB db in
          let '(savedReview, db2) :=
            if isConnected db1 then save (review_of code result) db1 else (None, db1) in
          (mkResponse 200
             (Reviewed result
                (match savedReview with
                 | Some id => if bool_decide (id = EmptyString) then None else Some id
                 | None => None
                 end)
                (bool_decide (is_Some savedReview))),
           db2)
    | Throws message =>
        if JS.startsWith message "Invalid input" then
          (mkResponse 400 (Error message None), db)
        else
          (mkResponse 500 (Error "Internal server error during code analysis" None), db)
    end.

(** The Express route [POST /analyze]; [code] is the member [code] of
    the parsed body. *)
Definition route (db : Database) (code : Server.Value) : Response * Database :=
  match code with
  | Server.VString s =>
      if (String.length (JS.trim s) =? 0)%nat then
        (mkResponse 400
           (Error ("Invalid request: " +:+ dquoted "code" +:+ " field cannot be empty") None),
         db)
      else
        let result := Server.analyzeCode parser_parse s in
        if has_error result then (mkResponse 422 (Result result), db)
        else
          match save (review_of code result) db with
          | (Some id, db1) => (mkResponse 201 (Saved (review_of code result) id), db1)
          | (None, db1) =>
              (mkResponse 500 (Error "Internal server error during code analysis" None), db1)
          end
  | _ =>
      (mkResponse 400
         (Error ("Invalid request: " +:+ dquoted "code" +:+ " field must be a string") None),
       db)
  end.

End Handlers.

End Api.

(** A code the entry point takes: a string with something else than
    white space. *)
Definition acceptable (code : Server.Value) : Prop :=
  exists s, code = Server.VString s /\ ~ only_white_space s.

(** ** The local history (localHistoryService.js) *)

Module History.

(** A value of a stored object: the kinds the service itself writes and
    compares, and any other JSON value, kept as its text. *)
Inductive Json :=
| JNull
| JBool (b : bool)
| JString (s : string)
| JOther (text : string).

#[global] Instance Json_eq_dec : EqDecision Json.
Proof. solve_decision. Defined.

(** A history item is an object, kept as the finite map of its keys.

    What [localStorage] holds under [STORAGE_KEY]: nothing, a text that
    [JSON.parse] rejects (the empty text is one for which [getHistory]
    returns early), or the JSON text of an array of objects, which is what
    the service writes; the array stands for its text. *)
Inductive Stored :=
| Absent
| Garbled
| Array (history : list (gmap string Json)).

Definition MAX_HISTORY_ITEMS : nat := 50.

(** [getHistory()] *)
Definition getHistory (storage : Stored) : list (gmap string Json) :=
  match storage with
  | Array history => history
  | Absent | Garbled => []
  end.

Section Service.

(** Whether [localStorage.setItem] takes the text of a history, or
    throws (the quota). *)
Variable writable : list (gmap string Json) -> bool.

(** [saveToHistory(review)]; [stamp] is the time and the random suffix
    of the generated id, [now] the ISO date.  The result is the id, or
    [None] for [null]. *)
Definition saveToHistory (storage : Stored) (review : gmap string Json) (stamp now : string)
    : option string * Stored :=
  let history := getHistory storage in
  let id := "local_" +:+ stamp in
  let historyItem : gmap string Json :=
    <["isLocal" := JBool true]>
      (<["createdAt" := JString now]> (review ∪ {[ "_id" := JString id ]})) in
  let history := historyItem :: history in
  let history :=
    if (MAX_HISTORY_ITEMS <? length history)%nat then take MAX_HISTORY_ITEMS history
    else history in
  if writable history then (Some id, Array history) else (None, storage).

(** [getReviewById(id)] *)
Definition getReviewById (storage : Stored) (id : string) : option (gmap string Json) :=
  List.find (fun item : gmap string Json => bool_decide (item !! "_id" = Some (JString id)))
            (getHistory storage).

(** [deleteFromHistory(id)] *)
Definition deleteFromHistory (storage : Stored) (id : string) : bool * Stored :=
  let history := getHistory storage in
  let filtered :=
    List.filter (fun item : gmap string Json => negb (bool_decide (item !! "_id" = Some (JString id))))
                history in
  if writable filtered then (true, Array filtered) else (false, storage).

(** [clearHistory()] *)
Definition clearHistory (storage : Stored) : bool * Stored := (true, Absent).

End Service.

(** [isLocalId(id)], as the truth value of what it returns. *)
Definition isLocalId (id : option string) : bool :=
  match id with
  | Some s => negb (bool_decide (s = EmptyString)) && JS.startsWith s "local_"
  | None => false
  end.

End History.

(** ** Comments and the critical patterns *)

(** The characters of a number in a template: the digits and the sign. *)
Definition numeric (c : ascii) : bool :=
  let n := nat_of_ascii c in
  ((48 <=? n)%nat && (n <=? 57)%nat) || (n =? 45)%nat.

(** [p] holds of every character of [s]. *)
Fixpoint every (p : ascii -> bool) (s : string) : bool :=
  match s with
  | EmptyString => true
  | String c rest => p c && every p rest
  end.

(** A comment does not trip the override of the decision engine. *)
Definition harmless (c : string) : Prop := Decision.checkCriticalDeductions [c] = false.

(** Which findings of the server security detector trip the override. *)
Definition override_by_kind (i : Issue) : Prop :=
  Decision.checkCriticalDeductions [comment i] = true <->
  (penalty i = 8 \/
   JS.startsWith (comment i) "Potential hardcoded secret in variable '" = true).

(** ** What the edge-case checks report *)

(** The name of the array of an access [arr[index]], as the check prints
    it. *)
Definition access_name (p : Path) : string :=
  match child (node p) "object" with
  | Some object => show (PStr <$> prop_str object "name")
  | None => EmptyString
  end.

(** The key under which the check remembers an access: name and line. *)
Definition access_key (p : Path) : string :=
  access_name p +:+ ":" +:+ show_line (line_of (node p)).

(** The finding the check pushes for an access. *)
Definition access_finding (p : Path) : Issue :=
  issue EdgeCases.UNCHECKED_ARRAY_ACCESS
    ("Array '" +:+ access_name p +:+ "' accessed at line " +:+
     show_line (line_of (node p)) +:+ " without prior length or null check.").

(** The test of the second pass on a path, the names checked by the first
    pass given. *)
Definition unguarded_access (checked : gset (option string)) (p : Path) : bool :=
  bool_decide (type (node p) = "MemberExpression") &&
  match child (node p) "object" with
  | Some object =>
      prop_true (node p) "computed" && bool_decide (type object = "Identifier") &&
      negb (bool_decide (prop_str object "name" ∈ checked)) &&
      negb (EdgeCases.isSafeArrayAccess p)
  | None => false
  end.

(** The node of [p] is the one held in the field [k] of the node of
    [a]. *)
Definition held_in (a : Path) (k : string) (p : Path) : Prop :=
  exists i : nat, child_index k 0 (kids (node a)) = Some i /\ position p = i :: position a.

(** The node is [null] or the identifier [undefined]. *)
Definition nullish (n : Node) : Prop :=
  type n = "NullLiteral" \/ (type n = "Identifier" /\ prop_str n "name" = Some "undefined").

(** The path is read as a condition: it is the test of an [if] statement
    or of a conditional expression, or it lies anywhere under a logical
    expression. *)
Definition in_condition (p : Path) : Prop :=
  exists a, a ∈ ancestors p /\
    (type (node a) = "LogicalExpression" \/
     ((type (node a) = "IfStatement" \/ type (node a) = "ConditionalExpression") /\
      held_in a "test" p)).

(** [name.length] read as a condition. *)
Definition length_test (name : option string) (q : Path) : Prop :=
  exists object property,
    type (node q) = "MemberExpression" /\
    child (node q) "object" = Some object /\
    child (node q) "property" = Some property /\
    type object = "Identifier" /\ prop_str object "name" = name /\
    type property = "Identifier" /\ prop_str property "name" = Some "length" /\
    in_condition q.

(** [Array.isArray(name)] read as a condition. *)
Definition isArray_test (name : option string) (q : Path) : Prop :=
  exists callee object property argument,
    type (node q) = "CallExpression" /\
    child (node q) "callee" = Some callee /\ type callee = "MemberExpression" /\
    child callee "object" = Some object /\ prop_str object "name" = Some "Array" /\
    child callee "property" = Some property /\ prop_str property "name" = Some "isArray" /\
    head (children (node q) "arguments") = Some argument /\
    type argument = "Identifier" /\ prop_str argument "name" = name /\
    in_condition q.

(** A comparison of [name] with [null] or [undefined] by [===], [!==],
    [==] or [!=], the name on either side, in a condition or not. *)
Definition null_test (name : option string) (q : Path) : Prop :=
  exists operator lhs rhs,
    type (node q) = "BinaryExpression" /\
    prop_str (node q) "operator" = Some operator /\
    operator ∈ ["==="; "!=="; "=="; "!="] /\
    child (node q) "left" = Some lhs /\ child (node q) "right" = Some rhs /\
    ((type lhs = "Identifier" /\ prop_str lhs "name" = name /\ nullish rhs) \/
     (type rhs = "Identifier" /\ prop_str rhs "name" = name /\ nullish lhs)).

(** The three guards of a name. *)
Definition guards (name : option string) (q : Path) : Prop :=
  length_test name q \/ isArray_test name q \/ null_test name q.

(** A side of a comparison that reads a [length]: a member expression
    whose property is named [length], of whatever object. *)
Definition length_read (side : option Node) : Prop :=
  exists m property,
    side = Some m /\ type m = "MemberExpression" /\
    child m "property" = Some property /\ prop_str property "name" = Some "length".

(** The path lies under a [for] statement whose test is a comparison or
    another binary expression with a [length] read on one side. *)
Definition under_length_loop (p : Path) : Prop :=
  exists a test,
    a ∈ ancestors p /\ type (node a) = "ForStatement" /\
    child (node a) "test" = Some test /\ type test = "BinaryExpression" /\
    (length_read (child test "left") \/ length_read (child test "right")).

(** An access [name[index]]: a computed member expression on an
    identifier. *)
Definition array_access (name : option string) (p : Path) : Prop :=
  exists object,
    type (node p) = "MemberExpression" /\ prop_true (node p) "computed" = true /\
    child (node p) "object" = Some object /\
    type object = "Identifier" /\ prop_str object "name" = name.

(** What the second pass has made of the paths visited so far. *)
Record accesses_of (checked : gset (option string)) (issues : list Issue)
    (paths : list Path) (st : Reporting string) : Prop := {
  findings_are :
    forall f, f ∈ found st <->
      f ∈ issues \/ exists p, p ∈ paths /\ unguarded_access checked p = true /\ f = access_finding p;
  keys_are :
    reported st = list_to_set (map access_key (List.filter (unguarded_access checked) paths));
  one_per_key : length (found st) = (length issues + size (reported st))%nat;
}.

(** A text without a colon, as the text of a line is. *)
Definition no_colon (s : string) : bool := every (fun c => negb (Ascii.eqb c ":"%char)) s.

(** A use [req.body], [req.params], [req.query] or [req.headers], of
    [req] or of [request]. *)
Definition external_input (p : Path) : bool :=
  bool_decide (type (node p) = "MemberExpression") &&
  match child (node p) "object", child (node p) "property" with
  | Some object, Some property =>
      bool_decide (type object = "Identifier") &&
      (Security.name_is object "req" || Security.name_is object "request") &&
      bool_decide (type property = "Identifier") &&
      bool_decide (name_of property ∈ EdgeCases.inputPatterns)
  | _, _ => false
  end.

(** [`${node.object.name}.${node.property.name}`] *)
Definition input_path (p : Path) : string :=
  match child (node p) "object", child (node p) "property" with
  | Some object, Some property => name_of object +:+ "." +:+ name_of property
  | _, _ => EmptyString
  end.

(** The key under which the check remembers a use: input and line. *)
Definition input_key (p : Path) : string :=
  input_path p +:+ ":" +:+ show_line (line_of (node p)).

(** The finding the check pushes for a use. *)
Definition input_finding (p : Path) : Issue :=
  issue EdgeCases.UNCHECKED_EXTERNAL_INPUT
    ("External input '" +:+ input_path p +:+ "' used at line " +:+
     show_line (line_of (node p)) +:+ " without apparent validation.").

(** A use that is not being validated, of an input that no use before it
    validates. *)
Definition reportable (before : list Path) (p : Path) : Prop :=
  external_input p = true /\ EdgeCases.isBeingValidated p = false /\
  forall q, q ∈ before -> external_input q = true -> input_path q = input_path p ->
    EdgeCases.isBeingValidated q = false.

(** What the visitor of [checkUncheckedExternalInput] has made of the
    paths visited so far. *)
Record inputs_of (issues : list Issue) (paths : list Path) (st : EdgeCases.InputState)
    : Prop := {
  validated_are :
    forall ip, ip ∈ EdgeCases.validatedInputs st <->
      exists q, q ∈ paths /\ external_input q = true /\
        EdgeCases.isBeingValidated q = true /\ input_path q = ip;
  input_findings_are :
    forall f, f ∈ found (EdgeCases.input_issues st) <->
      f ∈ issues \/
      exists before p after,
        paths = before ++ p :: after /\ reportable before p /\ f = input_finding p;
  input_keys_are :
    forall key, key ∈ reported (EdgeCases.input_issues st) <->
      exists before p after,
        paths = before ++ p :: after /\ reportable before p /\ key = input_key p;
}.

(** Further trees, for the edge-case checks. *)
Module Cases.

Import Samples.

Definition MemberExpression (l : Z) (computed : bool) (object property : Node) : Node :=
  mkNode "MemberExpression" (on_line l) [("computed", PBool computed)]
    [(single "object", object); (single "property", property)].

Definition NumericLiteral (l : Z) (value : Z) : Node :=
  mkNode "NumericLiteral" (on_line l) [("value", PNum value)] [].

Definition NullLiteral (l : Z) : Node := mkNode "NullLiteral" (on_line l) [] [].

Definition BinaryExpression (l : Z) (operator : string) (lhs rhs : Node) : Node :=
  mkNode "BinaryExpression" (on_line l) [("operator", PStr operator)]
    [(single "left", lhs); (single "right", rhs)].

(** [xs[0]; xs != null;]: the check comes after the access. *)
Definition late_guard : Node :=
  File 2 [ExpressionStatement 1
            (MemberExpression 1 true (Identifier 1 "xs") (NumericLiteral 1 0));
          ExpressionStatement 2
            (BinaryExpression 2 "!=" (Identifier 2 "xs") (NullLiteral 2))].

Definition ForStatement (first last : Z) (test body : Node) : Node :=
  mkNode "ForStatement" (Some (mkLoc first last)) []
    [(single "test", test); (single "body", body)].

(** [xs[0];] *)
Definition bare_access : Node :=
  File 1 [ExpressionStatement 1
            (MemberExpression 1 true (Identifier 1 "xs") (NumericLiteral 1 0))].

(** [xs[0]; null != xs;]: the name on the right of the comparison. *)
Definition late_guard_on_the_right : Node :=
  File 2 [ExpressionStatement 1
            (MemberExpression 1 true (Identifier 1 "xs") (NumericLiteral 1 0));
          ExpressionStatement 2
            (BinaryExpression 2 "!=" (NullLiteral 2) (Identifier 2 "xs"))].

(** [xs.length; xs[0];]: the length read, but not as a condition. *)
Definition length_statement : Node :=
  File 2 [ExpressionStatement 1
            (MemberExpression 1 false (Identifier 1 "xs") (Identifier 1 "length"));
          ExpressionStatement 2
            (MemberExpression 2 true (Identifier 2 "xs") (NumericLiteral 2 0))].

(** [if (xs.length) xs[0];] *)
Definition length_condition : Node :=
  File 1 [IfStatement 1 1
            (MemberExpression 1 false (Identifier 1 "xs") (Identifier 1 "length"))
            (ExpressionStatement 1
               (MemberExpression 1 true (Identifier 1 "xs") (NumericLiteral 1 0)))].

(** [if (Array.isArray(xs)) xs[0];] *)
Definition isArray_condition : Node :=
  File 1 [IfStatement 1 1
            (CallExpression 1
               (MemberExpression 1 false (Identifier 1 "Array") (Identifier 1 "isArray"))
               [Identifier 1 "xs"])
            (ExpressionStatement 1
               (MemberExpression 1 true (Identifier 1 "xs") (NumericLiteral 1 0)))].

(** [for (; i < ys.length; ) xs[i];]: the length of another array. *)
Definition length_loop : Node :=
  File 1 [ForStatement 1 1
            (BinaryExpression 1 "<" (Identifier 1 "i")
               (MemberExpression 1 false (Identifier 1 "ys") (Identifier 1 "length")))
            (ExpressionStatement 1
               (MemberExpression 1 true (Identifier 1 "xs") (Identifier 1 "i")))].

(** [req.body; check(req.body); req.body;]: a use, a use under a
    validator, and a use after it. *)
Definition late_validation : Node :=
  File 3 [ExpressionStatement 1
            (MemberExpression 1 false (Identifier 1 "req") (Identifier 1 "body"));
          ExpressionStatement 2
            (CallExpression 2 (Identifier 2 "check")
               [MemberExpression 2 false (Identifier 2 "req") (Identifier 2 "body")]);
          ExpressionStatement 3
            (MemberExpression 3 false (Identifier 3 "req") (Identifier 3 "body"))].

End Cases.

(** * Properties *)

(** ** Traversals and penalties *)

(** What holds of the initial state and is kept by the handler holds after
    the traversal. *)
Lemma visit_invariant {S : Type} (P : S -> Prop) (handler : Path -> S -> S) paths init :
  P init -> (forall p s, P s -> P (handler p s)) -> P (visit handler paths init).
Proof.
  unfold visit. revert init.
  induction paths as [|p paths IH]; intros init Hinit Hstep; simpl; [assumption|].
  apply IH; auto.
Qed.

Lemma foldl_invariant {A S : Type} (P : S -> Prop) (f : S -> A -> S) l init :
  P init -> (forall s a, P s -> P (f s a)) -> P (foldl f init l).
Proof.
  revert init. induction l as [|a l IH]; intros init Hinit Hstep; simpl; [assumption|].
  apply IH; auto.
Qed.

Lemma plain_issue pen com : 0 <= pen -> plain (issue pen com).
Proof. intros Hpen. repeat split. exact Hpen. Qed.

Lemma with_severity_tagged pen com sev : 0 <= pen -> with_severity (tagged pen com sev).
Proof. intros Hpen. split; [exact Hpen|]. simpl. eauto. Qed.

(** The shape of the properties carried through the detectors: a property
    of issue lists kept by pushing an issue that satisfies [Q]. *)
Section Carried.

Variable Q : Issue -> Prop.

Let good (l : list Issue) : Prop := Forall Q l.

Lemma good_push l i : good l -> Q i -> good (l ++ [i]).
Proof. intros Hl Hi. apply Forall_app. split; [assumption|]. repeat constructor. assumption. Qed.

Lemma report_good {K} `{Countable K} (k : K) (i : Issue) (st : Reporting K) :
  good (found st) -> Q i -> good (found (report k i st)).
Proof. intros. simpl. apply good_push; assumption. Qed.

Lemma report_line_good (line : option Z) (i : Z -> Issue) (st : Reporting Z) :
  good (found st) -> (forall l, Q (i l)) -> good (found (report_line line i st)).
Proof.
  intros Hst Hi. unfold report_line.
  destruct line as [l|]; [|assumption].
  destruct (negb (l =? 0) && negb (bool_decide (l ∈ reported st))); [|assumption].
  apply report_good; auto.
Qed.

Lemma report_once_good (line : option Z) (i : Issue) (st : Reporting (option Z)) :
  good (found st) -> Q i -> good (found (finish (Security.report_once line i st))).
Proof.
  intros Hst Hi. unfold Security.report_once.
  destruct (bool_decide (line ∈ reported st)); simpl; [assumption|].
  apply good_push; assumption.
Qed.

Lemma report_once_then_good (line : option Z) (i : Issue) (st : Reporting (option Z)) k :
  good (found st) -> Q i ->
  (forall st1, good (found st1) -> good (found (finish (k st1)))) ->
  good (found (finish (and_then (Security.report_once line i st) k))).
Proof.
  intros Hst Hi Hk. unfold Security.report_once.
  destruct (bool_decide (line ∈ reported st)); simpl; [assumption|].
  apply Hk. simpl. apply good_push; assumption.
Qed.

End Carried.

Ltac split_cases :=
  repeat match goal with
    | |- context [match ?x with _ => _ end] => destruct x eqn:?
    end.

Ltac carried :=
  repeat first
    [ assumption
    | apply report_line_good; [|intros ?]
    | apply report_once_good
    | apply report_once_then_good; [| |intros ? ?]
    | apply report_good
    | apply good_push
    | apply plain_issue; vm_compute; discriminate
    | apply with_severity_tagged; vm_compute; discriminate
    | progress simpl ].

(** ** The server detectors push plain issues *)

Lemma Security_on_eval_plain p issues :
  Forall plain issues -> Forall plain (Security.on_eval p issues).
Proof. intros H. unfold Security.on_eval. split_cases; carried. Qed.

Lemma Security_on_child_process_plain p st :
  Forall plain (found st) -> Forall plain (found (Security.on_child_process p st)).
Proof. intros H. unfold Security.on_child_process, Security.shell_issue. split_cases; carried. Qed.

Lemma Security_on_secret_plain p st :
  Forall plain (found st) -> Forall plain (found (Security.on_secret p st)).
Proof. intros H. unfold Security.on_secret. split_cases; carried. Qed.

Lemma Security_on_unsanitized_plain p st :
  Forall plain (found st) -> Forall plain (found (Security.on_unsanitized p st)).
Proof.
  intros H. unfold Security.on_unsanitized.
  destruct (bool_decide (type (node p) = "TemplateLiteral")).
  - apply (foldl_invariant (fun st => Forall plain (found st))); [assumption|].
    intros s a Hs. unfold Security.on_template_expression. split_cases; carried.
  - split_cases; carried.
Qed.

Theorem Security_analyzeSecurity_plain ast : Forall plain (Security.analyzeSecurity ast).
Proof.
  unfold Security.analyzeSecurity, Security.checkUnsanitizedInput,
    Security.checkHardcodedSecrets, Security.checkChildProcessUsage, Security.checkEvalUsage.
  apply (visit_invariant (fun st => Forall plain (found st)));
    [|intros; apply Security_on_unsanitized_plain; assumption].
  apply (visit_invariant (fun st => Forall plain (found st)));
    [|intros; apply Security_on_secret_plain; assumption].
  apply (visit_invariant (fun st => Forall plain (found st)));
    [|intros; apply Security_on_child_process_plain; assumption].
  apply (visit_invariant (Forall plain));
    [constructor|intros; apply Security_on_eval_plain; assumption].
Qed.

Lemma Readability_on_node_plain p issues :
  Forall plain issues -> Forall plain (Readability.on_node p issues).
Proof.
  intros H. unfold Readability.on_node, Readability.on_function, Readability.on_identifier.
  split_cases; carried.
Qed.

Lemma Readability_on_block_plain p st :
  Forall plain (found st) -> Forall plain (found (Readability.on_block p st)).
Proof. intros H. unfold Readability.on_block. split_cases; carried. Qed.

Theorem Readability_analyzeReadability_plain ast :
  Forall plain (Readability.analyzeReadability ast).
Proof.
  unfold Readability.analyzeReadability, Readability.checkNestingDepth.
  apply (visit_invariant (fun st => Forall plain (found st)));
    [|intros; apply Readability_on_block_plain; assumption].
  apply (visit_invariant (Forall plain));
    [constructor|intros; apply Readability_on_node_plain; assumption].
Qed.

Lemma EdgeCases_on_async_plain p issues :
  Forall plain issues -> Forall plain (EdgeCases.on_async p issues).
Proof. intros H. unfold EdgeCases.on_async. split_cases; carried. Qed.

Lemma EdgeCases_on_access_plain checked p st :
  Forall plain (found st) -> Forall plain (found (EdgeCases.on_access checked p st)).
Proof. intros H. unfold EdgeCases.on_access. split_cases; carried. Qed.

Lemma EdgeCases_on_input_plain p st :
  Forall plain (found (EdgeCases.input_issues st)) ->
  Forall plain (found (EdgeCases.input_issues (EdgeCases.on_input p st))).
Proof. intros H. unfold EdgeCases.on_input. split_cases; carried. Qed.

Theorem EdgeCases_analyzeEdgeCases_plain ast : Forall plain (EdgeCases.analyzeEdgeCases ast).
Proof.
  unfold EdgeCases.analyzeEdgeCases, EdgeCases.checkUncheckedExternalInput,
    EdgeCases.checkUncheckedArrayAccess, EdgeCases.checkAsyncWithoutTryCatch.
  apply (visit_invariant (fun st => Forall plain (found (EdgeCases.input_issues st))));
    [|intros; apply EdgeCases_on_input_plain; assumption].
  apply (visit_invariant (fun st => Forall plain (found st)));
    [|intros; apply EdgeCases_on_access_plain; assumption].
  apply (visit_invariant (Forall plain));
    [constructor|intros; apply EdgeCases_on_async_plain; assumption].
Qed.

(** The schedule of [getComplexityPenalty] has five values. *)
Lemma getComplexityPenalty_values c :
  Complexity.getComplexityPenalty c ∈ [0; 3; 6; 10; 15].
Proof.
  unfold Complexity.getComplexityPenalty.
  repeat case_match; set_solver.
Qed.

Lemma getComplexityPenalty_nonneg c : 0 <= Complexity.getComplexityPenalty c.
Proof.
  unfold Complexity.getComplexityPenalty.
  repeat case_match; lia.
Qed.

Lemma Complexity_on_function_plain p st :
  Forall plain (Complexity.issues st) ->
  Forall plain (Complexity.issues (Complexity.on_function p st)).
Proof.
  intros H. unfold Complexity.on_function.
  destruct (is_function_type (type (node p))); [|assumption].
  destruct (0 <? _) eqn:Hpen; simpl; [|assumption].
  apply good_push; [assumption|]. apply plain_issue. apply getComplexityPenalty_nonneg.
Qed.

Theorem Complexity_analyzeComplexity_plain ast : Forall plain (Complexity.analyzeComplexity ast).
Proof.
  unfold Complexity.analyzeComplexity.
  assert (Hst : Forall plain (Complexity.issues
            (visit Complexity.on_function (traverse_paths ast) (Complexity.mkState [] [])))).
  { apply (visit_invariant (fun st => Forall plain (Complexity.issues st)));
      [constructor|intros; apply Complexity_on_function_plain; assumption]. }
  destruct (_ =? _)%nat; [|assumption].
  destruct (0 <? _); [|assumption].
  apply good_push; [assumption|]. apply plain_issue. apply getComplexityPenalty_nonneg.
Qed.

(** ** The browser security detector tags every issue *)

Lemma BrowserSecurity_on_eval_tagged p st :
  Forall with_severity (found st) -> Forall with_severity (found (BrowserSecurity.on_eval p st)).
Proof. intros H. unfold BrowserSecurity.on_eval. split_cases; carried. Qed.

Lemma BrowserSecurity_on_child_process_tagged p st :
  Forall with_severity (found st) ->
  Forall with_severity (found (BrowserSecurity.on_child_process p st)).
Proof. intros H. unfold BrowserSecurity.on_child_process. split_cases; carried. Qed.

Lemma BrowserSecurity_on_secret_tagged p st :
  Forall with_severity (found st) ->
  Forall with_severity (found (BrowserSecurity.on_secret p st)).
Proof. intros H. unfold BrowserSecurity.on_secret. split_cases; carried. Qed.

Lemma BrowserSecurity_on_unsanitized_tagged p st :
  Forall with_severity (found st) ->
  Forall with_severity (found (BrowserSecurity.on_unsanitized p st)).
Proof.
  intros H. unfold BrowserSecurity.on_unsanitized.
  destruct (bool_decide (type (node p) = "TemplateLiteral")).
  - apply (foldl_invariant (fun st => Forall with_severity (found st))); [assumption|].
    intros s a Hs. split_cases; carried.
  - split_cases; carried.
Qed.

Theorem BrowserSecurity_analyzeSecurity_tagged ast :
  Forall with_severity (BrowserSecurity.analyzeSecurity ast).
Proof.
  unfold BrowserSecurity.analyzeSecurity, BrowserSecurity.checkUnsanitizedInput,
    BrowserSecurity.checkHardcodedSecrets, BrowserSecurity.checkChildProcessUsage,
    BrowserSecurity.checkEvalUsage.
  apply (visit_invariant (fun st => Forall with_severity (found st)));
    [|intros; apply BrowserSecurity_on_unsanitized_tagged; assumption].
  apply (visit_invariant (fun st => Forall with_severity (found st)));
    [|intros; apply BrowserSecurity_on_secret_tagged; assumption].
  apply (visit_invariant (fun st => Forall with_severity (found st)));
    [|intros; apply BrowserSecurity_on_child_process_tagged; assumption].
  apply (visit_invariant (fun st => Forall with_severity (found st)));
    [constructor|intros; apply BrowserSecurity_on_eval_tagged; assumption].
Qed.

(** ** The complexity detector *)

Lemma Complexity_on_function_step p st :
  let st' := Complexity.on_function p st in
  map penalty (Complexity.issues st') =
    map penalty (Complexity.issues st) ++
    List.filter (fun pen => 0 <? pen)
      (map Complexity.function_penalty
         (List.filter (fun p => is_function_type (type (node p))) [p])) /\
  length (Complexity.functionComplexities st') =
    (length (Complexity.functionComplexities st) +
     length (List.filter (fun p => is_function_type (type (node p))) [p]))%nat.
Proof.
  unfold Complexity.on_function, Complexity.function_penalty. simpl.
  destruct (is_function_type (type (node p))) eqn:Hfun; simpl.
  - destruct (0 <? Complexity.getComplexityPenalty _) eqn:Hpen; simpl.
    + rewrite map_app, length_app. simpl. split; [reflexivity|lia].
    + rewrite length_app, app_nil_r. simpl. split; [reflexivity|lia].
  - rewrite app_nil_r. split; [reflexivity|lia].
Qed.

Lemma Complexity_visit_functions paths st :
  let st' := visit Complexity.on_function paths st in
  map penalty (Complexity.issues st') =
    map penalty (Complexity.issues st) ++
    List.filter (fun pen => 0 <? pen)
      (map Complexity.function_penalty
         (List.filter (fun p => is_function_type (type (node p))) paths)) /\
  length (Complexity.functionComplexities st') =
    (length (Complexity.functionComplexities st) +
     length (List.filter (fun p => is_function_type (type (node p))) paths))%nat.
Proof.
  unfold visit. revert st.
  induction paths as [|p paths IH]; intros st.
  - simpl. rewrite app_nil_r. split; [reflexivity|lia].
  - change (p :: paths) with ([p] ++ paths).
    rewrite List.filter_app, map_app, List.filter_app, length_app, foldl_app.
    destruct (IH (foldl (fun st0 p0 => Complexity.on_function p0 st0) st [p])) as [IHi IHn].
    destruct (Complexity_on_function_step p st) as [Hi Hn].
    cbn zeta in Hi, Hn. simpl foldl in *.
    rewrite IHi, IHn, Hi, Hn, <- app_assoc. split; [reflexivity|lia].
Qed.




(** ** The aggregator *)

Lemma reduce_penalties issues acc :
  foldl (fun sum issue => sum + penalty issue) acc issues = acc + sum_penalties issues.
Proof.
  unfold sum_penalties. revert acc.
  induction issues as [|i issues IH]; intros acc; simpl; [lia|].
  rewrite IH. lia.
Qed.

Lemma aggregateCategory_score maxScore issues :
  score (aggregateCategory maxScore issues) = Z.max 0 (maxScore - sum_penalties issues).
Proof. unfold aggregateCategory. simpl. rewrite reduce_penalties. reflexivity. Qed.

Lemma sum_penalties_nonneg issues :
  Forall (fun i => 0 <= penalty i) issues -> 0 <= sum_penalties issues.
Proof.
  unfold sum_penalties. induction 1 as [|i issues Hi Hl IH]; simpl; lia.
Qed.

Lemma plain_nonneg issues : Forall plain issues -> Forall (fun i => 0 <= penalty i) issues.
Proof. intros H. eapply Forall_impl; [exact H|]. intros i [Hi _]. exact Hi. Qed.

Lemma aggregateCategory_bounds issues :
  Forall plain issues -> 0 <= score (aggregateCategory MAX_SCORE issues) <= 25.
Proof.
  intros H. rewrite aggregateCategory_score.
  pose proof (sum_penalties_nonneg issues (plain_nonneg issues H)).
  unfold MAX_SCORE. lia.
Qed.

(** C1: [aggregateCategory] returns the score [max(0, maxScore - sum of
    the penalties)] and the comments of the issues in the order they were
    pushed; and for a source text the parser accepts, each of the four
    category scores of the server's [analyzeCode] lies in [0, 25], and
    [totalScore] is the sum of the four, hence lies in [0, 100]. *)
Theorem C1_scores_are_bounded_and_sum :
  (forall maxScore issues,
     score (aggregateCategory maxScore issues) = Z.max 0 (maxScore - sum_penalties issues) /\
     comments (aggregateCategory maxScore issues) = map comment issues) /\
  (forall parser_parse code ast,
     parser_parse code = Tree ast ->
     let r := Server.analyzeCode parser_parse code in
     0 <= score (Server.readability r) <= 25 /\
     0 <= score (Server.complexity r) <= 25 /\
     0 <= score (Server.edgeCases r) <= 25 /\
     0 <= score (Server.security r) <= 25 /\
     Server.totalScore r =
       score (Server.readability r) + score (Server.complexity r) +
       score (Server.edgeCases r) + score (Server.security r) /\
     0 <= Server.totalScore r <= 100).
Proof.
  split.
  - intros maxScore issues. split; [apply aggregateCategory_score|reflexivity].
  - intros parser_parse code ast Hparse.
    unfold Server.analyzeCode, Server.analyzeParsed, parseCode, parseCode_of. rewrite Hparse.
    cbn [Server.readability Server.complexity Server.edgeCases Server.security
         Server.totalScore].
    pose proof (aggregateCategory_bounds _ (Readability_analyzeReadability_plain ast)).
    pose proof (aggregateCategory_bounds _ (Complexity_analyzeComplexity_plain ast)).
    pose proof (aggregateCategory_bounds _ (EdgeCases_analyzeEdgeCases_plain ast)).
    pose proof (aggregateCategory_bounds _ (Security_analyzeSecurity_plain ast)).
    unfold Server.analyzeComplexity. repeat split; lia.
Qed.

(** C1, run on a call of [eval]. *)
Lemma C1_witness :
  let r := Server.analyzeCode (fun _ => Tree Samples.eval_call) "eval('1+1')" in
  0 <= score (Server.readability r) <= 25 /\
  0 <= score (Server.complexity r) <= 25 /\
  0 <= score (Server.edgeCases r) <= 25 /\
  0 <= score (Server.security r) <= 25 /\
  Server.totalScore r =
    score (Server.readability r) + score (Server.complexity r) +
    score (Server.edgeCases r) + score (Server.security r) /\
  0 <= Server.totalScore r <= 100.
Proof.
  apply (proj2 C1_scores_are_bounded_and_sum (fun _ => Tree Samples.eval_call)
           "eval('1+1')" Samples.eval_call).
  reflexivity.
Defined.

(** ** The verdict engine *)

Lemma Set_spread_spec (seen : gset string) (l : list string) :
  NoDup (JS.Set_spread seen l) /\
  (forall x, x ∈ JS.Set_spread seen l <-> x ∈ l /\ x ∉ seen).
Proof.
  revert seen. induction l as [|y l IH]; intros seen; simpl.
  - split; [constructor|]. intros x. set_solver.
  - destruct (bool_decide (y ∈ seen)) eqn:Hy.
    + apply bool_decide_eq_true in Hy.
      destruct (IH seen) as [Hnd Hmem]. split; [exact Hnd|].
      intros x. rewrite Hmem. set_solver.
    + apply bool_decide_eq_false in Hy.
      destruct (IH ({[ y ]} ∪ seen)) as [Hnd Hmem]. split.
      * constructor; [|exact Hnd]. rewrite Hmem. set_solver.
      * intros x. rewrite elem_of_cons, Hmem.
        destruct (decide (x = y)) as [->|Hne]; set_solver.
Qed.

Lemma criticalType_names i :
  Verdict.criticalType i ∈
    ["eval() usage"; "Function() constructor"; "child_process usage"; "critical security issue"].
Proof. unfold Verdict.criticalType. repeat case_match; set_solver. Qed.

(** The kind the callback answers, spelled out on the comment. *)
Lemma criticalType_spelled i k :
  Verdict.criticalType i = k <->
  (JS.includes (comment i) "eval" = true /\ k = "eval() usage" \/
   JS.includes (comment i) "eval" = false /\
   JS.includes (comment i) "Function()" = true /\ k = "Function() constructor" \/
   JS.includes (comment i) "eval" = false /\
   JS.includes (comment i) "Function()" = false /\
   JS.includes (comment i) "child_process" = true /\ k = "child_process usage" \/
   JS.includes (comment i) "eval" = false /\
   JS.includes (comment i) "Function()" = false /\
   JS.includes (comment i) "child_process" = false /\ k = "critical security issue").
Proof.
  unfold Verdict.criticalType.
  destruct (JS.includes (comment i) "eval");
    [|destruct (JS.includes (comment i) "Function()");
      [|destruct (JS.includes (comment i) "child_process")]];
    split;
    try (intros <-; tauto);
    intros [H|[H|[H|H]]]; decompose [and] H; first [discriminate|congruence].
Qed.

(** C2: with a non-empty [criticalIssues] the verdict is [BLOCK_MERGE]
    whatever the total score, and the override reason lists, once each, the
    categories of the critical issues: [eval() usage] for an issue whose
    comment contains [eval]; else [Function() constructor] for one whose
    comment contains [Function()]; else [child_process usage] for one whose
    comment contains [child_process]; else [critical security issue].
    With no critical issue the verdict is the score band: 85 and more
    [APPROVE], 75 to 84 [APPROVE_WITH_NITS], 65 to 74 [REQUEST_CHANGES],
    less than 65 [BLOCK_MERGE]. *)
Theorem C2_critical_issues_block_else_score_band (a : Verdict.AnalysisInput) :
  let issues := match Verdict.criticalIssues a with Some l => l | None => [] end in
  let total := Verdict.totalScore a in
  let r := Verdict.determineVerdict a in
  let names (i : Issue) (k : string) :=
    JS.includes (comment i) "eval" = true /\ k = "eval() usage" \/
    JS.includes (comment i) "eval" = false /\
    JS.includes (comment i) "Function()" = true /\ k = "Function() constructor" \/
    JS.includes (comment i) "eval" = false /\
    JS.includes (comment i) "Function()" = false /\
    JS.includes (comment i) "child_process" = true /\ k = "child_process usage" \/
    JS.includes (comment i) "eval" = false /\
    JS.includes (comment i) "Function()" = false /\
    JS.includes (comment i) "child_process" = false /\ k = "critical security issue" in
  (issues <> [] ->
   Verdict.verdict r = Verdict.BLOCK_MERGE /\
   exists kinds,
     Verdict.overrideReason r =
       Some ("Critical security issues detected: " +:+ JS.join ", " kinds) /\
     NoDup kinds /\
     (forall k, k ∈ kinds <-> exists i, i ∈ issues /\ names i k) /\
     (forall k, k ∈ kinds ->
        k ∈ ["eval() usage"; "Function() constructor"; "child_process usage";
             "critical security issue"])) /\
  (issues = [] ->
   Verdict.overrideReason r = None /\
   (85 <= total -> Verdict.verdict r = Verdict.APPROVE) /\
   (75 <= total <= 84 -> Verdict.verdict r = Verdict.APPROVE_WITH_NITS) /\
   (65 <= total <= 74 -> Verdict.verdict r = Verdict.REQUEST_CHANGES) /\
   (total < 65 -> Verdict.verdict r = Verdict.BLOCK_MERGE)).
Proof.
  intros issues total r names. subst r. unfold Verdict.determineVerdict.
  fold issues. fold total. split.
  - intros Hne. destruct issues as [|i rest] eqn:Hissues; [congruence|].
    cbn [length Nat.ltb Nat.leb]. cbn [Verdict.verdict Verdict.overrideReason].
    split; [reflexivity|].
    exists (JS.Set_spread ∅ (map Verdict.criticalType (i :: rest))).
    destruct (Set_spread_spec ∅ (map Verdict.criticalType (i :: rest))) as [Hnd Hmem].
    split; [reflexivity|]. split; [exact Hnd|]. split.
    + intros k. rewrite Hmem, list_elem_of_fmap. split.
      * intros [[j [Hj Hin]] _]. exists j. split; [exact Hin|].
        apply criticalType_spelled. symmetry. exact Hj.
      * intros [j [Hin Hj]]. apply criticalType_spelled in Hj.
        split; [exists j; split; [symmetry; exact Hj|exact Hin]|].
        set_solver.
    + intros k Hk. apply Hmem in Hk. destruct Hk as [Hk _].
      apply list_elem_of_fmap in Hk. destruct Hk as [j [-> _]].
      apply criticalType_names.
  - intros Hnil. rewrite Hnil. cbn [length Nat.ltb Nat.leb].
    cbn [Verdict.verdict Verdict.overrideReason].
    split; [reflexivity|].
    unfold Verdict.getScoreBasedVerdict, Verdict.THRESHOLDS.
    cbn [Verdict.APPROVE_MIN Verdict.APPROVE_WITH_NITS_MIN Verdict.REQUEST_CHANGES_MIN].
    repeat split; intros; repeat case_match; try reflexivity; lia.
Qed.

(** C2, run on a perfect score that carries two critical issues, a call
    of [eval] and a call through [child_process]: the verdict is
    [BLOCK_MERGE] and the reason names these two categories and not the
    generic one. *)
Lemma C2_witness :
  let a :=
    Verdict.mkInput 100
      (Some [tagged 8 "CRITICAL: eval() usage detected at line 1." CRITICAL;
             tagged 6 "CRITICAL: child_process.exec() detected at line 2." CRITICAL])
      None in
  Verdict.verdict (Verdict.determineVerdict a) = Verdict.BLOCK_MERGE /\
  exists kinds,
    Verdict.overrideReason (Verdict.determineVerdict a) =
      Some ("Critical security issues detected: " +:+ JS.join ", " kinds) /\
    "eval() usage" ∈ kinds /\ "child_process usage" ∈ kinds /\
    "critical security issue" ∉ kinds.
Proof.
  intros a.
  destruct (proj1 (C2_critical_issues_block_else_score_band a)) as
    [Hverdict [kinds [Hreason [_ [Hkinds _]]]]]; [discriminate|].
  split; [exact Hverdict|]. exists kinds. split; [exact Hreason|].
  split; [|split].
  - apply Hkinds. eexists. split; [left|]. left. split; reflexivity.
  - apply Hkinds. eexists. split; [right; left|].
    right. right. left. repeat split; reflexivity.
  - intros Hin. apply Hkinds in Hin. destruct Hin as [i [Hi Hnames]].
    repeat (apply elem_of_cons in Hi; destruct Hi as [->|Hi];
            [vm_compute in Hnames; intuition discriminate|]).
    inversion Hi.
Defined.

(** ** Substrings *)

Lemma prefix_append a b : String.prefix a (a +:+ b) = true.
Proof.
  induction a as [|c a IH]; simpl; [destruct b; reflexivity|].
  destruct (Ascii.ascii_dec c c); [exact IH|congruence].
Qed.

Lemma prefix_append_l x s t : String.prefix x s = true -> String.prefix x (s +:+ t) = true.
Proof.
  revert s. induction x as [|c x IH]; intros s H; simpl.
  - destruct (s +:+ t); reflexivity.
  - destruct s as [|d s]; simpl in *; [discriminate|].
    destruct (Ascii.ascii_dec c d); [apply IH; exact H|discriminate].
Qed.

Lemma includes_append_l s t x : JS.includes s x = true -> JS.includes (s +:+ t) x = true.
Proof.
  induction s as [|c s IH]; simpl; intros H.
  - rewrite orb_false_r in H. destruct x; [|simpl in H; discriminate].
    destruct t; reflexivity.
  - apply orb_true_iff in H. apply orb_true_iff. destruct H as [H|H].
    + left. apply (prefix_append_l x (String c s) t H).
    + right. apply IH. exact H.
Qed.

Lemma includes_append_r s t x : JS.includes t x = true -> JS.includes (s +:+ t) x = true.
Proof.
  intros H. induction s as [|c s IH]; simpl; [exact H|].
  rewrite IH. apply orb_true_r.
Qed.

Lemma includes_self x b : JS.includes (x +:+ b) x = true.
Proof.
  destruct x as [|c x]; simpl.
  - destruct b; reflexivity.
  - apply orb_true_iff. left.
    destruct (Ascii.ascii_dec c c); [apply prefix_append|congruence].
Qed.

Lemma includes_between a x b : JS.includes (a +:+ x +:+ b) x = true.
Proof. apply includes_append_r, includes_self. Qed.

Lemma append_empty s : s +:+ EmptyString = s.
Proof.
  induction s as [|c s IH]; [reflexivity|].
  change (String c s +:+ EmptyString) with (String c (s +:+ EmptyString)).
  rewrite IH. reflexivity.
Qed.

Lemma includes_join sep l x : x ∈ l -> JS.includes (JS.join sep l) x = true.
Proof.
  unfold JS.join. induction l as [|y l IH]; intros Hin; [inversion Hin|].
  apply elem_of_cons in Hin. simpl. destruct l as [|z l].
  - destruct Hin as [Heq|Hin]; [subst y|inversion Hin].
    pose proof (includes_self x EmptyString) as H.
    rewrite append_empty in H. exact H.
  - destruct Hin as [Heq|Hin].
    + subst y. apply includes_self.
    + apply includes_append_r, includes_append_r, IH, Hin.
Qed.

Lemma append_assoc a b c : (a +:+ b) +:+ c = a +:+ (b +:+ c).
Proof.
  induction a as [|x a IH]; [reflexivity|].
  change ((String x a +:+ b) +:+ c) with (String x ((a +:+ b) +:+ c)).
  rewrite IH. reflexivity.
Qed.

Lemma prefix_iff x s : String.prefix x s = true <-> exists b, s = x +:+ b.
Proof.
  revert s. induction x as [|c x IH]; intros s.
  - split; [intros _; exists s; reflexivity|]. intros _. destruct s; reflexivity.
  - destruct s as [|d s]; simpl.
    + split; [discriminate|]. intros [b Hb]. discriminate.
    + destruct (Ascii.ascii_dec c d) as [->|Hne].
      * rewrite IH. split; intros [b Hb]; exists b.
        -- rewrite Hb. reflexivity.
        -- injection Hb as Hb. exact Hb.
      * split; [discriminate|]. intros [b Hb]. injection Hb as Hd _. congruence.
Qed.

Lemma includes_iff s x : JS.includes s x = true <-> exists a b, s = a +:+ x +:+ b.
Proof.
  split.
  - induction s as [|c s IH]; simpl; intros H.
    + rewrite orb_false_r in H. destruct x; [|discriminate].
      exists EmptyString, EmptyString. reflexivity.
    + apply orb_true_iff in H. destruct H as [H|H].
      * apply (prefix_iff x (String c s)) in H. destruct H as [b Hb].
        exists EmptyString, b. exact Hb.
      * destruct (IH H) as [a [b Hab]]. exists (String c a), b. rewrite Hab. reflexivity.
  - intros [a [b ->]]. apply includes_between.
Qed.

Lemma includes_trans s t u :
  JS.includes s t = true -> JS.includes t u = true -> JS.includes s u = true.
Proof.
  rewrite !includes_iff. intros [a [b ->]] [c [d ->]].
  exists (a +:+ c), (d +:+ b). rewrite !append_assoc. reflexivity.
Qed.

(** ** The decision engine *)

Lemma sort_insert_not_nil {A} (key : A -> Z) x l : JS.sort_insert key x l <> [].
Proof. destruct l; simpl; [discriminate|]. destruct (key x <=? key a); discriminate. Qed.

Lemma sort_insert_head {A} (key : A -> Z) x l h rest :
  JS.sort_insert key x l = h :: rest ->
  (h = x /\ forall y, head l = Some y -> key x <= key y) \/
  (head l = Some h /\ key h < key x).
Proof.
  destruct l as [|y l]; simpl.
  - intros [= <- <-]. left. split; [reflexivity|]. intros y [=].
  - destruct (key x <=? key y) eqn:Hle.
    + intros [= <- <-]. left. split; [reflexivity|].
      intros z [= <-]. apply Z.leb_le. exact Hle.
    + intros [= <- <-]. right. split; [reflexivity|].
      apply Z.leb_gt. exact Hle.
Qed.

(** The first element of a sorted array is a least one, and among the
    least ones the earliest of the original array. *)
Lemma sort_by_head_least {A} (key : A -> Z) l h rest :
  JS.sort_by key l = h :: rest ->
  h ∈ l /\ forall y, y ∈ l -> key h <= key y.
Proof.
  revert h rest. induction l as [|x l IH]; intros h rest; [discriminate|].
  unfold JS.sort_by. simpl. fold (JS.sort_by key l). intros Hsort.
  destruct (sort_insert_head key x (JS.sort_by key l) h rest Hsort) as [[-> Hmin]|[Hhead Hlt]].
  - split; [left|]. intros y Hy. apply elem_of_cons in Hy. destruct Hy as [->|Hy]; [lia|].
    destruct (JS.sort_by key l) as [|z zs] eqn:Hl.
    + destruct l; [inversion Hy|].
      unfold JS.sort_by in Hl. simpl in Hl. apply sort_insert_not_nil in Hl. contradiction.
    + destruct (IH z zs eq_refl) as [_ Hz].
      specialize (Hmin z eq_refl). specialize (Hz y Hy). lia.
  - destruct (JS.sort_by key l) as [|z zs] eqn:Hl; [discriminate|].
    simpl in Hhead. injection Hhead as ->.
    destruct (IH h zs eq_refl) as [Hin Hh].
    split; [right; exact Hin|].
    intros y Hy. apply elem_of_cons in Hy. destruct Hy as [->|Hy]; [lia|auto].
Qed.

(** The security comments trip the override exactly when one of them
    contains one of the patterns, case being folded on both sides. *)
Lemma checkCriticalDeductions_spec comments :
  Decision.checkCriticalDeductions comments = true <->
  exists comment pattern,
    comment ∈ comments /\ pattern ∈ Decision.CRITICAL_SECURITY_PATTERNS /\
    JS.includes (JS.toLowerCase comment) (JS.toLowerCase pattern) = true.
Proof.
  unfold Decision.checkCriticalDeductions. rewrite existsb_exists. split.
  - intros [pattern [Hp H]]. apply existsb_exists in H. destruct H as [lc [Hlc H]].
    apply in_map_iff in Hlc. destruct Hlc as [comment [<- Hc]].
    exists comment, pattern. rewrite !list_elem_of_In. auto.
  - intros [comment [pattern [Hc [Hp H]]]]. exists pattern.
    rewrite <- list_elem_of_In. split; [exact Hp|].
    apply existsb_exists. exists (JS.toLowerCase comment). split; [|exact H].
    apply in_map. apply list_elem_of_In. exact Hc.
Qed.

Lemma show_entry_of_category s c :
  c ∈ Decision.categoryScores_of s ->
  Decision.show_entry (Decision.categoryScores_of s) c.1 = JS.toString c.2.
Proof.
  unfold Decision.categoryScores_of. intros Hc.
  repeat (apply elem_of_cons in Hc; destruct Hc as [->|Hc]; [reflexivity|]).
  inversion Hc.
Qed.

Lemma failed_category s c :
  c ∈ Decision.categoryScores_of s -> c.2 < 10 ->
  c.1 ∈ omap (fun e : string * Z => if e.2 <? Decision.REJECT_CATEGORY then Some e.1 else None)
             (Decision.categoryScores_of s).
Proof.
  intros Hc Hlow. apply list_elem_of_omap. exists c. split; [exact Hc|].
  unfold Decision.REJECT_CATEGORY. destruct (c.2 <? 10) eqn:H; [reflexivity|].
  apply Z.ltb_ge in H. lia.
Qed.

Lemma no_failed_category s :
  (forall c, c ∈ Decision.categoryScores_of s -> 10 <= c.2) ->
  omap (fun e : string * Z => if e.2 <? Decision.REJECT_CATEGORY then Some e.1 else None)
       (Decision.categoryScores_of s) = [].
Proof.
  intros Hall.
  destruct (omap _ _) as [|x l] eqn:Hfailed; [reflexivity|].
  assert (Hx : x ∈ x :: l) by left. rewrite <- Hfailed in Hx.
  apply list_elem_of_omap in Hx. destruct Hx as [c [Hc Hsome]].
  specialize (Hall c Hc). unfold Decision.REJECT_CATEGORY in Hsome.
  destruct (c.2 <? 10) eqn:H; [|discriminate]. apply Z.ltb_lt in H. lia.
Qed.

(** C3: [determineDecision] takes the first rule that applies.  (1) With a
    total below 65 or a category below 10 the decision is
    [NOT_READY_FOR_REVIEW], and the reason lists the total when it is
    below 65 and every category below 10 with its score.  Otherwise the
    decision is never [NOT_READY_FOR_REVIEW]: (2) up to a total of 80 it is
    [NEEDS_REFACTOR]; (3) above 80 it is [NEEDS_REFACTOR] when a security
    comment contains, case folded, one of [eval], [Function()],
    [child_process], [hardcoded secret], and else [READY_FOR_HUMAN_REVIEW]
    with a reason that names a weakest category when it scores below 20. *)
Theorem C3_decision_is_first_matching_rule (s : Decision.Scores) :
  let total := Decision.totalScore s in
  let cats :=
    [ ("readability", score (Decision.readability s));
      ("complexity", score (Decision.complexity s));
      ("edgeCases", score (Decision.edgeCases s));
      ("security", score (Decision.security s)) ] in
  let r := Decision.determineDecision s in
  let critical :=
    exists comment pattern,
      comment ∈ comments (Decision.security s) /\
      pattern ∈ ["eval"; "Function()"; "child_process"; "hardcoded secret"] /\
      JS.includes (JS.toLowerCase comment) (JS.toLowerCase pattern) = true in
  ((total < 65 \/ exists c, c ∈ cats /\ c.2 < 10) ->
   Decision.decision r = Decision.NOT_READY_FOR_REVIEW /\
   (total < 65 ->
    JS.includes (Decision.decisionReason r)
      ("Total score " +:+ JS.toString total +:+ " is below minimum threshold (65)") = true) /\
   (forall c, c ∈ cats -> c.2 < 10 ->
    JS.includes (Decision.decisionReason r) (c.1 +:+ ": " +:+ JS.toString c.2) = true)) /\
  (65 <= total -> (forall c, c ∈ cats -> 10 <= c.2) ->
   Decision.decision r <> Decision.NOT_READY_FOR_REVIEW /\
   (total <= 80 -> Decision.decision r = Decision.NEEDS_REFACTOR) /\
   (80 < total -> critical -> Decision.decision r = Decision.NEEDS_REFACTOR) /\
   (80 < total -> ~ critical ->
    Decision.decision r = Decision.READY_FOR_HUMAN_REVIEW /\
    exists c,
      c ∈ cats /\ (forall c', c' ∈ cats -> c.2 <= c'.2) /\
      (c.2 < 20 ->
       JS.includes (Decision.decisionReason r)
         (c.1 +:+ " (" +:+ JS.toString c.2 +:+ "/25)") = true))).
Proof.
  intros total cats r critical.
  change (Decision.categoryScores_of s) in (value of cats).
  subst r. unfold Decision.determineDecision.
  fold total. fold cats. cbv zeta.
  set (failed := omap _ cats).
  split.
  - intros Hfail.
    assert (Hrule : ((total <? Decision.REJECT_TOTAL) || (0 <? length failed)%nat) = true).
    { destruct Hfail as [Hlow|[c [Hc Hlow]]].
      - unfold Decision.REJECT_TOTAL. apply orb_true_iff. left. apply Z.ltb_lt. exact Hlow.
      - apply orb_true_iff. right. pose proof (failed_category s c Hc Hlow) as Hin.
        fold cats in Hin. fold failed in Hin.
        destruct failed; [inversion Hin|reflexivity]. }
    rewrite Hrule. cbn [Decision.decision Decision.decisionReason].
    split; [reflexivity|]. unfold Decision.buildRejectReason. split.
    + intros Hlow. apply includes_append_l.
      assert (Htot : (total <? Decision.REJECT_TOTAL) = true)
        by (apply Z.ltb_lt; exact Hlow).
      rewrite Htot. apply includes_join.
      destruct (0 <? length failed)%nat; [apply elem_of_app; left|]; left.
    + intros c Hc Hlow. apply includes_append_l.
      pose proof (failed_category s c Hc Hlow) as Hin.
      fold cats in Hin. fold failed in Hin.
      assert (Hlen : (0 <? length failed)%nat = true)
        by (destruct failed; [inversion Hin|reflexivity]).
      rewrite Hlen.
      eapply includes_trans.
      * apply includes_join. apply elem_of_app. right. left.
      * eapply includes_trans; [apply includes_between|].
        apply includes_join. apply list_elem_of_fmap.
        exists c.1. split; [|exact Hin].
        unfold cats. cbv beta.
        rewrite (show_entry_of_category s c Hc). reflexivity.
  - intros Htotal Hcats.
    assert (Hrule : ((total <? Decision.REJECT_TOTAL) || (0 <? length failed)%nat) = false).
    { unfold failed, cats. rewrite (no_failed_category s Hcats).
      unfold Decision.REJECT_TOTAL. apply orb_false_iff. split; [|reflexivity].
      apply Z.ltb_ge. exact Htotal. }
    rewrite Hrule. unfold Decision.REFACTOR_MAX.
    destruct (total <=? 80) eqn:Hmax.
    + apply Z.leb_le in Hmax. cbn [Decision.decision].
      repeat split; try discriminate; intros; lia.
    + apply Z.leb_gt in Hmax.
      destruct (Decision.checkCriticalDeductions _) eqn:Hcrit.
      * cbn [Decision.decision].
        split; [discriminate|]. split; [intros; lia|]. split; [reflexivity|].
        intros _ Hno. exfalso. apply Hno.
        apply checkCriticalDeductions_spec in Hcrit. exact Hcrit.
      * cbn [Decision.decision Decision.decisionReason].
        split; [discriminate|]. split; [intros; lia|]. split.
        -- intros _ Hyes. apply checkCriticalDeductions_spec in Hyes. congruence.
        -- intros _ _. split; [reflexivity|].
           unfold Decision.buildReadyReason.
           destruct (JS.sort_by snd cats) as [|lowest rest] eqn:Hsort.
           ++ unfold cats, Decision.categoryScores_of, JS.sort_by in Hsort. simpl in Hsort.
              apply sort_insert_not_nil in Hsort. contradiction.
           ++ destruct (sort_by_head_least snd cats lowest rest Hsort) as [Hin Hleast].
              exists lowest. split; [exact Hin|]. split; [exact Hleast|].
              intros Hlow. apply Z.ltb_lt in Hlow. rewrite Hlow.
              apply includes_iff.
              exists ("Code quality score " +:+ JS.toString total +:+
                      "/100 meets standards for human review." +:+
                      " Reviewer should pay attention to "), ".".
              rewrite !append_assoc. reflexivity.
Qed.

(** C3, run on a total of 92 whose security comments report [eval], and
    on a total of 80 whose security score alone, 5, is below 10. *)
Lemma C3_witness :
  Decision.decision
    (Decision.determineDecision
       (Decision.mkScores (mkCategory 25 []) (mkCategory 25 []) (mkCategory 25 [])
          (mkCategory 17 ["Dangerous 'eval()' usage detected at line 1."]) 92))
  = Decision.NEEDS_REFACTOR /\
  (let r :=
     Decision.determineDecision
       (Decision.mkScores (mkCategory 25 []) (mkCategory 25 []) (mkCategory 25 [])
          (mkCategory 5 []) 80) in
   Decision.decision r = Decision.NOT_READY_FOR_REVIEW /\
   JS.includes (Decision.decisionReason r) "security: 5" = true).
Proof.
  split.
  - refine (proj1 (proj2 (proj2 (proj2 (C3_decision_is_first_matching_rule
              (Decision.mkScores (mkCategory 25 []) (mkCategory 25 []) (mkCategory 25 [])
                 (mkCategory 17 ["Dangerous 'eval()' usage detected at line 1."]) 92))
              _ _))) _ _).
    + simpl. lia.
    + intros c Hc. simpl in Hc.
      repeat (apply elem_of_cons in Hc; destruct Hc as [->|Hc]; [simpl; lia|]).
      inversion Hc.
    + simpl. lia.
    + exists "Dangerous 'eval()' usage detected at line 1.", "eval".
      split; [left|]. split; [left|]. reflexivity.
  - destruct (proj1 (C3_decision_is_first_matching_rule
                       (Decision.mkScores (mkCategory 25 []) (mkCategory 25 [])
                          (mkCategory 25 []) (mkCategory 5 []) 80)))
      as [Hdecision [_ Hreason]].
    + right. exists ("security", 5). split; [|simpl; lia].
      simpl. do 3 right. left.
    + split; [exact Hdecision|].
      apply (Hreason ("security", 5)); [simpl; do 3 right; left|simpl; lia].
Defined.

(** ** Parse failures *)

(** C4, as stated, fails: when the parser rejects a lone closing brace
    with the message [Unexpected token (1:0)], the comment list of a
    category holds one fixed notice, which contains neither the parser's
    message nor the [error] string made from it. *)
Lemma C4_counterexample :
  let r := Server.analyzeCode (fun _ => SyntaxError "Unexpected token (1:0)") "}" in
  Server.error r = Some "Syntax Error: Unexpected token (1:0)" /\
  comments (Server.readability r) = ["Unable to analyze: code has syntax errors"] /\
  ~ Exists (fun c => JS.includes c "Unexpected token (1:0)" = true)
      (comments (Server.readability r)) /\
  ~ Exists (fun c => JS.includes c "Syntax Error: Unexpected token (1:0)" = true)
      (comments (Server.readability r)).
Proof.
  cbv zeta. split; [reflexivity|]. split; [reflexivity|].
  split; intros H; apply Exists_exists in H; destruct H as [c [Hc Hinc]];
    apply list_elem_of_singleton in Hc; subst c; vm_compute in Hinc; discriminate.
Qed.

(** C4, amended: when the parser fails, [analyzeCode] (and [analyze], for
    a text that is not blank) returns the all-zero result: every category
    has the score 0 and the one fixed comment [Unable to analyze: code has
    syntax errors], [totalScore] is 0, and the top-level [error] is the
    non-empty string [Syntax Error: ] followed by the parser's message. *)
Theorem C4_parse_failure_gives_zero_result parser_parse code message :
  parser_parse code = SyntaxError message ->
  let r := Server.analyzeCode parser_parse code in
  let notice := mkCategory 0 ["Unable to analyze: code has syntax errors"] in
  Server.readability r = notice /\
  Server.complexity r = notice /\
  Server.edgeCases r = notice /\
  Server.security r = notice /\
  Server.totalScore r = 0 /\
  Server.error r = Some ("Syntax Error: " +:+ message) /\
  "Syntax Error: " +:+ message <> EmptyString /\
  JS.includes ("Syntax Error: " +:+ message) message = true /\
  (JS.trim code <> EmptyString ->
   run parser_parse (Server.analyze (Server.VString code)) = Returns r).
Proof.
  intros Hparse.
  unfold Server.analyze, Server.analyzeCode_steps, Server.analyzeCode, Server.analyzeParsed,
    parseCode, parseCode_of.
  cbv zeta. repeat split; try (rewrite Hparse; reflexivity).
  - discriminate.
  - apply includes_append_r.
    pose proof (includes_self message EmptyString) as H.
    rewrite append_empty in H. exact H.
  - intros Hblank. destruct (JS.trim code); [congruence|].
    simpl. rewrite Hparse. reflexivity.
Qed.

(** C4 amended, run on the lone closing brace. *)
Lemma C4_witness :
  Server.totalScore (Server.analyzeCode (fun _ => SyntaxError "Unexpected token (1:0)") "}") = 0.
Proof.
  apply (C4_parse_failure_gives_zero_result
           (fun _ => SyntaxError "Unexpected token (1:0)") "}" "Unexpected token (1:0)").
  reflexivity.
Defined.

(** ** White space *)

(** No white space character starts with another: the width found at the
    head of a text is that of the character the text starts with. *)
Lemma space_width_of w s : w ∈ JS.white_space -> JS.space_width (w +:+ s) = String.length w.
Proof.
  intros Hw. unfold JS.space_width.
  destruct (List.find _ JS.white_space) as [w'|] eqn:Hfind.
  - apply find_some in Hfind. destruct Hfind as [Hin Hprefix].
    apply list_elem_of_In in Hw. unfold JS.white_space in Hw, Hin. cbn [map In] in Hw, Hin.
    repeat (destruct Hw as [<-|Hw];
            [repeat (destruct Hin as [<-|Hin];
                     [first [reflexivity|vm_compute in Hprefix; discriminate]|]);
             destruct Hin|]).
    destruct Hw.
  - apply list_elem_of_In in Hw.
    pose proof (find_none _ _ Hfind w Hw) as Hnone. cbv beta in Hnone.
    rewrite prefix_append in Hnone. discriminate.
Qed.

Lemma space_width_found s k :
  JS.space_width s = S k ->
  exists w rest, w ∈ JS.white_space /\ s = w +:+ rest /\ String.length w = S k.
Proof.
  unfold JS.space_width.
  destruct (List.find _ JS.white_space) as [w|] eqn:Hfind; [|discriminate].
  apply find_some in Hfind. destruct Hfind as [Hin Hprefix]. intros Hlen.
  apply prefix_iff in Hprefix. destruct Hprefix as [rest ->].
  exists w, rest. split; [apply list_elem_of_In; exact Hin|]. split; [reflexivity|exact Hlen].
Qed.

(** The bytes of a character under way are passed over. *)
Lemma trimStart_from_skip w s :
  JS.trimStart_from (String.length w) (w +:+ s) = JS.trimStart s.
Proof.
  induction w as [|c w IH]; [reflexivity|].
  change (String c w +:+ s) with (String c (w +:+ s)). exact IH.
Qed.

Lemma trimStart_space w s : w ∈ JS.white_space -> JS.trimStart (w +:+ s) = JS.trimStart s.
Proof.
  intros Hw. pose proof (space_width_of w s Hw) as Hwidth.
  destruct w as [|c w].
  - unfold JS.white_space in Hw. cbn [map] in Hw.
    repeat (apply elem_of_cons in Hw; destruct Hw as [Hw|Hw]; [discriminate|]).
    inversion Hw.
  - unfold JS.trimStart at 1.
    change (String c w +:+ s) with (String c (w +:+ s)) in *.
    cbn [JS.trimStart_from]. rewrite Hwidth. cbn [String.length].
    apply trimStart_from_skip.
Qed.

Lemma trimStart_only_white_space s : only_white_space s -> JS.trimStart s = EmptyString.
Proof.
  induction 1 as [|w s Hw _ IH]; [reflexivity|].
  rewrite (trimStart_space w s Hw). exact IH.
Qed.

Lemma append_length a b : String.length (a +:+ b) = (String.length a + String.length b)%nat.
Proof.
  induction a as [|c a IH]; [reflexivity|].
  change (String c a +:+ b) with (String c (a +:+ b)). simpl. rewrite IH. reflexivity.
Qed.

Lemma append_inj_length a a' b b' :
  String.length a = String.length a' -> a +:+ b = a' +:+ b' -> a = a' /\ b = b'.
Proof.
  revert a'. induction a as [|c a IH]; intros [|c' a'] Hlen Heq; try discriminate.
  - split; [reflexivity|exact Heq].
  - change (String c a +:+ b) with (String c (a +:+ b)) in Heq.
    change (String c' a' +:+ b') with (String c' (a' +:+ b')) in Heq.
    injection Heq as -> Heq. injection Hlen as Hlen.
    destruct (IH a' Hlen Heq) as [-> ->]. split; reflexivity.
Qed.

(** When [trimStart] leaves nothing, the text after the bytes passed over
    is white space, or the text ends before they are all passed. *)
Lemma trimStart_from_empty n s :
  JS.trimStart_from n s = EmptyString ->
  exists passed rest, s = passed +:+ rest /\ only_white_space rest /\
    (String.length passed = n \/ (String.length passed < n)%nat /\ rest = EmptyString).
Proof.
  revert n. induction s as [|c s IH]; intros n Hempty.
  - exists EmptyString, EmptyString. split; [reflexivity|]. split; [constructor|].
    destruct n; [left; reflexivity|right; split; [simpl; lia|reflexivity]].
  - cbn [JS.trimStart_from] in Hempty. destruct n as [|n].
    + destruct (JS.space_width (String c s)) as [|k] eqn:Hwidth; [discriminate|].
      destruct (space_width_found _ _ Hwidth) as [w [rest [Hw [Hs Hlen]]]].
      destruct w as [|c' w]; [discriminate|].
      change (String c' w +:+ rest) with (String c' (w +:+ rest)) in Hs.
      injection Hs as <- ->. cbn [String.length] in Hlen. injection Hlen as <-.
      exists EmptyString, (String c w +:+ rest). split; [reflexivity|].
      split; [|left; reflexivity]. constructor; [exact Hw|].
      destruct (IH _ Hempty) as [passed [rest' [Hrest [Hblank [Hpassed|[Hpassed ->]]]]]].
      * symmetry in Hpassed.
        destruct (append_inj_length _ _ _ _ Hpassed Hrest) as [_ ->]. exact Hblank.
      * apply (f_equal String.length) in Hrest. rewrite !append_length in Hrest.
        simpl in Hrest. lia.
    + destruct (IH n Hempty) as [passed [rest [-> [Hblank Hpassed]]]].
      exists (String c passed), rest. split; [reflexivity|]. split; [exact Hblank|].
      simpl. destruct Hpassed as [<-|[Hpassed ->]]; [left; reflexivity|].
      right. split; [lia|reflexivity].
Qed.

Lemma trimStart_empty s : JS.trimStart s = EmptyString -> only_white_space s.
Proof.
  intros Hempty.
  destruct (trimStart_from_empty 0 s Hempty) as [passed [rest [-> [Hblank Hpassed]]]].
  destruct passed; [exact Hblank|]. simpl in Hpassed. destruct Hpassed as [|[]]; lia.
Qed.

(** What [trimStart] leaves starts with no white space. *)
Lemma trimStart_from_fixed n s :
  JS.trimStart (JS.trimStart_from n s) = JS.trimStart_from n s.
Proof.
  revert n. induction s as [|c s IH]; intros n; [reflexivity|].
  cbn [JS.trimStart_from]. destruct n as [|n]; [|apply IH].
  destruct (JS.space_width (String c s)) as [|k] eqn:Hwidth; [|apply IH].
  unfold JS.trimStart. cbn [JS.trimStart_from]. rewrite Hwidth. reflexivity.
Qed.

Lemma trimEnd_empty t : JS.trimEnd t = EmptyString <-> JS.trimStart t = EmptyString.
Proof.
  destruct t as [|c t]; [split; reflexivity|].
  cbn [JS.trimEnd]. unfold JS.blank.
  destruct (JS.trimStart (String c t)); split; intros; first [reflexivity|discriminate].
Qed.

(** [trim] leaves nothing exactly of the texts of white space. *)
Lemma trim_empty s : JS.trim s = EmptyString <-> only_white_space s.
Proof.
  unfold JS.trim. rewrite trimEnd_empty. unfold JS.trimStart at 2.
  rewrite trimStart_from_fixed. split; [apply trimStart_empty|apply trimStart_only_white_space].
Qed.

(** [trim] on texts with white space that is not ASCII: a no-break space
    and a byte order mark are removed, at both ends; a zero width space
    (U+200B) is not white space. *)
Lemma trim_examples :
  JS.trim (JS.bytes [194; 160; 239; 187; 191]%nat) = EmptyString /\
  JS.trim (JS.bytes [194; 160]%nat +:+ "a b" +:+ JS.bytes [226; 128; 168; 32]%nat) = "a b" /\
  JS.trim (JS.bytes [226; 128; 139]%nat) = JS.bytes [226; 128; 139]%nat.
Proof. repeat split; vm_compute; reflexivity. Qed.

(** ** Input validation *)

(** C7: for a value that is not a string, or a string made of white space
    and line terminators only (the empty string among them, and the no-break
    space and the byte order mark as well as the ASCII blanks: the texts
    that [trim] leaves empty), [analyze] is the computation that throws at
    once: it asks the parser nothing, so whatever the parser, no text is
    parsed, the caller sees an error whose message starts with
    [Invalid input] (the mark the callers test), and no result is
    returned. *)
Theorem C7_invalid_input_is_rejected (code : Server.Value) :
  ((forall s, code <> Server.VString s) \/
   (exists s, code = Server.VString s /\ only_white_space s)) ->
  exists message,
    Server.analyze code = Throw message /\
    JS.startsWith message "Invalid input" = true /\
    (forall parser_parse,
       parsed_texts parser_parse (Server.analyze code) = [] /\
       run parser_parse (Server.analyze code) = Throws message /\
       forall r, run parser_parse (Server.analyze code) <> Returns r).
Proof.
  intros [Hnot|[s [-> Hblank]]].
  - exists ("Invalid input: " +:+ dquoted "code" +:+ " must be a string").
    destruct code as [| |b|n|s|];
      try (repeat split; first [reflexivity|discriminate]).
    exfalso. apply (Hnot s). reflexivity.
  - exists ("Invalid input: " +:+ dquoted "code" +:+ " cannot be empty").
    unfold Server.analyze. rewrite (proj2 (trim_empty s) Hblank).
    repeat split; first [reflexivity|discriminate].
Qed.

(** C7, run on the empty string and on a no-break space followed by a
    byte order mark. *)
Lemma C7_witness :
  (exists message,
     Server.analyze (Server.VString EmptyString) = Throw message /\
     JS.startsWith message "Invalid input" = true /\
     (forall parser_parse,
        parsed_texts parser_parse (Server.analyze (Server.VString EmptyString)) = [] /\
        run parser_parse (Server.analyze (Server.VString EmptyString)) = Throws message /\
        forall r,
          run parser_parse (Server.analyze (Server.VString EmptyString)) <> Returns r)) /\
  (let blank := JS.bytes [194; 160; 239; 187; 191]%nat in
   exists message,
     Server.analyze (Server.VString blank) = Throw message /\
     JS.startsWith message "Invalid input" = true /\
     (forall parser_parse,
        parsed_texts parser_parse (Server.analyze (Server.VString blank)) = [] /\
        run parser_parse (Server.analyze (Server.VString blank)) = Throws message /\
        forall r, run parser_parse (Server.analyze (Server.VString blank)) <> Returns r)).
Proof.
  split.
  - apply (C7_invalid_input_is_rejected (Server.VString EmptyString)).
    right. exists EmptyString. split; [reflexivity|constructor].
  - apply (C7_invalid_input_is_rejected (Server.VString (JS.bytes [194; 160; 239; 187; 191]%nat))).
    right. eexists. split; [reflexivity|].
    apply (more_white_space (JS.bytes [194; 160]%nat) (JS.bytes [239; 187; 191]%nat));
      [vm_compute; set_solver|].
    apply (more_white_space (JS.bytes [239; 187; 191]%nat) EmptyString);
      [vm_compute; set_solver|constructor].
Defined.

(** A text that is not blank does reach the parser, once, and the caller
    gets what [analyzeCode] returns. *)
Lemma analyze_valid_input parser_parse s :
  JS.trim s <> EmptyString ->
  parsed_texts parser_parse (Server.analyze (Server.VString s)) = [s] /\
  run parser_parse (Server.analyze (Server.VString s)) =
    Returns (Server.analyzeCode parser_parse s).
Proof.
  intros Hblank. unfold Server.analyze.
  destruct (JS.trim s); [congruence|]. split; reflexivity.
Qed.

(** ** Severity tags *)

Lemma no_critical_among_untagged (l : list Issue) :
  Forall (fun i => severity i = None) l -> Browser.extractCriticalIssues l = [].
Proof.
  unfold Browser.extractCriticalIssues.
  induction 1 as [|i l Hi Hl IH]; [reflexivity|].
  rewrite filter_cons. destruct (decide (severity i = Some CRITICAL)) as [Hc|_]; [congruence|].
  exact IH.
Qed.

(** C9: every issue of the server security detector has a penalty and a
    comment and no severity tag, so the filter on [severity === 'CRITICAL']
    leaves nothing of them; the other server detectors tag nothing either,
    and the object the server [analyzeCode] returns has no
    [criticalIssues] key; the browser security detector tags every issue,
    the browser [analyzeCode] returns the critical ones in
    [criticalIssues], and a call of [eval] puts one there. *)
Theorem C9_severity_only_in_the_browser :
  (forall ast,
     Forall (fun i => severity i = None /\ issue_filename i = None)
            (Security.analyzeSecurity ast)) /\
  (forall ast, Browser.extractCriticalIssues (Security.analyzeSecurity ast) = []) /\
  (forall ast,
     Forall (fun i => severity i = None)
            (Readability.analyzeReadability ast ++ Server.analyzeComplexity ast ++
             EdgeCases.analyzeEdgeCases ast)) /\
  (forall parser_parse code,
     "criticalIssues" ∉ Server.result_keys (Server.analyzeCode parser_parse code)) /\
  (forall ast, Forall (fun i => is_Some (severity i)) (BrowserSecurity.analyzeSecurity ast)) /\
  (forall parser_parse analyzeReadability analyzeEdgeCases code name ast,
     parser_parse code = Tree ast ->
     Browser.criticalIssues
       (Browser.analyzeCode parser_parse analyzeReadability analyzeEdgeCases code name) =
     Browser.extractCriticalIssues (BrowserSecurity.analyzeSecurity ast)) /\
  Browser.extractCriticalIssues (BrowserSecurity.analyzeSecurity Samples.eval_call) =
    [tagged 8
       ("CRITICAL: eval() usage detected at line 1. " +:+
        "This allows arbitrary code execution and is a major security risk.")
       CRITICAL].
Proof.
  split; [|split; [|split; [|split; [|split; [|split]]]]].
  - intros ast. eapply Forall_impl; [apply Security_analyzeSecurity_plain|].
    intros i [_ H]. exact H.
  - intros ast. apply no_critical_among_untagged.
    eapply Forall_impl; [apply Security_analyzeSecurity_plain|].
    intros i [_ [H _]]. exact H.
  - intros ast. rewrite !Forall_app. unfold Server.analyzeComplexity.
    repeat split;
      (eapply Forall_impl;
       [first [apply Readability_analyzeReadability_plain
              |apply Complexity_analyzeComplexity_plain
              |apply EdgeCases_analyzeEdgeCases_plain]|];
       intros i [_ [H _]]; exact H).
  - intros parser_parse code. unfold Server.result_keys.
    destruct (Server.error _); intros H;
      repeat (apply elem_of_cons in H; destruct H as [H|H]; [discriminate|]);
      inversion H.
  - intros ast. eapply Forall_impl; [apply BrowserSecurity_analyzeSecurity_tagged|].
    intros i [_ H]. exact H.
  - intros parser_parse analyzeReadability analyzeEdgeCases code name ast Hparse.
    unfold Browser.analyzeCode, parseCode, parseCode_of. rewrite Hparse. reflexivity.
  - vm_compute. reflexivity.
Qed.

(** C9, run on a call of [eval] in the browser. *)
Lemma C9_witness :
  Browser.criticalIssues
    (Browser.analyzeCode (fun _ => Tree Samples.eval_call) (fun _ => []) (fun _ => [])
       "eval('1+1')" None) =
  Browser.extractCriticalIssues (BrowserSecurity.analyzeSecurity Samples.eval_call).
Proof.
  apply (proj1 (proj2 (proj2 (proj2 (proj2 (proj2 C9_severity_only_in_the_browser)))))
           (fun _ => Tree Samples.eval_call) (fun _ => []) (fun _ => [])
           "eval('1+1')" None Samples.eval_call).
  reflexivity.
Defined.

(** ** The batch aggregator *)

(** [Math.round(a / n)] of two integers is the integer nearest to the
    quotient, a tie going up. *)
Lemma Math_round_quotient a n :
  0 < n -> JS.Math_round (inject_Z a / inject_Z n) = (2 * a + n) / (2 * n).
Proof.
  intros Hn. destruct n as [|p|p]; try lia.
  unfold JS.Math_round, Qfloor, Qplus, Qdiv, Qmult, Qinv, inject_Z. simpl.
  f_equal; lia.
Qed.

Lemma Math_round_quotient_nearest a n :
  0 < n ->
  let m := JS.Math_round (inject_Z a / inject_Z n) in
  2 * n * m - n <= 2 * a < 2 * n * m + n.
Proof.
  intros Hn m. subst m. rewrite (Math_round_quotient a n Hn).
  pose proof (Z.div_mod (2 * a + n) (2 * n)).
  pose proof (Z.mod_pos_bound (2 * a + n) (2 * n)).
  nia.
Qed.

Lemma collect_fold results agg critical r c e s :
  Browser.agg_score (Browser.agg_readability agg) = JS.Int r ->
  Browser.agg_score (Browser.agg_complexity agg) = JS.Int c ->
  Browser.agg_score (Browser.agg_edgeCases agg) = JS.Int e ->
  Browser.agg_score (Browser.agg_security agg) = JS.Int s ->
  let total part := foldr Z.add 0 (map (fun r : Browser.AnalysisResult => score (part r)) results) in
  let st := foldl Browser.collect (agg, critical) results in
  Browser.agg_score (Browser.agg_readability st.1) = JS.Int (r + total Browser.readability) /\
  Browser.agg_score (Browser.agg_complexity st.1) = JS.Int (c + total Browser.complexity) /\
  Browser.agg_score (Browser.agg_edgeCases st.1) = JS.Int (e + total Browser.edgeCases) /\
  Browser.agg_score (Browser.agg_security st.1) = JS.Int (s + total Browser.security) /\
  Browser.agg_totalScore st.1 = Browser.agg_totalScore agg /\
  st.2 = critical ++
         flat_map (fun r => map (Browser.with_filename (Browser.filename r))
                                (Browser.criticalIssues r)) results.
Proof.
  cbv zeta. revert agg critical r c e s.
  induction results as [|x results IH]; intros agg critical r c e s Hr Hc He Hs.
  - simpl. rewrite app_nil_r, !Z.add_0_r. repeat split; assumption.
  - cbn [foldl map foldr flat_map].
    destruct (Browser.collect (agg, critical) x) as [agg' critical'] eqn:Hstep.
    unfold Browser.collect in Hstep. injection Hstep as Hagg Hcritical.
    destruct (IH agg' critical'
                (r + score (Browser.readability x)) (c + score (Browser.complexity x))
                (e + score (Browser.edgeCases x)) (s + score (Browser.security x)))
      as [H1 [H2 [H3 [H4 [H5 H6]]]]];
      [subst agg'; simpl; rewrite ?Hr, ?Hc, ?He, ?Hs; reflexivity..|].
    rewrite H1, H2, H3, H4, H5, H6. subst agg' critical'. simpl.
    rewrite <- app_assoc, !Z.add_assoc.
    repeat split; reflexivity.
Qed.

Lemma analyzeCode_filename parser_parse analyzeReadability analyzeEdgeCases code name :
  Browser.filename
    (Browser.analyzeCode parser_parse analyzeReadability analyzeEdgeCases code (Some name)) = name.
Proof. unfold Browser.analyzeCode. destruct (parseCode parser_parse code); reflexivity. Qed.

(** C8: for a non-empty file list, [analyzeFiles] keeps the result of the
    single-file pipeline for each file, in order and under the file's name;
    each aggregated category score is the integer nearest to the mean of
    the per-file scores of that category (a tie going up): it differs from
    the mean by a half at most; the aggregated total is the sum of the four
    rounded averages; and the critical issues are those of every file in
    turn, each with its penalty, comment and severity as they were and, as
    its file name, the name of the file it comes from. *)
Theorem C8_batch_averages_the_files parser_parse analyzeReadability analyzeEdgeCases
    (files : list Browser.File) :
  files <> [] ->
  let results :=
    map (fun file =>
           Browser.analyzeCode parser_parse analyzeReadability analyzeEdgeCases
             (Browser.content file) (Some (Browser.file_name file)))
        files in
  let n := Z.of_nat (length files) in
  let b := Browser.analyzeFiles parser_parse analyzeReadability analyzeEdgeCases files in
  let sum part :=
    foldr Z.add 0 (map (fun r : Browser.AnalysisResult => score (part r)) results) in
  let nearest_to_mean part m := 2 * n * m - n <= 2 * sum part < 2 * n * m + n in
  let agg := Browser.aggregated b in
  Browser.files b = results /\
  map Browser.filename results = map Browser.file_name files /\
  (exists r c e s,
     Browser.agg_score (Browser.agg_readability agg) = JS.Int r /\
     Browser.agg_score (Browser.agg_complexity agg) = JS.Int c /\
     Browser.agg_score (Browser.agg_edgeCases agg) = JS.Int e /\
     Browser.agg_score (Browser.agg_security agg) = JS.Int s /\
     nearest_to_mean Browser.readability r /\
     nearest_to_mean Browser.complexity c /\
     nearest_to_mean Browser.edgeCases e /\
     nearest_to_mean Browser.security s /\
     Browser.agg_totalScore agg = JS.Int (r + c + e + s)) /\
  Browser.allCriticalIssues b =
    flat_map (fun file =>
                map (fun i =>
                       mkIssue (penalty i) (comment i) (severity i)
                               (Some (Browser.file_name file)))
                    (Browser.criticalIssues
                       (Browser.analyzeCode parser_parse analyzeReadability analyzeEdgeCases
                          (Browser.content file) (Some (Browser.file_name file)))))
             files.
Proof.
  intros Hfiles results n b sum nearest_to_mean agg.
  assert (Hn : 0 < n) by (subst n; destruct files; [congruence|simpl; lia]).
  assert (Hlen : Z.of_nat (length results) = n)
    by (subst results n; rewrite length_map; reflexivity).
  subst agg b. unfold Browser.analyzeFiles. fold results. rewrite Hlen.
  pose proof (collect_fold results Browser.initial [] 0 0 0 0
                eq_refl eq_refl eq_refl eq_refl) as Hfold.
  cbv zeta in Hfold.
  destruct (foldl Browser.collect _ results) as [sums critical].
  simpl in Hfold. destruct Hfold as [H1 [H2 [H3 [H4 [_ H5]]]]].
  assert (Hpos : (0 <? n) = true) by (apply Z.ltb_lt; exact Hn).
  assert (Hnz : (n =? 0) = false) by (apply Z.eqb_neq; lia).
  rewrite Hpos. cbn [Browser.files Browser.aggregated Browser.allCriticalIssues
    Browser.agg_readability Browser.agg_complexity Browser.agg_edgeCases
    Browser.agg_security Browser.agg_totalScore].
  unfold Browser.average. cbn [Browser.agg_score].
  rewrite H1, H2, H3, H4. unfold JS.round_quotient. rewrite Hnz.
  split; [reflexivity|]. split.
  { subst results. rewrite map_map. apply map_ext. intros file.
    apply analyzeCode_filename. }
  split.
  2:{ rewrite H5. subst results. clear. induction files as [|file files IH]; [reflexivity|].
      cbn [map flat_map]. rewrite IH, analyzeCode_filename. reflexivity. }
  eexists _, _, _, _.
  repeat (split; [reflexivity|]).
  subst nearest_to_mean sum. cbv beta.
  repeat (split; [apply (Math_round_quotient_nearest _ n Hn)|]).
  reflexivity.
Qed.

(** C8, run on two files whose trees are a call of [eval] and a busy
    function: the one critical issue is that of the first file and carries
    its name. *)
Lemma C8_witness :
  let parser_parse code :=
    if bool_decide (code = "eval('1+1')") then Tree Samples.eval_call
    else Tree Samples.twenty_one in
  let files := [Browser.mkFile "a.js" "eval('1+1')"; Browser.mkFile "b.js" "function busy"] in
  let b := Browser.analyzeFiles parser_parse (fun _ => []) (fun _ => []) files in
  map (fun i => (penalty i, severity i, issue_filename i)) (Browser.allCriticalIssues b) =
    [(8, Some CRITICAL, Some "a.js")].
Proof.
  intros parser_parse files b. subst b.
  rewrite (proj2 (proj2 (proj2
    (C8_batch_averages_the_files parser_parse (fun _ => []) (fun _ => []) files
       ltac:(discriminate)))));
    vm_compute; reflexivity.
Defined.

(** Whatever the file list, the aggregated scores are integers: the sums
    are, and the one division happens under the test [totalFiles > 0]. *)
Lemma aggregated_scores_are_integers parser_parse analyzeReadability analyzeEdgeCases files :
  let agg :=
    Browser.aggregated
      (Browser.analyzeFiles parser_parse analyzeReadability analyzeEdgeCases files) in
  exists r c e s t,
    Browser.agg_score (Browser.agg_readability agg) = JS.Int r /\
    Browser.agg_score (Browser.agg_complexity agg) = JS.Int c /\
    Browser.agg_score (Browser.agg_edgeCases agg) = JS.Int e /\
    Browser.agg_score (Browser.agg_security agg) = JS.Int s /\
    Browser.agg_totalScore agg = JS.Int t.
Proof.
  cbv zeta. unfold Browser.analyzeFiles.
  set (results := map _ files).
  pose proof (collect_fold results Browser.initial [] 0 0 0 0
                eq_refl eq_refl eq_refl eq_refl) as Hfold.
  cbv zeta in Hfold.
  destruct (foldl Browser.collect _ results) as [sums critical].
  simpl in Hfold. destruct Hfold as [H1 [H2 [H3 [H4 [H5 _]]]]].
  destruct (0 <? Z.of_nat (length results)) eqn:Hpos.
  - apply Z.ltb_lt in Hpos.
    assert (Hnz : (Z.of_nat (length results) =? 0) = false) by (apply Z.eqb_neq; lia).
    cbn [Browser.aggregated Browser.agg_readability Browser.agg_complexity
      Browser.agg_edgeCases Browser.agg_security Browser.agg_totalScore].
    unfold Browser.average. cbn [Browser.agg_score].
    rewrite H1, H2, H3, H4. unfold JS.round_quotient. rewrite Hnz.
    eexists _, _, _, _, _. repeat split; reflexivity.
  - cbn [Browser.aggregated]. rewrite H1, H2, H3, H4, H5.
    eexists _, _, _, _, _. repeat split; reflexivity.
Qed.

(** C10: for the empty file list [analyzeFiles] returns no per-file
    result, no critical issue, and an aggregate whose four category scores
    and total are the integer 0 (with empty comment lists): the averaging
    step, the one place that divides by the number of files, is not run,
    where running it would give a score that is not finite.  And whatever
    the file list, the aggregated scores and their total are integers. *)
Theorem C10_empty_batch_is_all_zero parser_parse analyzeReadability analyzeEdgeCases :
  let b := Browser.analyzeFiles parser_parse analyzeReadability analyzeEdgeCases [] in
  let zero := Browser.mkAggregateCategory (JS.Int 0) [] in
  Browser.files b = [] /\
  Browser.allCriticalIssues b = [] /\
  Browser.aggregated b = Browser.mkAggregate zero zero zero zero (JS.Int 0) /\
  Browser.agg_score (Browser.average 0 zero) = JS.NotFinite /\
  forall files,
    let agg :=
      Browser.aggregated
        (Browser.analyzeFiles parser_parse analyzeReadability analyzeEdgeCases files) in
    exists r c e s t,
      Browser.agg_score (Browser.agg_readability agg) = JS.Int r /\
      Browser.agg_score (Browser.agg_complexity agg) = JS.Int c /\
      Browser.agg_score (Browser.agg_edgeCases agg) = JS.Int e /\
      Browser.agg_score (Browser.agg_security agg) = JS.Int s /\
      Browser.agg_totalScore agg = JS.Int t.
Proof.
  cbv zeta. repeat (split; [reflexivity|]).
  intros files. apply aggregated_scores_are_integers.
Qed.

(** ** The Review Cost Index *)

Lemma Math_round_scaled a b :
  0 < b -> JS.Math_round (inject_Z a / inject_Z b * 100) = JS.nearest_quotient (100 * a) b.
Proof.
  intros Hb. destruct b as [|p|p]; try lia.
  unfold JS.Math_round, JS.nearest_quotient, Qfloor, Qplus, Qdiv, Qmult, Qinv, inject_Z. simpl.
  replace (2 * (100 * a) + Z.pos p) with ((a * 1 * 100 * 2 + Z.pos (p * 1)) * 1) by lia.
  replace (2 * Z.pos p) with (Z.pos (p * 1 * 2) * 1) by lia.
  rewrite Z.div_mul_cancel_r by lia. reflexivity.
Qed.

Lemma Math_round_weighted n (w : Q) :
  JS.Math_round (inject_Z n * w) = JS.nearest_quotient (n * Qnum w) (Z.pos (Qden w)).
Proof.
  destruct w as [num den].
  unfold JS.Math_round, JS.nearest_quotient, Qfloor, Qplus, Qmult, inject_Z. simpl.
  f_equal; lia.
Qed.

Lemma exact_normalizeMetric_nearest value min max :
  min < max ->
  Binary64.exact_normalizeMetric value min max =
    if value <=? min then 0
    else if max <=? value then 100
    else JS.nearest_quotient (100 * (value - min)) (max - min).
Proof.
  intros Hband. unfold Binary64.exact_normalizeMetric.
  destruct (value <=? min); [reflexivity|].
  destruct (max <=? value); [reflexivity|].
  apply Math_round_scaled. lia.
Qed.

(** The doubles of the program and the exact rationals give the same
    integers: for every integer raw value, [normalizeMetric] on each band
    of the program gives what its exact counterpart gives, and so does the
    contribution at each normalised value and weight. *)
Lemma binary64_agrees_with_exact (factor : RCI.FactorName) :
  let lo := RCI.band_min (RCI.NORMALIZATION factor) in
  let hi := RCI.band_max (RCI.NORMALIZATION factor) in
  (forall v, Binary64.normalizeMetric v lo hi = Binary64.exact_normalizeMetric v lo hi) /\
  (forall n, 0 <= n <= 100 ->
     Binary64.contribution factor n = Binary64.exact_contribution factor n).
Proof.
  intros lo hi.
  assert (Hcheck : Binary64.agree_on_band factor = true)
    by (destruct factor; vm_compute; reflexivity).
  unfold Binary64.agree_on_band in Hcheck. fold lo hi in Hcheck.
  apply andb_true_iff in Hcheck. destruct Hcheck as [Hnorm Hcontrib].
  rewrite forallb_forall in Hnorm, Hcontrib. split.
  - intros v.
    destruct (v <=? lo) eqn:Hlo;
      [unfold Binary64.normalizeMetric, RCI.normalizeMetric, Binary64.exact_normalizeMetric;
       rewrite Hlo; reflexivity|].
    destruct (hi <=? v) eqn:Hhi;
      [unfold Binary64.normalizeMetric, RCI.normalizeMetric, Binary64.exact_normalizeMetric;
       rewrite Hlo, Hhi; reflexivity|].
    apply Z.leb_gt in Hlo, Hhi.
    apply Z.eqb_eq, Hnorm. apply list_elem_of_In, elem_of_seqZ. lia.
  - intros n Hn. apply Z.eqb_eq, Hcontrib.
    apply list_elem_of_In, elem_of_seqZ. lia.
Qed.

(** [normalizeMetric] on a band of the program: 0 up to the lower end, 100
    from the upper end on, and in between the integer nearest to the
    linear value. *)
Lemma normalizeMetric_on_band (factor : RCI.FactorName) value :
  let lo := RCI.band_min (RCI.NORMALIZATION factor) in
  let hi := RCI.band_max (RCI.NORMALIZATION factor) in
  RCI.normalizeMetric value lo hi =
    if value <=? lo then 0
    else if hi <=? value then 100
    else JS.nearest_quotient (100 * (value - lo)) (hi - lo).
Proof.
  intros lo hi. subst lo hi.
  pose proof (proj1 (binary64_agrees_with_exact factor) value) as Hexact.
  unfold Binary64.normalizeMetric in Hexact. rewrite Hexact.
  apply exact_normalizeMetric_nearest. destruct factor; simpl; lia.
Qed.

(** C5, as stated, fails: at a nesting depth of 3 (complexity 1, length 0,
    security score 25) the linear value is 37.5 and, weighted by 0.25 and
    rounded, gives 9, in exact arithmetic and in binary64 alike;
    [calculateRCI] first rounds 37.5 to 38 and then rounds 38 times
    0.25 = 9.5 to a contribution of 10, and its score is 10. *)
Lemma C5_counterexample :
  let r := RCI.calculateRCI (Metrics.mkMetrics 3 1 0 0) 25 in
  (RCI.linear_normalized 3 0 8 == 37.5)%Q /\
  RCI.linear_contribution RCI.nestingDepth 0.25 3 = 9 /\
  Binary64.linear_contribution RCI.nestingDepth 3 = 9 /\
  Binary64.contribution RCI.nestingDepth (Binary64.normalizeMetric 3 0 8) = 10 /\
  RCI.factors r !! 0%nat = Some (RCI.nestingDepth, RCI.mkFactor 3 38 0.25 10) /\
  RCI.score r = 10 /\
  RCI.score r <>
    Z.min 100 (Z.max 0
      (RCI.linear_contribution RCI.nestingDepth 0.25 3 +
       RCI.linear_contribution RCI.cyclomaticComplexity 0.30 1 +
       RCI.linear_contribution RCI.functionLength 0.20 0 +
       RCI.linear_contribution RCI.securityDeductions 0.25 0)).
Proof.
  cbv zeta. repeat (split; [vm_compute; reflexivity|]).
  vm_compute. discriminate.
Qed.

(** C5, amended: [calculateRCI] normalises each raw factor (nesting depth
    on the band 0 to 8, cyclomatic complexity on 1 to 25, function length
    on 0 to 100, security deductions 25 - securityScore on 0 to 25) to 0 at
    or below the lower end, to 100 at or above the upper end, and in
    between to the linear value rounded to the nearest integer; the
    contribution is that integer times the weight (0.25, 0.30, 0.20, 0.25,
    of sum 1), rounded again; the score is the sum of the contributions
    clamped to 0 and 100; the level is LOW up to 33, MEDIUM up to 66, HIGH
    above. *)
Theorem C5_rci_rounds_the_normalized_value (m : Metrics.Metrics) (securityScore : Z) :
  let r := RCI.calculateRCI m securityScore in
  let raw f := RCI.getRawValue f m (25 - securityScore) in
  let normalized f lo hi :=
    if raw f <=? lo then 0
    else if hi <=? raw f then 100
    else JS.nearest_quotient (100 * (raw f - lo)) (hi - lo) in
  let n1 := normalized RCI.nestingDepth 0 8 in
  let n2 := normalized RCI.cyclomaticComplexity 1 25 in
  let n3 := normalized RCI.functionLength 0 100 in
  let n4 := normalized RCI.securityDeductions 0 25 in
  let c1 := JS.nearest_quotient (n1 * 25) 100 in
  let c2 := JS.nearest_quotient (n2 * 30) 100 in
  let c3 := JS.nearest_quotient (n3 * 20) 100 in
  let c4 := JS.nearest_quotient (n4 * 25) 100 in
  RCI.factors r =
    [ (RCI.nestingDepth, RCI.mkFactor (Metrics.maxNestingDepth m) n1 0.25 c1);
      (RCI.cyclomaticComplexity, RCI.mkFactor (Metrics.maxCyclomaticComplexity m) n2 0.30 c2);
      (RCI.functionLength, RCI.mkFactor (Metrics.maxFunctionLength m) n3 0.20 c3);
      (RCI.securityDeductions, RCI.mkFactor (25 - securityScore) n4 0.25 c4) ] /\
  (0.25 + 0.30 + 0.20 + 0.25 == 1)%Q /\
  RCI.score r = Z.min 100 (Z.max 0 (c1 + c2 + c3 + c4)) /\
  0 <= RCI.score r <= 100 /\
  (RCI.score r <= 33 -> RCI.level r = "LOW") /\
  (33 < RCI.score r <= 66 -> RCI.level r = "MEDIUM") /\
  (66 < RCI.score r -> RCI.level r = "HIGH").
Proof.
  intros r raw normalized n1 n2 n3 n4 c1 c2 c3 c4.
  assert (Hn : forall f,
            RCI.normalizedMetric f m (25 - securityScore) =
            normalized f (RCI.band_min (RCI.NORMALIZATION f)) (RCI.band_max (RCI.NORMALIZATION f))).
  { intros f. unfold RCI.normalizedMetric. apply normalizeMetric_on_band. }
  subst r. unfold RCI.calculateRCI, RCI.RCI_WEIGHTS.
  cbn [foldl RCI.weigh fst snd app].
  rewrite !Hn, !Math_round_weighted.
  cbn [RCI.NORMALIZATION RCI.band_min RCI.band_max RCI.getRawValue Qnum Qden].
  fold n1 n2 n3 n4. change (Z.pos 100) with 100. fold c1 c2 c3 c4.
  cbn [RCI.factors RCI.score RCI.level].
  split; [reflexivity|]. split; [reflexivity|].
  split; [f_equal; f_equal; lia|]. split; [lia|].
  unfold RCI.determineLevel. cbn [RCI.level_max RCI.LOW RCI.MEDIUM RCI.HIGH RCI.label].
  repeat split; intros; repeat case_match; try reflexivity; lia.
Qed.

(** C5 amended, run where the band of the nesting depth is overrun. *)
Lemma C5_witness :
  RCI.level (RCI.calculateRCI (Metrics.mkMetrics 9 25 100 3) 0) = "HIGH".
Proof.
  apply (proj2 (proj2 (proj2 (proj2 (proj2 (proj2
    (C5_rci_rounds_the_normalized_value (Metrics.mkMetrics 9 25 100 3) 0))))))).
  vm_compute. reflexivity.
Defined.

(** The same for the averages of [analyzeFiles], for the batches of up to
    twenty files the file selector lets through. *)
Lemma binary64_agrees_on_averages n sum :
  1 <= n <= 20 -> 0 <= sum <= 25 * n ->
  Binary64.average sum n = Binary64.exact_average sum n.
Proof.
  intros Hn Hsum.
  assert (Hcheck : Binary64.agree_on_averages 20 = true) by (vm_compute; reflexivity).
  unfold Binary64.agree_on_averages in Hcheck.
  rewrite forallb_forall in Hcheck.
  specialize (Hcheck n). rewrite forallb_forall in Hcheck.
  apply Z.eqb_eq, Hcheck; apply list_elem_of_In, elem_of_seqZ; lia.
Qed.

(** ** Scenarios *)

(** A lone call of [eval]: the security score is 25 - 8 = 17 and the total
    92; the server decision is held at [NEEDS_REFACTOR] by the comment,
    and the browser verdict is [BLOCK_MERGE] by the severity tag. *)
Example eval_scenario :
  let server := Server.analyzeCode (fun _ => Tree Samples.eval_call) "eval('1+1')" in
  let browser :=
    Browser.analyzeCode (fun _ => Tree Samples.eval_call) (fun _ => []) (fun _ => [])
      "eval('1+1')" None in
  score (Server.security server) = 17 /\
  Server.totalScore server = 92 /\
  Server.decision server = Decision.NEEDS_REFACTOR /\
  Browser.totalScore browser = 92 /\
  length (Browser.criticalIssues browser) = 1%nat /\
  Verdict.verdict
    (Verdict.determineVerdict
       (Verdict.mkInput (Browser.totalScore browser) (Some (Browser.criticalIssues browser))
          None)) = Verdict.BLOCK_MERGE.
Proof. vm_compute. repeat split; reflexivity. Qed.

(** A hard-coded key: the name [apiKey] matches a secret pattern and the
    value is long enough, which costs 5; the value itself has an
    underscore after [sk_live], so no key shape matches it. *)
Example api_key_scenario :
  map penalty (Security.analyzeSecurity Samples.api_key) = [5] /\
  existsb (fun rx => Regex.test rx "sk_live_abcdefghij1234567890") Security.SECRET_PATTERNS
    = false /\
  Regex.test (Security.token_tail "sk_") "sk_live1234567890abcdef" = true /\
  Regex.test (Security.joined_ci "api" "key") "myApi_Key" = true /\
  Regex.test Security.SQL_WORDS "select * from users where id = " = true /\
  Regex.test EdgeCases.VALIDATOR_NAME "ValidateBody" = true /\
  Regex.test EdgeCases.VALIDATOR_NAME "revalidate" = false.
Proof. vm_compute. repeat split; reflexivity. Qed.

(** Two files, one with the call of [eval] and one with the busy function:
    the security scores 17 and 25 average to 21, the complexity scores 25
    and 10 to 17.5, which rounds up to 18, and the one critical issue
    carries the name of its file. *)
Example batch_scenario :
  let parser_parse code :=
    if bool_decide (code = "eval('1+1')") then Tree Samples.eval_call
    else Tree Samples.twenty_one in
  let b :=
    Browser.analyzeFiles parser_parse (fun _ => []) (fun _ => [])
      [Browser.mkFile "a.js" "eval('1+1')"; Browser.mkFile "b.js" "function busy"] in
  Browser.agg_score (Browser.agg_security (Browser.aggregated b)) = JS.Int 21 /\
  Browser.agg_score (Browser.agg_complexity (Browser.aggregated b)) = JS.Int 18 /\
  Browser.agg_totalScore (Browser.aggregated b) = JS.Int 89 /\
  map issue_filename (Browser.allCriticalIssues b) = [Some "a.js"].
Proof. vm_compute. repeat split; reflexivity. Qed.

(** ** The verdict engine: order, override, explanation *)

(** X1.  [findWeakestCategory] returns a category of least score, a missing
    score counting as 25, and among those the first in the order
    readability, complexity, edgeCases, security: every category listed
    before it scores strictly more. *)
Theorem findWeakestCategory_is_first_least (a : Verdict.Aggregated) :
  let cats :=
    [ ("readability", Verdict.or25 (Verdict.a_readability a));
      ("complexity", Verdict.or25 (Verdict.a_complexity a));
      ("edgeCases", Verdict.or25 (Verdict.a_edgeCases a));
      ("security", Verdict.or25 (Verdict.a_security a)) ] in
  let w := Verdict.findWeakestCategory a in
  exists i : nat,
    cats !! i = Some w /\
    (forall c, c ∈ cats -> w.2 <= c.2) /\
    (forall (j : nat) c, cats !! j = Some c -> (j < i)%nat -> w.2 < c.2).
Proof.
  intros cats w. subst cats w. unfold Verdict.findWeakestCategory.
  set (r := Verdict.or25 (Verdict.a_readability a)).
  set (c := Verdict.or25 (Verdict.a_complexity a)).
  set (e := Verdict.or25 (Verdict.a_edgeCases a)).
  set (s := Verdict.or25 (Verdict.a_security a)).
  cbn [foldl snd].
  assert (Hall : forall (w : string * Z) (P : string * Z -> Prop),
            P ("readability", r) -> P ("complexity", c) -> P ("edgeCases", e) ->
            P ("security", s) ->
            forall x, x ∈ [("readability", r); ("complexity", c); ("edgeCases", e); ("security", s)] -> P x).
  { intros _ P H1 H2 H3 H4 x Hx.
    repeat (apply elem_of_cons in Hx; destruct Hx as [->|Hx]; [assumption|]). inversion Hx. }
  assert (Hlt : forall (i : nat) (P : string * Z -> Prop),
            (forall (j : nat) x,
               [("readability", r); ("complexity", c); ("edgeCases", e); ("security", s)] !! j = Some x ->
               (j < i)%nat -> P x) <->
            ((0 < i)%nat -> P ("readability", r)) /\ ((1 < i)%nat -> P ("complexity", c)) /\
            ((2 < i)%nat -> P ("edgeCases", e)) /\ ((3 < i)%nat -> P ("security", s))).
  { intros i P. split.
    - intros H. repeat split; intros Hi.
      + apply (H 0%nat); [reflexivity|lia].
      + apply (H 1%nat); [reflexivity|lia].
      + apply (H 2%nat); [reflexivity|lia].
      + apply (H 3%nat); [reflexivity|lia].
    - intros [H0 [H1 [H2 H3]]] j x Hj Hi.
      destruct j as [|[|[|[|j]]]]; simpl in Hj; try discriminate;
        injection Hj as <-; auto with lia. }
  destruct (c <? r) eqn:Hc; cbn [snd];
    destruct (e <? _) eqn:He; cbn [snd];
    destruct (s <? _) eqn:Hs; cbn [snd];
    rewrite ?Z.ltb_lt, ?Z.ltb_ge in Hc, He, Hs;
    [exists 3%nat|exists 2%nat|exists 3%nat|exists 1%nat
    |exists 3%nat|exists 2%nat|exists 3%nat|exists 0%nat];
    (split; [reflexivity|]); (split; [apply (Hall (EmptyString, 0)); cbn [snd]; lia|]);
    apply Hlt; cbn [snd]; repeat split; intros; lia.
Qed.

(** X2.  A higher total score never gives a stricter score-based verdict,
    the verdicts being ordered APPROVE, APPROVE_WITH_NITS,
    REQUEST_CHANGES, BLOCK_MERGE. *)
Theorem getScoreBasedVerdict_is_monotone (s1 s2 : Z) :
  s1 <= s2 ->
  VerdictOrder.strictness (Verdict.getScoreBasedVerdict s2) <=
  VerdictOrder.strictness (Verdict.getScoreBasedVerdict s1).
Proof.
  intros Hle. unfold Verdict.getScoreBasedVerdict, Verdict.THRESHOLDS.
  cbn [Verdict.APPROVE_MIN Verdict.APPROVE_WITH_NITS_MIN Verdict.REQUEST_CHANGES_MIN].
  repeat case_match; simpl; lia.
Qed.

Lemma getScoreBasedVerdict_is_monotone_witness :
  VerdictOrder.strictness (Verdict.getScoreBasedVerdict 90) <=
  VerdictOrder.strictness (Verdict.getScoreBasedVerdict 70).
Proof. apply (getScoreBasedVerdict_is_monotone 70 90). lia. Defined.

(** X3.  [determineVerdict] always records the score-based verdict in its
    details.  The verdict differs from it only through the critical
    override, which is taken exactly when the list of critical issues is
    not empty, gives BLOCK_MERGE, and so never a milder verdict than the
    score alone.  With the override the details carry the number and the
    comments of the critical issues and no thresholds; without it they
    carry the thresholds 85, 75, 65 and no count. *)
Theorem determineVerdict_override_only_blocks (a : Verdict.AnalysisInput) :
  let issues := match Verdict.criticalIssues a with Some l => l | None => [] end in
  let r := Verdict.determineVerdict a in
  let d := Verdict.details r in
  Verdict.scoreBasedVerdict d = Verdict.getScoreBasedVerdict (Verdict.totalScore a) /\
  (Verdict.wasOverridden d = true <-> issues <> []) /\
  (is_Some (Verdict.overrideReason r) <-> issues <> []) /\
  (Verdict.verdict r = Verdict.scoreBasedVerdict d \/
   Verdict.verdict r = Verdict.BLOCK_MERGE /\ Verdict.wasOverridden d = true) /\
  VerdictOrder.strictness (Verdict.scoreBasedVerdict d) <=
    VerdictOrder.strictness (Verdict.verdict r) /\
  (issues <> [] ->
   Verdict.criticalIssueCount d = Some (Z.of_nat (length issues)) /\
   (Verdict.detail_issues d ≫= fun l => Some (map Verdict.entry_issue l)) =
     Some (map comment issues) /\
   Verdict.thresholds d = None) /\
  (issues = [] ->
   Verdict.criticalIssueCount d = None /\ Verdict.detail_issues d = None /\
   Verdict.thresholds d = Some (Verdict.mkThresholds 85 75 65)).
Proof.
  intros issues r d. subst d r. unfold Verdict.determineVerdict. fold issues.
  destruct issues as [|i rest]; cbn [length Nat.ltb Nat.leb].
  - cbn [Verdict.details Verdict.verdict Verdict.overrideReason Verdict.scoreBasedVerdict
         Verdict.wasOverridden Verdict.criticalIssueCount Verdict.detail_issues
         Verdict.thresholds].
    split; [reflexivity|]. split; [split; [discriminate|congruence]|].
    split; [split; [intros [x Hx]; discriminate|congruence]|].
    split; [left; reflexivity|]. split; [lia|].
    split; [congruence|]. intros _. repeat split; reflexivity.
  - cbn [Verdict.details Verdict.verdict Verdict.overrideReason Verdict.scoreBasedVerdict
         Verdict.wasOverridden Verdict.criticalIssueCount Verdict.detail_issues
         Verdict.thresholds].
    split; [reflexivity|]. split; [split; [discriminate|reflexivity]|].
    split; [split; [discriminate|eauto]|].
    split; [right; split; reflexivity|].
    split; [destruct (Verdict.getScoreBasedVerdict _); simpl; lia|].
    split; [|discriminate]. intros _.
    split; [reflexivity|]. split; [|reflexivity].
    cbn [mbind option_bind]. rewrite map_map. reflexivity.
Qed.

Lemma determineVerdict_override_only_blocks_witness :
  Verdict.thresholds
    (Verdict.details
       (Verdict.determineVerdict
          (Verdict.mkInput 92
             (Some [tagged 8 "CRITICAL: eval() usage detected at line 1." CRITICAL]) None))) = None.
Proof.
  refine (proj2 (proj2 (proj1 (proj2 (proj2 (proj2 (proj2 (proj2
            (determineVerdict_override_only_blocks
               (Verdict.mkInput 92
                  (Some [tagged 8 "CRITICAL: eval() usage detected at line 1." CRITICAL])
                  None))))))) _))).
  discriminate.
Defined.

(** X4.  Whatever the input, the explanation starts with the total score
    passed in and the name of the verdict returned, overridden or not:
    [Score: N/100 â€” Verdict: NAME]. *)
Theorem determineVerdict_explanation_names_the_verdict (a : Verdict.AnalysisInput) :
  let r := Verdict.determineVerdict a in
  JS.startsWith (Verdict.explanation r)
    ("Score: " +:+ JS.toString (Verdict.totalScore a) +:+ "/100 â€” Verdict: " +:+
     Verdict.name (Verdict.verdict r)) = true.
Proof.
  intros r. subst r. unfold Verdict.determineVerdict, JS.startsWith.
  destruct (0 <? length _)%nat; cbn [Verdict.explanation Verdict.verdict].
  - unfold Verdict.score_line.
    pose proof (prefix_append
      ("Score: " +:+ JS.toString (Verdict.totalScore a) +:+ "/100 â€” Verdict: " +:+ "BLOCK_MERGE")
      EmptyString) as H.
    cbn [Verdict.name].
    replace (("Score: " +:+ JS.toString (Verdict.totalScore a) +:+ "/100 â€” Verdict: " +:+ "BLOCK_MERGE") +:+ EmptyString)
      with ("Score: " +:+ JS.toString (Verdict.totalScore a) +:+ "/100 â€” Verdict: " +:+ "BLOCK_MERGE") in H.
    + exact H.
    + generalize ("Score: " +:+ JS.toString (Verdict.totalScore a) +:+ "/100 â€” Verdict: " +:+ "BLOCK_MERGE").
      intros s. induction s as [|c s IH]; [reflexivity|].
      change (String c s +:+ EmptyString) with (String c (s +:+ EmptyString)). rewrite <- IH. reflexivity.
  - unfold Verdict.buildExplanation, Verdict.score_line.
    set (line := "Score: " +:+ JS.toString (Verdict.totalScore a) +:+ "/100 â€” Verdict: " +:+
                 Verdict.name (Verdict.getScoreBasedVerdict (Verdict.totalScore a))).
    destruct (Verdict.getScoreBasedVerdict (Verdict.totalScore a));
      repeat case_match; rewrite ?append_assoc; apply prefix_append.
Qed.

(** ** The Review Cost Index: scale, sum, monotonicity *)

Lemma nearest_quotient_mono a b d : 0 < d -> a <= b -> JS.nearest_quotient a d <= JS.nearest_quotient b d.
Proof. intros Hd Hab. unfold JS.nearest_quotient. apply Z.div_le_mono; lia. Qed.

(** A quotient between two integers rounds to an integer between
    them. *)
Lemma nearest_quotient_range a d lo hi :
  0 < d -> lo * d <= a <= hi * d -> lo <= JS.nearest_quotient a d <= hi.
Proof.
  intros Hd Ha. unfold JS.nearest_quotient. split.
  - apply Z.div_le_lower_bound; lia.
  - assert (H : (2 * a + d) / (2 * d) < hi + 1); [|lia].
    apply Z.div_lt_upper_bound; lia.
Qed.

Lemma exact_normalizeMetric_range value min max :
  min < max -> 0 <= Binary64.exact_normalizeMetric value min max <= 100.
Proof.
  intros Hband. rewrite (exact_normalizeMetric_nearest _ _ _ Hband).
  destruct (value <=? min) eqn:Hlo; [lia|].
  destruct (max <=? value) eqn:Hhi; [lia|].
  apply Z.leb_gt in Hlo, Hhi. apply nearest_quotient_range; lia.
Qed.

Lemma exact_normalizeMetric_mono v1 v2 min max :
  min < max -> v1 <= v2 ->
  Binary64.exact_normalizeMetric v1 min max <= Binary64.exact_normalizeMetric v2 min max.
Proof.
  intros Hband Hle.
  pose proof (exact_normalizeMetric_range v1 min max Hband) as H1.
  pose proof (exact_normalizeMetric_range v2 min max Hband) as H2.
  rewrite (exact_normalizeMetric_nearest v1 _ _ Hband) in *.
  rewrite (exact_normalizeMetric_nearest v2 _ _ Hband) in *.
  destruct (v1 <=? min) eqn:Hlo1; [lia|].
  destruct (max <=? v2) eqn:Hhi2.
  { destruct (v2 <=? min) eqn:Hlo2; [apply Z.leb_le in Hlo2, Hhi2; lia|].
    destruct (max <=? v1); lia. }
  apply Z.leb_gt in Hlo1, Hhi2.
  assert (Hlo2 : (v2 <=? min) = false) by (apply Z.leb_gt; lia).
  assert (Hhi1 : (max <=? v1) = false) by (apply Z.leb_gt; lia).
  rewrite Hlo2, Hhi1. apply nearest_quotient_mono; lia.
Qed.

(** The exact scale over any band: within 0..100, monotone, 0 and 100 at
    its two ends only. *)
Lemma exact_normalizeMetric_scale (v1 v2 min max : Z) :
  min < max -> v1 <= v2 ->
  0 <= Binary64.exact_normalizeMetric v1 min max /\
  Binary64.exact_normalizeMetric v1 min max <= Binary64.exact_normalizeMetric v2 min max /\
  Binary64.exact_normalizeMetric v2 min max <= 100 /\
  (Binary64.exact_normalizeMetric v1 min max = 0 <-> 200 * (v1 - min) < max - min) /\
  (Binary64.exact_normalizeMetric v2 min max = 100 <-> 199 * (max - min) <= 200 * (v2 - min)).
Proof.
  intros Hband Hle.
  pose proof (exact_normalizeMetric_range v1 min max Hband).
  pose proof (exact_normalizeMetric_range v2 min max Hband).
  pose proof (exact_normalizeMetric_mono v1 v2 min max Hband Hle).
  repeat split; try lia.
  - rewrite (exact_normalizeMetric_nearest _ _ _ Hband).
    destruct (v1 <=? min) eqn:Hlo; [apply Z.leb_le in Hlo; lia|].
    destruct (max <=? v1) eqn:Hhi; [discriminate|].
    apply Z.leb_gt in Hlo, Hhi. unfold JS.nearest_quotient. intros Hq.
    pose proof (Z.div_mod (2 * (100 * (v1 - min)) + (max - min)) (2 * (max - min))).
    pose proof (Z.mod_pos_bound (2 * (100 * (v1 - min)) + (max - min)) (2 * (max - min))).
    rewrite Hq in *. lia.
  - rewrite (exact_normalizeMetric_nearest _ _ _ Hband). intros Hsmall.
    destruct (v1 <=? min) eqn:Hlo; [reflexivity|].
    destruct (max <=? v1) eqn:Hhi; [apply Z.leb_le in Hhi; lia|].
    unfold JS.nearest_quotient. apply Z.div_small. apply Z.leb_gt in Hlo. lia.
  - rewrite (exact_normalizeMetric_nearest _ _ _ Hband).
    destruct (v2 <=? min) eqn:Hlo; [discriminate|].
    destruct (max <=? v2) eqn:Hhi; [apply Z.leb_le in Hhi; lia|].
    apply Z.leb_gt in Hlo, Hhi. unfold JS.nearest_quotient. intros Hq.
    pose proof (Z.div_mod (2 * (100 * (v2 - min)) + (max - min)) (2 * (max - min))).
    pose proof (Z.mod_pos_bound (2 * (100 * (v2 - min)) + (max - min)) (2 * (max - min))).
    rewrite Hq in *. lia.
  - rewrite (exact_normalizeMetric_nearest _ _ _ Hband). intros Hbig.
    destruct (v2 <=? min) eqn:Hlo; [apply Z.leb_le in Hlo; lia|].
    destruct (max <=? v2) eqn:Hhi; [reflexivity|].
    apply Z.leb_gt in Hlo, Hhi.
    apply Z.le_antisymm.
    + apply (nearest_quotient_range _ _ 0 100); lia.
    + unfold JS.nearest_quotient. apply Z.div_le_lower_bound; lia.
Qed.

(** Outside the bands of the program the doubles and the exact rationals
    can part: 23 in the band 0 to 40 is 57.5 exactly, but the quotient
    0.575 and its product by 100 round below it. *)
Lemma normalizeMetric_rounds_as_doubles :
  RCI.normalizeMetric 23 0 40 = 57 /\ Binary64.exact_normalizeMetric 23 0 40 = 58.
Proof. split; vm_compute; reflexivity. Qed.

(** X5.  Over each band of the program (nesting depth 0 to 8, complexity
    1 to 25, length 0 to 100, deductions 0 to 25), [normalizeMetric], the
    function on doubles, stays within 0..100 and never decreases when the
    value grows; it is 0 exactly for values less than 1/200 of the band
    above its lower end, and 100 exactly from 199/200 of the band on. *)
Theorem normalizeMetric_is_a_clamped_scale (f : RCI.FactorName) (v1 v2 : Z) :
  let min := RCI.band_min (RCI.NORMALIZATION f) in
  let max := RCI.band_max (RCI.NORMALIZATION f) in
  v1 <= v2 ->
  0 <= RCI.normalizeMetric v1 min max /\
  RCI.normalizeMetric v1 min max <= RCI.normalizeMetric v2 min max /\
  RCI.normalizeMetric v2 min max <= 100 /\
  (RCI.normalizeMetric v1 min max = 0 <-> 200 * (v1 - min) < max - min) /\
  (RCI.normalizeMetric v2 min max = 100 <-> 199 * (max - min) <= 200 * (v2 - min)).
Proof.
  intros min max Hle.
  assert (Hband : min < max) by (subst min max; destruct f; simpl; lia).
  pose proof (proj1 (binary64_agrees_with_exact f)) as Hexact.
  unfold Binary64.normalizeMetric in Hexact. fold min max in Hexact.
  rewrite !Hexact. apply exact_normalizeMetric_scale; assumption.
Qed.

Lemma normalizeMetric_is_a_clamped_scale_witness :
  0 <= RCI.normalizeMetric 3 0 8 /\
  RCI.normalizeMetric 3 0 8 <= RCI.normalizeMetric 5 0 8 /\
  RCI.normalizeMetric 5 0 8 <= 100 /\
  (RCI.normalizeMetric 3 0 8 = 0 <-> 200 * (3 - 0) < 8 - 0) /\
  (RCI.normalizeMetric 5 0 8 = 100 <-> 199 * (8 - 0) <= 200 * (5 - 0)).
Proof. apply (normalizeMetric_is_a_clamped_scale RCI.nestingDepth 3 5). lia. Defined.

(** The result of [calculateRCI], factor by factor. *)
Lemma calculateRCI_unfolded (m : Metrics.Metrics) (securityScore : Z) :
  let r := RCI.calculateRCI m securityScore in
  let n f := RCI.normalizedMetric f m (25 - securityScore) in
  let c f w := JS.nearest_quotient (n f * w) 100 in
  RCI.factors r =
    [ (RCI.nestingDepth,
       RCI.mkFactor (Metrics.maxNestingDepth m) (n RCI.nestingDepth) 0.25 (c RCI.nestingDepth 25));
      (RCI.cyclomaticComplexity,
       RCI.mkFactor (Metrics.maxCyclomaticComplexity m) (n RCI.cyclomaticComplexity) 0.30
         (c RCI.cyclomaticComplexity 30));
      (RCI.functionLength,
       RCI.mkFactor (Metrics.maxFunctionLength m) (n RCI.functionLength) 0.20
         (c RCI.functionLength 20));
      (RCI.securityDeductions,
       RCI.mkFactor (25 - securityScore) (n RCI.securityDeductions) 0.25
         (c RCI.securityDeductions 25)) ] /\
  RCI.score r =
    Z.min 100 (Z.max 0 (c RCI.nestingDepth 25 + c RCI.cyclomaticComplexity 30 +
                        c RCI.functionLength 20 + c RCI.securityDeductions 25)) /\
  RCI.level r = RCI.label (RCI.determineLevel (RCI.score r)) /\
  RCI.humanExplanation r =
    RCI.generateExplanation (RCI.determineLevel (RCI.score r)) (RCI.factors r) (RCI.score r).
Proof.
  intros r n c. subst r. unfold RCI.calculateRCI, RCI.RCI_WEIGHTS.
  cbn [foldl RCI.weigh fst snd app].
  rewrite !Math_round_weighted.
  cbn [RCI.getRawValue Qnum Qden].
  change (Z.pos 100) with 100.
  cbn [RCI.factors RCI.score RCI.level RCI.humanExplanation].
  repeat split.
Qed.

Lemma normalizedMetric_range f m d : 0 <= RCI.normalizedMetric f m d <= 100.
Proof.
  unfold RCI.normalizedMetric.
  pose proof (proj1 (binary64_agrees_with_exact f)) as Hexact.
  unfold Binary64.normalizeMetric in Hexact. cbv zeta in Hexact. rewrite Hexact.
  apply exact_normalizeMetric_range. destruct f; simpl; lia.
Qed.

Lemma normalizedMetric_mono f m1 m2 d1 d2 :
  RCI.getRawValue f m1 d1 <= RCI.getRawValue f m2 d2 ->
  RCI.normalizedMetric f m1 d1 <= RCI.normalizedMetric f m2 d2.
Proof.
  intros H. unfold RCI.normalizedMetric.
  pose proof (proj1 (binary64_agrees_with_exact f)) as Hexact.
  unfold Binary64.normalizeMetric in Hexact. cbv zeta in Hexact. rewrite !Hexact.
  apply exact_normalizeMetric_mono; [|exact H].
  destruct f; simpl; lia.
Qed.

(** X6.  [calculateRCI] lists the four factors in a fixed order, each with a
    normalized value in 0..100 and a contribution between 0 and 100 times
    its weight (25, 30, 20, 25).  The score is the plain sum of the
    contributions: the final clamp to 0..100 never changes it. *)
Theorem calculateRCI_score_is_the_sum_of_contributions (m : Metrics.Metrics) (securityScore : Z) :
  let r := RCI.calculateRCI m securityScore in
  let cap (f : RCI.FactorName) :=
    match f with
    | RCI.nestingDepth => 25
    | RCI.cyclomaticComplexity => 30
    | RCI.functionLength => 20
    | RCI.securityDeductions => 25
    end in
  map fst (RCI.factors r) =
    [RCI.nestingDepth; RCI.cyclomaticComplexity; RCI.functionLength; RCI.securityDeductions] /\
  Forall (fun e : RCI.FactorName * RCI.Factor =>
            0 <= RCI.normalized e.2 <= 100 /\ 0 <= RCI.contribution e.2 <= cap e.1)
         (RCI.factors r) /\
  RCI.score r = foldr Z.add 0 (map (fun e => RCI.contribution e.2) (RCI.factors r)).
Proof.
  intros r cap.
  destruct (calculateRCI_unfolded m securityScore) as [Hf [Hs _]].
  fold r in Hf, Hs. rewrite Hs, Hf. clear Hf Hs.
  pose proof (normalizedMetric_range RCI.nestingDepth m (25 - securityScore)) as H1.
  pose proof (normalizedMetric_range RCI.cyclomaticComplexity m (25 - securityScore)) as H2.
  pose proof (normalizedMetric_range RCI.functionLength m (25 - securityScore)) as H3.
  pose proof (normalizedMetric_range RCI.securityDeductions m (25 - securityScore)) as H4.
  assert (C1 := nearest_quotient_range (RCI.normalizedMetric RCI.nestingDepth m (25 - securityScore) * 25) 100 0 25).
  assert (C2 := nearest_quotient_range (RCI.normalizedMetric RCI.cyclomaticComplexity m (25 - securityScore) * 30) 100 0 30).
  assert (C3 := nearest_quotient_range (RCI.normalizedMetric RCI.functionLength m (25 - securityScore) * 20) 100 0 20).
  assert (C4 := nearest_quotient_range (RCI.normalizedMetric RCI.securityDeductions m (25 - securityScore) * 25) 100 0 25).
  split; [reflexivity|]. split.
  - repeat constructor; cbn [snd fst RCI.normalized RCI.contribution cap]; lia.
  - cbn [map foldr snd RCI.contribution]. lia.
Qed.

(** X7.  Deeper nesting, higher complexity, longer functions and a lower
    security score never lower the Review Cost Index, nor its level. *)
Theorem calculateRCI_is_monotone (m1 m2 : Metrics.Metrics) (s1 s2 : Z) :
  Metrics.maxNestingDepth m1 <= Metrics.maxNestingDepth m2 ->
  Metrics.maxCyclomaticComplexity m1 <= Metrics.maxCyclomaticComplexity m2 ->
  Metrics.maxFunctionLength m1 <= Metrics.maxFunctionLength m2 ->
  s2 <= s1 ->
  RCI.score (RCI.calculateRCI m1 s1) <= RCI.score (RCI.calculateRCI m2 s2) /\
  RCI.level_max (RCI.determineLevel (RCI.score (RCI.calculateRCI m1 s1))) <=
    RCI.level_max (RCI.determineLevel (RCI.score (RCI.calculateRCI m2 s2))).
Proof.
  intros Hn Hc Hl Hs.
  assert (Hscore : RCI.score (RCI.calculateRCI m1 s1) <= RCI.score (RCI.calculateRCI m2 s2)).
  { destruct (calculateRCI_unfolded m1 s1) as [_ [-> _]].
    destruct (calculateRCI_unfolded m2 s2) as [_ [-> _]].
    assert (H : forall f w, 0 <= w ->
              JS.nearest_quotient (RCI.normalizedMetric f m1 (25 - s1) * w) 100 <=
              JS.nearest_quotient (RCI.normalizedMetric f m2 (25 - s2) * w) 100).
    { intros f w Hw. apply nearest_quotient_mono; [lia|].
      apply Z.mul_le_mono_nonneg_r; [exact Hw|].
      apply normalizedMetric_mono. destruct f; simpl; lia. }
    pose proof (H RCI.nestingDepth 25 ltac:(lia)).
    pose proof (H RCI.cyclomaticComplexity 30 ltac:(lia)).
    pose proof (H RCI.functionLength 20 ltac:(lia)).
    pose proof (H RCI.securityDeductions 25 ltac:(lia)).
    lia. }
  split; [exact Hscore|].
  revert Hscore.
  generalize (RCI.score (RCI.calculateRCI m1 s1)), (RCI.score (RCI.calculateRCI m2 s2)).
  intros a b Hab. unfold RCI.determineLevel. cbn [RCI.level_max RCI.LOW RCI.MEDIUM RCI.HIGH].
  destruct (a <=? 33) eqn:Ha1; destruct (b <=? 33) eqn:Hb1;
    destruct (a <=? 66) eqn:Ha2; destruct (b <=? 66) eqn:Hb2;
    cbn [RCI.level_max];
    repeat match goal with
      | H : (_ <=? _) = true |- _ => apply Z.leb_le in H
      | H : (_ <=? _) = false |- _ => apply Z.leb_gt in H
      end; unfold RCI.LOW, RCI.MEDIUM, RCI.HIGH; cbn [RCI.level_max]; lia.
Qed.

Lemma calculateRCI_is_monotone_witness :
  RCI.score (RCI.calculateRCI (Metrics.mkMetrics 2 4 30 1) 25) <=
    RCI.score (RCI.calculateRCI (Metrics.mkMetrics 5 12 60 3) 17) /\
  RCI.level_max (RCI.determineLevel (RCI.score (RCI.calculateRCI (Metrics.mkMetrics 2 4 30 1) 25))) <=
    RCI.level_max (RCI.determineLevel (RCI.score (RCI.calculateRCI (Metrics.mkMetrics 5 12 60 3) 17))).
Proof.
  apply (calculateRCI_is_monotone (Metrics.mkMetrics 2 4 30 1) (Metrics.mkMetrics 5 12 60 3) 25 17);
    simpl; lia.
Defined.

(** X8.  Up to a score of 33 the human explanation is the fixed sentence
    for code that is straightforward to review, with the score.  Above 33
    it names a factor whose contribution is the largest, as the main
    contributor up to 66 and as the primary concern beyond. *)
Theorem calculateRCI_explanation_names_the_top_factor (m : Metrics.Metrics) (securityScore : Z) :
  let r := RCI.calculateRCI m securityScore in
  (RCI.score r <= 33 ->
   RCI.humanExplanation r =
     "This code is straightforward to review (RCI: " +:+ JS.toString (RCI.score r) +:+ "). " +:+
     "Clear structure and manageable complexity allow single-pass review.") /\
  (33 < RCI.score r ->
   exists top,
     top ∈ RCI.factors r /\
     (forall f, f ∈ RCI.factors r -> RCI.contribution f.2 <= RCI.contribution top.2) /\
     JS.includes (RCI.humanExplanation r)
       ((if RCI.score r <=? 66 then "Main contributor: " else "Primary concern: ") +:+
        RCI.formatFactorName top.1) = true).
Proof.
  intros r.
  destruct (calculateRCI_unfolded m securityScore) as [Hf [_ [_ He]]].
  fold r in Hf, He. rewrite He. clear He.
  unfold RCI.generateExplanation.
  destruct (JS.sort_by _ (RCI.factors r)) as [|top rest] eqn:Hsort.
  { exfalso. rewrite Hf in Hsort. unfold JS.sort_by in Hsort. simpl in Hsort.
    apply sort_insert_not_nil in Hsort. exact Hsort. }
  apply sort_by_head_least in Hsort. destruct Hsort as [Hin Hleast].
  unfold RCI.determineLevel. cbn [RCI.level_max RCI.LOW RCI.MEDIUM RCI.HIGH].
  split.
  - intros Hlow. apply Z.leb_le in Hlow. rewrite Hlow. reflexivity.
  - intros Hhigh. exists top. split; [exact Hin|]. split.
    + intros f Hf'. specialize (Hleast f Hf'). cbv beta in Hleast. lia.
    + assert (Hlow : (RCI.score r <=? 33) = false) by (apply Z.leb_gt; exact Hhigh).
      rewrite Hlow. destruct (RCI.score r <=? 66); cbn [RCI.label];
        apply includes_iff.
      * rewrite bool_decide_eq_false_2 by discriminate.
        rewrite bool_decide_eq_true_2 by reflexivity.
        exists ("This code requires moderate review effort (RCI: " +:+
                JS.toString (RCI.score r) +:+ "). "),
               (". " +:+ "Reviewer may need to re-read sections for full understanding.").
        rewrite !append_assoc. reflexivity.
      * rewrite !bool_decide_eq_false_2 by discriminate.
        exists ("This code demands significant review effort (RCI: " +:+
                JS.toString (RCI.score r) +:+ "). "),
               (" (" +:+ JS.toString (RCI.contribution top.2) +:+ " points). " +:+
                "Expect detailed commenting or potential rejection.").
        rewrite !append_assoc. reflexivity.
Qed.

Lemma calculateRCI_explanation_names_the_top_factor_witness :
  RCI.humanExplanation (RCI.calculateRCI (Metrics.mkMetrics 1 2 10 1) 25) =
  "This code is straightforward to review (RCI: " +:+
  JS.toString (RCI.score (RCI.calculateRCI (Metrics.mkMetrics 1 2 10 1) 25)) +:+ "). " +:+
  "Clear structure and manageable complexity allow single-pass review.".
Proof.
  apply (proj1 (calculateRCI_explanation_names_the_top_factor (Metrics.mkMetrics 1 2 10 1) 25)).
  vm_compute. discriminate.
Defined.

(** ** The decision engine: how the comments are read *)

Lemma toLowerCase_append a b : JS.toLowerCase (a +:+ b) = JS.toLowerCase a +:+ JS.toLowerCase b.
Proof.
  induction a as [|c a IH]; [reflexivity|].
  change (String c a +:+ b) with (String c (a +:+ b)). simpl. rewrite IH. reflexivity.
Qed.

Lemma lower_ascii_idempotent c : JS.lower_ascii (JS.lower_ascii c) = JS.lower_ascii c.
Proof.
  unfold JS.lower_ascii.
  destruct ((65 <=? nat_of_ascii c)%nat && (nat_of_ascii c <=? 90)%nat) eqn:Hup; [|rewrite Hup; reflexivity].
  apply andb_true_iff in Hup. destruct Hup as [Hlo Hhi].
  apply Nat.leb_le in Hlo, Hhi.
  rewrite nat_ascii_embedding by lia.
  destruct ((65 <=? nat_of_ascii c + 32)%nat && (nat_of_ascii c + 32 <=? 90)%nat) eqn:H; [|reflexivity].
  apply andb_true_iff in H. destruct H as [_ H]. apply Nat.leb_le in H. lia.
Qed.

Lemma toLowerCase_idempotent s : JS.toLowerCase (JS.toLowerCase s) = JS.toLowerCase s.
Proof. induction s as [|c s IH]; [reflexivity|]. simpl. rewrite lower_ascii_idempotent, IH. reflexivity. Qed.

(** X9.  [checkCriticalDeductions] reads the comments one by one and
    without regard to case: it is false of no comment, it holds of two
    lists put together when it holds of one of them, lower-casing the
    comments changes nothing, and of one comment it holds exactly when
    the lower-cased text contains [eval], [function()], [child_process] or
    [hardcoded secret]. *)
Theorem checkCriticalDeductions_reads_comments_one_by_one (c1 c2 : list string) :
  Decision.checkCriticalDeductions [] = false /\
  Decision.checkCriticalDeductions (c1 ++ c2) =
    Decision.checkCriticalDeductions c1 || Decision.checkCriticalDeductions c2 /\
  Decision.checkCriticalDeductions (map JS.toLowerCase c1) = Decision.checkCriticalDeductions c1 /\
  (forall c, Decision.checkCriticalDeductions [c] = true <->
     JS.includes (JS.toLowerCase c) "eval" = true \/
     JS.includes (JS.toLowerCase c) "function()" = true \/
     JS.includes (JS.toLowerCase c) "child_process" = true \/
     JS.includes (JS.toLowerCase c) "hardcoded secret" = true).
Proof.
  split; [reflexivity|]. split; [|split].
  - unfold Decision.checkCriticalDeductions, Decision.CRITICAL_SECURITY_PATTERNS.
    rewrite map_app. cbn [existsb]. rewrite !existsb_app.
    repeat match goal with |- context [existsb ?f ?l] =>
      let x := fresh "x" in generalize (existsb f l); intros x end.
    repeat match goal with x : bool |- _ => destruct x end; reflexivity.
  - unfold Decision.checkCriticalDeductions.
    rewrite map_map.
    rewrite (map_ext (fun x => JS.toLowerCase (JS.toLowerCase x)) JS.toLowerCase); [reflexivity|].
    intros a. apply toLowerCase_idempotent.
  - intros c. unfold Decision.checkCriticalDeductions, Decision.CRITICAL_SECURITY_PATTERNS.
    cbn [map existsb]. rewrite !orb_false_r.
    change (JS.toLowerCase "eval") with "eval".
    change (JS.toLowerCase "Function()") with "function()".
    change (JS.toLowerCase "child_process") with "child_process".
    change (JS.toLowerCase "hardcoded secret") with "hardcoded secret".
    rewrite !orb_true_iff. tauto.
Qed.

(** ** What a traversal keeps of the findings *)

Lemma visit_reaches {S : Type} (P : S -> Prop) (handler : Path -> S -> S) paths init (k : nat) p :
  paths !! k = Some p ->
  (forall st, P (handler p st)) ->
  (forall q st, P st -> P (handler q st)) ->
  P (visit handler paths init).
Proof.
  intros Hk Hp Hkeep. unfold visit.
  apply list_elem_of_split_length in Hk. destruct Hk as [before [after [-> _]]].
  rewrite foldl_app. simpl.
  apply (foldl_invariant P (fun st q => handler q st)); [apply Hp|].
  intros s a Hs. apply Hkeep. exact Hs.
Qed.

(** The handlers of the detectors only push: a property of the issue list
    that every push keeps is kept by each of them. *)
Section Kept.

Variable P : list Issue -> Prop.

Hypothesis P_push : forall l i, P l -> P (l ++ [i]).

(** A report keeps what pushes keep. *)
Lemma kept_report {K} `{Countable K} (k : K) (i : Issue) (st : Reporting K) :
  P (found st) -> P (found (report k i st)).
Proof. intros. simpl. apply P_push. assumption. Qed.

Lemma kept_report_line (line : option Z) (i : Z -> Issue) (st : Reporting Z) :
  P (found st) -> P (found (report_line line i st)).
Proof.
  intros Hst. unfold report_line.
  destruct line as [l|]; [|assumption].
  destruct (negb (l =? 0) && negb (bool_decide (l ∈ reported st))); [|assumption].
  apply kept_report. assumption.
Qed.

Lemma kept_report_once (line : option Z) (i : Issue) (st : Reporting (option Z)) :
  P (found st) -> P (found (finish (Security.report_once line i st))).
Proof.
  intros Hst. unfold Security.report_once.
  destruct (bool_decide (line ∈ reported st)); simpl; [assumption|].
  apply P_push; assumption.
Qed.

Lemma kept_report_once_then (line : option Z) (i : Issue) (st : Reporting (option Z)) k :
  P (found st) ->
  (forall st1, P (found st1) -> P (found (finish (k st1)))) ->
  P (found (finish (and_then (Security.report_once line i st) k))).
Proof.
  intros Hst Hk. unfold Security.report_once.
  destruct (bool_decide (line ∈ reported st)); simpl; [assumption|].
  apply Hk. simpl. apply P_push; assumption.
Qed.

Ltac kept :=
  repeat first
    [ assumption
    | apply kept_report_line
    | apply kept_report_once
    | apply kept_report_once_then; [|intros ? ?]
    | apply kept_report
    | apply P_push
    | progress simpl ].

Lemma Security_on_eval_keeps p issues : P issues -> P (Security.on_eval p issues).
Proof. intros H. unfold Security.on_eval. split_cases; kept. Qed.

Lemma Security_on_child_process_keeps p st :
  P (found st) -> P (found (Security.on_child_process p st)).
Proof. intros H. unfold Security.on_child_process, Security.shell_issue. split_cases; kept. Qed.

Lemma Security_on_secret_keeps p st : P (found st) -> P (found (Security.on_secret p st)).
Proof. intros H. unfold Security.on_secret. split_cases; kept. Qed.

Lemma Security_on_unsanitized_keeps p st :
  P (found st) -> P (found (Security.on_unsanitized p st)).
Proof.
  intros H. unfold Security.on_unsanitized.
  destruct (bool_decide (type (node p) = "TemplateLiteral")).
  - apply (foldl_invariant (fun st => P (found st))); [assumption|].
    intros s a Hs. unfold Security.on_template_expression. split_cases; kept.
  - split_cases; kept.
Qed.

Lemma Security_checkChildProcessUsage_keeps ast issues :
  P issues -> P (Security.checkChildProcessUsage ast issues).
Proof.
  intros H. unfold Security.checkChildProcessUsage.
  apply (visit_invariant (fun st => P (found st))); [exact H|].
  intros; apply Security_on_child_process_keeps; assumption.
Qed.

Lemma Security_checkHardcodedSecrets_keeps ast issues :
  P issues -> P (Security.checkHardcodedSecrets ast issues).
Proof.
  intros H. unfold Security.checkHardcodedSecrets.
  apply (visit_invariant (fun st => P (found st))); [exact H|].
  intros; apply Security_on_secret_keeps; assumption.
Qed.

Lemma Security_checkUnsanitizedInput_keeps ast issues :
  P issues -> P (Security.checkUnsanitizedInput ast issues).
Proof.
  intros H. unfold Security.checkUnsanitizedInput.
  apply (visit_invariant (fun st => P (found st))); [exact H|].
  intros; apply Security_on_unsanitized_keeps; assumption.
Qed.

Lemma BrowserSecurity_on_eval_keeps p st :
  P (found st) -> P (found (BrowserSecurity.on_eval p st)).
Proof. intros H. unfold BrowserSecurity.on_eval. split_cases; kept. Qed.

Lemma BrowserSecurity_on_child_process_keeps p st :
  P (found st) -> P (found (BrowserSecurity.on_child_process p st)).
Proof. intros H. unfold BrowserSecurity.on_child_process. split_cases; kept. Qed.

Lemma BrowserSecurity_on_secret_keeps p st :
  P (found st) -> P (found (BrowserSecurity.on_secret p st)).
Proof. intros H. unfold BrowserSecurity.on_secret. split_cases; kept. Qed.

Lemma BrowserSecurity_on_unsanitized_keeps p st :
  P (found st) -> P (found (BrowserSecurity.on_unsanitized p st)).
Proof.
  intros H. unfold BrowserSecurity.on_unsanitized.
  destruct (bool_decide (type (node p) = "TemplateLiteral")).
  - apply (foldl_invariant (fun st => P (found st))); [assumption|].
    intros s a Hs. split_cases; kept.
  - split_cases; kept.
Qed.

Lemma BrowserSecurity_checkChildProcessUsage_keeps ast issues :
  P issues -> P (BrowserSecurity.checkChildProcessUsage ast issues).
Proof.
  intros H. unfold BrowserSecurity.checkChildProcessUsage.
  apply (visit_invariant (fun st => P (found st))); [exact H|].
  intros; apply BrowserSecurity_on_child_process_keeps; assumption.
Qed.

Lemma BrowserSecurity_checkHardcodedSecrets_keeps ast issues :
  P issues -> P (BrowserSecurity.checkHardcodedSecrets ast issues).
Proof.
  intros H. unfold BrowserSecurity.checkHardcodedSecrets.
  apply (visit_invariant (fun st => P (found st))); [exact H|].
  intros; apply BrowserSecurity_on_secret_keeps; assumption.
Qed.

Lemma BrowserSecurity_checkUnsanitizedInput_keeps ast issues :
  P issues -> P (BrowserSecurity.checkUnsanitizedInput ast issues).
Proof.
  intros H. unfold BrowserSecurity.checkUnsanitizedInput.
  apply (visit_invariant (fun st => P (found st))); [exact H|].
  intros; apply BrowserSecurity_on_unsanitized_keeps; assumption.
Qed.

Lemma Readability_on_node_keeps p issues : P issues -> P (Readability.on_node p issues).
Proof.
  intros H. unfold Readability.on_node, Readability.on_function, Readability.on_identifier.
  split_cases; kept.
Qed.

Lemma Readability_on_block_keeps p st :
  P (found st) -> P (found (Readability.on_block p st)).
Proof. intros H. unfold Readability.on_block. split_cases; kept. Qed.

Lemma Readability_checkNestingDepth_keeps ast issues :
  P issues -> P (Readability.checkNestingDepth ast issues).
Proof.
  intros H. unfold Readability.checkNestingDepth.
  apply (visit_invariant (fun st => P (found st))); [exact H|].
  intros; apply Readability_on_block_keeps; assumption.
Qed.

End Kept.

(** A push keeps the issues that are there. *)
Lemma elem_of_push {A} (x : A) l i : x ∈ l -> x ∈ l ++ [i].
Proof. intros H. apply elem_of_app. left. exact H. Qed.

(** ** A dangerous call, on the server and in the browser *)

Lemma prop_str_show n k s : prop_str n k = Some s -> show (prop n k) = s.
Proof.
  unfold prop_str. destruct (prop n k) as [[x|x|x]|]; try discriminate.
  intros [= ->]. reflexivity.
Qed.

(** Among penalties that are not negative, one is at most their sum. *)
Lemma penalty_le_sum i l :
  i ∈ l -> Forall (fun i => 0 <= penalty i) l -> penalty i <= sum_penalties l.
Proof.
  unfold sum_penalties. intros Hin Hall. induction Hall as [|x l Hx Hl IH]; [inversion Hin|].
  simpl. apply elem_of_cons in Hin. destruct Hin as [->|Hin].
  - pose proof (sum_penalties_nonneg l Hl) as H. unfold sum_penalties in H. lia.
  - specialize (IH Hin). lia.
Qed.

(** The server detector reports a direct call of [eval] or [Function]
    wherever it is in the tree. *)
Lemma Security_eval_call_is_reported ast (k : nat) p name :
  traverse_paths ast !! k = Some p ->
  name = "eval" \/ name = "Function" ->
  Shapes.direct_call name (node p) = true ->
  issue 8 ("Dangerous '" +:+ name +:+ "()' usage detected at line " +:+
           show_line (line_of (node p)) +:+
           ". This can execute arbitrary code and is a major security risk.")
    ∈ Security.analyzeSecurity ast.
Proof.
  intros Hk Hname Hcall.
  set (i0 := issue 8 _).
  unfold Security.analyzeSecurity.
  apply (Security_checkUnsanitizedInput_keeps (fun l => i0 ∈ l)); [intros; apply elem_of_push; assumption|].
  apply (Security_checkHardcodedSecrets_keeps (fun l => i0 ∈ l)); [intros; apply elem_of_push; assumption|].
  apply (Security_checkChildProcessUsage_keeps (fun l => i0 ∈ l)); [intros; apply elem_of_push; assumption|].
  unfold Security.checkEvalUsage.
  apply (visit_reaches (fun l => i0 ∈ l) _ _ _ k p Hk).
  - intros st. unfold Shapes.direct_call in Hcall.
    apply andb_true_iff in Hcall. destruct Hcall as [Htype Hcallee].
    destruct (child (node p) "callee") as [callee|] eqn:Hc; [|discriminate].
    apply andb_true_iff in Hcallee. destruct Hcallee as [Hid Hnm].
    apply bool_decide_eq_true in Hnm.
    unfold Security.on_eval. rewrite Htype, Hc, Hid.
    apply bool_decide_eq_true in Htype.
    assert (Hin : Security.name_in Security.DANGEROUS_FUNCTIONS callee = true).
    { unfold Security.name_in. rewrite Hnm. apply bool_decide_eq_true.
      unfold Security.DANGEROUS_FUNCTIONS. destruct Hname as [-> | ->]; set_solver. }
    rewrite Hin. cbn [andb].
    assert (Hnew : bool_decide (type (node p) = "NewExpression") = false).
    { apply bool_decide_eq_false. rewrite Htype. discriminate. }
    rewrite Hnew. cbn [andb]. rewrite (prop_str_show _ _ _ Hnm).
    apply elem_of_app. right. left.
  - intros q st Hst. apply Security_on_eval_keeps; [|exact Hst].
    intros; apply elem_of_push; assumption.
Qed.

(** A security comment that matches a critical pattern rules out
    READY_FOR_HUMAN_REVIEW. *)
Lemma determineDecision_with_critical_comment s c pattern :
  c ∈ comments (Decision.security s) ->
  pattern ∈ Decision.CRITICAL_SECURITY_PATTERNS ->
  JS.includes (JS.toLowerCase c) (JS.toLowerCase pattern) = true ->
  Decision.decision (Decision.determineDecision s) <> Decision.READY_FOR_HUMAN_REVIEW /\
  Decision.hasCriticalDeductions (Decision.decisionDetails (Decision.determineDecision s)) = true.
Proof.
  intros Hc Hp Hinc.
  assert (Hcrit : Decision.checkCriticalDeductions (comments (Decision.security s)) = true).
  { apply checkCriticalDeductions_spec. exists c, pattern. auto. }
  unfold Decision.determineDecision. rewrite Hcrit.
  destruct (_ || _); [split; [discriminate|reflexivity]|].
  destruct (_ <=? _); split; first [discriminate|reflexivity].
Qed.

(** X10.  On the server, code that parses to a tree with a direct call of
    [eval] or [Function] is never ready for human review: the result
    lists the finding for that call, the security score is at most 17 and
    the total at most 92, the decision is not READY_FOR_HUMAN_REVIEW and
    its details flag critical deductions. *)
Theorem Server_dangerous_call_is_never_ready parser_parse code ast (k : nat) p name :
  parser_parse code = Tree ast ->
  traverse_paths ast !! k = Some p ->
  name = "eval" \/ name = "Function" ->
  Shapes.direct_call name (node p) = true ->
  let r := Server.analyzeCode parser_parse code in
  ("Dangerous '" +:+ name +:+ "()' usage detected at line " +:+
   show_line (line_of (node p)) +:+
   ". This can execute arbitrary code and is a major security risk.")
    ∈ comments (Server.security r) /\
  score (Server.security r) <= 17 /\
  Server.totalScore r <= 92 /\
  Server.decision r <> Decision.READY_FOR_HUMAN_REVIEW /\
  (Decision.hasCriticalDeductions <$> Server.decisionDetails r) = Some true.
Proof.
  intros Hparse Hk Hname Hcall r.
  pose proof (Security_eval_call_is_reported ast k p name Hk Hname Hcall) as Hin.
  set (c0 := "Dangerous '" +:+ name +:+ "()' usage detected at line " +:+
             show_line (line_of (node p)) +:+
             ". This can execute arbitrary code and is a major security risk.") in *.
  subst r. unfold Server.analyzeCode, Server.analyzeParsed, parseCode, parseCode_of.
  rewrite Hparse.
  cbn [Server.security Server.totalScore Server.decision Server.decisionDetails].
  assert (Hc0 : c0 ∈ comments (aggregateCategory MAX_SCORE (Security.analyzeSecurity ast))).
  { unfold aggregateCategory. cbn [comments].
    apply list_elem_of_fmap. exists (issue 8 c0). split; [reflexivity|exact Hin]. }
  assert (Hsec : score (aggregateCategory MAX_SCORE (Security.analyzeSecurity ast)) <= 17).
  { rewrite aggregateCategory_score. unfold MAX_SCORE.
    pose proof (penalty_le_sum _ _ Hin (plain_nonneg _ (Security_analyzeSecurity_plain ast))) as H.
    simpl in H. lia. }
  pose proof (aggregateCategory_bounds _ (Readability_analyzeReadability_plain ast)) as Hr.
  pose proof (aggregateCategory_bounds _ (Complexity_analyzeComplexity_plain ast)) as Hx.
  pose proof (aggregateCategory_bounds _ (EdgeCases_analyzeEdgeCases_plain ast)) as He.
  split; [exact Hc0|]. split; [exact Hsec|].
  split; [unfold Server.analyzeComplexity; lia|].
  set (s := Decision.mkScores _ _ _ _ _).
  assert (Hpat : exists pattern,
            pattern ∈ Decision.CRITICAL_SECURITY_PATTERNS /\
            JS.includes (JS.toLowerCase c0) (JS.toLowerCase pattern) = true).
  { unfold c0. destruct Hname as [-> | ->].
    - exists "eval". split; [set_solver|]. rewrite !toLowerCase_append.
      apply includes_between.
    - exists "Function()". split; [unfold Decision.CRITICAL_SECURITY_PATTERNS; set_solver|].
      rewrite !toLowerCase_append. apply includes_iff.
      exists "dangerous '", ("' usage detected at line " +:+
              JS.toLowerCase (show_line (line_of (node p))) +:+
              JS.toLowerCase ". This can execute arbitrary code and is a major security risk.").
      reflexivity. }
  destruct Hpat as [pattern [Hp Hinc]].
  destruct (determineDecision_with_critical_comment s c0 pattern Hc0 Hp Hinc) as [Hd Hh].
  split; [exact Hd|]. cbn [fmap option_fmap option_map]. rewrite Hh. reflexivity.
Qed.

Lemma Server_dangerous_call_is_never_ready_witness :
  let r := Server.analyzeCode (fun _ => Tree Samples.eval_call) "eval('1+1')" in
  "Dangerous 'eval()' usage detected at line 1. This can execute arbitrary code and is a major security risk."
    ∈ comments (Server.security r) /\
  score (Server.security r) <= 17 /\
  Server.totalScore r <= 92 /\
  Server.decision r <> Decision.READY_FOR_HUMAN_REVIEW /\
  (Decision.hasCriticalDeductions <$> Server.decisionDetails r) = Some true.
Proof.
  refine (Server_dangerous_call_is_never_ready (fun _ => Tree Samples.eval_call) "eval('1+1')"
            Samples.eval_call 2%nat (path_at Samples.eval_call 2) "eval" _ _ _ _).
  - reflexivity.
  - vm_compute. reflexivity.
  - left. reflexivity.
  - vm_compute. reflexivity.
Defined.

(** The same under an invariant [J] of the traversal, which the handler
    may use at that path. *)
Lemma visit_reaches_under {S : Type} (J P : S -> Prop) (handler : Path -> S -> S)
    paths init (k : nat) p :
  paths !! k = Some p ->
  J init ->
  (forall q st, J st -> J (handler q st)) ->
  (forall st, J st -> P (handler p st)) ->
  (forall q st, P st -> P (handler q st)) ->
  P (visit handler paths init).
Proof.
  intros Hk Hinit HJ Hp Hkeep. unfold visit.
  apply list_elem_of_split_length in Hk. destruct Hk as [before [after [-> _]]].
  rewrite foldl_app. simpl.
  apply (foldl_invariant P (fun st q => handler q st)).
  - apply Hp. apply (foldl_invariant J (fun st q => handler q st)); [exact Hinit|].
    intros s a Hs. apply HJ. exact Hs.
  - intros s a Hs. apply Hkeep. exact Hs.
Qed.

Lemma has_critical_push l i : has_critical l -> has_critical (l ++ [i]).
Proof. intros [j [Hj Hc]]. exists j. split; [apply elem_of_push; exact Hj|exact Hc]. Qed.

Lemma has_critical_pushed l i : names_code_execution i -> has_critical (l ++ [i]).
Proof. intros Hi. exists i. split; [apply elem_of_app; right; left|exact Hi]. Qed.

Lemma report_line_with_critical line i st :
  (forall l, names_code_execution (i l)) ->
  reported_with_critical st -> reported_with_critical (report_line line i st).
Proof.
  intros Hi Hst. unfold report_line.
  destruct line as [l|]; [|exact Hst].
  destruct (negb (l =? 0) && negb (bool_decide (l ∈ reported st))); [|exact Hst].
  intros l' _. simpl. apply has_critical_pushed. apply Hi.
Qed.

(** Reporting a code-executing call on a line leaves a critical
    finding, whether the line was reported before or not. *)
Lemma report_line_gives_critical l i st :
  l <> 0 ->
  (forall l, names_code_execution (i l)) ->
  reported_with_critical st -> has_critical (found (report_line (Some l) i st)).
Proof.
  intros Hl Hi Hst. unfold report_line.
  assert (Hnz : (l =? 0) = false) by (apply Z.eqb_neq; exact Hl).
  rewrite Hnz. cbn [negb andb].
  destruct (bool_decide (l ∈ reported st)) eqn:Hin; cbn [negb].
  - apply bool_decide_eq_true in Hin. apply (Hst l Hin).
  - simpl. apply has_critical_pushed. apply Hi.
Qed.

Lemma name_in_dangerous n :
  Security.name_in BrowserSecurity.DANGEROUS_FUNCTIONS n = true ->
  show (prop n "name") = "eval" \/ show (prop n "name") = "Function".
Proof.
  unfold Security.name_in. destruct (prop_str n "name") as [nm|] eqn:Hnm; [|discriminate].
  intros Hin. apply bool_decide_eq_true in Hin. rewrite (prop_str_show _ _ _ Hnm).
  unfold BrowserSecurity.DANGEROUS_FUNCTIONS in Hin. set_solver.
Qed.

Lemma eval_finding_names_code_execution name l tail :
  name = "eval" \/ name = "Function" ->
  names_code_execution
    (tagged BrowserSecurity.EVAL_USAGE
       ("CRITICAL: " +:+ name +:+ "() usage detected at line " +:+ JS.toString l +:+ tail)
       CRITICAL).
Proof.
  intros Hname. split; [reflexivity|]. cbn [comment tagged].
  destruct Hname as [-> | ->]; [left|right]; apply includes_iff.
  - exists "CRITICAL: ", ("() usage detected at line " +:+ JS.toString l +:+ tail). reflexivity.
  - exists "CRITICAL: ", (" usage detected at line " +:+ JS.toString l +:+ tail). reflexivity.
Qed.

Lemma new_Function_finding_names_code_execution l :
  names_code_execution
    (tagged BrowserSecurity.EVAL_USAGE
       ("CRITICAL: new Function() usage detected at line " +:+ JS.toString l +:+
        ". This is equivalent to eval() and allows arbitrary code execution.")
       CRITICAL).
Proof.
  split; [reflexivity|]. right. cbn [comment tagged]. apply includes_iff.
  exists "CRITICAL: new ", (" usage detected at line " +:+ JS.toString l +:+
        ". This is equivalent to eval() and allows arbitrary code execution.").
  reflexivity.
Qed.

Lemma BrowserSecurity_on_eval_reports_with_critical q st :
  reported_with_critical st -> reported_with_critical (BrowserSecurity.on_eval q st).
Proof.
  intros Hst. unfold BrowserSecurity.on_eval.
  destruct (bool_decide (type (node q) = "CallExpression")).
  - destruct (child (node q) "callee") as [callee|]; [|exact Hst].
    match goal with
    | |- reported_with_critical
           match child callee "property" with Some _ => _ | None => ?s end =>
        set (st1 := s)
    end.
    assert (Hst1 : reported_with_critical st1).
    { subst st1. destruct (bool_decide (type callee = "Identifier") && _) eqn:Hc; [|exact Hst].
      apply andb_true_iff in Hc. destruct Hc as [_ Hc].
      apply report_line_with_critical; [|exact Hst].
      intros l. apply eval_finding_names_code_execution. apply name_in_dangerous. exact Hc. }
    clearbody st1.
    destruct (child callee "property") as [property|]; [|exact Hst1].
    destruct (_ && _) eqn:Hc; [|exact Hst1].
    apply andb_true_iff in Hc. destruct Hc as [_ Hc].
    apply report_line_with_critical; [|exact Hst1].
    intros l. apply eval_finding_names_code_execution. apply name_in_dangerous. exact Hc.
  - destruct (bool_decide (type (node q) = "NewExpression")); [|exact Hst].
    destruct (child (node q) "callee") as [callee|]; [|exact Hst].
    destruct (_ && _); [|exact Hst].
    apply report_line_with_critical; [|exact Hst].
    intros l. apply new_Function_finding_names_code_execution.
Qed.

(** The browser detector has a critical finding for a direct call of
    [eval] or [Function] on a known line. *)
Lemma BrowserSecurity_eval_call_is_critical ast (k : nat) p name l :
  traverse_paths ast !! k = Some p ->
  name = "eval" \/ name = "Function" ->
  Shapes.direct_call name (node p) = true ->
  line_of (node p) = Some l -> l <> 0 ->
  has_critical (BrowserSecurity.analyzeSecurity ast).
Proof.
  intros Hk Hname Hcall Hline Hl.
  unfold BrowserSecurity.analyzeSecurity.
  apply (BrowserSecurity_checkUnsanitizedInput_keeps has_critical has_critical_push).
  apply (BrowserSecurity_checkHardcodedSecrets_keeps has_critical has_critical_push).
  apply (BrowserSecurity_checkChildProcessUsage_keeps has_critical has_critical_push).
  unfold BrowserSecurity.checkEvalUsage.
  apply (visit_reaches_under reported_with_critical (fun st => has_critical (found st))
           _ _ _ k p Hk).
  - intros x Hx. simpl in Hx. set_solver.
  - intros q st. apply BrowserSecurity_on_eval_reports_with_critical.
  - intros st Hst. unfold Shapes.direct_call in Hcall.
    apply andb_true_iff in Hcall. destruct Hcall as [Htype Hcallee].
    destruct (child (node p) "callee") as [callee|] eqn:Hc; [|discriminate].
    apply andb_true_iff in Hcallee. destruct Hcallee as [Hid Hnm].
    apply bool_decide_eq_true in Hnm.
    unfold BrowserSecurity.on_eval. rewrite Htype, Hc, Hid, Hline.
    assert (Hin : Security.name_in BrowserSecurity.DANGEROUS_FUNCTIONS callee = true).
    { unfold Security.name_in. rewrite Hnm. apply bool_decide_eq_true.
      unfold BrowserSecurity.DANGEROUS_FUNCTIONS. destruct Hname as [-> | ->]; set_solver. }
    rewrite Hin. cbn [andb].
    assert (H1 : has_critical (found (report_line (Some l)
              (fun l0 => tagged BrowserSecurity.EVAL_USAGE
                 ("CRITICAL: " +:+ show (prop callee "name") +:+ "() usage detected at line " +:+
                  JS.toString l0 +:+
                  ". This allows arbitrary code execution and is a major security risk.")
                 CRITICAL) st))).
    { apply report_line_gives_critical; [exact Hl| |exact Hst].
      intros l0. apply eval_finding_names_code_execution. apply name_in_dangerous. exact Hin. }
    destruct (child callee "property") as [property|]; [|exact H1].
    destruct (_ && _); [|exact H1].
    apply (kept_report_line has_critical has_critical_push). exact H1.
  - intros q st. apply (BrowserSecurity_on_eval_keeps has_critical has_critical_push).
Qed.

Lemma criticalType_of_code_execution i :
  names_code_execution i ->
  Verdict.criticalType i ∈ ["eval() usage"; "Function() constructor"].
Proof.
  intros [_ [H|H]]; unfold Verdict.criticalType.
  - rewrite H. set_solver.
  - destruct (JS.includes (comment i) "eval"); [set_solver|]. rewrite H. set_solver.
Qed.

(** One critical issue is enough for the override, and the reason
    names its kind. *)
Lemma determineVerdict_with_critical total issues aggregated i :
  i ∈ issues ->
  let r := Verdict.determineVerdict (Verdict.mkInput total (Some issues) aggregated) in
  Verdict.verdict r = Verdict.BLOCK_MERGE /\
  Verdict.wasOverridden (Verdict.details r) = true /\
  exists reason,
    Verdict.overrideReason r = Some reason /\
    JS.includes reason (Verdict.criticalType i) = true.
Proof.
  intros Hin r. subst r. unfold Verdict.determineVerdict.
  cbn [Verdict.criticalIssues Verdict.totalScore].
  destruct issues as [|j rest] eqn:Hissues; [inversion Hin|]. rewrite <- Hissues in *.
  assert (Hlen : (0 <? length issues)%nat = true) by (rewrite Hissues; reflexivity).
  rewrite Hlen. cbn [Verdict.verdict Verdict.details Verdict.wasOverridden Verdict.overrideReason].
  split; [reflexivity|]. split; [reflexivity|].
  eexists. split; [reflexivity|].
  apply includes_append_r. apply includes_join.
  apply Set_spread_spec. split; [|set_solver].
  apply list_elem_of_fmap. exists i. split; [reflexivity|exact Hin].
Qed.

Lemma extractCriticalIssues_elem i l :
  i ∈ Browser.extractCriticalIssues l <-> i ∈ l /\ severity i = Some CRITICAL.
Proof. unfold Browser.extractCriticalIssues. rewrite list_elem_of_filter. tauto. Qed.

(** X11.  In the browser, a file whose tree has a direct call of [eval] or
    [Function] on a known line is blocked whatever its score:
    [analyzeSingleFile] answers BLOCK_MERGE by override, one of the
    critical issues is the finding for a code-executing call, and the
    override reason names [eval() usage] or [Function() constructor]. *)
Theorem Browser_eval_call_blocks_the_merge
    parser_parse analyzeReadability analyzeEdgeCases generateProofHash
    code filename ast (k : nat) p name l :
  parser_parse code = Tree ast ->
  traverse_paths ast !! k = Some p ->
  name = "eval" \/ name = "Function" ->
  Shapes.direct_call name (node p) = true ->
  line_of (node p) = Some l -> l <> 0 ->
  let r :=
    Engine.analyzeSingleFile parser_parse analyzeReadability analyzeEdgeCases generateProofHash
      code filename in
  Engine.verdict r = Verdict.BLOCK_MERGE /\
  Verdict.wasOverridden (Engine.verdictDetails r) = true /\
  (exists i, i ∈ Browser.criticalIssues (Engine.analysis r) /\ names_code_execution i) /\
  exists reason kind,
    Engine.verdictOverrideReason r = Some reason /\
    kind ∈ ["eval() usage"; "Function() constructor"] /\
    JS.includes reason kind = true.
Proof.
  intros Hparse Hk Hname Hcall Hline Hl r.
  destruct (BrowserSecurity_eval_call_is_critical ast k p name l Hk Hname Hcall Hline Hl)
    as [i [Hi Hc]].
  subst r. unfold Engine.analyzeSingleFile.
  cbn [Engine.verdict Engine.verdictDetails Engine.analysis Engine.verdictOverrideReason].
  set (result := Browser.analyzeCode _ _ _ _ _).
  assert (Hcrit : i ∈ Browser.criticalIssues result).
  { subst result. unfold Browser.analyzeCode, parseCode, parseCode_of. rewrite Hparse.
    cbn [Browser.criticalIssues]. apply extractCriticalIssues_elem.
    split; [exact Hi|apply Hc]. }
  destruct (determineVerdict_with_critical (Browser.totalScore result)
              (Browser.criticalIssues result) (Some (Engine.scores_of result)) i Hcrit)
    as [Hv [Ho [reason [Hr Hinc]]]].
  split; [exact Hv|]. split; [exact Ho|]. split; [exists i; split; assumption|].
  exists reason, (Verdict.criticalType i).
  split; [exact Hr|]. split; [apply criticalType_of_code_execution; exact Hc|exact Hinc].
Qed.

Lemma Browser_eval_call_blocks_the_merge_witness :
  Engine.verdict
    (Engine.analyzeSingleFile (fun _ => Tree Samples.eval_call) (fun _ => []) (fun _ => [])
       (fun _ => EmptyString) "eval('1+1')" None) = Verdict.BLOCK_MERGE.
Proof.
  refine (proj1 (Browser_eval_call_blocks_the_merge
                   (fun _ => Tree Samples.eval_call) (fun _ => []) (fun _ => [])
                   (fun _ => EmptyString) "eval('1+1')" None Samples.eval_call 2%nat
                   (path_at Samples.eval_call 2) "eval" 1 _ _ _ _ _ _)).
  - reflexivity.
  - vm_compute. reflexivity.
  - left. reflexivity.
  - vm_compute. reflexivity.
  - vm_compute. reflexivity.
  - lia.
Defined.

(** X12.  A file that does not parse is blocked by its score, not by the
    override: [analyzeSingleFile] gives it the total 0, the syntax error,
    no critical issue, BLOCK_MERGE with no override reason, and an
    explanation that is one fixed text; the file name defaults to
    [code.js]. *)
Theorem Browser_unparsable_file_is_blocked_by_its_score
    parser_parse analyzeReadability analyzeEdgeCases generateProofHash code filename message :
  parser_parse code = SyntaxError message ->
  let r :=
    Engine.analyzeSingleFile parser_parse analyzeReadability analyzeEdgeCases generateProofHash
      code filename in
  Browser.filename (Engine.analysis r) = default "code.js" filename /\
  Browser.error (Engine.analysis r) = Some ("Syntax Error: " +:+ message) /\
  Browser.totalScore (Engine.analysis r) = 0 /\
  Browser.criticalIssues (Engine.analysis r) = [] /\
  Engine.verdict r = Verdict.BLOCK_MERGE /\
  Engine.verdictOverrideReason r = None /\
  Verdict.wasOverridden (Engine.verdictDetails r) = false /\
  Engine.verdictExplanation r =
    "Score: 0/100 â€” Verdict: BLOCK_MERGE. Score is below minimum threshold (65). " +:+
    "Critical issues detected. Must be resolved.".
Proof.
  intros Hparse r. subst r.
  unfold Engine.analyzeSingleFile, Browser.analyzeCode, parseCode, parseCode_of.
  rewrite Hparse. destruct filename; repeat split.
Qed.

Lemma Browser_unparsable_file_is_blocked_by_its_score_witness :
  Engine.verdict
    (Engine.analyzeSingleFile (fun _ => SyntaxError "Unexpected token (1:0)") (fun _ => [])
       (fun _ => []) (fun _ => EmptyString) "}" None) = Verdict.BLOCK_MERGE.
Proof.
  apply (Browser_unparsable_file_is_blocked_by_its_score
           (fun _ => SyntaxError "Unexpected token (1:0)") (fun _ => []) (fun _ => [])
           (fun _ => EmptyString) "}" None "Unexpected token (1:0)").
  reflexivity.
Defined.

Lemma eval_finding_named name rest :
  name = "eval" \/ name = "Function" ->
  named_if_critical
    (tagged BrowserSecurity.EVAL_USAGE
       ("CRITICAL: " +:+ name +:+ "() usage detected at line " +:+ rest) CRITICAL).
Proof.
  intros Hname _. cbn [comment penalty tagged]. split; [apply prefix_append|].
  left. split; [reflexivity|].
  destruct Hname as [-> | ->]; [left|right]; apply includes_iff.
  - exists "CRITICAL: ", ("() usage detected at line " +:+ rest). reflexivity.
  - exists "CRITICAL: ", (" usage detected at line " +:+ rest). reflexivity.
Qed.

Lemma not_critical_named pen com sev : sev <> CRITICAL -> named_if_critical (tagged pen com sev).
Proof. intros Hsev H. simpl in H. congruence. Qed.

Lemma BrowserSecurity_on_eval_named p st :
  Forall named_if_critical (found st) ->
  Forall named_if_critical (found (BrowserSecurity.on_eval p st)).
Proof.
  intros H. unfold BrowserSecurity.on_eval.
  destruct (bool_decide (type (node p) = "CallExpression")).
  - destruct (child (node p) "callee") as [callee|]; [|exact H].
    match goal with
    | |- Forall _ (found match child callee "property" with Some _ => _ | None => ?s end) =>
        set (st1 := s)
    end.
    assert (H1 : Forall named_if_critical (found st1)).
    { subst st1. destruct (bool_decide (type callee = "Identifier") && _) eqn:Hc; [|exact H].
      apply andb_true_iff in Hc. destruct Hc as [_ Hc].
      apply report_line_good; [exact H|].
      intros l. apply eval_finding_named. apply name_in_dangerous. exact Hc. }
    clearbody st1.
    destruct (child callee "property") as [property|]; [|exact H1].
    destruct (_ && _) eqn:Hc; [|exact H1].
    apply andb_true_iff in Hc. destruct Hc as [_ Hc].
    apply report_line_good; [exact H1|].
    intros l. apply eval_finding_named. apply name_in_dangerous. exact Hc.
  - destruct (bool_decide (type (node p) = "NewExpression")); [|exact H].
    destruct (child (node p) "callee") as [callee|]; [|exact H].
    destruct (_ && _); [|exact H].
    apply report_line_good; [exact H|].
    intros l _. cbn [comment penalty tagged]. split; [reflexivity|].
    left. split; [reflexivity|]. right. apply includes_iff.
    exists "CRITICAL: new ", (" usage detected at line " +:+ JS.toString l +:+
        ". This is equivalent to eval() and allows arbitrary code execution.").
    reflexivity.
Qed.

Lemma BrowserSecurity_on_child_process_named p st :
  Forall named_if_critical (found st) ->
  Forall named_if_critical (found (BrowserSecurity.on_child_process p st)).
Proof.
  intros H. unfold BrowserSecurity.on_child_process. split_cases; try exact H.
  apply report_line_good; [exact H|].
  intros l _. cbn [comment penalty tagged]. split; [reflexivity|].
  right. split; [reflexivity|]. apply includes_iff.
  eexists "CRITICAL: ", _. reflexivity.
Qed.

Lemma BrowserSecurity_on_secret_named p st :
  Forall named_if_critical (found st) ->
  Forall named_if_critical (found (BrowserSecurity.on_secret p st)).
Proof.
  intros H. unfold BrowserSecurity.on_secret.
  split_cases; try exact H;
    (apply report_line_good; [exact H|]; intros l; apply not_critical_named; discriminate).
Qed.

Lemma BrowserSecurity_on_unsanitized_named p st :
  Forall named_if_critical (found st) ->
  Forall named_if_critical (found (BrowserSecurity.on_unsanitized p st)).
Proof.
  intros H. unfold BrowserSecurity.on_unsanitized.
  destruct (bool_decide (type (node p) = "TemplateLiteral")).
  - apply (foldl_invariant (fun st => Forall named_if_critical (found st))); [assumption|].
    intros s a Hs. split_cases; try exact Hs.
    apply report_line_good; [exact Hs|]. intros l; apply not_critical_named; discriminate.
  - split_cases; try exact H.
    apply report_line_good; [exact H|]. intros l; apply not_critical_named; discriminate.
Qed.

(** Every critical finding of the browser detector names its kind. *)
Lemma BrowserSecurity_analyzeSecurity_named ast :
  Forall named_if_critical (BrowserSecurity.analyzeSecurity ast).
Proof.
  unfold BrowserSecurity.analyzeSecurity, BrowserSecurity.checkUnsanitizedInput,
    BrowserSecurity.checkHardcodedSecrets, BrowserSecurity.checkChildProcessUsage,
    BrowserSecurity.checkEvalUsage.
  apply (visit_invariant (fun st => Forall named_if_critical (found st)));
    [|intros; apply BrowserSecurity_on_unsanitized_named; assumption].
  apply (visit_invariant (fun st => Forall named_if_critical (found st)));
    [|intros; apply BrowserSecurity_on_secret_named; assumption].
  apply (visit_invariant (fun st => Forall named_if_critical (found st)));
    [|intros; apply BrowserSecurity_on_child_process_named; assumption].
  apply (visit_invariant (fun st => Forall named_if_critical (found st)));
    [constructor|intros; apply BrowserSecurity_on_eval_named; assumption].
Qed.

Lemma criticalType_of_named i :
  severity i = Some CRITICAL -> named_if_critical i ->
  Verdict.criticalType i ∈ ["eval() usage"; "Function() constructor"; "child_process usage"].
Proof.
  intros Hsev Hnamed. destruct (Hnamed Hsev) as [_ [[_ [H|H]]|[_ H]]];
    unfold Verdict.criticalType.
  - rewrite H. set_solver.
  - destruct (JS.includes (comment i) "eval"); [set_solver|]. rewrite H. set_solver.
  - destruct (JS.includes (comment i) "eval"); [set_solver|].
    destruct (JS.includes (comment i) "Function()"); [set_solver|]. rewrite H. set_solver.
Qed.

(** X13.  Every critical issue of a browser result is a finding of the
    security detector tagged CRITICAL, its comment starts with
    [CRITICAL: ], its penalty is 8 or 6, and the verdict engine names it
    [eval() usage], [Function() constructor] or [child_process usage],
    never by the generic name.  If there is one, the security score is at
    most 19. *)
Theorem Browser_critical_findings_are_of_three_kinds
    parser_parse analyzeReadability analyzeEdgeCases code filename :
  let r := Browser.analyzeCode parser_parse analyzeReadability analyzeEdgeCases code filename in
  Forall (fun i =>
            severity i = Some CRITICAL /\
            i ∈ (match parser_parse code with
                 | Tree ast => BrowserSecurity.analyzeSecurity ast
                 | SyntaxError _ => []
                 end) /\
            JS.startsWith (comment i) "CRITICAL: " = true /\
            (penalty i = 8 \/ penalty i = 6) /\
            Verdict.criticalType i ∈
              ["eval() usage"; "Function() constructor"; "child_process usage"])
         (Browser.criticalIssues r) /\
  (Browser.criticalIssues r <> [] -> score (Browser.security r) <= 19).
Proof.
  intros r. subst r. unfold Browser.analyzeCode, parseCode, parseCode_of.
  destruct (parser_parse code) as [ast|message]; cbn [Browser.criticalIssues Browser.security].
  - pose proof (BrowserSecurity_analyzeSecurity_named ast) as Hnamed.
    rewrite Forall_forall in Hnamed.
    assert (Hall : forall i, i ∈ Browser.extractCriticalIssues (BrowserSecurity.analyzeSecurity ast) ->
              severity i = Some CRITICAL /\ i ∈ BrowserSecurity.analyzeSecurity ast /\
              JS.startsWith (comment i) "CRITICAL: " = true /\
              (penalty i = 8 \/ penalty i = 6) /\
              Verdict.criticalType i ∈
                ["eval() usage"; "Function() constructor"; "child_process usage"]).
    { intros i Hi. apply extractCriticalIssues_elem in Hi. destruct Hi as [Hin Hsev].
      specialize (Hnamed i Hin).
      split; [exact Hsev|]. split; [exact Hin|].
      split; [apply (Hnamed Hsev)|].
      split; [destruct (Hnamed Hsev) as [_ [[H _]|[H _]]]; auto|].
      apply criticalType_of_named; assumption. }
    split; [apply Forall_forall; exact Hall|].
    intros Hne.
    destruct (Browser.extractCriticalIssues (BrowserSecurity.analyzeSecurity ast)) as [|i rest] eqn:Hc;
      [congruence|].
    destruct (Hall i ltac:(left)) as [_ [Hin [_ [Hpen _]]]].
    rewrite aggregateCategory_score. unfold MAX_SCORE.
    assert (Hnonneg : Forall (fun i => 0 <= penalty i) (BrowserSecurity.analyzeSecurity ast)).
    { eapply Forall_impl; [apply BrowserSecurity_analyzeSecurity_tagged|]. intros j [Hj _]. exact Hj. }
    pose proof (penalty_le_sum i _ Hin Hnonneg). lia.
  - split; [constructor|]. congruence.
Qed.

Lemma Browser_critical_findings_are_of_three_kinds_witness :
  score (Browser.security
           (Browser.analyzeCode (fun _ => Tree Samples.eval_call) (fun _ => []) (fun _ => [])
              "eval('1+1')" None)) <= 19.
Proof.
  apply (proj2 (Browser_critical_findings_are_of_three_kinds
                  (fun _ => Tree Samples.eval_call) (fun _ => []) (fun _ => [])
                  "eval('1+1')" None)).
  vm_compute. discriminate.
Defined.

(** ** Batches of the browser engine *)

Lemma analyzeCode_total parser_parse analyzeReadability analyzeEdgeCases code filename :
  let r := Browser.analyzeCode parser_parse analyzeReadability analyzeEdgeCases code filename in
  Browser.totalScore r =
    score (Browser.readability r) + score (Browser.complexity r) +
    score (Browser.edgeCases r) + score (Browser.security r).
Proof. cbv zeta. unfold Browser.analyzeCode. destruct (parseCode _ _); reflexivity. Qed.

(** What [analyzeFiles] puts into [aggregated] for a non-empty list. *)
Lemma analyzeFiles_aggregated parser_parse analyzeReadability analyzeEdgeCases files :
  files <> [] ->
  let results :=
    map (fun file =>
           Browser.analyzeCode parser_parse analyzeReadability analyzeEdgeCases
             (Browser.content file) (Some (Browser.file_name file))) files in
  let n := Z.of_nat (length files) in
  let mean part :=
    JS.Math_round
      (inject_Z (foldr Z.add 0 (map (fun r : Browser.AnalysisResult => score (part r)) results)) /
       inject_Z n) in
  let agg :=
    Browser.aggregated
      (Browser.analyzeFiles parser_parse analyzeReadability analyzeEdgeCases files) in
  Browser.agg_score (Browser.agg_readability agg) = JS.Int (mean Browser.readability) /\
  Browser.agg_score (Browser.agg_complexity agg) = JS.Int (mean Browser.complexity) /\
  Browser.agg_score (Browser.agg_edgeCases agg) = JS.Int (mean Browser.edgeCases) /\
  Browser.agg_score (Browser.agg_security agg) = JS.Int (mean Browser.security) /\
  Browser.agg_totalScore agg =
    JS.Int (mean Browser.readability + mean Browser.complexity +
            mean Browser.edgeCases + mean Browser.security).
Proof.
  intros Hfiles results n mean agg.
  assert (Hn : 0 < n) by (subst n; destruct files; [congruence|simpl; lia]).
  assert (Hlen : Z.of_nat (length results) = n)
    by (subst results n; rewrite length_map; reflexivity).
  subst agg. unfold Browser.analyzeFiles. fold results. rewrite Hlen.
  pose proof (collect_fold results Browser.initial [] 0 0 0 0
                eq_refl eq_refl eq_refl eq_refl) as Hfold.
  cbv zeta in Hfold.
  destruct (foldl Browser.collect _ results) as [sums critical].
  simpl in Hfold. destruct Hfold as [H1 [H2 [H3 [H4 _]]]].
  assert (Hpos : (0 <? n) = true) by (apply Z.ltb_lt; exact Hn).
  assert (Hnz : (n =? 0) = false) by (apply Z.eqb_neq; lia).
  rewrite Hpos. cbn [Browser.aggregated
    Browser.agg_readability Browser.agg_complexity Browser.agg_edgeCases
    Browser.agg_security Browser.agg_totalScore].
  unfold Browser.average. cbn [Browser.agg_score].
  rewrite H1, H2, H3, H4. unfold JS.round_quotient. rewrite Hnz.
  repeat split.
Qed.

(** The files of a batch and its critical issues, file by file. *)
Lemma analyzeFiles_critical parser_parse analyzeReadability analyzeEdgeCases files :
  let b := Browser.analyzeFiles parser_parse analyzeReadability analyzeEdgeCases files in
  Browser.files b =
    map (fun file =>
           Browser.analyzeCode parser_parse analyzeReadability analyzeEdgeCases
             (Browser.content file) (Some (Browser.file_name file))) files /\
  Browser.allCriticalIssues b =
    flat_map (fun r => map (Browser.with_filename (Browser.filename r))
                           (Browser.criticalIssues r)) (Browser.files b).
Proof.
  cbv zeta. unfold Browser.analyzeFiles.
  set (results := map _ files).
  pose proof (collect_fold results Browser.initial [] 0 0 0 0
                eq_refl eq_refl eq_refl eq_refl) as Hfold.
  cbv zeta in Hfold.
  destruct (foldl Browser.collect _ results) as [sums critical].
  simpl in Hfold. destruct Hfold as [_ [_ [_ [_ [_ H5]]]]].
  cbn [Browser.files Browser.allCriticalIssues]. split; [reflexivity|exact H5].
Qed.

(** The scores of an aggregate are integers, so [analyzeMultipleFiles]
    has its result. *)
Lemma analyzeMultipleFiles_defined
    parser_parse analyzeReadability analyzeEdgeCases generateProofHash files :
  exists t r c e s,
    Engine.integer_scores
      (Browser.aggregated
         (Browser.analyzeFiles parser_parse analyzeReadability analyzeEdgeCases files)) =
      Some (t, Verdict.mkAggregated (Some r) (Some c) (Some e) (Some s)) /\
    Engine.analyzeMultipleFiles parser_parse analyzeReadability analyzeEdgeCases
      generateProofHash files =
    let result := Browser.analyzeFiles parser_parse analyzeReadability analyzeEdgeCases files in
    let verdictResult :=
      Verdict.determineVerdict
        (Verdict.mkInput t (Some (Browser.allCriticalIssues result))
           (Some (Verdict.mkAggregated (Some r) (Some c) (Some e) (Some s)))) in
    Some (Engine.mkBatchResult (Browser.files result) (Browser.aggregated result) t
            (Browser.allCriticalIssues result)
            (Verdict.verdict verdictResult) (Verdict.explanation verdictResult)
            (Verdict.overrideReason verdictResult) (Verdict.details verdictResult)
            (generateProofHash (Engine.combinedContent files))
            (Z.of_nat (length files)) "browser-only").
Proof.
  destruct (aggregated_scores_are_integers parser_parse analyzeReadability analyzeEdgeCases files)
    as [r [c [e [s [t [Hr [Hc [He [Hs Ht]]]]]]]]].
  exists t, r, c, e, s.
  unfold Engine.analyzeMultipleFiles, Engine.integer_scores.
  rewrite Hr, Hc, He, Hs, Ht. split; reflexivity.
Qed.

(** X14.  [analyzeMultipleFiles] always gives a result: the files analysed
    in order under their own names, their number, and the total of the
    aggregate.  When some file has a critical issue the verdict is
    BLOCK_MERGE, with a reason and the number of critical issues of all
    files; when none has, it is the score-based verdict of the averaged
    total, with no reason. *)
Theorem Engine_batch_is_blocked_by_any_critical_finding
    parser_parse analyzeReadability analyzeEdgeCases generateProofHash
    (files : list Browser.File) :
  exists b,
    Engine.analyzeMultipleFiles parser_parse analyzeReadability analyzeEdgeCases
      generateProofHash files = Some b /\
    Engine.files b =
      map (fun file =>
             Browser.analyzeCode parser_parse analyzeReadability analyzeEdgeCases
               (Browser.content file) (Some (Browser.file_name file))) files /\
    Engine.fileCount b = Z.of_nat (length files) /\
    Browser.agg_totalScore (Engine.aggregated b) = JS.Int (Engine.totalScore b) /\
    Verdict.scoreBasedVerdict (Engine.batch_verdictDetails b) =
      Verdict.getScoreBasedVerdict (Engine.totalScore b) /\
    ((exists r, r ∈ Engine.files b /\ Browser.criticalIssues r <> []) ->
     Engine.batch_verdict b = Verdict.BLOCK_MERGE /\
     is_Some (Engine.batch_verdictOverrideReason b) /\
     Verdict.criticalIssueCount (Engine.batch_verdictDetails b) =
       Some (foldr Z.add 0
               (map (fun r => Z.of_nat (length (Browser.criticalIssues r))) (Engine.files b)))) /\
    ((forall r, r ∈ Engine.files b -> Browser.criticalIssues r = []) ->
     Engine.batch_verdict b = Verdict.getScoreBasedVerdict (Engine.totalScore b) /\
     Engine.batch_verdictOverrideReason b = None).
Proof.
  destruct (analyzeMultipleFiles_defined parser_parse analyzeReadability analyzeEdgeCases
              generateProofHash files) as [t [r [c [e [s [Hint ->]]]]]].
  eexists. split; [reflexivity|].
  destruct (analyzeFiles_critical parser_parse analyzeReadability analyzeEdgeCases files)
    as [Hfiles Hcrit].
  cbv zeta in Hfiles, Hcrit.
  cbn [Engine.files Engine.fileCount Engine.aggregated Engine.totalScore
       Engine.batch_verdict Engine.batch_verdictOverrideReason Engine.batch_verdictDetails].
  split; [exact Hfiles|]. split; [reflexivity|]. split.
  { unfold Engine.integer_scores in Hint.
    destruct (Browser.agg_totalScore _); [|discriminate].
    repeat case_match; try discriminate. congruence. }
  rewrite Hcrit. set (results := Browser.files _).
  assert (Hlen : length (flat_map (fun r => map (Browser.with_filename (Browser.filename r))
                                                 (Browser.criticalIssues r)) results) =
                 Z.to_nat (foldr Z.add 0
                   (map (fun r => Z.of_nat (length (Browser.criticalIssues r))) results)) /\
                 0 <= foldr Z.add 0
                   (map (fun r => Z.of_nat (length (Browser.criticalIssues r))) results)).
  { induction results as [|x xs IH]; [split; [reflexivity|simpl; lia]|].
    simpl. rewrite length_app, length_map. destruct IH as [IH1 IH2]. rewrite IH1. lia. }
  destruct Hlen as [Hlen Hnonneg].
  unfold Verdict.determineVerdict. cbn [Verdict.criticalIssues Verdict.totalScore].
  split; [destruct (0 <? _)%nat; reflexivity|]. split.
  - intros [x [Hx Hne]].
    assert (Hpos : (0 <? length (flat_map (fun r => map (Browser.with_filename (Browser.filename r))
                                                 (Browser.criticalIssues r)) results))%nat = true).
    { apply Nat.ltb_lt.
      apply list_elem_of_split in Hx. destruct Hx as [l1 [l2 ->]].
      rewrite flat_map_app. simpl. rewrite !length_app, length_map.
      destruct (Browser.criticalIssues x); [congruence|simpl; lia]. }
    rewrite Hpos. cbn [Verdict.verdict Verdict.overrideReason Verdict.details
                       Verdict.criticalIssueCount].
    split; [reflexivity|]. split; [eauto|]. rewrite Hlen. f_equal. lia.
  - intros Hnone.
    assert (Hzero : flat_map (fun r => map (Browser.with_filename (Browser.filename r))
                                           (Browser.criticalIssues r)) results = []).
    { clear Hlen Hnonneg. induction results as [|x xs IH]; [reflexivity|].
      simpl. rewrite (Hnone x) by left. simpl. apply IH.
      intros y Hy. apply Hnone. right. exact Hy. }
    rewrite Hzero. cbn [length Nat.ltb Nat.leb Verdict.verdict Verdict.overrideReason].
    split; reflexivity.
Qed.

Lemma Engine_batch_is_blocked_by_any_critical_finding_witness :
  exists b,
    Engine.analyzeMultipleFiles
      (fun code => if bool_decide (code = "eval('1+1')") then Tree Samples.eval_call
                   else Tree Samples.twenty_one)
      (fun _ => []) (fun _ => []) (fun _ => EmptyString)
      [Browser.mkFile "a.js" "eval('1+1')"; Browser.mkFile "b.js" "function busy"] = Some b /\
    Engine.batch_verdict b = Verdict.BLOCK_MERGE.
Proof.
  destruct (Engine_batch_is_blocked_by_any_critical_finding
              (fun code => if bool_decide (code = "eval('1+1')") then Tree Samples.eval_call
                           else Tree Samples.twenty_one)
              (fun _ => []) (fun _ => []) (fun _ => EmptyString)
              [Browser.mkFile "a.js" "eval('1+1')"; Browser.mkFile "b.js" "function busy"])
    as [b [Hb [Hfiles [_ [_ [_ [Hcritical _]]]]]]].
  exists b. split; [exact Hb|].
  apply Hcritical. rewrite Hfiles. eexists. split; [left|].
  vm_compute. discriminate.
Defined.

(** The mean of one integer is that integer. *)
Lemma Math_round_unit a : JS.Math_round (inject_Z a / inject_Z 1) = a.
Proof.
  rewrite Math_round_quotient by lia.
  replace (2 * a + 1) with (1 + a * 2) by lia.
  rewrite Z.div_add by lia. reflexivity.
Qed.

(** X15.  A batch of one file agrees with [analyzeSingleFile] on that file:
    the same result for the file, the same four scores and total, the
    same verdict, explanation and override reason; the critical issues
    are the same with the file name attached. *)
Theorem Engine_one_file_batch_agrees_with_single_file
    parser_parse analyzeReadability analyzeEdgeCases generateProofHash (f : Browser.File) :
  let single :=
    Engine.analyzeSingleFile parser_parse analyzeReadability analyzeEdgeCases generateProofHash
      (Browser.content f) (Some (Browser.file_name f)) in
  let result := Engine.analysis single in
  exists b,
    Engine.analyzeMultipleFiles parser_parse analyzeReadability analyzeEdgeCases
      generateProofHash [f] = Some b /\
    Engine.files b = [result] /\
    Browser.agg_score (Browser.agg_readability (Engine.aggregated b)) =
      JS.Int (score (Browser.readability result)) /\
    Browser.agg_score (Browser.agg_complexity (Engine.aggregated b)) =
      JS.Int (score (Browser.complexity result)) /\
    Browser.agg_score (Browser.agg_edgeCases (Engine.aggregated b)) =
      JS.Int (score (Browser.edgeCases result)) /\
    Browser.agg_score (Browser.agg_security (Engine.aggregated b)) =
      JS.Int (score (Browser.security result)) /\
    Engine.totalScore b = Browser.totalScore result /\
    Engine.criticalIssues b =
      map (Browser.with_filename (Browser.file_name f)) (Browser.criticalIssues result) /\
    Engine.batch_verdict b = Engine.verdict single /\
    Engine.batch_verdictExplanation b = Engine.verdictExplanation single /\
    Engine.batch_verdictOverrideReason b = Engine.verdictOverrideReason single.
Proof.
  intros single result. subst result single. unfold Engine.analyzeSingleFile.
  cbn [Engine.analysis Engine.verdict Engine.verdictExplanation Engine.verdictOverrideReason].
  destruct (analyzeMultipleFiles_defined parser_parse analyzeReadability analyzeEdgeCases
              generateProofHash [f]) as [t [r [c [e [s [Hint ->]]]]]].
  eexists. split; [reflexivity|].
  destruct (analyzeFiles_critical parser_parse analyzeReadability analyzeEdgeCases [f])
    as [Hfiles Hcrit].
  destruct (analyzeFiles_aggregated parser_parse analyzeReadability analyzeEdgeCases [f]
              ltac:(discriminate)) as [Hr [Hc [He [Hs Ht]]]].
  cbv zeta in Hfiles, Hcrit, Hr, Hc, He, Hs, Ht.
  cbn [map foldr length] in Hfiles, Hr, Hc, He, Hs, Ht.
  change (Z.of_nat 1) with 1 in *.
  rewrite !Z.add_0_r, !Math_round_unit in *.
  set (result := Browser.analyzeCode parser_parse analyzeReadability analyzeEdgeCases
                   (Browser.content f) (Some (Browser.file_name f))) in *.
  cbn [Engine.files Engine.aggregated Engine.totalScore Engine.criticalIssues
       Engine.batch_verdict Engine.batch_verdictExplanation Engine.batch_verdictOverrideReason].
  unfold Engine.integer_scores in Hint. rewrite Hr, Hc, He, Hs, Ht in Hint.
  injection Hint as <- <- <- <- <-.
  rewrite Hcrit, Hfiles. cbn [flat_map]. rewrite app_nil_r.
  assert (Hname : Browser.filename result = Browser.file_name f).
  { apply analyzeCode_filename. }
  rewrite Hname.
  assert (Htotal : score (Browser.readability result) + score (Browser.complexity result) +
                   score (Browser.edgeCases result) + score (Browser.security result) =
                   Browser.totalScore result).
  { symmetry. apply analyzeCode_total. }
  rewrite Htotal.
  repeat (split; [first [reflexivity|assumption]|]).
  unfold Verdict.determineVerdict, Engine.scores_of.
  cbn [Verdict.criticalIssues Verdict.totalScore Verdict.aggregated].
  rewrite length_map.
  destruct (0 <? length (Browser.criticalIssues result))%nat;
    cbn [Verdict.verdict Verdict.explanation Verdict.overrideReason].
  - rewrite map_map. repeat split.
  - repeat split.
Qed.

(** The loop of [analyzeFiles] appends the tagged comments of each
    result, category by category. *)
Lemma collect_comments results agg critical :
  let tagged part :=
    flat_map (fun r : Browser.AnalysisResult => map (file_tag r) (comments (part r))) results in
  let st := foldl Browser.collect (agg, critical) results in
  Browser.agg_comments (Browser.agg_readability st.1) =
    Browser.agg_comments (Browser.agg_readability agg) ++ tagged Browser.readability /\
  Browser.agg_comments (Browser.agg_complexity st.1) =
    Browser.agg_comments (Browser.agg_complexity agg) ++ tagged Browser.complexity /\
  Browser.agg_comments (Browser.agg_edgeCases st.1) =
    Browser.agg_comments (Browser.agg_edgeCases agg) ++ tagged Browser.edgeCases /\
  Browser.agg_comments (Browser.agg_security st.1) =
    Browser.agg_comments (Browser.agg_security agg) ++ tagged Browser.security.
Proof.
  cbv zeta. revert agg critical.
  induction results as [|x results IH]; intros agg critical.
  - simpl. rewrite !app_nil_r. repeat split.
  - cbn [foldl flat_map].
    destruct (Browser.collect (agg, critical) x) as [agg' critical'] eqn:Hstep.
    unfold Browser.collect in Hstep. injection Hstep as Hagg Hcritical.
    destruct (IH agg' critical') as [H1 [H2 [H3 H4]]].
    rewrite H1, H2, H3, H4. subst agg'. simpl. rewrite <- !app_assoc.
    repeat split.
Qed.

(** X16.  In a batch the comments of each aggregated category are the
    comments of the files, in the order of the files, each behind the
    name of its file in brackets; the critical issues carry the name of
    their file, in that order too, and the results carry the names of the
    files. *)
Theorem Browser_batch_comments_carry_the_file_name
    parser_parse analyzeReadability analyzeEdgeCases (files : list Browser.File) :
  let b := Browser.analyzeFiles parser_parse analyzeReadability analyzeEdgeCases files in
  let agg := Browser.aggregated b in
  let tagged part :=
    flat_map (fun r : Browser.AnalysisResult =>
                map (fun c => "[" +:+ Browser.filename r +:+ "] " +:+ c) (comments (part r)))
             (Browser.files b) in
  Browser.agg_comments (Browser.agg_readability agg) = tagged Browser.readability /\
  Browser.agg_comments (Browser.agg_complexity agg) = tagged Browser.complexity /\
  Browser.agg_comments (Browser.agg_edgeCases agg) = tagged Browser.edgeCases /\
  Browser.agg_comments (Browser.agg_security agg) = tagged Browser.security /\
  map issue_filename (Browser.allCriticalIssues b) =
    flat_map (fun r : Browser.AnalysisResult =>
                map (fun _ => Some (Browser.filename r)) (Browser.criticalIssues r))
             (Browser.files b) /\
  map Browser.filename (Browser.files b) = map Browser.file_name files.
Proof.
  intros b agg tagged.
  destruct (analyzeFiles_critical parser_parse analyzeReadability analyzeEdgeCases files)
    as [Hfiles Hcrit].
  fold b in Hfiles, Hcrit.
  assert (Hcomments :
    Browser.agg_comments (Browser.agg_readability agg) = tagged Browser.readability /\
    Browser.agg_comments (Browser.agg_complexity agg) = tagged Browser.complexity /\
    Browser.agg_comments (Browser.agg_edgeCases agg) = tagged Browser.edgeCases /\
    Browser.agg_comments (Browser.agg_security agg) = tagged Browser.security).
  { subst tagged agg. rewrite Hfiles. subst b. unfold Browser.analyzeFiles.
    set (results := map _ files).
    pose proof (collect_comments results Browser.initial []) as Hfold.
    cbv zeta in Hfold.
    destruct (foldl Browser.collect _ results) as [sums critical].
    simpl in Hfold. unfold file_tag in Hfold.
    destruct (0 <? _); cbn [Browser.aggregated Browser.agg_readability Browser.agg_complexity
      Browser.agg_edgeCases Browser.agg_security Browser.average Browser.agg_comments];
      exact Hfold. }
  destruct Hcomments as [H1 [H2 [H3 H4]]].
  repeat (split; [assumption|]). split.
  - rewrite Hcrit. generalize (Browser.files b). intros results.
    induction results as [|x xs IH]; [reflexivity|].
    simpl. rewrite map_app, map_map, IH. reflexivity.
  - rewrite Hfiles, map_map. apply map_ext. intros f. apply analyzeCode_filename.
Qed.

Lemma aggregateCategory_range issues :
  0 <= score (aggregateCategory MAX_SCORE issues) /\
  (Forall (fun i => 0 <= penalty i) issues -> score (aggregateCategory MAX_SCORE issues) <= 25).
Proof.
  rewrite aggregateCategory_score. unfold MAX_SCORE. split; [lia|].
  intros H. pose proof (sum_penalties_nonneg issues H). lia.
Qed.

(** A sum of values within bounds is within the bounds times their
    number. *)
Lemma sum_range {A} (f : A -> Z) (l : list A) lo hi :
  Forall (fun x => lo <= f x <= hi) l ->
  lo * Z.of_nat (length l) <= foldr Z.add 0 (map f l) <= hi * Z.of_nat (length l).
Proof.
  induction 1 as [|x l Hx Hl IH]; [simpl; lia|].
  cbn [map foldr length]. rewrite Nat2Z.inj_succ. lia.
Qed.

Lemma sum_lower {A} (f : A -> Z) (l : list A) :
  Forall (fun x => 0 <= f x) l -> 0 <= foldr Z.add 0 (map f l).
Proof. induction 1 as [|x l Hx Hl IH]; simpl; lia. Qed.

(** The ranges of the four scores of a browser result; the two
    detectors that are parameters only give a score that is not negative. *)
Lemma analyzeCode_ranges parser_parse analyzeReadability analyzeEdgeCases code filename :
  let r := Browser.analyzeCode parser_parse analyzeReadability analyzeEdgeCases code filename in
  0 <= score (Browser.readability r) /\
  0 <= score (Browser.complexity r) <= 25 /\
  0 <= score (Browser.edgeCases r) /\
  0 <= score (Browser.security r) <= 25.
Proof.
  cbv zeta. unfold Browser.analyzeCode.
  destruct (parseCode parser_parse code) as [ast|error];
    cbn [Browser.readability Browser.complexity Browser.edgeCases Browser.security].
  - pose proof (aggregateCategory_range (analyzeReadability ast)) as [H1 _].
    pose proof (aggregateCategory_range (analyzeEdgeCases ast)) as [H3 _].
    pose proof (aggregateCategory_bounds _ (Complexity_analyzeComplexity_plain ast)) as H2.
    pose proof (aggregateCategory_range (BrowserSecurity.analyzeSecurity ast)) as [H4 H5].
    assert (Hnonneg : Forall (fun i => 0 <= penalty i) (BrowserSecurity.analyzeSecurity ast)).
    { eapply Forall_impl; [apply BrowserSecurity_analyzeSecurity_tagged|]. intros j [Hj _]. exact Hj. }
    specialize (H5 Hnonneg). lia.
  - simpl. lia.
Qed.

(** X17.  For a batch that is not empty the aggregated scores are integers:
    complexity and security within 0..25, readability and edge cases not
    negative, the total their sum; and the total is within 2 of the mean
    of the totals of the files. *)
Theorem Browser_batch_scores_stay_in_range
    parser_parse analyzeReadability analyzeEdgeCases (files : list Browser.File) :
  files <> [] ->
  let b := Browser.analyzeFiles parser_parse analyzeReadability analyzeEdgeCases files in
  let agg := Browser.aggregated b in
  let n := Z.of_nat (length files) in
  let totals := foldr Z.add 0 (map Browser.totalScore (Browser.files b)) in
  exists r c e s t,
    Browser.agg_score (Browser.agg_readability agg) = JS.Int r /\
    Browser.agg_score (Browser.agg_complexity agg) = JS.Int c /\
    Browser.agg_score (Browser.agg_edgeCases agg) = JS.Int e /\
    Browser.agg_score (Browser.agg_security agg) = JS.Int s /\
    Browser.agg_totalScore agg = JS.Int t /\
    0 <= r /\ 0 <= c <= 25 /\ 0 <= e /\ 0 <= s <= 25 /\
    t = r + c + e + s /\
    n * t - 2 * n <= totals < n * t + 2 * n.
Proof.
  intros Hfiles b agg n totals.
  destruct (analyzeFiles_aggregated parser_parse analyzeReadability analyzeEdgeCases files Hfiles)
    as [Hr [Hc [He [Hs Ht]]]].
  cbv zeta in Hr, Hc, He, Hs, Ht. fold b agg n in Hr, Hc, He, Hs, Ht.
  destruct (analyzeFiles_critical parser_parse analyzeReadability analyzeEdgeCases files)
    as [Hres _]. fold b in Hres.
  set (results := map _ files) in *.
  assert (Hn : 0 < n) by (subst n; destruct files; [congruence|simpl; lia]).
  assert (Hlen : Z.of_nat (length results) = n)
    by (subst results n; rewrite length_map; reflexivity).
  assert (Hall : Forall (fun r : Browser.AnalysisResult =>
            (0 <= score (Browser.readability r)) /\
            0 <= score (Browser.complexity r) <= 25 /\
            (0 <= score (Browser.edgeCases r)) /\
            0 <= score (Browser.security r) <= 25 /\
            Browser.totalScore r =
              score (Browser.readability r) + score (Browser.complexity r) +
              score (Browser.edgeCases r) + score (Browser.security r)) results).
  { subst results. apply Forall_map, Forall_forall. intros f _.
    pose proof (analyzeCode_ranges parser_parse analyzeReadability analyzeEdgeCases
                  (Browser.content f) (Some (Browser.file_name f))) as H.
    pose proof (analyzeCode_total parser_parse analyzeReadability analyzeEdgeCases
                  (Browser.content f) (Some (Browser.file_name f))) as H'.
    cbv zeta in H, H'. cbv beta. tauto. }
  set (Sr := foldr Z.add 0 (map (fun r : Browser.AnalysisResult => score (Browser.readability r)) results)) in *.
  set (Sc := foldr Z.add 0 (map (fun r : Browser.AnalysisResult => score (Browser.complexity r)) results)) in *.
  set (Se := foldr Z.add 0 (map (fun r : Browser.AnalysisResult => score (Browser.edgeCases r)) results)) in *.
  set (Ss := foldr Z.add 0 (map (fun r : Browser.AnalysisResult => score (Browser.security r)) results)) in *.
  assert (Hsr : 0 <= Sr).
  { apply sum_lower. eapply Forall_impl; [exact Hall|]. cbv beta. tauto. }
  assert (Hse : 0 <= Se).
  { apply sum_lower. eapply Forall_impl; [exact Hall|]. cbv beta. tauto. }
  assert (Hsc : 0 * Z.of_nat (length results) <= Sc <= 25 * Z.of_nat (length results)).
  { apply sum_range. eapply Forall_impl; [exact Hall|]. cbv beta. tauto. }
  assert (Hss : 0 * Z.of_nat (length results) <= Ss <= 25 * Z.of_nat (length results)).
  { apply sum_range. eapply Forall_impl; [exact Hall|]. cbv beta. tauto. }
  rewrite Hlen in Hsc, Hss.
  assert (Htotals : totals = Sr + Sc + Se + Ss).
  { subst totals Sr Sc Se Ss. rewrite Hres. clear -Hall.
    induction Hall as [|x l Hx Hl IH]; [reflexivity|].
    cbn [map foldr]. rewrite IH. destruct Hx as [_ [_ [_ [_ ->]]]]. lia. }
  pose proof (Math_round_quotient_nearest Sr n Hn) as Nr.
  pose proof (Math_round_quotient_nearest Sc n Hn) as Nc.
  pose proof (Math_round_quotient_nearest Se n Hn) as Ne.
  pose proof (Math_round_quotient_nearest Ss n Hn) as Ns.
  cbv zeta in Nr, Nc, Ne, Ns.
  set (mr := JS.Math_round (inject_Z Sr / inject_Z n)) in *.
  set (mc := JS.Math_round (inject_Z Sc / inject_Z n)) in *.
  set (me := JS.Math_round (inject_Z Se / inject_Z n)) in *.
  set (ms := JS.Math_round (inject_Z Ss / inject_Z n)) in *.
  exists mr, mc, me, ms, (mr + mc + me + ms).
  split; [exact Hr|]. split; [exact Hc|]. split; [exact He|]. split; [exact Hs|].
  split; [exact Ht|].
  clearbody mr mc me ms Sr Sc Se Ss. rewrite Htotals.
  repeat split; nia.
Qed.

Lemma Browser_batch_scores_stay_in_range_witness :
  exists t,
    Browser.agg_totalScore
      (Browser.aggregated
         (Browser.analyzeFiles (fun _ => Tree Samples.eval_call) (fun _ => []) (fun _ => [])
            [Browser.mkFile "a.js" "eval('1+1')"; Browser.mkFile "b.js" "eval('1+1')"])) =
    JS.Int t /\ 0 <= t.
Proof.
  destruct (Browser_batch_scores_stay_in_range
              (fun _ => Tree Samples.eval_call) (fun _ => []) (fun _ => [])
              [Browser.mkFile "a.js" "eval('1+1')"; Browser.mkFile "b.js" "eval('1+1')"])
    as (r & c & e & s & t & _ & _ & _ & _ & Ht & Hr & Hc & He & Hs & Hsum & _).
  - discriminate.
  - exists t. split; [exact Ht|]. lia.
Defined.

(** ** The metrics of a tree *)

Lemma visit_snoc {S : Type} (handler : Path -> S -> S) paths p init :
  visit handler (paths ++ [p]) init = handler p (visit handler paths init).
Proof. unfold visit. rewrite foldl_app. reflexivity. Qed.

Lemma calculateFunctionComplexity_positive p : 1 <= Complexity.calculateFunctionComplexity p.
Proof.
  unfold Complexity.calculateFunctionComplexity.
  apply (visit_invariant (fun c => 1 <= c)); [lia|].
  intros q c Hc. destruct (Complexity.branches q); lia.
Qed.

Lemma calculateGlobalComplexity_positive ast : 1 <= Complexity.calculateGlobalComplexity ast.
Proof.
  unfold Complexity.calculateGlobalComplexity.
  apply (visit_invariant (fun c => 1 <= c)); [lia|].
  intros q c Hc. destruct (Complexity.branches_global q); lia.
Qed.

Lemma block_is_no_function t : t = "BlockStatement" -> is_function_type t = false.
Proof. intros ->. reflexivity. Qed.

(** The invariant of the visitor of [extractMetrics]. *)
Lemma metrics_of_visit paths :
  metrics_of paths (visit Metrics.on_node paths (Metrics.mkMetrics 0 0 0 0)).
Proof.
  induction paths as [|q paths IH] using rev_ind.
  - constructor; simpl; try (split; [lia|]); try (intros p Hp; inversion Hp); auto.
  - rewrite visit_snoc. set (m := visit Metrics.on_node paths _) in *.
    destruct IH as [Hcount [Hn0 Hnest] Hnatt Hcc Hcatt [Hl0 Hlen] Hlatt].
    unfold Metrics.on_node, Metrics.calculateNestingDepth.
    destruct (bool_decide (type (node q) = "BlockStatement")) eqn:Hblock.
    + apply bool_decide_eq_true in Hblock.
      pose proof (block_is_no_function _ Hblock) as Hnf.
      assert (Hfilter : List.filter (fun p => is_function_type (type (node p))) (paths ++ [q]) =
                        List.filter (fun p => is_function_type (type (node p))) paths).
      { rewrite List.filter_app. simpl. rewrite Hnf. apply app_nil_r. }
      destruct (Metrics.maxNestingDepth m <? nestingDepth q) eqn:Hdeeper.
      * apply Z.ltb_lt in Hdeeper. constructor; cbn [Metrics.totalFunctions
          Metrics.maxNestingDepth Metrics.maxCyclomaticComplexity Metrics.maxFunctionLength].
        -- rewrite Hfilter. exact Hcount.
        -- split; [lia|]. intros p Hp Hb. apply elem_of_app in Hp. destruct Hp as [Hp|Hp].
           ++ specialize (Hnest p Hp Hb). lia.
           ++ apply list_elem_of_singleton in Hp. subst p. lia.
        -- right. exists q. split; [apply elem_of_app; right; left|]. split; [exact Hblock|reflexivity].
        -- intros p Hp Hf. apply elem_of_app in Hp. destruct Hp as [Hp|Hp]; [auto|].
           apply list_elem_of_singleton in Hp. subst p. congruence.
        -- destruct Hcatt as [Hz|[p [Hp [Hf He]]]]; [left; exact Hz|].
           right. exists p. split; [apply elem_of_app; left; exact Hp|]. split; assumption.
        -- split; [exact Hl0|]. intros p Hp Hf. apply elem_of_app in Hp. destruct Hp as [Hp|Hp]; [auto|].
           apply list_elem_of_singleton in Hp. subst p. congruence.
        -- destruct Hlatt as [Hz|[p [Hp [Hf He]]]]; [left; exact Hz|].
           right. exists p. split; [apply elem_of_app; left; exact Hp|]. split; assumption.
      * apply Z.ltb_ge in Hdeeper. constructor.
        -- rewrite Hfilter. exact Hcount.
        -- split; [exact Hn0|]. intros p Hp Hb. apply elem_of_app in Hp. destruct Hp as [Hp|Hp]; [auto|].
           apply list_elem_of_singleton in Hp. subst p. lia.
        -- destruct Hnatt as [Hz|[p [Hp [Hb He]]]]; [left; exact Hz|].
           right. exists p. split; [apply elem_of_app; left; exact Hp|]. split; assumption.
        -- intros p Hp Hf. apply elem_of_app in Hp. destruct Hp as [Hp|Hp]; [auto|].
           apply list_elem_of_singleton in Hp. subst p. congruence.
        -- destruct Hcatt as [Hz|[p [Hp [Hf He]]]]; [left; exact Hz|].
           right. exists p. split; [apply elem_of_app; left; exact Hp|]. split; assumption.
        -- split; [exact Hl0|]. intros p Hp Hf. apply elem_of_app in Hp. destruct Hp as [Hp|Hp]; [auto|].
           apply list_elem_of_singleton in Hp. subst p. congruence.
        -- destruct Hlatt as [Hz|[p [Hp [Hf He]]]]; [left; exact Hz|].
           right. exists p. split; [apply elem_of_app; left; exact Hp|]. split; assumption.
    + apply bool_decide_eq_false in Hblock.
      destruct (is_function_type (type (node q))) eqn:Hfun.
      * assert (Hfilter : List.filter (fun p => is_function_type (type (node p))) (paths ++ [q]) =
                          List.filter (fun p => is_function_type (type (node p))) paths ++ [q]).
        { rewrite List.filter_app. simpl. rewrite Hfun. reflexivity. }
        pose proof (calculateFunctionComplexity_positive q) as Hpos.
        constructor; cbn [Metrics.totalFunctions
          Metrics.maxNestingDepth Metrics.maxCyclomaticComplexity Metrics.maxFunctionLength].
        -- rewrite Hfilter, length_app, Hcount. simpl. lia.
        -- split; [exact Hn0|]. intros p Hp Hb. apply elem_of_app in Hp. destruct Hp as [Hp|Hp]; [auto|].
           apply list_elem_of_singleton in Hp. subst p. congruence.
        -- destruct Hnatt as [Hz|[p [Hp [Hb He]]]]; [left; exact Hz|].
           right. exists p. split; [apply elem_of_app; left; exact Hp|]. split; assumption.
        -- intros p Hp Hf. apply elem_of_app in Hp.
           destruct (Metrics.maxCyclomaticComplexity m <? _) eqn:Hmore;
             rewrite ?Z.ltb_lt, ?Z.ltb_ge in Hmore;
             (destruct Hp as [Hp|Hp];
              [specialize (Hcc p Hp Hf); lia
              |apply list_elem_of_singleton in Hp; subst p; lia]).
        -- right. destruct (Metrics.maxCyclomaticComplexity m <? _) eqn:Hmore;
             rewrite ?Z.ltb_lt, ?Z.ltb_ge in Hmore.
           ++ exists q. split; [apply elem_of_app; right; left|]. split; [exact Hfun|reflexivity].
           ++ destruct Hcatt as [[_ Hz]|[p [Hp [Hf He]]]]; [lia|].
              exists p. split; [apply elem_of_app; left; exact Hp|]. split; assumption.
        -- unfold function_lines in *. split.
           ++ destruct (loc (node q)) as [l|]; [|exact Hl0].
              destruct (Metrics.maxFunctionLength m <? _) eqn:Hmore;
                rewrite ?Z.ltb_lt, ?Z.ltb_ge in Hmore; lia.
           ++ intros p Hp Hf. apply elem_of_app in Hp. destruct Hp as [Hp|Hp].
              ** specialize (Hlen p Hp Hf).
                 destruct (loc (node q)) as [l|]; [|exact Hlen].
                 destruct (Metrics.maxFunctionLength m <? _) eqn:Hmore;
                   rewrite ?Z.ltb_lt, ?Z.ltb_ge in Hmore; lia.
              ** apply list_elem_of_singleton in Hp. subst p.
                 destruct (loc (node q)) as [l|]; [|exact Hl0].
                 destruct (Metrics.maxFunctionLength m <? _) eqn:Hmore;
                   rewrite ?Z.ltb_lt, ?Z.ltb_ge in Hmore; lia.
        -- unfold function_lines in *.
           destruct (loc (node q)) as [l|] eqn:Hloc.
           ++ destruct (Metrics.maxFunctionLength m <? _) eqn:Hmore;
                rewrite ?Z.ltb_lt, ?Z.ltb_ge in Hmore.
              ** right. exists q. split; [apply elem_of_app; right; left|].
                 split; [exact Hfun|]. rewrite Hloc. reflexivity.
              ** destruct Hlatt as [Hz|[p [Hp [Hf He]]]]; [left; exact Hz|].
                 right. exists p. split; [apply elem_of_app; left; exact Hp|]. split; assumption.
           ++ destruct Hlatt as [Hz|[p [Hp [Hf He]]]]; [left; exact Hz|].
              right. exists p. split; [apply elem_of_app; left; exact Hp|]. split; assumption.
      * assert (Hfilter : List.filter (fun p => is_function_type (type (node p))) (paths ++ [q]) =
                          List.filter (fun p => is_function_type (type (node p))) paths).
        { rewrite List.filter_app. simpl. rewrite Hfun. apply app_nil_r. }
        constructor.
        -- rewrite Hfilter. exact Hcount.
        -- split; [exact Hn0|]. intros p Hp Hb. apply elem_of_app in Hp. destruct Hp as [Hp|Hp]; [auto|].
           apply list_elem_of_singleton in Hp. subst p. congruence.
        -- destruct Hnatt as [Hz|[p [Hp [Hb He]]]]; [left; exact Hz|].
           right. exists p. split; [apply elem_of_app; left; exact Hp|]. split; assumption.
        -- intros p Hp Hf. apply elem_of_app in Hp. destruct Hp as [Hp|Hp]; [auto|].
           apply list_elem_of_singleton in Hp. subst p. congruence.
        -- destruct Hcatt as [Hz|[p [Hp [Hf He]]]]; [left; exact Hz|].
           right. exists p. split; [apply elem_of_app; left; exact Hp|]. split; assumption.
        -- split; [exact Hl0|]. intros p Hp Hf. apply elem_of_app in Hp. destruct Hp as [Hp|Hp]; [auto|].
           apply list_elem_of_singleton in Hp. subst p. congruence.
        -- destruct Hlatt as [Hz|[p [Hp [Hf He]]]]; [left; exact Hz|].
           right. exists p. split; [apply elem_of_app; left; exact Hp|]. split; assumption.
Qed.

(** [extractMetrics] in terms of its visitor. *)
Lemma extractMetrics_of_visit ast :
  let m := visit Metrics.on_node (traverse_paths ast) (Metrics.mkMetrics 0 0 0 0) in
  Metrics.maxNestingDepth (Metrics.extractMetrics ast) = Metrics.maxNestingDepth m /\
  Metrics.maxFunctionLength (Metrics.extractMetrics ast) = Metrics.maxFunctionLength m /\
  Metrics.totalFunctions (Metrics.extractMetrics ast) = Metrics.totalFunctions m /\
  Metrics.maxCyclomaticComplexity (Metrics.extractMetrics ast) =
    if Metrics.totalFunctions m =? 0 then Complexity.calculateGlobalComplexity ast
    else Metrics.maxCyclomaticComplexity m.
Proof.
  cbv zeta. unfold Metrics.extractMetrics.
  destruct (Metrics.totalFunctions _ =? 0); repeat split.
Qed.

(** X18.  The metrics bound every node of the tree: the nesting depth of a
    block is at most [maxNestingDepth]; where there is a function there
    is at least one counted, its cyclomatic complexity is at least 1 and
    at most [maxCyclomaticComplexity], and its length in lines at most
    [maxFunctionLength]. *)
Theorem extractMetrics_bounds_every_function_and_block ast (k : nat) p :
  traverse_paths ast !! k = Some p ->
  let m := Metrics.extractMetrics ast in
  (type (node p) = "BlockStatement" -> 0 <= nestingDepth p <= Metrics.maxNestingDepth m) /\
  (is_function_type (type (node p)) = true ->
   1 <= Metrics.totalFunctions m /\
   1 <= Complexity.calculateFunctionComplexity p <= Metrics.maxCyclomaticComplexity m /\
   function_lines p <= Metrics.maxFunctionLength m).
Proof.
  intros Hk m. apply list_elem_of_lookup_2 in Hk.
  destruct (extractMetrics_of_visit ast) as [Hn [Hl [Ht Hc]]]. cbv zeta in Hn, Hl, Ht, Hc.
  destruct (metrics_of_visit (traverse_paths ast))
    as [Hcount [_ Hnest] _ Hcc _ [_ Hlen] _].
  subst m. rewrite Hn, Hl, Ht, Hc. split.
  - intros Hblock. split; [|apply Hnest; assumption].
    unfold nestingDepth. apply (foldl_invariant (fun d => 0 <= d)); [lia|].
    intros d q Hd. destruct (isNestingNode (parent q)); lia.
  - intros Hfun.
    assert (Hpos : 1 <= Metrics.totalFunctions
                          (visit Metrics.on_node (traverse_paths ast) (Metrics.mkMetrics 0 0 0 0))).
    { rewrite Hcount. apply list_elem_of_split in Hk. destruct Hk as [l1 [l2 ->]].
      rewrite List.filter_app. simpl. rewrite Hfun. rewrite length_app. simpl. lia. }
    split; [exact Hpos|].
    assert (Hnz : (Metrics.totalFunctions
                     (visit Metrics.on_node (traverse_paths ast) (Metrics.mkMetrics 0 0 0 0)) =? 0)
                  = false) by (apply Z.eqb_neq; lia).
    rewrite Hnz. split; [|apply Hlen; assumption].
    split; [apply calculateFunctionComplexity_positive|apply Hcc; assumption].
Qed.

Lemma extractMetrics_bounds_every_function_and_block_witness :
  1 <= Complexity.calculateFunctionComplexity (path_at Samples.twenty_one 1) <=
    Metrics.maxCyclomaticComplexity (Metrics.extractMetrics Samples.twenty_one).
Proof.
  refine (proj1 (proj2 (proj2 (extractMetrics_bounds_every_function_and_block
            Samples.twenty_one 1%nat (path_at Samples.twenty_one 1) _) _))).
  - vm_compute. reflexivity.
  - vm_compute. reflexivity.
Defined.

(** X19.  The metrics are attained: [totalFunctions] is the number of
    function nodes; the greatest nesting depth is 0 or that of some
    block; without functions the complexity is the global one and the
    length 0; with functions the greatest complexity is that of some
    function and the greatest length is 0 or that of some function. *)
Theorem extractMetrics_maxima_are_attained ast :
  let m := Metrics.extractMetrics ast in
  Metrics.totalFunctions m = Z.of_nat (length (Complexity.functions ast)) /\
  0 <= Metrics.maxNestingDepth m /\
  0 <= Metrics.maxFunctionLength m /\
  1 <= Metrics.maxCyclomaticComplexity m /\
  (Metrics.maxNestingDepth m = 0 \/
   exists p, p ∈ traverse_paths ast /\ type (node p) = "BlockStatement" /\
     Metrics.maxNestingDepth m = nestingDepth p) /\
  (Complexity.functions ast = [] ->
   Metrics.maxCyclomaticComplexity m = Complexity.calculateGlobalComplexity ast /\
   Metrics.maxFunctionLength m = 0) /\
  (Complexity.functions ast <> [] ->
   (exists p, p ∈ Complexity.functions ast /\
      Metrics.maxCyclomaticComplexity m = Complexity.calculateFunctionComplexity p) /\
   (Metrics.maxFunctionLength m = 0 \/
    exists p, p ∈ Complexity.functions ast /\ Metrics.maxFunctionLength m = function_lines p)).
Proof.
  intros m.
  destruct (extractMetrics_of_visit ast) as [Hn [Hl [Ht Hc]]]. cbv zeta in Hn, Hl, Ht, Hc.
  destruct (metrics_of_visit (traverse_paths ast))
    as [Hcount [Hn0 _] Hnatt _ Hcatt [Hl0 _] Hlatt].
  subst m. rewrite Hn, Hl, Ht, Hc. clear Hn Hl Ht Hc.
  set (v := visit Metrics.on_node (traverse_paths ast) (Metrics.mkMetrics 0 0 0 0)) in *.
  fold (Complexity.functions ast) in Hcount.
  assert (Hmember : forall p, p ∈ traverse_paths ast -> is_function_type (type (node p)) = true ->
                      p ∈ Complexity.functions ast).
  { intros p Hp Hf. unfold Complexity.functions. apply list_elem_of_In, filter_In.
    split; [apply list_elem_of_In; exact Hp|exact Hf]. }
  split; [exact Hcount|]. split; [exact Hn0|]. split; [exact Hl0|]. split.
  { destruct (Metrics.totalFunctions v =? 0) eqn:Hz;
      [apply calculateGlobalComplexity_positive|].
    apply Z.eqb_neq in Hz. destruct Hcatt as [[Hz' _]|[p [_ [_ ->]]]]; [contradiction|].
    apply calculateFunctionComplexity_positive. }
  split; [exact Hnatt|]. split.
  - intros Hnone. rewrite Hnone in Hcount. simpl in Hcount. rewrite Hcount. simpl.
    split; [reflexivity|].
    destruct Hlatt as [Hz|[p [Hp [Hf _]]]]; [exact Hz|].
    specialize (Hmember p Hp Hf). rewrite Hnone in Hmember. inversion Hmember.
  - intros Hsome.
    assert (Hnz : (Metrics.totalFunctions v =? 0) = false).
    { apply Z.eqb_neq. rewrite Hcount. destruct (Complexity.functions ast); [congruence|].
      simpl. lia. }
    rewrite Hnz. split.
    + destruct Hcatt as [[Hz _]|[p [Hp [Hf He]]]]; [apply Z.eqb_neq in Hnz; contradiction|].
      exists p. split; [apply Hmember; assumption|exact He].
    + destruct Hlatt as [Hz|[p [Hp [Hf He]]]]; [left; exact Hz|].
      right. exists p. split; [apply Hmember; assumption|exact He].
Qed.

Lemma extractMetrics_maxima_are_attained_witness :
  exists p, p ∈ Complexity.functions Samples.twenty_one /\
    Metrics.maxCyclomaticComplexity (Metrics.extractMetrics Samples.twenty_one) =
    Complexity.calculateFunctionComplexity p.
Proof.
  refine (proj1 (proj2 (proj2 (proj2 (proj2 (proj2 (proj2
            (extractMetrics_maxima_are_attained Samples.twenty_one)))))) _)).
  vm_compute. discriminate.
Defined.

Lemma map_penalty_nil (l : list Issue) : map penalty l = [] -> l = [].
Proof. destruct l; [reflexivity|discriminate]. Qed.

Lemma getComplexityPenalty_zero c : Complexity.getComplexityPenalty c = 0 <-> c <= 5.
Proof.
  unfold Complexity.getComplexityPenalty. 
  destruct (c <=? 5) eqn:H5; [apply Z.leb_le in H5; tauto|].
  apply Z.leb_gt in H5. repeat case_match; split; intros; lia.
Qed.

Lemma filter_positive_nil (l : list Z) :
  Forall (fun x => 0 <= x) l ->
  (List.filter (fun pen => 0 <? pen) l = [] <-> Forall (fun x => x = 0) l).
Proof.
  induction 1 as [|x l Hx Hl IH]; [split; [constructor|reflexivity]|].
  simpl. destruct (0 <? x) eqn:Hpos.
  - apply Z.ltb_lt in Hpos. split; [discriminate|]. intros H. inversion H. lia.
  - apply Z.ltb_ge in Hpos. rewrite IH. split.
    + intros H. constructor; [lia|exact H].
    + intros H. inversion H. assumption.
Qed.

(** X20.  The complexity detector and the metrics agree: the detector
    reports nothing exactly when the greatest cyclomatic complexity the
    metrics find is at most 5. *)
Theorem Complexity_is_clean_exactly_when_the_worst_function_is_simple ast :
  Complexity.analyzeComplexity ast = [] <->
  Metrics.maxCyclomaticComplexity (Metrics.extractMetrics ast) <= 5.
Proof.
  destruct (extractMetrics_of_visit ast) as [_ [_ [_ Hc]]]. cbv zeta in Hc. rewrite Hc. clear Hc.
  destruct (metrics_of_visit (traverse_paths ast)) as [Hcount _ _ Hcc Hcatt _ _].
  set (v := visit Metrics.on_node (traverse_paths ast) (Metrics.mkMetrics 0 0 0 0)) in *.
  fold (Complexity.functions ast) in Hcount.
  pose proof (Complexity_visit_functions (traverse_paths ast) (Complexity.mkState [] [])) as H.
  simpl in H. destruct H as [Hi Hn]. fold (Complexity.functions ast) in Hi, Hn.
  unfold Complexity.analyzeComplexity.
  set (st := visit Complexity.on_function (traverse_paths ast) (Complexity.mkState [] [])) in *.
  destruct (Complexity.functions ast) as [|f fs] eqn:Hfuns.
  - simpl in Hcount, Hn, Hi. rewrite Hn, Hcount. simpl.
    apply map_penalty_nil in Hi. rewrite Hi.
    rewrite <- getComplexityPenalty_zero.
    destruct (0 <? _) eqn:Hpos.
    + apply Z.ltb_lt in Hpos. split; [discriminate|lia].
    + apply Z.ltb_ge in Hpos. pose proof (getComplexityPenalty_nonneg
        (Complexity.calculateGlobalComplexity ast)). split; [lia|reflexivity].
  - assert (Hlen : (length (Complexity.functionComplexities st) =? 0)%nat = false).
    { rewrite Hn. reflexivity. }
    assert (Hnz : (Metrics.totalFunctions v =? 0) = false).
    { apply Z.eqb_neq. rewrite Hcount. simpl. lia. }
    rewrite Hlen, Hnz.
    assert (Hclean : Complexity.issues st = [] <->
                     Forall (fun x => x = 0) (map Complexity.function_penalty (f :: fs))).
    { rewrite <- filter_positive_nil.
      - rewrite <- Hi. split; [intros ->; reflexivity|apply map_penalty_nil].
      - apply Forall_map, Forall_forall. intros p _. apply getComplexityPenalty_nonneg. }
    rewrite Hclean, Forall_map, Forall_forall. split.
    + intros Hall. destruct Hcatt as [[Hz _]|[p [Hp [Hf ->]]]]; [apply Z.eqb_neq in Hnz; contradiction|].
      apply getComplexityPenalty_zero. apply Hall.
      rewrite <- Hfuns. unfold Complexity.functions. apply list_elem_of_In, filter_In.
      split; [apply list_elem_of_In; exact Hp|exact Hf].
    + intros Hmax p Hp. apply getComplexityPenalty_zero.
      rewrite <- Hfuns in Hp. unfold Complexity.functions in Hp.
      apply list_elem_of_In, filter_In in Hp. destruct Hp as [Hp Hf].
      apply list_elem_of_In in Hp. specialize (Hcc p Hp Hf). lia.
Qed.

(** ** Readability and the metrics *)

Lemma visit_idle {S : Type} (handler : Path -> S -> S) paths init :
  (forall q st, q ∈ paths -> handler q st = st) -> visit handler paths init = init.
Proof.
  unfold visit. revert init. induction paths as [|q paths IH]; intros init H; [reflexivity|].
  simpl. rewrite (H q init) by left. apply IH. intros q' st Hq'. apply H. right. exact Hq'.
Qed.

Lemma deep_nesting_finding l depth :
  deep_nesting_at l
    (issue Readability.DEEP_NESTING
       ("Deep nesting detected at line " +:+ JS.toString l +:+ " (depth: " +:+
        JS.toString depth +:+ ", max: " +:+ JS.toString Readability.MAX_NESTING_DEPTH +:+
        "). Consider extracting logic or using early returns.")).
Proof.
  split; [reflexivity|]. cbn [comment issue]. unfold JS.startsWith.
  replace ("Deep nesting detected at line " +:+ JS.toString l +:+ " (depth: " +:+
           JS.toString depth +:+ ", max: " +:+ JS.toString Readability.MAX_NESTING_DEPTH +:+
           "). Consider extracting logic or using early returns.")
    with (("Deep nesting detected at line " +:+ JS.toString l +:+ " (depth: ") +:+
          (JS.toString depth +:+ ", max: " +:+ JS.toString Readability.MAX_NESTING_DEPTH +:+
           "). Consider extracting logic or using early returns."))
    by (rewrite !append_assoc; reflexivity).
  apply prefix_append.
Qed.

(** The nesting check keeps a finding for every line it has
    reported. *)
Lemma Readability_on_block_lines q st :
  lines_have_findings st -> lines_have_findings (Readability.on_block q st).
Proof.
  intros Hst. unfold Readability.on_block.
  destruct (bool_decide _); [|exact Hst].
  destruct (_ <? _); [|exact Hst].
  unfold report_line. destruct (line_of (node q)) as [l|]; [|exact Hst].
  destruct (negb (l =? 0) && negb (bool_decide (l ∈ reported st))); [|exact Hst].
  intros l' Hl'. simpl in Hl'. apply elem_of_union in Hl'. destruct Hl' as [Hl'|Hl'].
  - apply elem_of_singleton in Hl'. subst l'. eexists. split; [apply elem_of_app; right; left|].
    apply deep_nesting_finding.
  - destruct (Hst l' Hl') as [i [Hi Hd]]. exists i. split; [apply elem_of_push; exact Hi|exact Hd].
Qed.

(** X21.  The nesting check of the readability detector and the metrics
    agree: when [maxNestingDepth] is at most 4 the check adds no issue;
    and a block nested deeper than 4 on a known line makes
    [maxNestingDepth] exceed 4 and leaves a 3-point deep-nesting finding
    for that line. *)
Theorem Readability_deep_nesting_agrees_with_the_metrics ast :
  (Metrics.maxNestingDepth (Metrics.extractMetrics ast) <= 4 ->
   forall issues, Readability.checkNestingDepth ast issues = issues) /\
  (forall (k : nat) p l,
     traverse_paths ast !! k = Some p ->
     type (node p) = "BlockStatement" ->
     line_of (node p) = Some l -> l <> 0 ->
     4 < nestingDepth p ->
     4 < Metrics.maxNestingDepth (Metrics.extractMetrics ast) /\
     exists i, i ∈ Readability.analyzeReadability ast /\ deep_nesting_at l i).
Proof.
  destruct (extractMetrics_of_visit ast) as [Hn _]. cbv zeta in Hn. rewrite Hn.
  destruct (metrics_of_visit (traverse_paths ast)) as [_ [_ Hnest] _ _ _ _ _].
  split.
  - intros Hshallow issues. unfold Readability.checkNestingDepth.
    rewrite visit_idle; [reflexivity|].
    intros q st Hq. unfold Readability.on_block.
    destruct (bool_decide (type (node q) = "BlockStatement")) eqn:Hblock; [|reflexivity].
    apply bool_decide_eq_true in Hblock. specialize (Hnest q Hq Hblock).
    unfold Readability.MAX_NESTING_DEPTH.
    destruct (4 <? nestingDepth q) eqn:Hdeep; [|reflexivity].
    apply Z.ltb_lt in Hdeep. lia.
  - intros k p l Hk Hblock Hline Hl Hdeep.
    split; [specialize (Hnest p (list_elem_of_lookup_2 _ _ _ Hk) Hblock); lia|].
    unfold Readability.analyzeReadability, Readability.checkNestingDepth.
    apply (visit_reaches_under lines_have_findings
             (fun st => exists i, i ∈ found st /\ deep_nesting_at l i) _ _ _ k p Hk).
    + intros x Hx. simpl in Hx. set_solver.
    + intros q st. apply Readability_on_block_lines.
    + intros st Hst. unfold Readability.on_block.
      rewrite bool_decide_eq_true_2 by exact Hblock.
      unfold Readability.MAX_NESTING_DEPTH.
      assert (Hd : (4 <? nestingDepth p) = true) by (apply Z.ltb_lt; exact Hdeep).
      rewrite Hd, Hline. unfold report_line.
      assert (Hnz : (l =? 0) = false) by (apply Z.eqb_neq; exact Hl).
      rewrite Hnz. cbn [negb andb].
      destruct (bool_decide (l ∈ reported st)) eqn:Hin; cbn [negb].
      * apply bool_decide_eq_true in Hin. apply (Hst l Hin).
      * eexists. split; [simpl; apply elem_of_app; right; left|]. apply deep_nesting_finding.
    + intros q st [i [Hi Hd]]. exists i. split; [|exact Hd].
      apply (Readability_on_block_keeps (fun l => i ∈ l)); [|exact Hi].
      intros; apply elem_of_push; assumption.
Qed.

Lemma Readability_deep_nesting_agrees_with_the_metrics_witness :
  Readability.checkNestingDepth Samples.twenty_one [] = [].
Proof.
  apply (proj1 (Readability_deep_nesting_agrees_with_the_metrics Samples.twenty_one)).
  vm_compute. discriminate.
Defined.

(** X22.  A function that spans more than 40 lines costs readability: the
    detector reports it by name and length with penalty 3, the
    readability score is at most 22, and [maxFunctionLength] exceeds
    40. *)
Theorem Readability_long_function_is_penalised ast (k : nat) p first last :
  traverse_paths ast !! k = Some p ->
  is_function_type (type (node p)) = true ->
  loc (node p) = Some (mkLoc first last) ->
  40 < last - first + 1 ->
  issue 3 ("Function " +:+ getFunctionName p +:+ " is " +:+ JS.toString (last - first + 1) +:+
           " lines long (max: 40). Consider breaking it into smaller functions.")
    ∈ Readability.analyzeReadability ast /\
  score (aggregateCategory MAX_SCORE (Readability.analyzeReadability ast)) <= 22 /\
  40 < Metrics.maxFunctionLength (Metrics.extractMetrics ast).
Proof.
  intros Hk Hfun Hloc Hlong.
  set (i0 := issue 3 _).
  assert (Hin : i0 ∈ Readability.analyzeReadability ast).
  { unfold Readability.analyzeReadability.
    apply (Readability_checkNestingDepth_keeps (fun l => i0 ∈ l));
      [intros; apply elem_of_push; assumption|].
    apply (visit_reaches (fun l => i0 ∈ l) _ _ _ k p Hk).
    - intros st. unfold Readability.on_node. rewrite Hfun.
      unfold Readability.on_function. rewrite Hloc. cbn [end_line start_line].
      unfold Readability.MAX_FUNCTION_LINES.
      assert (Hl : (40 <? last - first + 1) = true) by (apply Z.ltb_lt; exact Hlong).
      rewrite Hl. clear Hl.
      repeat case_match;
        repeat first [solve [apply elem_of_app; right; left] | apply elem_of_push].
    - intros q st Hst. apply (Readability_on_node_keeps (fun l => i0 ∈ l)); [|exact Hst].
      intros; apply elem_of_push; assumption. }
  split; [exact Hin|]. split.
  - rewrite aggregateCategory_score. unfold MAX_SCORE.
    pose proof (penalty_le_sum _ _ Hin
                  (plain_nonneg _ (Readability_analyzeReadability_plain ast))) as H.
    simpl in H. lia.
  - destruct (extractMetrics_of_visit ast) as [_ [-> _]].
    destruct (metrics_of_visit (traverse_paths ast)) as [_ _ _ _ _ [_ Hlen] _].
    specialize (Hlen p (list_elem_of_lookup_2 _ _ _ Hk) Hfun).
    unfold function_lines in Hlen. rewrite Hloc in Hlen. cbn [end_line start_line] in Hlen. lia.
Qed.

Lemma Readability_long_function_is_penalised_witness :
  let long :=
    Samples.File 41 [Samples.FunctionDeclaration 1 41 "long" [] (Samples.BlockStatement 1 41 [])] in
  issue 3 "Function 'long' is 41 lines long (max: 40). Consider breaking it into smaller functions."
    ∈ Readability.analyzeReadability long /\
  score (aggregateCategory MAX_SCORE (Readability.analyzeReadability long)) <= 22 /\
  40 < Metrics.maxFunctionLength (Metrics.extractMetrics long).
Proof.
  refine (Readability_long_function_is_penalised
            (Samples.File 41
               [Samples.FunctionDeclaration 1 41 "long" [] (Samples.BlockStatement 1 41 [])])
            1%nat
            (path_at
               (Samples.File 41
                  [Samples.FunctionDeclaration 1 41 "long" [] (Samples.BlockStatement 1 41 [])])
               1)
            1 41 _ _ _ _).
  - vm_compute. reflexivity.
  - vm_compute. reflexivity.
  - vm_compute. reflexivity.
  - lia.
Defined.

(** ** The HTTP handlers *)

Lemma trim_blank s : (String.length (JS.trim s) =? 0)%nat = true <-> JS.trim s = EmptyString.
Proof. destruct (JS.trim s); simpl; split; congruence. Qed.

(** The entry point either returns the analysis of an acceptable code
    or throws a message that starts with [Invalid input]. *)
Lemma analyze_outcome parser_parse code :
  (acceptable code /\
   exists s, code = Server.VString s /\
     run parser_parse (Server.analyze code) = Returns (Server.analyzeCode parser_parse s)) \/
  (~ acceptable code /\
   exists message,
     run parser_parse (Server.analyze code) = Throws message /\
     JS.startsWith message "Invalid input" = true).
Proof.
  destruct code as [| |b|n|s|];
    try (right; split; [intros [s [Hs _]]; discriminate|eexists; split; reflexivity]).
  unfold Server.analyze. destruct (String.length (JS.trim s) =? 0)%nat eqn:Hblank.
  - right. apply trim_blank, trim_empty in Hblank.
    split; [intros [s' [[= <-] Hs]]; contradiction|].
    eexists. split; reflexivity.
  - left. assert (Hne : ~ only_white_space s).
    { intros H. apply trim_empty, trim_blank in H. congruence. }
    split; [exists s; split; [reflexivity|exact Hne]|].
    exists s. split; reflexivity.
Qed.

(** A result carries an error exactly when the parser rejects the
    code. *)
Lemma has_error_iff parser_parse s :
  Api.has_error (Server.analyzeCode parser_parse s) = true <->
  exists message, parser_parse s = SyntaxError message.
Proof.
  unfold Api.has_error, Server.analyzeCode, Server.analyzeParsed, parseCode, parseCode_of.
  destruct (parser_parse s) as [ast|message]; cbn [Server.error].
  - split; [discriminate|intros [m H]; discriminate].
  - split; [eauto|]. intros _. reflexivity.
Qed.

(** X23.  The status of the serverless handler tells the outcome.  Another
    method than POST gives 405 and the allowed method; a code that is not
    a string with something else than white space gives 400 and a message
    that starts with [Invalid input]; code with a syntax error gives 422
    and the result; in these cases nothing is written.  Code that parses
    gives 200 and the result, [savedToDatabase] being true exactly when a
    review was written, and an [_id] only then.  No other status
    occurs. *)
Theorem Api_handler_status_tells_the_outcome parser_parse db method code :
  let res := (Api.handler parser_parse db method code).1 in
  let db' := (Api.handler parser_parse db method code).2 in
  Api.status res ∈ [405; 400; 422; 200] /\
  (method <> "POST" ->
   res = Api.mkResponse 405 (Api.Error "Method not allowed" (Some ["POST"])) /\ db' = db) /\
  (method = "POST" -> ~ acceptable code ->
   db' = db /\
   exists message,
     res = Api.mkResponse 400 (Api.Error message None) /\
     JS.startsWith message "Invalid input" = true) /\
  (forall s message,
     method = "POST" -> code = Server.VString s -> ~ only_white_space s ->
     parser_parse s = SyntaxError message ->
     db' = db /\
     res = Api.mkResponse 422 (Api.Result (Server.analyzeCode parser_parse s)) /\
     Server.error (Server.analyzeCode parser_parse s) = Some ("Syntax Error: " +:+ message)) /\
  (forall s ast,
     method = "POST" -> code = Server.VString s -> ~ only_white_space s ->
     parser_parse s = Tree ast ->
     exists id saved,
       res = Api.mkResponse 200 (Api.Reviewed (Server.analyzeCode parser_parse s) id saved) /\
       (saved = true <-> Api.reviews db' <> Api.reviews db) /\
       (is_Some id -> saved = true)).
Proof.
  intros res db'. subst res db'. unfold Api.handler.
  destruct (bool_decide (method = "POST")) eqn:Hm; cbn [negb].
  2:{ apply bool_decide_eq_false in Hm. cbn [fst snd Api.status].
      split; [set_solver|]. split; [intros _; split; reflexivity|].
      repeat split; intros; contradiction. }
  apply bool_decide_eq_true in Hm.
  destruct (analyze_outcome parser_parse code)
    as [[Hok [s [-> ->]]]|[Hbad [message [-> Hprefix]]]].
  - destruct Hok as [s' [[= <-] Hne]].
    destruct (Api.has_error (Server.analyzeCode parser_parse s)) eqn:Herr.
    + apply has_error_iff in Herr. destruct Herr as [message Hfail].
      cbn [fst snd Api.status].
      split; [set_solver|]. split; [intros; contradiction|].
      split; [intros _ Hno; exfalso; apply Hno; exists s; auto|]. split.
      * intros s' message' _ [= <-] _ Hfail'.
        split; [reflexivity|]. split; [reflexivity|].
        unfold Server.analyzeCode, Server.analyzeParsed, parseCode, parseCode_of.
        rewrite Hfail'. reflexivity.
      * intros s' ast _ [= <-] _ Hparse. congruence.
    + assert (Hparsed : exists ast, parser_parse s = Tree ast).
      { destruct (parser_parse s) as [ast|message] eqn:Hp; [eauto|].
        assert (Api.has_error (Server.analyzeCode parser_parse s) = true)
          by (apply has_error_iff; eauto). congruence. }
      destruct Hparsed as [ast Hparse].
      set (db1 := Api.connectDB db).
      destruct (if Api.isConnected db1 then _ else _) as [savedReview db2] eqn:Hsave.
      cbn [fst snd Api.status].
      split; [set_solver|]. split; [intros; contradiction|].
      split; [intros _ Hno; exfalso; apply Hno; exists s; auto|]. split.
      * intros s' message _ [= <-] _ Hfail. congruence.
      * intros s' ast' _ [= <-] _ _. eexists _, _. split; [reflexivity|].
        assert (Hreviews : Api.reviews db1 = Api.reviews db).
        { subst db1. unfold Api.connectDB. repeat case_match; reflexivity. }
        destruct (Api.isConnected db1).
        -- unfold Api.save in Hsave. destruct (Api.saves db1) as [id|].
           ++ injection Hsave as <- <-. cbn [Api.reviews]. rewrite Hreviews. split.
              ** split; [intros _ H|intros _; apply bool_decide_eq_true; eauto].
                 apply (f_equal length) in H. rewrite length_app in H. simpl in H. lia.
              ** intros _. apply bool_decide_eq_true. eauto.
           ++ injection Hsave as <- <-. rewrite Hreviews. split.
              ** split; [intros H; apply bool_decide_eq_true in H; destruct H; discriminate
                        |congruence].
              ** intros [x Hx]. discriminate.
        -- injection Hsave as <- <-. rewrite Hreviews. split.
           ++ split; [intros H; apply bool_decide_eq_true in H; destruct H; discriminate
                     |congruence].
           ++ intros [x Hx]. discriminate.
  - rewrite Hprefix. cbn [fst snd Api.status].
    split; [set_solver|]. split; [intros; contradiction|].
    split; [intros _ _; split; [reflexivity|eauto]|]. split.
    + intros s message' _ -> Hne _. exfalso. apply Hbad. exists s. auto.
    + intros s ast _ -> Hne _. exfalso. apply Hbad. exists s. auto.
Qed.

Lemma Api_handler_status_tells_the_outcome_witness :
  (Api.handler (fun _ => Tree Samples.eval_call) (Api.mkDatabase false false false None [])
     "GET" (Server.VString "eval('1+1')")).1 =
  Api.mkResponse 405 (Api.Error "Method not allowed" (Some ["POST"])) /\
  Api.status
    (Api.handler (fun _ => Tree Samples.eval_call) (Api.mkDatabase false false false None [])
       "POST" (Server.VString (JS.bytes [194; 160]%nat))).1 = 400 /\
  Api.status
    (Api.handler (fun _ => Tree Samples.eval_call) (Api.mkDatabase false false false None [])
       "POST" (Server.VString "eval('1+1')")).1 = 200.
Proof.
  split; [|split].
  - refine (proj1 (proj1 (proj2 (Api_handler_status_tells_the_outcome
              (fun _ => Tree Samples.eval_call) (Api.mkDatabase false false false None [])
              "GET" (Server.VString "eval('1+1')"))) _)).
    discriminate.
  - destruct (proj1 (proj2 (proj2 (Api_handler_status_tells_the_outcome
                (fun _ => Tree Samples.eval_call) (Api.mkDatabase false false false None [])
                "POST" (Server.VString (JS.bytes [194; 160]%nat)))))
                eq_refl) as [_ [message [Hres _]]].
    + intros [s [[= <-] Hs]]. apply Hs.
      apply (more_white_space (JS.bytes [194; 160]%nat) EmptyString);
        [vm_compute; set_solver|constructor].
    + rewrite Hres. reflexivity.
  - destruct (proj2 (proj2 (proj2 (proj2 (Api_handler_status_tells_the_outcome
                (fun _ => Tree Samples.eval_call) (Api.mkDatabase false false false None [])
                "POST" (Server.VString "eval('1+1')")))))
                "eval('1+1')" Samples.eval_call eq_refl eq_refl) as [id [saved [Hres _]]].
    + intros Hs. apply trim_empty in Hs. vm_compute in Hs. discriminate.
    + reflexivity.
    + rewrite Hres. reflexivity.
Defined.

Ltac settle_statuses :=
  cbn [fst snd Api.status Api.body Api.reviews];
  repeat split; intros; try tauto; try discriminate;
  repeat match goal with
    | H : _ \/ _ |- _ => destruct H
    | H : _ /\ _ |- _ => destruct H
    | H : is_Some None |- _ => destruct H
    end; try discriminate; eauto 8.

(** X24.  The Express route and the serverless handler agree on a POST of
    the same code: 400 and 422 in the same cases, with the same body for
    422.  Where the handler answers 200 the route answers 201 when the
    document is saved, which then holds the code and the scores of the
    result and is the one review written, and 500 when it is not; the
    route writes nothing unless it answers 201. *)
Theorem Api_route_and_handler_agree parser_parse db db0 code :
  let r := (Api.route parser_parse db code).1 in
  let written := (Api.route parser_parse db code).2 in
  let h := (Api.handler parser_parse db0 "POST" code).1 in
  (Api.status r = 400 <-> Api.status h = 400) /\
  (Api.status r = 422 <-> Api.status h = 422) /\
  (Api.status r = 201 \/ Api.status r = 500 <-> Api.status h = 200) /\
  (Api.status r = 422 -> Api.body r = Api.body h /\ written = db) /\
  (Api.status r = 201 <-> Api.status h = 200 /\ is_Some (Api.saves db)) /\
  (Api.status r = 201 ->
   exists result id hid saved,
     Api.body h = Api.Reviewed result hid saved /\
     Api.body r = Api.Saved (Api.review_of code result) id /\
     Api.saves db = Some id /\
     Api.reviews written = Api.reviews db ++ [Api.review_of code result]) /\
  (Api.status r <> 201 -> Api.reviews written = Api.reviews db).
Proof.
  intros r written h. subst r written h. unfold Api.route, Api.handler.
  rewrite bool_decide_eq_true_2 by reflexivity. cbn [negb].
  destruct code as [| |b|n|s|];
    [cbn [run Server.analyze JS.startsWith String.prefix]; settle_statuses ..
    | |cbn [run Server.analyze JS.startsWith String.prefix]; settle_statuses].
  unfold Server.analyze.
  destruct (String.length (JS.trim s) =? 0)%nat;
    [cbn [run JS.startsWith String.prefix]; settle_statuses|].
  unfold Server.analyzeCode_steps. cbn [run]. fold (parseCode parser_parse s).
  fold (Server.analyzeCode parser_parse s).
  destruct (Api.has_error (Server.analyzeCode parser_parse s)); [settle_statuses|].
  destruct (if Api.isConnected (Api.connectDB db0) then _ else _) as [savedReview db2].
  unfold Api.save. destruct (Api.saves db) as [id|]; settle_statuses.
Qed.

Lemma Api_route_and_handler_agree_witness :
  Api.body (Api.route (fun _ => SyntaxError "Unexpected token (1:0)")
              (Api.mkDatabase true true true (Some "656e6f7a") []) (Server.VString "}")).1 =
  Api.body (Api.handler (fun _ => SyntaxError "Unexpected token (1:0)")
              (Api.mkDatabase false false false None []) "POST" (Server.VString "}")).1.
Proof.
  apply (proj1 (proj2 (proj2 (proj2 (Api_route_and_handler_agree
           (fun _ => SyntaxError "Unexpected token (1:0)")
           (Api.mkDatabase true true true (Some "656e6f7a") [])
           (Api.mkDatabase false false false None []) (Server.VString "}")))))).
  reflexivity.
Defined.

(** ** The local history *)

Lemma find_head {A} (f : A -> bool) x l : f x = true -> List.find f (x :: l) = Some x.
Proof. intros H. simpl. rewrite H. reflexivity. Qed.

(** X25.  A review saved to the local history is found again: when the
    review has no [_id] of its own and [saveToHistory] returns an id, the
    id is [local_] followed by the stamp, [isLocalId] accepts it, and
    [getReviewById] finds under it the first item of the history, which
    has that [_id], the date, [isLocal] and otherwise the fields of the
    review. *)
Theorem History_saved_review_is_found writable storage review stamp now id storage' :
  review !! "_id" = None ->
  History.saveToHistory writable storage review stamp now = (Some id, storage') ->
  id = "local_" +:+ stamp /\
  History.isLocalId (Some id) = true /\
  exists item,
    History.getReviewById storage' id = Some item /\
    head (History.getHistory storage') = Some item /\
    item !! "_id" = Some (History.JString id) /\
    item !! "createdAt" = Some (History.JString now) /\
    item !! "isLocal" = Some (History.JBool true) /\
    forall k, k <> "_id" -> k <> "createdAt" -> k <> "isLocal" -> item !! k = review !! k.
Proof.
  intros Hfresh Hsave. unfold History.saveToHistory in Hsave.
  set (item := <["isLocal" := History.JBool true]> _) in Hsave.
  match type of Hsave with
  | (if writable ?h then _ else _) = _ => set (history := h) in Hsave
  end.
  destruct (writable history); [|discriminate].
  injection Hsave as <- <-.
  split; [reflexivity|]. split.
  { unfold History.isLocalId, JS.startsWith.
    rewrite bool_decide_eq_false_2 by discriminate. apply prefix_append. }
  assert (Hid : item !! "_id" = Some (History.JString ("local_" +:+ stamp))).
  { subst item. rewrite lookup_insert_ne by discriminate.
    rewrite lookup_insert_ne by discriminate.
    rewrite lookup_union_r by exact Hfresh. apply lookup_singleton_eq. }
  assert (Hhead : head history = Some item).
  { subst history. destruct (_ <? _)%nat; reflexivity. }
  exists item. cbn [History.getHistory]. split.
  - unfold History.getReviewById. cbn [History.getHistory].
    destruct history as [|x rest]; [discriminate|]. injection Hhead as ->.
    apply find_head. apply bool_decide_eq_true. exact Hid.
  - split; [exact Hhead|]. split; [exact Hid|]. split.
    + subst item. rewrite lookup_insert_ne by discriminate. apply lookup_insert_eq.
    + split; [subst item; apply lookup_insert_eq|].
      intros k H1 H2 H3. subst item.
      rewrite lookup_insert_ne by congruence. rewrite lookup_insert_ne by congruence.
      rewrite lookup_union_l; [reflexivity|]. apply lookup_singleton_ne. congruence.
Qed.

Lemma History_saved_review_is_found_witness :
  History.isLocalId (Some ("local_" +:+ "1700000000000_k3j9x2m1q")) = true.
Proof.
  refine (proj1 (proj2 (History_saved_review_is_found (fun _ => true) History.Absent
            {[ "totalScore" := History.JOther "92" ]} "1700000000000_k3j9x2m1q"
            "2023-11-14T22:13:20.000Z" ("local_" +:+ "1700000000000_k3j9x2m1q")
            (History.Array
               [ <["isLocal" := History.JBool true]>
                   (<["createdAt" := History.JString "2023-11-14T22:13:20.000Z"]>
                      ({[ "totalScore" := History.JOther "92" ]} ∪
                       {[ "_id" := History.JString ("local_" +:+ "1700000000000_k3j9x2m1q") ]})) ])
            _ _))).
  - reflexivity.
  - reflexivity.
Defined.

(** X26.  [saveToHistory] keeps the newest fifty.  When it returns [null]
    the storage is unchanged.  Otherwise the history is the new item
    followed by the old ones, cut to 50: its length is the least of 50
    and one more than before, the old items move one place down, and
    nothing is lost while fewer than 50 were stored. *)
Theorem History_keeps_the_newest_fifty writable storage review stamp now :
  let r := History.saveToHistory writable storage review stamp now in
  let old := History.getHistory storage in
  (r.1 = None -> r.2 = storage) /\
  (r.1 <> None ->
   exists item,
     History.getHistory r.2 = take 50 (item :: old) /\
     (length (History.getHistory r.2) <= 50)%nat /\
     length (History.getHistory r.2) = Nat.min 50 (S (length old)) /\
     (forall (k : nat), (S k < 50)%nat -> History.getHistory r.2 !! S k = old !! k) /\
     ((length old < 50)%nat -> History.getHistory r.2 = item :: old)).
Proof.
  intros r old. subst r. unfold History.saveToHistory. fold old.
  set (item := <["isLocal" := History.JBool true]> _).
  match goal with
  | |- context [if writable ?h then _ else _] => set (history := h)
  end.
  assert (Hhistory : history = take 50 (item :: old)).
  { subst history. unfold History.MAX_HISTORY_ITEMS.
    destruct (50 <? length (item :: old))%nat eqn:Hlong; [reflexivity|].
    apply Nat.ltb_ge in Hlong. symmetry. apply take_ge. exact Hlong. }
  destruct (writable history); cbn [fst snd].
  - split; [discriminate|]. intros _. exists item. cbn [History.getHistory].
    rewrite Hhistory. split; [reflexivity|]. split; [rewrite length_take; lia|].
    split; [rewrite length_take; simpl; lia|]. split.
    + intros k Hk. rewrite lookup_take_lt by lia. reflexivity.
    + intros Hshort. apply take_ge. simpl. lia.
  - split; [reflexivity|]. congruence.
Qed.

Lemma History_keeps_the_newest_fifty_witness :
  (length (History.getHistory
             (History.saveToHistory (fun _ => true) History.Absent
                {[ "totalScore" := History.JOther "92" ]} "1700000000000_k3j9x2m1q"
                "2023-11-14T22:13:20.000Z").2) <= 50)%nat.
Proof.
  destruct (proj2 (History_keeps_the_newest_fifty (fun _ => true) History.Absent
                     {[ "totalScore" := History.JOther "92" ]} "1700000000000_k3j9x2m1q"
                     "2023-11-14T22:13:20.000Z")) as [item [_ [Hlen _]]].
  - discriminate.
  - exact Hlen.
Defined.

(** Filtering by a weaker test does not change what [find] finds. *)
Lemma find_filter_other {A} (f g : A -> bool) (l : list A) :
  (forall x, f x = true -> g x = true) ->
  List.find f (List.filter g l) = List.find f l.
Proof.
  intros Hfg. induction l as [|x l IH]; [reflexivity|].
  simpl. destruct (g x) eqn:Hg; simpl.
  - rewrite IH. reflexivity.
  - destruct (f x) eqn:Hf; [rewrite (Hfg x Hf) in Hg; discriminate|exact IH].
Qed.

(** After filtering a test out, [find] finds nothing for it. *)
Lemma find_filter_none {A} (f : A -> bool) (l : list A) :
  List.find f (List.filter (fun x => negb (f x)) l) = None.
Proof.
  induction l as [|x l IH]; [reflexivity|].
  simpl. destruct (f x) eqn:Hf; simpl; [exact IH|]. rewrite Hf. exact IH.
Qed.

(** X27.  A successful [deleteFromHistory] removes the items of that id and
    nothing else: the id is no longer found, any other id is found as
    before, the items left are those with another [_id], in their order,
    and the history is unchanged when the id was not in it. *)
Theorem History_delete_removes_exactly_that_id writable storage id storage' :
  History.deleteFromHistory writable storage id = (true, storage') ->
  History.getReviewById storage' id = None /\
  (forall other, other <> id ->
     History.getReviewById storage' other = History.getReviewById storage other) /\
  (forall item,
     item ∈ History.getHistory storage' <->
     item ∈ History.getHistory storage /\ item !! "_id" <> Some (History.JString id)) /\
  History.getHistory storage' `sublist_of` History.getHistory storage /\
  (History.getReviewById storage id = None ->
   History.getHistory storage' = History.getHistory storage).
Proof.
  unfold History.deleteFromHistory. intros Hdelete.
  destruct (writable _); [|discriminate]. injection Hdelete as <-.
  unfold History.getReviewById. cbn [History.getHistory].
  set (history := History.getHistory storage).
  split; [apply (find_filter_none
                   (fun item : gmap string History.Json =>
                      bool_decide (item !! "_id" = Some (History.JString id))))|].
  split.
  - intros other Hother. apply find_filter_other.
    intros item Hitem. apply bool_decide_eq_true in Hitem.
    apply negb_true_iff, bool_decide_eq_false. rewrite Hitem. congruence.
  - split.
    + intros item. rewrite !list_elem_of_In, filter_In, negb_true_iff, bool_decide_eq_false.
      reflexivity.
    + split.
      * clear. induction history as [|x l IH]; [constructor|].
        simpl. destruct (negb _); [apply sublist_skip|apply sublist_cons]; exact IH.
      * intros Hnone. clearbody history. induction history as [|x l IH]; [reflexivity|].
        simpl in *. destruct (bool_decide _); [discriminate|]. simpl. rewrite IH by exact Hnone.
        reflexivity.
Qed.

Lemma History_delete_removes_exactly_that_id_witness :
  History.getReviewById
    (History.Array [ {[ "_id" := History.JString "local_2_b" ]} ]) "local_1_a" = None.
Proof.
  refine (proj1 (History_delete_removes_exactly_that_id (fun _ => true)
                   (History.Array [ {[ "_id" := History.JString "local_1_a" ]};
                                    {[ "_id" := History.JString "local_2_b" ]} ])
                   "local_1_a"
                   (History.Array [ {[ "_id" := History.JString "local_2_b" ]} ]) _)).
  reflexivity.
Defined.

(** ** The findings that trip the critical override *)

Lemma string_of_uint_numeric d : every numeric (NilEmpty.string_of_uint d) = true.
Proof. induction d; simpl; auto. Qed.

(** The text of an integer is made of digits and a sign, and is not
    empty. *)
Lemma toString_numeric z :
  every numeric (JS.toString z) = true /\ JS.toString z <> EmptyString.
Proof.
  unfold JS.toString, NilZero.string_of_int, NilZero.string_of_uint.
  destruct (Z.to_int z) as [d|d]; destruct d; simpl;
    repeat split; try discriminate; try apply string_of_uint_numeric.
Qed.

(** [toLowerCase] leaves such a text as it is. *)
Lemma toLowerCase_numeric s : every numeric s = true -> JS.toLowerCase s = s.
Proof.
  induction s as [|c s IH]; [reflexivity|]. simpl. intros H.
  apply andb_true_iff in H. destruct H as [Hc Hs]. rewrite (IH Hs). f_equal.
  unfold JS.lower_ascii, numeric in *.
  destruct ((65 <=? nat_of_ascii c)%nat && (nat_of_ascii c <=? 90)%nat) eqn:Hup; [|reflexivity].
  apply andb_true_iff in Hup. destruct Hup as [H1 H2]. apply Nat.leb_le in H1, H2.
  apply orb_true_iff in Hc. destruct Hc as [Hc|Hc].
  - apply andb_true_iff in Hc. destruct Hc as [_ Hc]. apply Nat.leb_le in Hc. lia.
  - apply Nat.eqb_eq in Hc. lia.
Qed.

Lemma prefix_before_number x a c d b :
  every (fun c => negb (numeric c)) x = true -> numeric c = true ->
  String.prefix x (a +:+ String c d +:+ b) = String.prefix x a.
Proof.
  revert x. induction a as [|e a IH]; intros x Hx Hc.
  - destruct x as [|c' x]; [reflexivity|].
    change (EmptyString +:+ String c d +:+ b) with (String c (d +:+ b)). simpl.
    simpl in Hx. apply andb_true_iff in Hx. destruct Hx as [Hc' _].
    destruct (Ascii.ascii_dec c' c) as [->|]; [|reflexivity].
    rewrite Hc in Hc'. discriminate.
  - destruct x as [|c' x]; [reflexivity|].
    change (String e a +:+ String c d +:+ b) with (String e (a +:+ String c d +:+ b)). simpl.
    simpl in Hx. apply andb_true_iff in Hx. destruct Hx as [_ Hx].
    destruct (Ascii.ascii_dec c' e); [apply IH; assumption|reflexivity].
Qed.

Lemma includes_after_number x d b :
  x <> EmptyString ->
  every (fun c => negb (numeric c)) x = true -> every numeric d = true ->
  JS.includes (d +:+ b) x = JS.includes b x.
Proof.
  intros Hne Hx. induction d as [|c d IH]; intros Hd; [reflexivity|].
  simpl in Hd. apply andb_true_iff in Hd. destruct Hd as [Hc Hd].
  change (String c d +:+ b) with (String c (d +:+ b)).
  cbn [JS.includes]. rewrite (IH Hd).
  destruct x as [|c' x]; [congruence|].
  simpl in Hx. apply andb_true_iff in Hx. destruct Hx as [Hc' _].
  simpl. destruct (Ascii.ascii_dec c' c) as [->|]; [|reflexivity].
  rewrite Hc in Hc'. discriminate.
Qed.

(** A text without digits is found around a number exactly when it is
    found before it or after it. *)
Lemma includes_around_number x a d b :
  x <> EmptyString -> d <> EmptyString ->
  every (fun c => negb (numeric c)) x = true -> every numeric d = true ->
  JS.includes (a +:+ d +:+ b) x = JS.includes a x || JS.includes b x.
Proof.
  intros Hx Hd Hxn Hdn. induction a as [|e a IH].
  - change (EmptyString +:+ d +:+ b) with (d +:+ b).
    rewrite includes_after_number by assumption.
    destruct x; [congruence|reflexivity].
  - change (String e a +:+ d +:+ b) with (String e (a +:+ d +:+ b)).
    cbn [JS.includes]. rewrite IH.
    destruct d as [|c d]; [congruence|].
    simpl in Hdn. apply andb_true_iff in Hdn. destruct Hdn as [Hc _].
    change (String e (a +:+ String c d +:+ b)) with (String e a +:+ String c d +:+ b).
    rewrite prefix_before_number by assumption.
    rewrite orb_assoc. reflexivity.
Qed.

(** A comment with a number in it trips the override only through the
    text before or after the number. *)
Lemma harmless_around_number a z b :
  Decision.checkCriticalDeductions [a] = false ->
  Decision.checkCriticalDeductions [b] = false ->
  harmless (a +:+ JS.toString z +:+ b).
Proof.
  unfold harmless, Decision.checkCriticalDeductions, Decision.CRITICAL_SECURITY_PATTERNS.
  cbn [map existsb]. rewrite !orb_false_r, !toLowerCase_append.
  destruct (toString_numeric z) as [Hnum Hne].
  rewrite (toLowerCase_numeric _ Hnum).
  rewrite !includes_around_number by (first [discriminate|assumption|reflexivity]).
  intros Ha Hb.
  repeat match goal with
    | H : _ || _ = false |- _ => apply orb_false_iff in H; destruct H
    end.
  repeat match goal with H : _ = false |- _ => rewrite H; clear H end. reflexivity.
Qed.

(** The same for a line, which prints as a number or as
    [undefined]. *)
Lemma harmless_around_line a line b :
  Decision.checkCriticalDeductions [a] = false ->
  Decision.checkCriticalDeductions [b] = false ->
  Decision.checkCriticalDeductions [a +:+ "undefined" +:+ b] = false ->
  harmless (a +:+ show_line line +:+ b).
Proof.
  intros Ha Hb Hu. destruct line as [z|]; [apply harmless_around_number; assumption|exact Hu].
Qed.

(** A comment that contains a critical pattern trips the override. *)
Lemma trips_by pattern c :
  pattern ∈ Decision.CRITICAL_SECURITY_PATTERNS ->
  JS.includes (JS.toLowerCase c) (JS.toLowerCase pattern) = true ->
  Decision.checkCriticalDeductions [c] = true.
Proof.
  intros Hp Hinc. apply checkCriticalDeductions_spec. exists c, pattern.
  split; [left|]. split; assumption.
Qed.

(** A finding of penalty 8 whose comment trips the override is of the
    kind that does. *)
Lemma loud_finding c :
  Decision.checkCriticalDeductions [c] = true -> override_by_kind (issue 8 c).
Proof. intros H. split; [intros _; left; reflexivity|intros _; exact H]. Qed.

(** A finding of another penalty, whose comment around the line does
    not trip the override and is not that of a named secret, is of the kind
    that does not. *)
Lemma quiet_finding pen a line b :
  pen <> 8 ->
  Decision.checkCriticalDeductions [a] = false ->
  Decision.checkCriticalDeductions [b] = false ->
  Decision.checkCriticalDeductions [a +:+ "undefined" +:+ b] = false ->
  (forall rest, JS.startsWith (a +:+ rest) "Potential hardcoded secret in variable '" = false) ->
  override_by_kind (issue pen (a +:+ show_line line +:+ b)).
Proof.
  intros Hpen Ha Hb Hu Hstart. unfold override_by_kind. cbn [comment penalty issue].
  rewrite (harmless_around_line a line b Ha Hb Hu), Hstart.
  split; [discriminate|]. intros [H|H]; [contradiction|discriminate].
Qed.

Lemma name_in_child_process n :
  Security.name_in Security.CHILD_PROCESS_METHODS n = true ->
  show (prop n "name") ∈ ["exec"; "execSync"; "spawn"; "spawnSync"; "fork"].
Proof.
  unfold Security.name_in. destruct (prop_str n "name") as [nm|] eqn:Hnm; [|discriminate].
  intros Hin. apply bool_decide_eq_true in Hin. rewrite (prop_str_show _ _ _ Hnm).
  unfold Security.CHILD_PROCESS_METHODS in Hin. set_solver.
Qed.

Lemma shell_finding_is_quiet method line :
  method ∈ ["exec"; "execSync"; "spawn"; "spawnSync"; "fork"] ->
  override_by_kind (Security.shell_issue method line).
Proof.
  intros Hm. unfold Security.shell_issue.
  replace ("Shell command execution via '" +:+ method +:+ "()' at line " +:+ show_line line +:+
           ". Ensure input is sanitized to prevent command injection.")
    with (("Shell command execution via '" +:+ method +:+ "()' at line ") +:+ show_line line +:+
           ". Ensure input is sanitized to prevent command injection.")
    by (rewrite !append_assoc; reflexivity).
  repeat (apply elem_of_cons in Hm; destruct Hm as [->|Hm];
          [apply quiet_finding; [discriminate|reflexivity..|intros; reflexivity]|]).
  inversion Hm.
Qed.

Lemma eval_finding_is_loud name line :
  name = "eval" \/ name = "Function" ->
  override_by_kind
    (issue Security.EVAL_USAGE
       ("Dangerous '" +:+ name +:+ "()' usage detected at line " +:+ show_line line +:+
        ". This can execute arbitrary code and is a major security risk.")).
Proof.
  intros Hname. apply loud_finding. destruct Hname as [-> | ->].
  - apply (trips_by "eval"); [set_solver|]. rewrite !toLowerCase_append. apply includes_between.
  - apply (trips_by "Function()"); [unfold Decision.CRITICAL_SECURITY_PATTERNS; set_solver|].
    rewrite !toLowerCase_append. apply includes_iff.
    exists "dangerous '", ("' usage detected at line " +:+ JS.toLowerCase (show_line line) +:+
            JS.toLowerCase ". This can execute arbitrary code and is a major security risk.").
    reflexivity.
Qed.

Lemma new_Function_finding_is_loud line :
  override_by_kind
    (issue Security.EVAL_USAGE
       ("Dangerous 'new Function()' usage detected at line " +:+ show_line line +:+
        ". This is equivalent to eval() and can execute arbitrary code.")).
Proof.
  apply loud_finding.
  apply (trips_by "Function()"); [unfold Decision.CRITICAL_SECURITY_PATTERNS; set_solver|].
  rewrite !toLowerCase_append. apply includes_iff.
  exists "dangerous 'new ", ("' usage detected at line " +:+ JS.toLowerCase (show_line line) +:+
          JS.toLowerCase ". This is equivalent to eval() and can execute arbitrary code.").
  reflexivity.
Qed.

Lemma secret_variable_finding_is_loud varName line :
  override_by_kind
    (issue Security.HARDCODED_SECRET
       ("Potential hardcoded secret in variable '" +:+ varName +:+ "' at line " +:+
        show_line line +:+ ". Use environment variables instead.")).
Proof.
  split; [intros _; right; apply prefix_append|]. intros _.
  apply (trips_by "hardcoded secret"); [unfold Decision.CRITICAL_SECURITY_PATTERNS; set_solver|].
  cbn [comment issue]. rewrite !toLowerCase_append. apply includes_iff.
  exists "potential ", (" in variable '" +:+ JS.toLowerCase varName +:+ JS.toLowerCase "' at line " +:+
          JS.toLowerCase (show_line line) +:+ JS.toLowerCase ". Use environment variables instead.").
  reflexivity.
Qed.

Lemma Security_on_eval_by_kind p issues :
  Forall override_by_kind issues -> Forall override_by_kind (Security.on_eval p issues).
Proof.
  intros H. unfold Security.on_eval.
  destruct (bool_decide (type (node p) = "CallExpression")).
  - destruct (child (node p) "callee") as [callee|]; [|exact H].
    match goal with
    | |- Forall _ (if _ then ?l ++ _ else ?l) => set (issues1 := l)
    end.
    assert (H1 : Forall override_by_kind issues1).
    { subst issues1. destruct (bool_decide (type callee = "Identifier") && _) eqn:Hc; [|exact H].
      apply andb_true_iff in Hc. destruct Hc as [_ Hc].
      apply good_push; [exact H|].
      apply eval_finding_is_loud. apply name_in_dangerous. exact Hc. }
    clearbody issues1.
    destruct (_ && _); [|exact H1].
    apply good_push; [exact H1|]. apply new_Function_finding_is_loud.
  - destruct (bool_decide (type (node p) = "NewExpression")); [|exact H].
    destruct (child (node p) "callee") as [callee|]; [|exact H].
    destruct (_ && _); [|exact H].
    apply good_push; [exact H|]. apply new_Function_finding_is_loud.
Qed.

Lemma Security_on_child_process_by_kind p st :
  Forall override_by_kind (found st) ->
  Forall override_by_kind (found (Security.on_child_process p st)).
Proof.
  intros H. unfold Security.on_child_process.
  destruct (bool_decide _); [|exact H].
  destruct (child (node p) "callee") as [callee|]; [|exact H].
  assert (Hsecond : forall st1, Forall override_by_kind (found st1) ->
            Forall override_by_kind (found (finish
              (if bool_decide (type callee = "Identifier") &&
                  Security.name_in Security.CHILD_PROCESS_METHODS callee
               then Security.report_once (line_of (node p))
                      (Security.shell_issue (show (prop callee "name")) (line_of (node p))) st1
               else Continue st1)))).
  { intros st1 H1. destruct (_ && _) eqn:Hc; [|exact H1].
    apply andb_true_iff in Hc. destruct Hc as [_ Hc].
    apply report_once_good; [exact H1|].
    apply shell_finding_is_quiet. apply name_in_child_process. exact Hc. }
  destruct (bool_decide (type callee = "MemberExpression") && _); [|apply Hsecond; exact H].
  destruct (child callee "property") as [property|]; [|apply Hsecond; exact H].
  destruct (Security.name_in Security.CHILD_PROCESS_METHODS property) eqn:Hc;
    [|apply Hsecond; exact H].
  apply report_once_then_good; [exact H| |exact Hsecond].
  apply shell_finding_is_quiet. apply name_in_child_process. exact Hc.
Qed.

Lemma Security_on_secret_by_kind p st :
  Forall override_by_kind (found st) ->
  Forall override_by_kind (found (Security.on_secret p st)).
Proof.
  intros H. unfold Security.on_secret. split_cases; try exact H.
  - apply report_once_good; [exact H|]. apply secret_variable_finding_is_loud.
  - apply report_once_good; [exact H|].
    apply quiet_finding; [discriminate|reflexivity..|intros; reflexivity].
Qed.

Lemma Security_on_unsanitized_by_kind p st :
  Forall override_by_kind (found st) ->
  Forall override_by_kind (found (Security.on_unsanitized p st)).
Proof.
  intros H. unfold Security.on_unsanitized.
  destruct (bool_decide (type (node p) = "TemplateLiteral")).
  - apply (foldl_invariant (fun st => Forall override_by_kind (found st))); [assumption|].
    intros s a Hs. unfold Security.on_template_expression.
    destruct (Security.isUserInput _); [|exact Hs].
    apply report_once_good; [exact Hs|].
    apply quiet_finding; [discriminate|reflexivity..|intros; reflexivity].
  - split_cases; try exact H;
      repeat first
        [ assumption
        | apply report_once_then_good; [| |intros ? ?]
        | apply report_once_good
        | apply quiet_finding; [discriminate|reflexivity..|intros; reflexivity]
        | progress simpl ].
Qed.

(** Every finding of the server detector trips the override, or does
    not, by its kind. *)
Lemma Security_analyzeSecurity_by_kind ast :
  Forall override_by_kind (Security.analyzeSecurity ast).
Proof.
  unfold Security.analyzeSecurity, Security.checkUnsanitizedInput,
    Security.checkHardcodedSecrets, Security.checkChildProcessUsage, Security.checkEvalUsage.
  apply (visit_invariant (fun st => Forall override_by_kind (found st)));
    [|intros; apply Security_on_unsanitized_by_kind; assumption].
  apply (visit_invariant (fun st => Forall override_by_kind (found st)));
    [|intros; apply Security_on_secret_by_kind; assumption].
  apply (visit_invariant (fun st => Forall override_by_kind (found st)));
    [|intros; apply Security_on_child_process_by_kind; assumption].
  apply (visit_invariant (Forall override_by_kind));
    [constructor|intros; apply Security_on_eval_by_kind; assumption].
Qed.

(** [checkCriticalDeductions] holds of a list exactly when it holds of
    one of its comments. *)
Lemma checkCriticalDeductions_some comments :
  Decision.checkCriticalDeductions comments = true <->
  exists c, c ∈ comments /\ Decision.checkCriticalDeductions [c] = true.
Proof.
  rewrite checkCriticalDeductions_spec. split.
  - intros [c [pattern [Hc [Hp H]]]]. exists c. split; [exact Hc|].
    apply checkCriticalDeductions_spec. exists c, pattern. split; [left|]. split; assumption.
  - intros [c [Hc H]]. apply checkCriticalDeductions_spec in H.
    destruct H as [c' [pattern [Hc' [Hp H]]]].
    apply list_elem_of_singleton in Hc'. subst c'. exists c, pattern. auto.
Qed.

(** X28.  Of the findings of the server's security detector, the ones
    whose comment matches a critical pattern of the decision engine are
    the findings for [eval] and [Function] (penalty 8) and the findings
    for a secret in a named variable; the findings for shell commands,
    for string literals that look like keys and for unsanitized input
    never match.  So the critical override is taken exactly when the
    detector has a finding of one of the first two kinds. *)
Theorem Server_override_needs_code_execution_or_a_named_secret ast :
  let issues := Security.analyzeSecurity ast in
  let tripping (i : Issue) :=
    penalty i = 8 \/
    JS.startsWith (comment i) "Potential hardcoded secret in variable '" = true in
  Forall (fun i => Decision.checkCriticalDeductions [comment i] = true <-> tripping i) issues /\
  (Decision.checkCriticalDeductions (map comment issues) = true <->
   exists i, i ∈ issues /\ tripping i).
Proof.
  intros issues tripping. subst issues tripping.
  pose proof (Security_analyzeSecurity_by_kind ast) as Hall. split; [exact Hall|].
  rewrite Forall_forall in Hall. rewrite checkCriticalDeductions_some. split.
  - intros [c [Hc H]]. apply list_elem_of_fmap in Hc. destruct Hc as [i [-> Hi]].
    exists i. split; [exact Hi|]. apply (Hall i Hi). exact H.
  - intros [i [Hi H]]. exists (comment i). split; [apply list_elem_of_fmap; eauto|].
    apply (Hall i Hi). exact H.
Qed.

(** ** The edge-case checks: guards and validations *)

Lemma no_colon_append a b : no_colon (a +:+ ":" +:+ b) = false.
Proof.
  induction a as [|c a IH]; [reflexivity|].
  change (String c a +:+ ":" +:+ b) with (String c (a +:+ ":" +:+ b)).
  unfold no_colon in *. simpl. rewrite IH. apply andb_false_r.
Qed.

(** A key splits at its last colon. *)
Lemma split_at_last_colon a a' d d' :
  no_colon d = true -> no_colon d' = true ->
  a +:+ ":" +:+ d = a' +:+ ":" +:+ d' -> a = a' /\ d = d'.
Proof.
  intros Hd Hd'. revert a'. induction a as [|c a IH]; intros [|c' a'] Heq.
  - change (String ":" d = String ":" d') in Heq. injection Heq as ->. split; reflexivity.
  - change (String c' a' +:+ ":" +:+ d') with (String c' (a' +:+ ":" +:+ d')) in Heq.
    change (EmptyString +:+ ":" +:+ d) with (String ":" d) in Heq.
    injection Heq as _ ->. rewrite no_colon_append in Hd. discriminate.
  - change (String c a +:+ ":" +:+ d) with (String c (a +:+ ":" +:+ d)) in Heq.
    change (EmptyString +:+ ":" +:+ d') with (String ":" d') in Heq.
    injection Heq as _ <-. rewrite no_colon_append in Hd'. discriminate.
  - change (String c a +:+ ":" +:+ d) with (String c (a +:+ ":" +:+ d)) in Heq.
    change (String c' a' +:+ ":" +:+ d') with (String c' (a' +:+ ":" +:+ d')) in Heq.
    injection Heq as -> Heq. destruct (IH a' Heq) as [-> ->]. split; reflexivity.
Qed.

Lemma every_weaken (p q : ascii -> bool) s :
  (forall c, p c = true -> q c = true) -> every p s = true -> every q s = true.
Proof.
  intros Hpq. induction s as [|c s IH]; [reflexivity|]. simpl.
  intros H. apply andb_true_iff in H. destruct H as [Hc Hs].
  rewrite (Hpq c Hc), (IH Hs). reflexivity.
Qed.

Lemma show_line_no_colon line : no_colon (show_line line) = true.
Proof.
  destruct line as [z|]; [|reflexivity]. simpl.
  apply (every_weaken numeric); [|apply toString_numeric].
  intros c Hc. unfold numeric in Hc.
  destruct (Ascii.eqb c ":") eqn:Heq; [|reflexivity].
  apply Ascii.eqb_eq in Heq. subst c. discriminate.
Qed.

(** The finding of an access is told by its key. *)
Lemma access_finding_of_key p q : access_key p = access_key q -> access_finding p = access_finding q.
Proof.
  unfold access_key, access_finding. intros Heq.
  apply split_at_last_colon in Heq; try apply show_line_no_colon.
  destruct Heq as [-> ->]. reflexivity.
Qed.

(** The visitor of the second pass, as one test. *)
Lemma on_access_step checked p st :
  EdgeCases.on_access checked p st =
    if unguarded_access checked p && negb (bool_decide (access_key p ∈ reported st))
    then report (access_key p) (access_finding p) st
    else st.
Proof.
  unfold EdgeCases.on_access, unguarded_access, access_key, access_finding, access_name.
  destruct (bool_decide (type (node p) = "MemberExpression")); [|reflexivity].
  destruct (child (node p) "object") as [object|]; [|reflexivity].
  destruct (prop_true (node p) "computed" && bool_decide (type object = "Identifier"));
    [|reflexivity].
  cbn [andb].
  destruct (bool_decide (_ ∈ reported st)); [rewrite andb_false_r; reflexivity|].
  destruct (bool_decide (prop_str object "name" ∈ checked)); [reflexivity|].
  destruct (EdgeCases.isSafeArrayAccess p); reflexivity.
Qed.

(** The invariant of the second pass of [checkUncheckedArrayAccess]. *)
Lemma accesses_of_visit checked issues paths :
  accesses_of checked issues paths
    (visit (EdgeCases.on_access checked) paths (mkReporting issues ∅)).
Proof.
  induction paths as [|p paths IH] using rev_ind.
  - split; cbn [visit foldl found reported].
    + intros f. split; [auto|]. intros [H|[p [Hp _]]]; [exact H|inversion Hp].
    + reflexivity.
    + rewrite size_empty. lia.
  - rewrite visit_snoc, on_access_step.
    set (st := visit _ paths _) in *. destruct IH as [Hfound Hkeys Hcount].
    assert (Hfilter : map access_key (List.filter (unguarded_access checked) (paths ++ [p])) =
                      map access_key (List.filter (unguarded_access checked) paths) ++
                      (if unguarded_access checked p then [access_key p] else [])).
    { rewrite List.filter_app, map_app. cbn [List.filter].
      destruct (unguarded_access checked p); reflexivity. }
    destruct (unguarded_access checked p) eqn:Hp; cbn [andb].
    + destruct (bool_decide (access_key p ∈ reported st)) eqn:Hseen; cbn [negb].
      * apply bool_decide_eq_true in Hseen. split.
        -- intros f. rewrite Hfound. split.
           ++ intros [H|[q [Hq [Hu ->]]]]; [left; exact H|].
              right. exists q. rewrite elem_of_app. auto.
           ++ intros [H|[q [Hq [Hu ->]]]]; [left; exact H|].
              apply elem_of_app in Hq. destruct Hq as [Hq|Hq]; [right; eauto|].
              apply list_elem_of_singleton in Hq. subst q.
              rewrite Hkeys in Hseen. apply elem_of_list_to_set in Hseen.
              apply list_elem_of_fmap in Hseen. destruct Hseen as [q [Hkey Hq]].
              apply list_elem_of_In, List.filter_In in Hq. destruct Hq as [Hq Hu'].
              right. exists q. split; [apply list_elem_of_In; exact Hq|].
              split; [exact Hu'|]. apply access_finding_of_key. exact Hkey.
        -- rewrite Hfilter, list_to_set_app_L, <- Hkeys. cbn [list_to_set]. set_solver.
        -- exact Hcount.
      * apply bool_decide_eq_false in Hseen. unfold report. split; cbn [found reported].
        -- intros f. rewrite elem_of_app, Hfound, list_elem_of_singleton. split.
           ++ intros [[H|[q [Hq [Hu ->]]]]| ->]; [left; exact H| |].
              ** right. exists q. rewrite elem_of_app. auto.
              ** right. exists p. rewrite elem_of_app, list_elem_of_singleton. auto.
           ++ intros [H|[q [Hq [Hu ->]]]]; [left; left; exact H|].
              apply elem_of_app in Hq. destruct Hq as [Hq|Hq]; [left; right; eauto|].
              apply list_elem_of_singleton in Hq. subst q. right. reflexivity.
        -- rewrite Hfilter, list_to_set_app_L, <- Hkeys. cbn [list_to_set]. set_solver.
        -- rewrite length_app, Hcount. cbn [length].
           rewrite size_union by set_solver. rewrite size_singleton. lia.
    + rewrite app_nil_r in Hfilter. split.
      * intros f. rewrite Hfound. split.
        -- intros [H|[q [Hq [Hu ->]]]]; [left; exact H|].
           right. exists q. rewrite elem_of_app. auto.
        -- intros [H|[q [Hq [Hu ->]]]]; [left; exact H|].
           apply elem_of_app in Hq. destruct Hq as [Hq|Hq]; [right; eauto|].
           apply list_elem_of_singleton in Hq. subst q. congruence.
      * rewrite Hfilter. exact Hkeys.
      * exact Hcount.
Qed.

(** The first pass only adds names. *)
Lemma on_guard_grows q checked name : name ∈ checked -> name ∈ EdgeCases.on_guard q checked.
Proof.
  intros H. unfold EdgeCases.on_guard. repeat case_match; set_solver.
Qed.

(** The tests of the rule, spelled out. *)
Lemma isNullish_spelled n : EdgeCases.isNullish n = true <-> nullish n.
Proof.
  unfold EdgeCases.isNullish, nullish, Security.name_is.
  rewrite orb_true_iff, andb_true_iff, !bool_decide_eq_true. reflexivity.
Qed.

Lemma field_is_node_spelled a k p : field_is_node a k p = true <-> held_in a k p.
Proof.
  unfold field_is_node, held_in.
  destruct (child_index k 0 (kids (node a))) as [i|].
  - rewrite bool_decide_eq_true. split.
    + intros H. exists i. auto.
    + intros [j [[= <-] H]]. auto.
  - split; [discriminate|]. intros [j [H _]]. discriminate.
Qed.

Lemma isInCondition_spelled p : EdgeCases.isInCondition p = true <-> in_condition p.
Proof.
  unfold EdgeCases.isInCondition, in_condition. rewrite existsb_exists.
  split.
  - intros [a [Ha H]]. exists a. split; [apply list_elem_of_In; exact Ha|].
    cbv zeta in H. rewrite !orb_true_iff, !andb_true_iff, !bool_decide_eq_true in H.
    rewrite !field_is_node_spelled in H. tauto.
  - intros [a [Ha H]]. exists a. split; [apply list_elem_of_In; exact Ha|].
    cbv zeta. rewrite !orb_true_iff, !andb_true_iff, !bool_decide_eq_true.
    rewrite !field_is_node_spelled. tauto.
Qed.

Lemma length_member_spelled side : EdgeCases.length_member side = true <-> length_read side.
Proof.
  unfold EdgeCases.length_member, length_read, EdgeCases.prop_is.
  destruct side as [m|].
  - rewrite andb_true_iff, bool_decide_eq_true.
    destruct (child m "property") as [property|] eqn:Hproperty.
    + rewrite bool_decide_eq_true. split.
      * intros [Ht Hn]. exists m, property. repeat split; first [reflexivity|assumption].
      * intros [m' [property' [[= <-] [Ht [Hp Hn]]]]].
        rewrite Hproperty in Hp. injection Hp as <-. split; first [reflexivity|assumption].
    + split; [intros [_ H]; discriminate|].
      intros [m' [property' [[= <-] [_ [H _]]]]]. congruence.
  - split; [discriminate|]. intros [m [property [H _]]]. discriminate.
Qed.

Lemma isSafeArrayAccess_spelled p : EdgeCases.isSafeArrayAccess p = true <-> under_length_loop p.
Proof.
  unfold EdgeCases.isSafeArrayAccess, under_length_loop. rewrite existsb_exists. split.
  - intros [a [Ha H]]. apply andb_true_iff in H. destruct H as [Ht H].
    apply bool_decide_eq_true in Ht.
    destruct (child (node a) "test") as [test|] eqn:Htest; [|discriminate].
    apply andb_true_iff in H. destruct H as [Hb H]. apply bool_decide_eq_true in Hb.
    apply orb_true_iff in H. rewrite !length_member_spelled in H.
    exists a, test. split; [apply list_elem_of_In; exact Ha|]. repeat split; first [reflexivity|assumption].
  - intros [a [test [Ha [Ht [Htest [Hb H]]]]]]. exists a.
    split; [apply list_elem_of_In; exact Ha|].
    rewrite Htest, andb_true_iff, andb_true_iff, orb_true_iff, !bool_decide_eq_true.
    rewrite !length_member_spelled. repeat split; first [reflexivity|assumption].
Qed.

Lemma prop_is_spelled o k v :
  EdgeCases.prop_is o k v = true <-> exists m, o = Some m /\ prop_str m k = Some v.
Proof.
  unfold EdgeCases.prop_is. destruct o as [m|].
  - rewrite bool_decide_eq_true. split; [eauto|]. intros [m' [[= <-] H]]. exact H.
  - split; [discriminate|]. intros [m [H _]]. discriminate.
Qed.

Lemma has_type_spelled o t : has_type o t = true <-> exists m, o = Some m /\ type m = t.
Proof.
  unfold has_type. destruct o as [m|].
  - rewrite bool_decide_eq_true. split; [eauto|]. intros [m' [[= <-] H]]. exact H.
  - split; [discriminate|]. intros [m [H _]]. discriminate.
Qed.

(** What the first pass makes of a [MemberExpression]. *)
Lemma on_guard_member q checked name :
  type (node q) = "MemberExpression" ->
  name ∈ EdgeCases.on_guard q checked <-> name ∈ checked \/ length_test name q.
Proof.
  intros Hmember. unfold EdgeCases.on_guard, length_test. cbv zeta.
  rewrite (bool_decide_eq_true_2 _ Hmember).
  destruct (child (node q) "property") as [property|] eqn:Hproperty.
  2:{ split; [auto|]. intros [H|H]; [exact H|].
      destruct H as (? & ? & _ & _ & H & _). discriminate. }
  destruct (child (node q) "object") as [object|] eqn:Hobject.
  2:{ split; [auto|]. intros [H|H]; [exact H|].
      destruct H as (? & ? & _ & H & _). discriminate. }
  destruct (bool_decide (type property = "Identifier") && Security.name_is property "length" &&
            bool_decide (type object = "Identifier")) eqn:Hshape.
  - apply andb_true_iff in Hshape. destruct Hshape as [Hshape Hto].
    apply andb_true_iff in Hshape. destruct Hshape as [Htp Hnp].
    apply bool_decide_eq_true in Hto, Htp, Hnp.
    destruct (EdgeCases.isInCondition q) eqn:Hcond.
    + apply isInCondition_spelled in Hcond. rewrite elem_of_union, elem_of_singleton. split.
      * intros [->|H]; [right|left; exact H].
        exists object, property. repeat split; first [reflexivity|assumption].
      * intros [H|H]; [right; exact H|]. left.
        destruct H as (o & pr & _ & [= <-] & _ & _ & Hname & _). symmetry. exact Hname.
    + split; [auto|]. intros [H|H]; [exact H|].
      destruct H as (o & pr & _ & _ & _ & _ & _ & _ & _ & H).
      apply isInCondition_spelled in H. congruence.
  - split; [auto|]. intros [H|H]; [exact H|].
    destruct H as (o & pr & _ & [= <-] & [= <-] & Hto & _ & Htp & Hnp & _).
    unfold Security.name_is in Hshape.
    rewrite !bool_decide_eq_true_2 in Hshape by assumption. discriminate.
Qed.

(** What the first pass makes of a [CallExpression]. *)
Lemma on_guard_call q checked name :
  type (node q) = "CallExpression" ->
  name ∈ EdgeCases.on_guard q checked <-> name ∈ checked \/ isArray_test name q.
Proof.
  intros Hcall. unfold EdgeCases.on_guard, isArray_test. cbv zeta.
  rewrite bool_decide_eq_false_2 by (rewrite Hcall; discriminate).
  rewrite (bool_decide_eq_true_2 _ Hcall).
  destruct (child (node q) "callee") as [callee|] eqn:Hcallee.
  2:{ split; [auto|]. intros [H|H]; [exact H|].
      destruct H as (? & ? & ? & ? & _ & H & _). discriminate. }
  destruct (bool_decide (type callee = "MemberExpression") &&
            EdgeCases.prop_is (child callee "object") "name" "Array" &&
            EdgeCases.prop_is (child callee "property") "name" "isArray" &&
            has_type (head (children (node q) "arguments")) "Identifier") eqn:Hshape.
  - apply andb_true_iff in Hshape. destruct Hshape as [Hshape Harg].
    apply andb_true_iff in Hshape. destruct Hshape as [Hshape Hprop].
    apply andb_true_iff in Hshape. destruct Hshape as [Htc Hobj].
    apply bool_decide_eq_true in Htc.
    apply prop_is_spelled in Hobj, Hprop. apply has_type_spelled in Harg.
    destruct Hobj as [object [Hobject Hon]]. destruct Hprop as [property [Hproperty Hpn]].
    destruct Harg as [argument [Hargument Hta]].
    destruct (EdgeCases.isInCondition q) eqn:Hcond.
    + apply isInCondition_spelled in Hcond. rewrite elem_of_union, elem_of_singleton.
      rewrite Hargument. cbn [mbind option_bind]. split.
      * intros [->|H]; [right|left; exact H].
        exists callee, object, property, argument.
        repeat split; first [reflexivity|assumption].
      * intros [H|H]; [right; exact H|]. left.
        destruct H as (c & o & pr & a & _ & _ & _ & _ & _ & _ & _ & [= <-] & _ & Hname & _).
        symmetry. exact Hname.
    + split; [auto|]. intros [H|H]; [exact H|].
      destruct H as (c & o & pr & a & _ & _ & _ & _ & _ & _ & _ & _ & _ & _ & H).
      apply isInCondition_spelled in H. congruence.
  - split; [auto|]. intros [H|H]; [exact H|].
    destruct H as (c & o & pr & a & _ & [= <-] & Htc & Ho & Hon & Hp & Hpn & Ha & Hta & _).
    rewrite (bool_decide_eq_true_2 _ Htc) in Hshape.
    rewrite (proj2 (prop_is_spelled _ _ _)) in Hshape by eauto.
    rewrite (proj2 (prop_is_spelled _ _ _)) in Hshape by eauto.
    rewrite (proj2 (has_type_spelled _ _)) in Hshape by eauto.
    discriminate.
Qed.

(** What the first pass makes of a [BinaryExpression]. *)
Lemma on_guard_binary q checked name :
  type (node q) = "BinaryExpression" ->
  name ∈ EdgeCases.on_guard q checked <-> name ∈ checked \/ null_test name q.
Proof.
  intros Hbinary. unfold EdgeCases.on_guard, null_test. cbv zeta.
  rewrite bool_decide_eq_false_2 by (rewrite Hbinary; discriminate).
  rewrite bool_decide_eq_false_2 by (rewrite Hbinary; discriminate).
  rewrite (bool_decide_eq_true_2 _ Hbinary).
  destruct (prop_str (node q) "operator") as [operator|] eqn:Hoperator.
  2:{ split; [auto|]. intros [H|H]; [exact H|].
      destruct H as (? & ? & ? & _ & H & _). discriminate. }
  destruct (child (node q) "left") as [lhs|] eqn:Hleft.
  2:{ split; [auto|]. intros [H|H]; [exact H|].
      destruct H as (? & ? & ? & _ & _ & _ & H & _). discriminate. }
  destruct (child (node q) "right") as [rhs|] eqn:Hright.
  2:{ split; [auto|]. intros [H|H]; [exact H|].
      destruct H as (? & ? & ? & _ & _ & _ & _ & H & _). discriminate. }
  destruct (bool_decide (operator ∈ ["==="; "!=="; "=="; "!="])) eqn:Hop.
  2:{ apply bool_decide_eq_false in Hop. split; [auto|]. intros [H|H]; [exact H|].
      destruct H as (? & ? & ? & _ & [= <-] & H & _). contradiction. }
  apply bool_decide_eq_true in Hop.
  assert (Hl : bool_decide (type lhs = "Identifier") && EdgeCases.isNullish rhs = true <->
               type lhs = "Identifier" /\ nullish rhs).
  { rewrite andb_true_iff, bool_decide_eq_true, isNullish_spelled. reflexivity. }
  assert (Hr : bool_decide (type rhs = "Identifier") && EdgeCases.isNullish lhs = true <->
               type rhs = "Identifier" /\ nullish lhs).
  { rewrite andb_true_iff, bool_decide_eq_true, isNullish_spelled. reflexivity. }
  assert (Hspelled :
    (exists operator' lhs' rhs',
       True /\ Some operator = Some operator' /\ operator' ∈ ["==="; "!=="; "=="; "!="] /\
       Some lhs = Some lhs' /\ Some rhs = Some rhs' /\
       ((type lhs' = "Identifier" /\ prop_str lhs' "name" = name /\ nullish rhs') \/
        (type rhs' = "Identifier" /\ prop_str rhs' "name" = name /\ nullish lhs'))) <->
    ((type lhs = "Identifier" /\ nullish rhs) /\ prop_str lhs "name" = name) \/
    ((type rhs = "Identifier" /\ nullish lhs) /\ prop_str rhs "name" = name)).
  { split.
    - intros (o & l & r & _ & _ & _ & [= <-] & [= <-] & H). tauto.
    - intros H. exists operator, lhs, rhs. tauto. }
  assert (Hgoal : forall P : Prop,
            (P <-> name ∈ checked \/
                   ((type lhs = "Identifier" /\ nullish rhs) /\ prop_str lhs "name" = name) \/
                   ((type rhs = "Identifier" /\ nullish lhs) /\ prop_str rhs "name" = name)) ->
            (P <-> name ∈ checked \/
                   exists operator' lhs' rhs',
                     "BinaryExpression" = "BinaryExpression" /\
                     Some operator = Some operator' /\
                     operator' ∈ ["==="; "!=="; "=="; "!="] /\
                     Some lhs = Some lhs' /\ Some rhs = Some rhs' /\
                     ((type lhs' = "Identifier" /\ prop_str lhs' "name" = name /\ nullish rhs') \/
                      (type rhs' = "Identifier" /\ prop_str rhs' "name" = name /\ nullish lhs')))).
  { intros P ->. split.
    - intros [H|H]; [left; exact H|right]. apply Hspelled in H.
      destruct H as (o & l & r & H). exists o, l, r. tauto.
    - intros [H|H]; [left; exact H|right]. apply Hspelled.
      destruct H as (o & l & r & H). exists o, l, r. tauto. }
  rewrite Hbinary. apply Hgoal.
  destruct (bool_decide (type lhs = "Identifier") && EdgeCases.isNullish rhs) eqn:Hlb;
    destruct (bool_decide (type rhs = "Identifier") && EdgeCases.isNullish lhs) eqn:Hrb;
    rewrite ?elem_of_union, ?elem_of_singleton.
  - pose proof (proj1 Hl eq_refl) as Hl'. pose proof (proj1 Hr eq_refl) as Hr'.
    split; [intros [->|[->|H]]|intros [H|[[_ <-]|[_ <-]]]]; tauto.
  - pose proof (proj1 Hl eq_refl) as Hl'.
    assert (Hr' : ~ (type rhs = "Identifier" /\ nullish lhs)) by (rewrite <- Hr; discriminate).
    split; [intros [->|H]|intros [H|[[_ <-]|[? _]]]]; tauto.
  - pose proof (proj1 Hr eq_refl) as Hr'.
    assert (Hl' : ~ (type lhs = "Identifier" /\ nullish rhs)) by (rewrite <- Hl; discriminate).
    split; [intros [->|H]|intros [H|[[? _]|[_ <-]]]]; tauto.
  - assert (Hr' : ~ (type rhs = "Identifier" /\ nullish lhs)) by (rewrite <- Hr; discriminate).
    assert (Hl' : ~ (type lhs = "Identifier" /\ nullish rhs)) by (rewrite <- Hl; discriminate).
    tauto.
Qed.

(** The first pass adds to the checked names exactly those the node
    guards. *)
Lemma on_guard_spelled q checked name :
  name ∈ EdgeCases.on_guard q checked <-> name ∈ checked \/ guards name q.
Proof.
  unfold guards.
  destruct (decide (type (node q) = "MemberExpression")) as [Hm|Hm];
    [|destruct (decide (type (node q) = "CallExpression")) as [Hc|Hc];
      [|destruct (decide (type (node q) = "BinaryExpression")) as [Hb|Hb]]].
  - rewrite on_guard_member by exact Hm. split; [tauto|].
    intros [H|[H|[H|H]]]; [tauto|tauto| |].
    + destruct H as (? & ? & ? & ? & Ht & _). congruence.
    + destruct H as (? & ? & ? & Ht & _). congruence.
  - rewrite on_guard_call by exact Hc. split; [tauto|].
    intros [H|[H|[H|H]]]; [tauto| |tauto|].
    + destruct H as (? & ? & Ht & _). congruence.
    + destruct H as (? & ? & ? & Ht & _). congruence.
  - rewrite on_guard_binary by exact Hb. split; [tauto|].
    intros [H|[H|[H|H]]]; [tauto| | |tauto].
    + destruct H as (? & ? & Ht & _). congruence.
    + destruct H as (? & ? & ? & ? & Ht & _). congruence.
  - unfold EdgeCases.on_guard. cbv zeta.
    rewrite !bool_decide_eq_false_2 by assumption. split; [tauto|].
    intros [H|[H|[H|H]]]; [tauto| | |].
    + destruct H as (? & ? & Ht & _). contradiction.
    + destruct H as (? & ? & ? & ? & Ht & _). contradiction.
    + destruct H as (? & ? & ? & Ht & _). contradiction.
Qed.

(** The names the first pass has checked are those some node of the file
    guards. *)
Lemma checked_are_the_guarded paths name :
  name ∈ visit EdgeCases.on_guard paths ∅ <-> exists q, q ∈ paths /\ guards name q.
Proof.
  induction paths as [|p paths IH] using rev_ind.
  - cbn [visit foldl]. split; [set_solver|]. intros [q [H _]]. inversion H.
  - rewrite visit_snoc, on_guard_spelled, IH. split.
    + intros [[q [Hq H]]|H]; [exists q|exists p]; rewrite elem_of_app, list_elem_of_singleton; auto.
    + intros [q [Hq H]]. apply elem_of_app in Hq. destruct Hq as [Hq|Hq]; [left; eauto|].
      apply list_elem_of_singleton in Hq. subst q. right. exact H.
Qed.

(** The test of the second pass, spelled out. *)
Lemma unguarded_access_spelled paths p :
  unguarded_access (visit EdgeCases.on_guard paths ∅) p = true <->
  exists name,
    array_access name p /\ ~ (exists q, q ∈ paths /\ guards name q) /\ ~ under_length_loop p.
Proof.
  unfold unguarded_access, array_access.
  rewrite andb_true_iff, bool_decide_eq_true.
  destruct (child (node p) "object") as [object|] eqn:Hobject.
  - rewrite !andb_true_iff, !negb_true_iff, bool_decide_eq_true.
    rewrite <- not_true_iff_false, bool_decide_eq_true, checked_are_the_guarded.
    rewrite <- not_true_iff_false, isSafeArrayAccess_spelled. split.
    + intros [Ht [[[Hcomputed Hto] Hguard] Hloop]]. exists (prop_str object "name").
      split; [exists object; repeat split; first [reflexivity|assumption]|]. auto.
    + intros [name [[o [Ht [Hcomputed [[= <-] [Hto <-]]]]] [Hguard Hloop]]]. auto.
  - split; [intros [_ H]; discriminate|].
    intros [name [[o [_ [_ [H _]]]] _]]. discriminate.
Qed.

(** X29.  The array check reports the accesses [name[index]] (a computed
    member expression on an identifier) whose name no node of the file
    guards and that are not under a [for] statement whose test compares
    with a [length], and nothing else; it reports one finding for each
    name and line.  A guard of a name is [name.length] or
    [Array.isArray(name)] read as a condition (the test of an [if] or of
    a conditional expression, or anything under a logical expression),
    or a comparison of the name with [null] or [undefined], the name on
    either side; it counts wherever it stands in the file, before or
    after the access. *)
Theorem EdgeCases_array_access_is_reported_unless_guarded ast :
  let paths := traverse_paths ast in
  let guarded (name : option string) := exists q, q ∈ paths /\ guards name q in
  let unguarded (p : Path) :=
    exists name, array_access name p /\ ~ guarded name /\ ~ under_length_loop p in
  (forall f, f ∈ EdgeCases.checkUncheckedArrayAccess ast [] <->
     exists p, p ∈ paths /\ unguarded p /\ f = access_finding p) /\
  (exists keys : gset string,
     (forall key, key ∈ keys <-> exists p, p ∈ paths /\ unguarded p /\ key = access_key p) /\
     length (EdgeCases.checkUncheckedArrayAccess ast []) = size keys) /\
  (forall p, penalty (access_finding p) = 3 /\ severity (access_finding p) = None).
Proof.
  intros paths guarded unguarded.
  destruct (accesses_of_visit (visit EdgeCases.on_guard paths ∅) [] paths)
    as [Hfound Hkeys Hcount].
  unfold EdgeCases.checkUncheckedArrayAccess. fold paths.
  split; [|split].
  - intros f. rewrite Hfound. split.
    + intros [H|[p [Hp [Hu Hf]]]]; [inversion H|].
      exists p. split; [exact Hp|]. split; [|exact Hf].
      apply unguarded_access_spelled. exact Hu.
    + intros [p [Hp [Hu Hf]]]. right. exists p. split; [exact Hp|]. split; [|exact Hf].
      apply unguarded_access_spelled. exact Hu.
  - eexists. split; [|rewrite Hcount; reflexivity].
    intros key. rewrite Hkeys, elem_of_list_to_set, list_elem_of_fmap. split.
    + intros [p [-> Hp]]. apply list_elem_of_In, List.filter_In in Hp.
      destruct Hp as [Hp Hu]. exists p. split; [apply list_elem_of_In; exact Hp|].
      split; [|reflexivity]. apply unguarded_access_spelled. exact Hu.
    + intros [p [Hp [Hu ->]]]. exists p. split; [reflexivity|].
      apply list_elem_of_In, List.filter_In. split; [apply list_elem_of_In; exact Hp|].
      apply unguarded_access_spelled. exact Hu.
  - intros p. split; reflexivity.
Qed.

(** X29 on [xs[0];], which is reported, with the samples in which a guard
    or a loop silences the access: [xs != null] and [null != xs] after
    it, [if (xs.length)], [if (Array.isArray(xs))] and a loop up to the
    length of another array; the statement [xs.length;] is no guard. *)
Lemma EdgeCases_array_access_is_reported_unless_guarded_witness :
  (exists p name,
     p ∈ traverse_paths Cases.bare_access /\
     array_access name p /\
     ~ (exists q, q ∈ traverse_paths Cases.bare_access /\ guards name q) /\
     ~ under_length_loop p /\
     issue 3 "Array 'xs' accessed at line 1 without prior length or null check." =
       access_finding p) /\
  guards (Some "xs") (path_at Cases.late_guard_on_the_right 6) /\
  EdgeCases.checkUncheckedArrayAccess Cases.late_guard [] = [] /\
  EdgeCases.checkUncheckedArrayAccess Cases.late_guard_on_the_right [] = [] /\
  EdgeCases.checkUncheckedArrayAccess Cases.length_condition [] = [] /\
  EdgeCases.checkUncheckedArrayAccess Cases.isArray_condition [] = [] /\
  EdgeCases.checkUncheckedArrayAccess Cases.length_loop [] = [] /\
  EdgeCases.checkUncheckedArrayAccess Cases.length_statement [] =
    [issue 3 "Array 'xs' accessed at line 2 without prior length or null check."].
Proof.
  split; [|split; [|vm_compute; repeat split; reflexivity]].
  - destruct (proj1 (proj1 (EdgeCases_array_access_is_reported_unless_guarded Cases.bare_access)
                       (issue 3 "Array 'xs' accessed at line 1 without prior length or null check.")))
      as [p [Hp [[name [Haccess [Hguard Hloop]]] Hfinding]]].
    + apply list_elem_of_In. vm_compute. left. reflexivity.
    + exists p, name. repeat split; assumption.
  - right. right. exists "!=", (Cases.NullLiteral 2), (Samples.Identifier 2 "xs").
    repeat split; try reflexivity; [set_solver|].
    right. repeat split; try reflexivity. left. reflexivity.
Defined.

Lemma input_finding_of_key p q : input_key p = input_key q -> input_finding p = input_finding q.
Proof.
  unfold input_key, input_finding. intros Heq.
  apply split_at_last_colon in Heq; try apply show_line_no_colon.
  destruct Heq as [-> ->]. reflexivity.
Qed.

(** The visitor of [checkUncheckedExternalInput], as one cascade of
    tests. *)
Lemma on_input_step p st :
  EdgeCases.on_input p st =
    if external_input p then
      if EdgeCases.isBeingValidated p then
        EdgeCases.mkInputState (EdgeCases.input_issues st)
          ({[ input_path p ]} ∪ EdgeCases.validatedInputs st)
      else if bool_decide (input_path p ∈ EdgeCases.validatedInputs st) then st
      else if bool_decide (input_key p ∈ reported (EdgeCases.input_issues st)) then st
      else
        EdgeCases.mkInputState
          (report (input_key p) (input_finding p) (EdgeCases.input_issues st))
          (EdgeCases.validatedInputs st)
    else st.
Proof.
  unfold EdgeCases.on_input, external_input, input_key, input_finding, input_path.
  destruct (bool_decide (type (node p) = "MemberExpression")); [|reflexivity].
  destruct (child (node p) "object") as [object|]; [|reflexivity].
  destruct (child (node p) "property") as [property|]; [|reflexivity].
  cbn [andb]. destruct (_ && _); reflexivity.
Qed.

(** The places of a list with one more item at its end. *)
Lemma split_snoc {A} (Q : list A -> A -> Prop) (l : list A) (x : A) :
  (exists before p after, l ++ [x] = before ++ p :: after /\ Q before p) <->
  (exists before p after, l = before ++ p :: after /\ Q before p) \/ Q l x.
Proof.
  split.
  - intros [before [p [after [Heq HQ]]]].
    destruct after as [|y after _] using rev_ind.
    + apply (app_inj_tail l before x p) in Heq. destruct Heq as [-> ->]. right. exact HQ.
    + left. exists before, p, after. split; [|exact HQ].
      change (before ++ p :: after ++ [y]) with (before ++ (p :: after) ++ [y]) in Heq.
      rewrite app_assoc in Heq. apply app_inj_tail in Heq. destruct Heq as [-> _]. reflexivity.
  - intros [[before [p [after [-> HQ]]]]|HQ].
    + exists before, p, (after ++ [x]). split; [|exact HQ].
      rewrite <- app_assoc. reflexivity.
    + exists l, x, []. split; [reflexivity|exact HQ].
Qed.

(** The invariant of the visitor of [checkUncheckedExternalInput]. *)
Lemma inputs_of_visit issues paths :
  inputs_of issues paths
    (visit EdgeCases.on_input paths (EdgeCases.mkInputState (mkReporting issues ∅) ∅)).
Proof.
  induction paths as [|x paths IH] using rev_ind.
  - split; cbn [visit foldl found reported EdgeCases.input_issues EdgeCases.validatedInputs].
    + intros ip. split; [set_solver|]. intros [q [Hq _]]. inversion Hq.
    + intros f. split; [auto|]. intros [H|[before [p [after [Heq _]]]]]; [exact H|].
      destruct before; discriminate.
    + intros key. split; [set_solver|]. intros [before [p [after [Heq _]]]].
      destruct before; discriminate.
  - rewrite visit_snoc, on_input_step.
    set (st := visit _ paths _) in *. destruct IH as [Hvalid Hfound Hkeys].
    assert (Hold : forall ip,
              (exists q, q ∈ paths ++ [x] /\ external_input q = true /\
                 EdgeCases.isBeingValidated q = true /\ input_path q = ip) <->
              ip ∈ EdgeCases.validatedInputs st \/
              (external_input x = true /\ EdgeCases.isBeingValidated x = true /\
               input_path x = ip)).
    { intros ip. rewrite Hvalid. split.
      - intros [q [Hq H]]. apply elem_of_app in Hq. destruct Hq as [Hq|Hq]; [left; eauto|].
        apply list_elem_of_singleton in Hq. subst q. right. exact H.
      - intros [[q [Hq H]]|H].
        + exists q. rewrite elem_of_app. auto.
        + exists x. rewrite elem_of_app, list_elem_of_singleton. auto. }
    assert (Hnew : reportable paths x <->
                   external_input x = true /\ EdgeCases.isBeingValidated x = false /\
                   input_path x ∉ EdgeCases.validatedInputs st).
    { unfold reportable. rewrite Hvalid. split.
      - intros [Hx [Hv Hbefore]]. split; [exact Hx|]. split; [exact Hv|].
        intros [q [Hq [Hqx [Hqv Hip]]]]. rewrite (Hbefore q Hq Hqx Hip) in Hqv. discriminate.
      - intros [Hx [Hv Hnone]]. split; [exact Hx|]. split; [exact Hv|].
        intros q Hq Hqx Hip. destruct (EdgeCases.isBeingValidated q) eqn:Hqv; [|reflexivity].
        exfalso. apply Hnone. eauto. }
    destruct (external_input x) eqn:Hx;
      [destruct (EdgeCases.isBeingValidated x) eqn:Hv;
       [|destruct (bool_decide (input_path x ∈ EdgeCases.validatedInputs st)) eqn:Hseen;
         [apply bool_decide_eq_true in Hseen
         |apply bool_decide_eq_false in Hseen;
          destruct (bool_decide (input_key x ∈ reported (EdgeCases.input_issues st))) eqn:Hkey;
          [apply bool_decide_eq_true in Hkey|apply bool_decide_eq_false in Hkey]]]|];
      split; cbn [EdgeCases.input_issues EdgeCases.validatedInputs report found reported];
      try (intros ip; rewrite Hold; set_solver);
      try (intros f; rewrite ?elem_of_app, ?list_elem_of_singleton, Hfound,
             (split_snoc (fun before p => reportable before p /\ f = input_finding p)), Hnew;
           try tauto);
      try (intros key; rewrite ?elem_of_union, ?elem_of_singleton, Hkeys,
             (split_snoc (fun before p => reportable before p /\ key = input_key p)), Hnew;
           try tauto).
    + intuition discriminate.
    + intuition discriminate.
    + split; [tauto|]. intros [H|[H|[_ ->]]]; [left; exact H|right; exact H|].
      apply Hkeys in Hkey. destruct Hkey as [before [p [after [Hpaths [Hr Hk]]]]].
      right. exists before, p, after. split; [exact Hpaths|]. split; [exact Hr|].
      apply input_finding_of_key. exact Hk.
    + split; [tauto|]. intros [H|[_ ->]]; [exact H|]. apply Hkeys. exact Hkey.
    + intuition discriminate.
    + intuition discriminate.
Qed.

(** X30.  The input check reports a use of [req.body], [req.params],
    [req.query] or [req.headers] exactly when the use is not being
    validated itself and no use of the same input earlier in the traversal
    is: a validation silences the uses that follow it, not the ones before
    it. *)
Theorem EdgeCases_external_input_is_reported_until_validated ast f :
  f ∈ EdgeCases.checkUncheckedExternalInput ast [] <->
  exists before p after,
    traverse_paths ast = before ++ p :: after /\
    external_input p = true /\ EdgeCases.isBeingValidated p = false /\
    (forall q, q ∈ before -> external_input q = true -> input_path q = input_path p ->
       EdgeCases.isBeingValidated q = false) /\
    f = input_finding p.
Proof.
  unfold EdgeCases.checkUncheckedExternalInput.
  destruct (inputs_of_visit [] (traverse_paths ast)) as [_ Hfound _].
  rewrite Hfound. unfold reportable. split.
  - intros [H|[before [p [after [Heq [[Hx [Hv Hb]] Hf]]]]]]; [inversion H|].
    exists before, p, after. auto.
  - intros [before [p [after [Heq [Hx [Hv [Hb Hf]]]]]]].
    right. exists before, p, after. auto.
Qed.

Lemma EdgeCases_external_input_is_reported_until_validated_witness :
  EdgeCases.checkUncheckedExternalInput Cases.late_validation [] =
    [issue 3 "External input 'req.body' used at line 1 without apparent validation."] /\
  input_finding (path_at Cases.late_validation 2) ∈
    EdgeCases.checkUncheckedExternalInput Cases.late_validation [].
Proof.
  split; [vm_compute; reflexivity|].
  apply (proj2 (EdgeCases_external_input_is_reported_until_validated Cases.late_validation
                  (input_finding (path_at Cases.late_validation 2)))).
  exists (take 2 (traverse_paths Cases.late_validation)),
         (path_at Cases.late_validation 2),
         (drop 3 (traverse_paths Cases.late_validation)).
  split; [vm_compute; reflexivity|]. split; [vm_compute; reflexivity|].
  split; [vm_compute; reflexivity|]. split; [|reflexivity].
  intros q Hq Hx. exfalso.
  vm_compute in Hq.
  repeat (apply elem_of_cons in Hq; destruct Hq as [->|Hq]; [vm_compute in Hx; discriminate|]).
  inversion Hq.
Defined.
